(* ===== verification/_CoqProject ===== *)
-Q . S2P
Prelude.v
PyValue.v
Text.v
ProcLogic.v
Tasks.v
Datetime.v
Float64.v
Seconds.v
Json.v
Crypto.v
Regex.v
GatePolicy.v
Decisions.v
Hub.v
FixLoop.v
Orchestrate.v
Recovery.v
InFlight.v
HubTasks.v
DispatchTasks.v
Deploy.v
DeployTasks.v
PostAck.v
AutoLoop.v
Runner.v
Golden.v
Approval.v
PhasesYaml.v
Lifecycle.v
Walk.v
Quota.v
License.v
QuotaTasks.v
RateLimit.v
TokenBucket.v
Shamir.v
Ledger.v
Federation.v
Manifest.v
PipelineLock.v
Evolution.v
Dependencies.v
Sprints.v
Ids.v
Decomposer.v
IdsUnique.v
AutoRecovery.v
Backup.v
Restore.v
Health.v
Secrets.v
Learning.v
Anonymizer.v
Instinct.v
