(* ===== verification/Prelude.v ===== *)
(** Spine: a verification of the hub that moves software projects through their phases.

    Spine keeps projects as rows of a table, puts an approval card before a person (or
    the autonomous runner) at the end of each stage, and when a card is acked calls the
    role of the next stage, whose result becomes the next card.  The development models
    the Python code that decides this, file by file, as executable functions on the
    hub's state, and proves what keeps a project moving and what bounds the automatic
    parts.  The source paths below are relative to src/.

    Shared ground
    - [Prelude]: outcomes of code that may raise, state passing with and without
      exceptions ([state], [proc]), the notations and the tactics [run_state] and
      [within_steps], list and boolean lemmas.
    - [PyValue]: the Python values of the metadata dicts and the string operations used.
    - [Datetime]: UTC instants and their ISO text; reading inverts writing.
    - [Seconds]: the float seconds of the hub's clock and the microseconds of a table.
    - [Tasks]: coroutines as trees of atomic actions, their interleavings, and a logic
      whose one theorem carries an invariant through every interleaving.
    - [Json]: [json.dumps] and [json.loads]; reading inverts writing.
    - [Crypto]: unpadded URL-safe Base64, SHA-256 and HMAC-SHA-256, on which the signed
      and hash-chained records rest; decoding inverts encoding.

    The hub (shared/api/routes, shared/runtime)
    - [GatePolicy] (shared/runtime/gate_policy.py): which card kinds the runner may ack.
    - [Decisions] (decisions.py, hub_scope.py): the store of decision cards, its table,
      the event stream.  A statement takes the next fault of a list and raises when it is
      [true], so every [except] branch is reachable.
    - [Hub] (_pipeline_bridge.py and the row helpers of _post_ack.py): the state record
      [hub] (projects, store, queued tasks, deployments, clock, faults), metadata patches,
      phase advance with its SQL fallback, card posting.  The outside world (roles, the
      orchestrator's tools, the workspace) is the environment record of each theorem.
    - [FixLoop] and [Recovery] (_project_recovery.py): the pure rules and the dispatches.
    - [InFlight]: the mark of a dispatch and the worker that clears it.  [AutoLoop]: the
      automatic remediation ends.
    - [HubTasks]: handlers cut at their awaits.  [DispatchTasks]: while a mark stands no
      other dispatch that begins starts a worker; [DeployTasks]: the ports of deployments.
      In both, two that are past their check at once defeat it, as the examples show.
    - [Orchestrate] (_role_dispatch_bridge.py and _orchestrate_hub_role of _post_ack.py).
    - [Deploy] (the devops part of _post_ack.py), [PostAck] (on_decision_acked and
      on_decision_rejected), [Runner] (pipeline_runner.py, phase_watcher.py), and
      [Golden], the approval chain end to end.

    In the other files of this part a coroutine runs to its end before another starts; work
    left with [create_task] is an element of the hub's queue, so interleavings are the
    orders in which the queue is served.  The kinds the runner dismisses everywhere are the
    default of an environment variable.  Fuel: the JSON parser takes fuel, and
    [Json.cost_length] shows that the length of the text is enough; the bound of [AutoLoop]
    is a theorem, not fuel.

    Signed and chained records
    - [Approval] (orchestrator/lib/approval.py): a token signed for a project and phase
      verifies for them until it expires; an accepted one was signed, names them and has not
      expired; when verifying raises; what a user's text can do in the grant statement.
      The vault and psql are parameters.
    - [Quota] (license/quota_ledger.py): the rows of recorded usage and their hash chain.
      One call per period keeps it verifying, a second breaks it, equal anchors mean equal
      usage unless two of the texts the two ledgers hash collide.
    - [License] (license/bundle_verifier.py, feature_flags.py, the feature_flag middleware,
      bundle_v1.py): the steps of a hub with its database, vault and clock.  A flag is
      enabled only under an unexpired bundle of the trusted key, the inspector's apart; what
      a failed check closes.  Ed25519 and the parsing of pydantic are parameters.
    - [QuotaTasks]: a quota call cut at its await; of which bundle and which table an answer
      is made, in every interleaving, and that they need not be of one moment.
    - [Float64]: doubles as counts of 2^-1074, with the error of a rounding; [RateLimit]
      (shared/api/rate_limit.py): quota cache, token buckets on a heap, the middleware before
      and after the call; [TokenBucket]: a window admits at most two quotas, and one second
      after Retry-After a request is let through, both with the rounding counted in.
    - [Shamir] (license/shamir.py): any threshold of the share files give the key back.
      pyshamir is a parameter with its documented laws, the class [ShamirLaws].
    - [Ledger] (shared/audit/decision_ledger.py): a run's entries as lines of a file.  They
      read back and verify while every line is short; a long one breaks the chain.

    Federation
    - [Federation] (federation/): hubs, consent and the update cascade, one action per SQL
      statement.  Every decided update names its decider in every interleaving; an
      undisturbed approval reaches exactly the consenting children; two races as examples.

    Pipelines (plan/pipeline)
    - [Manifest] (manifest_loader.py, capability_checker.py): overlays and capabilities; with
      the capabilities that ship, no overlay gives anyone one.  [PipelineLock] (project_lock.py, versioning.py): a locked
      pipeline is read back if its floats are written in plain digits and its text has no
      backslash, as the one that ships; psql and jsonb are the classes [PsqlLaws] and [JsonbLaws].
      [Evolution] (phase_evolution.py): the events between two manifests are exactly their
      differences.

    Lifecycle of a project (shared/mcp/tools/orchestrator.py, orchestrator/lib/transition.sh)
    - [Text]: splitting and stripping; [ProcLogic]: weakest preconditions for [proc].
    - [PhasesYaml]: the text of orchestrator/state/phases.yaml and the line scanners of the
      tools and of the script, which agree on it.
    - [Lifecycle]: the four tools and the script as programs over the tables; every psql call
      may run, fail or hang.  Postgres' casts, yq and whether approval.py may be executed are
      fields of the record [server].
    - [Walk]: in every reachable state the projects' transitions walk the graph; what enters a
      gated phase; what the gate check makes of the row psql prints; when a grant opens a gate.
      The calls come one after another, from actors without a quote in their names; a quote
      ends the script's SQL string, and two overlapping calls are an example.

    Decomposing into a roadmap (plan/decomposer, plan/artifacts/roadmap_v1.py)
    - [Regex]: Python's expressions as a backtracking matcher, sound and complete.
    - [Dependencies]: edges between stories, and the cycle search, correct on every graph;
      its depth is bounded by the number of nodes.  [Sprints]: the topological order and the
      sprints; one turn of the loop per story is enough.
    - [Ids]: ids by content hash.  [Decomposer]: candidates, sizes, materialising,
      [decompose]; a roadmap is well-formed and complete, and decomposing again gives its
      stories again, with its dependencies where the graph answers the same sets.
      [IdsUnique]: ids are unique and no id in the existing roadmap's index is given anew.
      The rows of the knowledge graph and the order of a Python set are parameters; costs are
      whole dollars.

    Disaster recovery (recovery)
    - [AutoRecovery] (auto_recovery.py, supervise_aux of shared/runtime/watchdog.sh): probes,
      signals and the circuit breaker over a machine of pid files, heartbeats and processes.
      The breaker bounds the restarts in any window, in the doubles the code computes with
      and up to what the clock is set back.
      A check is one step; of what [os.kill] raises the OSErrors are there.
    - [Backup] (backup.py), [Restore] (restore.py): snapshots, the WAL stream, restores and the
      weekly test over files, rows and a command runner.  What the copy commands promise are
      the classes [StorageLaws] and [DownloadLaws]; a completed snapshot restores.
    - [Health] (health.py): probes as functions of what they awaited; the worst decides.

    Secrets (shared/secrets)
    - [Secrets]: the adapter contract as the classes [SecretAdapter] and [AdapterLaws], with
      the in-memory adapter as their instance; the cache as tasks.  In every interleaving a
      served value was in the backend within the time to live before it was asked for; a write
      can still be undone in the cache.  Rotation hooks.

    Learning (learning, shared/mcp/tools/learning.py)
    - [Learning]: scopes, contribution gates and consent over its table; a revoked category
      stays revoked until a grant names it, with the ways around it as lemmas.  The reader
      works on the text psql prints, and a line boundary in a name makes it forget a row.
    - [Anonymizer]: what an aggregate lets out.  [Instinct]: the store reads back what it
      recorded; the promotion sweep and its averages in doubles.

    Left out of these: the nesting and digit limits of Python's JSON, timestamps other than
    the extended ISO form, exception texts (a class and its code stay), audit records no
    result depends on, the git history of pipeline edits, the range of BIGINT columns,
    the recursion limit of the interpreter.

    Not modelled: the text of prompts and the LLM calls, HTTP wrapping, SQL beyond the
    statements named above, subprocesses, and the subsystems listed as not modelled in the
    manifest; each is pure I/O, a client of a service, or another language. *)

From stdpp Require Export base list strings gmap fin_maps.
From Stdlib Require Export ZArith Lia.
From Stdlib Require Import Ascii.

#[export] Set Default Goal Selector "!".

(** * Results of fallible code

    A Python function that may raise is a function into [outcome]: the value it
    returns, or the stable code of the exception it raises. *)
Inductive outcome (E A : Type) : Type :=
| Ok (a : A)
| Raise (e : E).
Arguments Ok {E A} a.
Arguments Raise {E A} e.

Section Outcome.
Context {E : Type}.

#[export] Instance outcome_ret : MRet (outcome E) := fun A a => Ok a.
#[export] Instance outcome_bind : MBind (outcome E) :=
  fun A B f m => match m with Ok a => f a | Raise e => Raise e end.
#[export] Instance outcome_fmap : FMap (outcome E) :=
  fun A B f m => match m with Ok a => Ok (f a) | Raise e => Raise e end.

Definition is_ok {A} (m : outcome E A) : bool :=
  match m with Ok _ => true | Raise _ => false end.

(** [guard_raise c e]: the Python [if c: raise e]. *)
Definition guard_raise (c : bool) (e : E) : outcome E unit :=
  if c then Raise e else Ok tt.

Lemma outcome_bind_ok {A B} (m : outcome E A) (f : A → outcome E B) b :
  m ≫= f = Ok b ↔ ∃ a, m = Ok a ∧ f a = Ok b.
Proof. destruct m; cbn; naive_solver. Qed.

Lemma guard_raise_ok c e u : guard_raise c e = Ok u ↔ c = false.
Proof. destruct c, u; cbn; naive_solver. Qed.
End Outcome.

(** * State passing

    Handlers that read and write the hub's state are functions [S → A * S];
    the sequencing notations live in [state_scope]. *)
Definition state (S A : Type) : Type := S → A * S.

Definition ret {S A} (a : A) : state S A := fun s => (a, s).
Definition bind {S A B} (m : state S A) (f : A → state S B) : state S B :=
  fun s => let '(a, s') := m s in f a s'.
Definition gets {S A} (f : S → A) : state S A := fun s => (f s, s).
Definition modify {S} (f : S → S) : state S unit := fun s => (tt, f s).

Declare Scope state_scope.
Delimit Scope state_scope with state.
Notation "x <- m ;; k" := (bind m (fun x => k))
  (at level 100, m at next level, right associativity) : state_scope.
Notation "m ;; k" := (bind m (fun _ => k))
  (at level 100, right associativity) : state_scope.

Section StateLaws.
Context {S : Type}.

(** The state a computation leaves. *)
Definition exec {A} (m : state S A) (s : S) : S := (m s).2.
(** The value a computation returns. *)
Definition eval {A} (m : state S A) (s : S) : A := (m s).1.

Lemma bind_run {A B} (m : state S A) (f : A → state S B) s :
  bind m f s = f (eval m s) (exec m s).
Proof. unfold bind, eval, exec. by destruct (m s). Qed.

Lemma exec_bind {A B} (m : state S A) (f : A → state S B) s :
  exec (bind m f) s = exec (f (eval m s)) (exec m s).
Proof. unfold exec at 1. by rewrite bind_run. Qed.

Lemma eval_bind {A B} (m : state S A) (f : A → state S B) s :
  eval (bind m f) s = eval (f (eval m s)) (exec m s).
Proof. unfold eval at 1. by rewrite bind_run. Qed.

Lemma exec_ret {A} (a : A) (s : S) : exec (ret a) s = s.
Proof. done. Qed.
Lemma eval_ret {A} (a : A) (s : S) : eval (ret a) s = a.
Proof. done. Qed.
Lemma exec_gets {A} (f : S → A) s : exec (gets f) s = s.
Proof. done. Qed.
Lemma eval_gets {A} (f : S → A) s : eval (gets f) s = f s.
Proof. done. Qed.
Lemma exec_modify (f : S → S) s : exec (modify f) s = f s.
Proof. done. Qed.

(** A property every computation of a handler keeps. *)
Definition keeps {A} (P : S → Prop) (m : state S A) : Prop :=
  ∀ s, P s → P (exec m s).

Lemma keeps_ret {A} P (a : A) : keeps P (ret a).
Proof. by intros s. Qed.
Lemma keeps_gets {A} P (f : S → A) : keeps P (gets f).
Proof. by intros s. Qed.
Lemma keeps_bind {A B} P (m : state S A) (f : A → state S B) :
  keeps P m → (∀ a, keeps P (f a)) → keeps P (bind m f).
Proof. intros Hm Hf s Hs. rewrite exec_bind. by apply Hf, Hm. Qed.
Lemma keeps_modify P (f : S → S) : (∀ s, P s → P (f s)) → keeps P (modify f).
Proof. intros Hf s Hs. rewrite exec_modify. auto. Qed.
End StateLaws.

Create HintDb statedb.
Create Rewrite HintDb statedb.
#[export] Hint Rewrite @exec_bind @eval_bind @exec_ret @eval_ret @exec_gets
  @eval_gets @exec_modify : statedb.
#[export] Hint Resolve keeps_ret keeps_gets keeps_bind keeps_modify : statedb.

(** [run_state] unfolds a handler into the sequence of states it goes through. *)
Ltac run_state := repeat (progress (autorewrite with statedb; cbn [fst snd])).

(** * Folding an action over a list *)
Section Folds.
Context {S A : Type}.

Fixpoint for_each (l : list A) (f : A → state S unit) : state S unit :=
  match l with
  | [] => ret tt
  | x :: l' => bind (f x) (fun _ => for_each l' f)
  end.

Lemma keeps_for_each (P : S → Prop) (l : list A) f :
  (∀ x, keeps P (f x)) → keeps P (for_each l f).
Proof. intros Hf. induction l; cbn; eauto with statedb. Qed.
End Folds.
#[export] Hint Resolve keeps_for_each : statedb.

(** * Booleans *)
Lemma bool_decide_eqb_string (a b : string) : bool_decide (a = b) = String.eqb a b.
Proof.
  destruct (String.eqb_spec a b); [by apply bool_decide_eq_true_2 | by apply bool_decide_eq_false_2].
Qed.

(** [in_strs s l]: Python's [s in l] for a collection of strings. *)
Definition in_strs (s : string) (l : list string) : bool := bool_decide (s ∈ l).

Lemma in_strs_true s l : in_strs s l = true ↔ s ∈ l.
Proof. unfold in_strs. by rewrite bool_decide_eq_true. Qed.
Lemma filter_all {A} (f : A → bool) l : (∀ x, x ∈ l → f x = true) → List.filter f l = l.
Proof.
  induction l as [|x l IH]; intros H; [done|]. cbn. rewrite (H x) by left. f_equal. apply IH. intros y Hy. apply H. by right.
Qed.

Lemma in_strs_false s l : in_strs s l = false ↔ s ∉ l.
Proof. unfold in_strs. by rewrite bool_decide_eq_false. Qed.

(** Split every [if] and [match] of the hypotheses and goal, closing the
    contradictory branches. *)
Ltac split_ifs :=
  repeat (case_match || simplify_eq/=); try done.

(** * Lists *)
Lemma existsb_elem {A} (f : A → bool) (l : list A) :
  existsb f l = true ↔ ∃ x, x ∈ l ∧ f x = true.
Proof.
  rewrite existsb_exists. split; intros (x & Hx & Hf); exists x; split; auto;
    by apply list_elem_of_In.
Qed.

Lemma existsb_elem_false {A} (f : A → bool) (l : list A) :
  existsb f l = false ↔ ∀ x, x ∈ l → f x = false.
Proof.
  rewrite <- not_true_iff_false, existsb_elem. split.
  - intros Hn x Hx. apply not_true_iff_false. intros Hf. apply Hn. eauto.
  - intros Hall (x & Hx & Hf). by rewrite Hall in Hf.
Qed.

(** The last element, [l[-1]]. *)
Lemma last_snoc_inv {A} (l : list A) x : last l = Some x → ∃ l', l = l' ++ [x].
Proof.
  intros H. apply last_Some in H. done.
Qed.

(** * Invariants of step relations *)
Lemma rtc_invariant {A} (R : A → A → Prop) (P : A → Prop) :
  (∀ x y, R x y → P x → P y) → ∀ x y, rtc R x y → P x → P y.
Proof. intros HR x y. induction 1; eauto. Qed.

(** * State passing with exceptions

    A coroutine of the hub is a computation [proc S E A]: it changes the state and
    returns a value or raises; what it did before raising stays done. *)
Abbreviation proc S E A := (state S (outcome E A)).

Section Proc.
Context {S E : Type}.

Definition pret {A} (a : A) : proc S E A := ret (Ok a).
Definition praise {A} (e : E) : proc S E A := ret (Raise e).
Definition pbind {A B} (m : proc S E A) (f : A → proc S E B) : proc S E B :=
  bind m (fun r => match r with Ok a => f a | Raise e => ret (Raise e) end).
(** A computation that cannot raise. *)
Definition plift {A} (m : state S A) : proc S E A := bind m (fun a => ret (Ok a)).
Definition pgets {A} (f : S → A) : proc S E A := plift (gets f).
Definition pmodify (f : S → S) : proc S E unit := plift (modify f).
(** [try: m finally: f]: an exception of [f] replaces the one of [m]. *)
Definition try_finally {A} (m : proc S E A) (f : proc S E unit) : proc S E A :=
  bind m (fun r => pbind f (fun _ => ret r)).
(** [try: m except Exception as e: h(e)]. *)
Definition try_except {A} (m : proc S E A) (h : E → proc S E A) : proc S E A :=
  bind m (fun r => match r with Ok a => ret (Ok a) | Raise e => h e end).

Lemma exec_pbind {A B} (m : proc S E A) (f : A → proc S E B) s :
  exec (pbind m f) s = match eval m s with Ok a => exec (f a) (exec m s) | Raise _ => exec m s end.
Proof. unfold pbind. rewrite exec_bind. by destruct (eval m s). Qed.
Lemma eval_pbind {A B} (m : proc S E A) (f : A → proc S E B) s :
  eval (pbind m f) s = match eval m s with Ok a => eval (f a) (exec m s) | Raise e => Raise e end.
Proof. unfold pbind. rewrite eval_bind. by destruct (eval m s). Qed.
Lemma exec_plift {A} (m : state S A) s : exec (plift m : proc S E A) s = exec m s.
Proof. unfold plift. by rewrite exec_bind. Qed.
Lemma eval_plift {A} (m : state S A) s : eval (plift m : proc S E A) s = Ok (eval m s).
Proof. unfold plift. by rewrite eval_bind. Qed.
Lemma exec_pret {A} (a : A) s : exec (pret a) s = s.
Proof. done. Qed.
Lemma eval_pret {A} (a : A) s : eval (pret a) s = Ok a.
Proof. done. Qed.
Lemma exec_praise {A} (e : E) s : exec (praise e : proc S E A) s = s.
Proof. done. Qed.
Lemma eval_praise {A} (e : E) s : eval (praise e : proc S E A) s = Raise e.
Proof. done. Qed.
Lemma exec_pgets {A} (f : S → A) s : exec (pgets f) s = s.
Proof. done. Qed.
Lemma eval_pgets {A} (f : S → A) s : eval (pgets f) s = Ok (f s).
Proof. done. Qed.
Lemma exec_pmodify (f : S → S) s : exec (pmodify f) s = f s.
Proof. done. Qed.
Lemma eval_pmodify (f : S → S) s : eval (pmodify f) s = Ok tt.
Proof. done. Qed.

(** A relation every run of a computation stays in, whether it returns or raises. *)
Definition within {A} (R : S → S → Prop) (m : state S A) : Prop := ∀ s, R s (exec m s).

Section Within.
Context (R : S → S → Prop) `{!PreOrder R}.

Lemma within_ret {A} (a : A) : within R (ret a).
Proof. intros s. reflexivity. Qed.
Lemma within_gets {A} (f : S → A) : within R (gets f).
Proof. intros s. reflexivity. Qed.
Lemma within_bind {A B} (m : state S A) (f : A → state S B) :
  within R m → (∀ a, within R (f a)) → within R (bind m f).
Proof. intros Hm Hf s. rewrite exec_bind. etransitivity; [apply Hm|apply Hf]. Qed.
Lemma within_modify (f : S → S) : (∀ s, R s (f s)) → within R (modify f).
Proof. intros Hf s. apply Hf. Qed.
Lemma within_pret {A} (a : A) : within R (pret a).
Proof. apply within_ret. Qed.
Lemma within_praise {A} (e : E) : within R (praise e : proc S E A).
Proof. apply within_ret. Qed.
Lemma within_pgets {A} (f : S → A) : within R (pgets f).
Proof. intros s. reflexivity. Qed.
Lemma within_plift {A} (m : state S A) : within R m → within R (plift m : proc S E A).
Proof. intros Hm. apply within_bind; [done|]. intros; apply within_ret. Qed.
Lemma within_pmodify (f : S → S) : (∀ s, R s (f s)) → within R (pmodify f).
Proof. intros Hf. by apply within_plift, within_modify. Qed.
Lemma within_pbind {A B} (m : proc S E A) (f : A → proc S E B) :
  within R m → (∀ a, within R (f a)) → within R (pbind m f).
Proof. intros Hm Hf. apply within_bind; [done|]. intros [a|e]; [auto|apply within_ret]. Qed.
Lemma within_try_finally {A} (m : proc S E A) f :
  within R m → within R f → within R (try_finally m f).
Proof.
  intros Hm Hf. apply within_bind; [done|]. intros r. apply within_pbind; [done|].
  intros; apply within_ret.
Qed.
Lemma within_try_except {A} (m : proc S E A) h :
  within R m → (∀ e, within R (h e)) → within R (try_except m h).
Proof. intros Hm Hh. apply within_bind; [done|]. intros [a|e]; [apply within_ret|auto]. Qed.
End Within.
End Proc.

#[export] Hint Rewrite @exec_pbind @eval_pbind @exec_plift @eval_plift @exec_pret @eval_pret
  @exec_praise @eval_praise @exec_pgets @eval_pgets @exec_pmodify @eval_pmodify : statedb.
#[export] Hint Resolve within_ret within_gets within_pret within_praise within_pgets : statedb.

(** Walk through a computation, one bind or branch at a time, leaving the primitive
    effects that [statedb] does not know. *)
Ltac within_steps :=
  repeat first
    [ progress intros
    | apply within_pbind; [typeclasses eauto| |]
    | apply within_bind; [typeclasses eauto| |]
    | apply within_try_finally; [typeclasses eauto| |]
    | apply within_try_except; [typeclasses eauto| |]
    | solve [eauto with statedb typeclass_instances]
    | case_match ].

Declare Scope proc_scope.
Delimit Scope proc_scope with proc.
Notation "x <- m ;; k" := (pbind m (fun x => k))
  (at level 100, m at next level, right associativity) : proc_scope.
Notation "m ;; k" := (pbind m (fun _ => k))
  (at level 100, right associativity) : proc_scope.
