(* ===== verification/PyValue.v ===== *)
(** The Python values the program's metadata is made of.

    Project and card metadata are JSON objects (Postgres [jsonb] columns decoded
    by [json.loads]); the code reads them with [dict.get], tests their truthiness,
    and converts them with [str] and [int].  A Python [str] is the [string] of its
    UTF-8 bytes: [text_length] and [take_text] count characters, and the operations
    on single characters (whitespace, case, digits, [repr]) are those of ASCII, other
    bytes being opaque.  Floats do not occur in the metadata keys the modelled code
    reads. *)

From S2P Require Import Prelude.
From Stdlib Require Import Ascii.
From Stdlib Require DecimalString DecimalPos DecimalZ.
Local Open Scope Z_scope.

(** * Characters and strings *)
Definition code (c : ascii) : Z := Z.of_N (N_of_ascii c).
Definition chr (n : Z) : ascii := ascii_of_N (Z.to_N n).
Definition str1 (c : ascii) : string := String c EmptyString.
Definition newline : string := str1 (chr 10).

(** [str.isspace] on one ASCII character. *)
Definition is_space (c : ascii) : bool :=
  let n := code c in ((9 <=? n) && (n <=? 13)) || ((28 <=? n) && (n <=? 32)).

(** [bytes.isspace] on one byte. *)
Definition is_c_space (c : ascii) : bool := let n := code c in (n =? 32) || ((9 <=? n) && (n <=? 13)).

Fixpoint lstrip (s : string) : string :=
  match s with
  | EmptyString => EmptyString
  | String c s' => if is_space c then lstrip s' else s
  end.

Fixpoint rstrip (s : string) : string :=
  match s with
  | EmptyString => EmptyString
  | String c s' =>
      match rstrip s' with
      | EmptyString => if is_space c then EmptyString else str1 c
      | t => String c t
      end
  end.

(** [str.strip()]. *)
Definition strip (s : string) : string := rstrip (lstrip s).

Fixpoint all_chars (p : ascii → bool) (s : string) : bool :=
  match s with
  | EmptyString => true
  | String c s' => p c && all_chars p s'
  end.

(** Concatenation. *)
Lemma app_cons c s r : String c s +:+ r = String c (s +:+ r).
Proof. done. Qed.
Lemma app_str1 c r : str1 c +:+ r = String c r.
Proof. done. Qed.
Lemma app_empty (r : string) : "" +:+ r = r.
Proof. done. Qed.
Lemma app_nil_str (r : string) : r +:+ "" = r.
Proof. induction r as [|c r IH]; [done|]. by rewrite app_cons, IH. Qed.
Lemma length_app_str (a b : string) : String.length (a +:+ b) = (String.length a + String.length b)%nat.
Proof. induction a as [|x a IH]; [done|]. rewrite app_cons. cbn. by rewrite IH. Qed.
Lemma app_assoc_str (a b c : string) : (a +:+ b) +:+ c = a +:+ (b +:+ c).
Proof. induction a as [|x a IH]; [done|]. by rewrite !app_cons, IH. Qed.

Lemma all_chars_app p (a b : string) : all_chars p (a +:+ b) = all_chars p a && all_chars p b.
Proof. induction a as [|c a IH]; [done|]. rewrite app_cons. cbn [all_chars]. by rewrite IH, andb_assoc. Qed.

(** [s.startswith(p)] and [s.endswith(p)]. *)
Definition startswith (s p : string) : bool := String.prefix p s.

Fixpoint endswith (s p : string) : bool :=
  String.eqb s p || match s with EmptyString => false | String _ s' => endswith s' p end.

(** Bytes that continue a UTF-8 character. *)
Definition is_cont (c : ascii) : bool := (128 <=? code c) && (code c <? 192).

(** [len(s)]. *)
Fixpoint text_length (s : string) : nat :=
  match s with
  | EmptyString => 0
  | String c s' => (if is_cont c then 0 else 1) + text_length s'
  end.

(** The slice [s[:n]]. *)
Fixpoint take_text (n : nat) (s : string) : string :=
  match s with
  | EmptyString => EmptyString
  | String c s' =>
      if is_cont c then String c (take_text n s')
      else match n with
           | O => EmptyString
           | S n' => String c (take_text n' s')
           end
  end.

(** [str.splitlines()] at the ASCII line boundaries, [\r\n] being one. *)
Definition is_line_break (c : ascii) : bool :=
  let n := code c in ((10 <=? n) && (n <=? 13)) || ((28 <=? n) && (n <=? 30)).
Fixpoint lines_from (cur : string) (s : string) : list string :=
  match s with
  | EmptyString => if String.eqb cur "" then [] else [cur]
  | String c s' =>
      if is_line_break c then
        cur :: match s' with
               | String d s'' => if (code c =? 13) && (code d =? 10)
                                 then lines_from "" s'' else lines_from "" s'
               | EmptyString => []
               end
      else lines_from (cur +:+ str1 c) s'
  end.
Definition splitlines (s : string) : list string := lines_from "" s.

(** The slice [s[-n:]] for [n > 0]. *)
Fixpoint drop_text (n : nat) (s : string) : string :=
  match n, s with
  | O, String c s' => if is_cont c then drop_text O s' else s
  | S n', String c s' => if is_cont c then drop_text n s' else drop_text n' s'
  | _, EmptyString => EmptyString
  end.
Definition last_text (n : nat) (s : string) : string := drop_text (text_length s - n) s.

Definition is_upper (c : ascii) : bool := (65 <=? code c) && (code c <=? 90).
Definition is_digit (c : ascii) : bool := (48 <=? code c) && (code c <=? 57).

(** [str.lower()] and [str.upper()] on ASCII. *)
Definition lower_char (c : ascii) : ascii := if is_upper c then chr (code c + 32) else c.
Definition upper_char (c : ascii) : ascii :=
  if (97 <=? code c) && (code c <=? 122) then chr (code c - 32) else c.
Fixpoint lower (s : string) : string :=
  match s with
  | EmptyString => EmptyString
  | String c s' => String (lower_char c) (lower s')
  end.
Fixpoint upper (s : string) : string :=
  match s with
  | EmptyString => EmptyString
  | String c s' => String (upper_char c) (upper s')
  end.

(** [s in t]: the substring test. *)
Fixpoint contains (s t : string) : bool :=
  startswith t s || match t with EmptyString => false | String _ t' => contains s t' end.

(** * Integers *)

(** [str(n)] for an integer. *)
Definition str_of_Z (n : Z) : string :=
  DecimalString.NilEmpty.string_of_int (Z.to_int n).

(** The value of a digit in bases up to 36. *)
Definition digit_value (c : ascii) : option Z :=
  let n := code c in
  if (48 <=? n) && (n <=? 57) then Some (n - 48)
  else if (65 <=? n) && (n <=? 90) then Some (n - 55)
  else if (97 <=? n) && (n <=? 122) then Some (n - 87)
  else None.

(** Digits with single underscores between them; [prev] tells whether the
    previous character was a digit. *)
Fixpoint parse_digits (base acc : Z) (prev : bool) (s : string) : option Z :=
  match s with
  | EmptyString => if prev then Some acc else None
  | String c s' =>
      if Ascii.eqb c "_" then if prev then parse_digits base acc false s' else None
      else match digit_value c with
           | Some d => if d <? base then parse_digits base (acc * base + d) true s' else None
           | None => None
           end
  end.

(** [int(s, base)] for bases 10 and 16: surrounding whitespace, an optional
    sign, in base 16 an optional [0x] (and an underscore after it), then digits. *)
Definition parse_unsigned (base : Z) (s : string) : option Z :=
  match s with
  | String "0" (String x s') =>
      if (base =? 16) && (Ascii.eqb x "x" || Ascii.eqb x "X") then
        match s' with
        | String "_" s'' => parse_digits base 0 false s''
        | _ => parse_digits base 0 false s'
        end
      else parse_digits base 0 false s
  | _ => parse_digits base 0 false s
  end.

Definition int_of_str (base : Z) (s : string) : option Z :=
  match strip s with
  | String "+" s' => parse_unsigned base s'
  | String "-" s' => Z.opp <$> parse_unsigned base s'
  | s' => parse_unsigned base s'
  end.

(** ** [int(str(n)) == n] *)
Section Decimal.
Import Decimal DecimalString.

(** The value of the digits of [d] after those of [acc]. *)
Fixpoint digits_value (acc : Z) (d : uint) : Z :=
  match d with
  | Nil => acc
  | D0 d => digits_value (acc * 10) d | D1 d => digits_value (acc * 10 + 1) d
  | D2 d => digits_value (acc * 10 + 2) d | D3 d => digits_value (acc * 10 + 3) d
  | D4 d => digits_value (acc * 10 + 4) d | D5 d => digits_value (acc * 10 + 5) d
  | D6 d => digits_value (acc * 10 + 6) d | D7 d => digits_value (acc * 10 + 7) d
  | D8 d => digits_value (acc * 10 + 8) d | D9 d => digits_value (acc * 10 + 9) d
  end.

Lemma digits_value_acc d p : digits_value (Z.pos p) d = Z.pos (Pos.of_uint_acc d p).
Proof.
  revert p. induction d; intros p; cbn -[Z.mul Z.add]; [done|..];
    rewrite <- IHd; f_equal; lia.
Qed.

Lemma digits_value_of_uint d : digits_value 0 d = Z.of_uint d.
Proof.
  induction d; cbn -[Z.mul Z.add]; [done|exact IHd|..]; unfold Z.of_uint; cbn -[Z.mul];
    apply digits_value_acc.
Qed.

Lemma parse_digits_digit acc prev c s :
  is_digit c = true →
  parse_digits 10 acc prev (String c s) = parse_digits 10 (acc * 10 + (code c - 48)) true s.
Proof.
  unfold is_digit. intros [H1 H2]%andb_true_iff. apply Z.leb_le in H1 as H1', H2 as H2'.
  cbn [parse_digits]. destruct (Ascii.eqb_spec c "_") as [->|_]; [by vm_compute in H2|].
  unfold digit_value. rewrite H1, H2. cbn [andb].
  by destruct (Z.ltb_spec (code c - 48) 10); [|lia].
Qed.

Lemma parse_digits_uint d acc prev :
  (prev = true ∨ d ≠ Nil) →
  parse_digits 10 acc prev (NilEmpty.string_of_uint d) = Some (digits_value acc d).
Proof.
  revert acc prev. induction d; intros acc prev Hp; cbn [NilEmpty.string_of_uint digits_value].
  { cbn. by destruct Hp as [-> |]. }
  all: rewrite parse_digits_digit, IHd by auto; do 2 f_equal;
    match goal with |- context [code ?c] => let v := eval vm_compute in (code c) in
      change (code c) with v end; lia.
Qed.
End Decimal.

Lemma text_length_app a b : text_length (a +:+ b) = (text_length a + text_length b)%nat.
Proof.
  induction a as [|c a IH]; [done|].
  change (String c a +:+ b) with (String c (a +:+ b)). cbn -[is_cont]. rewrite IH. lia.
Qed.

Lemma text_length_take n s : (text_length (take_text n s) <= n)%nat.
Proof.
  revert n. induction s as [|c s IH]; intros n; cbn -[is_cont]; [lia|].
  destruct (is_cont c) eqn:E; cbn -[is_cont].
  - rewrite E. apply IH.
  - destruct n as [|n]; cbn -[is_cont]; [lia|]. rewrite E. specialize (IH n). lia.
Qed.

Lemma rstrip_id s : all_chars (fun c => negb (is_space c)) s = true → rstrip s = s.
Proof.
  induction s as [|c s IH]; cbn -[is_space]; [done|].
  intros [Hc Hs]%andb_true_iff. rewrite IH by done.
  destruct s; [|done]. by apply negb_true_iff in Hc as ->.
Qed.

Lemma strip_id s : all_chars (fun c => negb (is_space c)) s = true → strip s = s.
Proof.
  intros H. unfold strip. destruct s as [|c s]; [done|].
  cbn -[is_space rstrip] in *. apply andb_true_iff in H as [Hc Hs].
  apply negb_true_iff in Hc as Hc'. rewrite Hc'. apply rstrip_id. cbn -[is_space]. by rewrite Hc, Hs.
Qed.

Lemma all_chars_impl (p q : ascii → bool) s :
  (∀ c, p c = true → q c = true) → all_chars p s = true → all_chars q s = true.
Proof.
  intros Hpq. induction s; cbn; [done|]. rewrite !andb_true_iff. naive_solver.
Qed.

Lemma is_digit_not_space c : is_digit c = true → negb (is_space c) = true.
Proof.
  unfold is_digit, is_space. rewrite andb_true_iff, !Z.leb_le. intros [].
  destruct (_ || _) eqn:E; [|done].
  repeat rewrite ?orb_true_iff, ?andb_true_iff, ?Z.leb_le, ?Z.eqb_eq in E. lia.
Qed.

Lemma str_of_Z_digits n : 0 <= n →
  all_chars is_digit (str_of_Z n) = true ∧ str_of_Z n ≠ "".
Proof.
  intros Hn. unfold str_of_Z. assert (Hd : ∀ d, all_chars is_digit (DecimalString.NilEmpty.string_of_uint d) = true).
  { induction d; cbn; auto. }
  destruct n as [|p|p]; cbn; [done| |lia]. split; [apply Hd|].
  destruct (Pos.to_uint p) eqn:E; cbn; try done.
  by apply DecimalPos.Unsigned.to_uint_nonnil in E.
Qed.

Lemma int_of_str_str_of_Z n : 0 <= n → int_of_str 10 (str_of_Z n) = Some n.
Proof.
  intros Hn. destruct (str_of_Z_digits n Hn) as [Hd Hne]. unfold int_of_str.
  rewrite strip_id by (eapply all_chars_impl, Hd; exact is_digit_not_space).
  assert (Hp : parse_digits 10 0 false (str_of_Z n) = Some n).
  { unfold str_of_Z. pose proof (DecimalZ.of_to n) as Hof.
    destruct n as [|p|p]; cbn in *; [done| |lia].
    rewrite parse_digits_uint by (right; apply DecimalPos.Unsigned.to_uint_nonnil).
    rewrite digits_value_of_uint. by f_equal. }
  destruct (str_of_Z n) as [|c s]; [done|]. cbn [all_chars] in Hd.
  apply andb_true_iff in Hd as [Hc _]. unfold is_digit in Hc.
  rewrite andb_true_iff, !Z.leb_le in Hc.
  assert (Hu : parse_unsigned 10 (String c s) = Some n).
  { unfold parse_unsigned. cbn [Z.eqb Pos.eqb andb]. repeat case_match; done. }
  repeat case_match; subst; try done; cbn in Hc; lia.
Qed.

Lemma str_of_Z_inj m n : 0 <= m → 0 <= n → str_of_Z m = str_of_Z n → m = n.
Proof. intros Hm Hn E. apply (f_equal (int_of_str 10)) in E. rewrite !int_of_str_str_of_Z in E by done. congruence. Qed.

(** * Values and dictionaries *)
Inductive value : Type :=
| VNone
| VBool (b : bool)
| VInt (n : Z)
| VStr (s : string)
| VList (l : list value)
| VDict (d : list (string * value)).

(** A [dict] is the list of its items in insertion order, keys distinct. *)
Abbreviation dict := (list (string * value)).

(** [bool(v)]. *)
Definition truthy (v : value) : bool :=
  match v with
  | VNone => false
  | VBool b => b
  | VInt n => negb (n =? 0)
  | VStr s => negb (String.eqb s "")
  | VList l => negb (Nat.eqb (length l) 0)
  | VDict d => negb (Nat.eqb (length d) 0)
  end.

(** [a or b]. *)
Definition py_or (a b : value) : value := if truthy a then a else b.

Section Dict.
Context {V : Type}.
Implicit Types (d : list (string * V)).

Fixpoint dict_lookup (k : string) d : option V :=
  match d with
  | [] => None
  | (k', v) :: d' => if String.eqb k k' then Some v else dict_lookup k d'
  end.

Definition dict_has (k : string) d : bool :=
  match dict_lookup k d with Some _ => true | None => false end.

(** [d[k] = v]: an existing key keeps its position. *)
Fixpoint dict_set (k : string) (v : V) d : list (string * V) :=
  match d with
  | [] => [(k, v)]
  | (k', v') :: d' => if String.eqb k k' then (k, v) :: d' else (k', v') :: dict_set k v d'
  end.

(** [{**d, **patch}], [d.update(patch)] and jsonb [d || patch]. *)
Fixpoint dict_update d (patch : list (string * V)) : list (string * V) :=
  match patch with
  | [] => d
  | (k, v) :: patch' => dict_update (dict_set k v d) patch'
  end.

Lemma dict_lookup_set k k' v d :
  dict_lookup k (dict_set k' v d) = if String.eqb k k' then Some v else dict_lookup k d.
Proof.
  induction d as [|[k1 v1] d IH]; cbn; [done|].
  destruct (String.eqb_spec k' k1) as [->|Hne]; cbn.
  - by destruct (String.eqb k k1).
  - rewrite IH. destruct (String.eqb_spec k k1), (String.eqb_spec k k'); congruence.
Qed.

Lemma dict_lookup_set_eq k v d : dict_lookup k (dict_set k v d) = Some v.
Proof. by rewrite dict_lookup_set, String.eqb_refl. Qed.

Lemma dict_lookup_set_ne k k' v d :
  k ≠ k' → dict_lookup k (dict_set k' v d) = dict_lookup k d.
Proof. rewrite dict_lookup_set. by destruct (String.eqb_spec k k'). Qed.

Lemma dict_update_app d p1 p2 :
  dict_update d (p1 ++ p2) = dict_update (dict_update d p1) p2.
Proof. revert d. induction p1 as [|[k v] p1 IH]; intros d; cbn; auto. Qed.

Lemma dict_lookup_update_ne k d patch :
  k ∉ patch.*1 → dict_lookup k (dict_update d patch) = dict_lookup k d.
Proof.
  revert d. induction patch as [|[k1 v1] patch IH]; intros d Hk; cbn in *; [done|].
  apply not_elem_of_cons in Hk as [Hne Hk].
  by rewrite IH, dict_lookup_set_ne.
Qed.

(** The last binding of a patch wins. *)
Lemma dict_lookup_update_last k v d p1 p2 :
  k ∉ p2.*1 → dict_lookup k (dict_update d (p1 ++ (k, v) :: p2)) = Some v.
Proof.
  intros Hk. rewrite dict_update_app. cbn.
  by rewrite dict_lookup_update_ne, dict_lookup_set_eq.
Qed.
End Dict.

(** [d.get(k)], absent keys giving [None]. *)
Definition get (k : string) (d : dict) : value :=
  match dict_lookup k d with Some v => v | None => VNone end.

Lemma get_set k k' v d : get k (dict_set k' v d) = if String.eqb k k' then v else get k d.
Proof. unfold get. rewrite dict_lookup_set. by destruct (String.eqb k k'). Qed.

Lemma get_update_ne k d patch : k ∉ patch.*1 → get k (dict_update d patch) = get k d.
Proof. intros H. unfold get. by rewrite dict_lookup_update_ne. Qed.

(** [v == s] for a string [s]. *)
Definition is_str (v : value) (s : string) : bool :=
  match v with VStr s' => String.eqb s' s | _ => false end.

(** [v is False]. *)
Definition is_False (v : value) : bool :=
  match v with VBool false => true | _ => false end.

(** [isinstance(v, dict)], returning the dict, and the same for lists. *)
Definition as_dict (v : value) : option dict :=
  match v with VDict d => Some d | _ => None end.
Definition as_list (v : value) : option (list value) :=
  match v with VList l => Some l | _ => None end.

(** [v.get(k)] where [v] is expected to be a dict and is falsy otherwise. *)
Definition dict_of (v : value) : dict :=
  match v with VDict d => d | _ => [] end.

(** * [repr], [str] and [int] *)
Definition hex_digit (n : Z) : ascii := if n <? 10 then chr (48 + n) else chr (87 + n).

Definition dquote : ascii := chr 34.
Definition squote : ascii := chr 39.
Definition backslash : ascii := chr 92.

(** The ASCII characters [str.isprintable] rejects. *)
Definition unprintable (n : Z) : bool := (n <? 32) || (n =? 127).

Definition repr_char (quote c : ascii) : string :=
  let n := code c in
  if Ascii.eqb c quote || Ascii.eqb c backslash then String backslash (str1 c)
  else if n =? 10 then String backslash "n"
  else if n =? 13 then String backslash "r"
  else if n =? 9 then String backslash "t"
  else if unprintable n then
    String backslash (String "x" (String (hex_digit (n / 16)) (str1 (hex_digit (n mod 16)))))
  else str1 c.

Fixpoint repr_chars (quote : ascii) (s : string) : string :=
  match s with
  | EmptyString => EmptyString
  | String c s' => repr_char quote c +:+ repr_chars quote s'
  end.

Fixpoint has_char (c : ascii) (s : string) : bool :=
  match s with
  | EmptyString => false
  | String c' s' => Ascii.eqb c c' || has_char c s'
  end.

Lemma has_char_app c a b : has_char c (a +:+ b) = has_char c a || has_char c b.
Proof. induction a as [|d a IH]; [done|]. rewrite app_cons. cbn [has_char]. by rewrite IH, orb_assoc. Qed.

(** [s.replace(old, new)] for a non-empty [old]: the occurrences from the left, [skip]
    characters of the last one still to be passed over. *)
Fixpoint replace_from (skip : nat) (old new s : string) : string :=
  match s with
  | EmptyString => EmptyString
  | String c s' =>
      match skip with
      | S k => replace_from k old new s'
      | O => if startswith s old then new +:+ replace_from (String.length old - 1) old new s'
             else String c (replace_from 0 old new s')
      end
  end.

Definition str_replace (s old new : string) : string := replace_from 0 old new s.

(** Text without the first character of [old] is left alone. *)
Lemma str_replace_suffix s c old' new :
  has_char c s = false → str_replace (s +:+ String c old') (String c old') new = s +:+ new.
Proof.
  unfold str_replace. induction s as [|d s IH]; cbn [has_char].
  - intros _. rewrite !app_empty. cbn [replace_from]. unfold startswith.
    assert (Hp : ∀ w, String.prefix w w = true).
    { induction w as [|x w IHw]; [done|]. cbn. destruct (ascii_dec x x); [done|congruence]. }
    rewrite Hp. cbn [String.length Nat.sub]. rewrite Nat.sub_0_r.
    assert (Hs : ∀ w o n, replace_from (String.length w) o n w = "").
    { intros w o n. induction w as [|x w IHw]; [done|]. cbn. apply IHw. }
    by rewrite Hs, app_nil_str.
  - intros [Hc Hs]%orb_false_iff. rewrite app_cons. cbn [replace_from].
    assert (Hp : startswith (String d (s +:+ String c old')) (String c old') = false).
    { unfold startswith. cbn. destruct (ascii_dec c d) as [->|]; [|done]. by rewrite Ascii.eqb_refl in Hc. }
    by rewrite Hp, IH, app_cons.
Qed.

Definition repr_str (s : string) : string :=
  let q := if has_char squote s && negb (has_char dquote s) then dquote else squote in
  str1 q +:+ repr_chars q s +:+ str1 q.

Fixpoint join (sep : string) (l : list string) : string :=
  match l with
  | [] => ""
  | [x] => x
  | x :: l' => x +:+ sep +:+ join sep l'
  end.

Fixpoint repr (v : value) : string :=
  match v with
  | VNone => "None"
  | VBool true => "True"
  | VBool false => "False"
  | VInt n => str_of_Z n
  | VStr s => repr_str s
  | VList l => "[" +:+ join ", " (map repr l) +:+ "]"
  | VDict d =>
      "{" +:+ join ", " (map (fun kv => repr_str (fst kv) +:+ ": " +:+ repr (snd kv)) d) +:+ "}"
  end.

(** [str(v)]. *)
Definition py_str (v : value) : string :=
  match v with VStr s => s | _ => repr v end.

(** [int(v)]; [None] stands for the [TypeError] and [ValueError] cases. *)
Definition py_int (v : value) : option Z :=
  match v with
  | VBool b => Some (if b then 1 else 0)
  | VInt n => Some n
  | VStr s => int_of_str 10 s
  | VNone | VList _ | VDict _ => None
  end.

Create HintDb pydb.
Create Rewrite HintDb pydb.
#[export] Hint Rewrite @dict_lookup_set get_set String.eqb_refl : pydb.

(** Reads through writes: rewrite every lookup in an updated dict. *)
Ltac dict_simpl :=
  repeat first [ progress autorewrite with pydb
               | rewrite get_update_ne by (cbn; set_solver)
               | progress cbn [dict_update get dict_lookup fst snd String.eqb Ascii.eqb Bool.eqb] ].

Section Examples.
Example strip_spaces : strip "  a b " = "a b".
Proof. reflexivity. Qed.
Example int_underscore : int_of_str 10 " 1_000" = Some 1000.
Proof. reflexivity. Qed.
Example int_double_underscore : int_of_str 10 "1__0" = None.
Proof. reflexivity. Qed.
Example int_hex : int_of_str 16 "0xfF" = Some 255.
Proof. reflexivity. Qed.
Example int_negative : py_int (VStr "-3") = Some (-3).
Proof. reflexivity. Qed.
Example str_of_dict :
  py_str (VDict [("a", VList [VInt 1; VNone; VStr "x"])]) = "{'a': [1, None, 'x']}".
Proof. reflexivity. Qed.
End Examples.
