(* ===== verification/Text.v ===== *)
(** Cutting texts: [str.split] and [str.partition] at a character, [str.strip] of given
    characters, prefixes, words and the blanks awk and bash know.  Shared by the readers
    of phases.yaml and of psql's rows. *)

From S2P Require Import Prelude PyValue.
From Stdlib Require Import Ascii.
Local Open Scope Z_scope.

(** * Splitting *)

(** The text before and after the first [c]. *)
Fixpoint cut (c : ascii) (s : string) : option (string * string) :=
  match s with
  | EmptyString => None
  | String d s' =>
      if Ascii.eqb d c then Some ("", s')
      else match cut c s' with Some (a, b) => Some (String d a, b) | None => None end
  end.

(** [s.split(c, n)]. *)
Fixpoint split_max (n : nat) (c : ascii) (s : string) : list string :=
  match n with
  | O => [s]
  | S n' => match cut c s with Some (a, b) => a :: split_max n' c b | None => [s] end
  end.

(** [s.split(c)]. *)
Definition split_on (c : ascii) (s : string) : list string := split_max (String.length s) c s.

(** [s.split(c, 1)[0]]. *)
Definition before (c : ascii) (s : string) : string :=
  match cut c s with Some (a, _) => a | None => s end.

Lemma cut_app c a b : has_char c a = false → cut c (a +:+ String c b) = Some (a, b).
Proof.
  induction a as [|d a IH].
  - intros _. rewrite app_empty. cbn [cut]. by rewrite Ascii.eqb_refl.
  - cbn [has_char]. intros [Hd Ha]%orb_false_iff. rewrite app_cons. cbn [cut].
    by rewrite Ascii.eqb_sym, Hd, IH.
Qed.

Lemma cut_none c s : has_char c s = false → cut c s = None.
Proof.
  induction s as [|d s IH]; [done|]. cbn [has_char cut]. intros [Hd Hs]%orb_false_iff.
  by rewrite Ascii.eqb_sym, Hd, IH.
Qed.

Lemma cut_some c s a b : cut c s = Some (a, b) → s = a +:+ String c b ∧ has_char c a = false.
Proof.
  revert a b. induction s as [|d s IH]; intros a b; [done|]. cbn [cut].
  destruct (Ascii.eqb_spec d c) as [->|Hd]; [by intros [= <- <-]|].
  destruct (cut c s) as [[a' b']|]; [|done]. intros [= <- <-]. destruct (IH a' b' eq_refl) as [-> Ha].
  split; [by rewrite app_cons|]. cbn [has_char]. rewrite Ha, orb_false_r. by apply Ascii.eqb_neq, not_eq_sym.
Qed.

Lemma split_max_cons n c a b :
  has_char c a = false → split_max (S n) c (a +:+ String c b) = a :: split_max n c b.
Proof. intros Ha. cbn [split_max]. by rewrite cut_app. Qed.

(** * Stripping *)
Fixpoint lstrip_by (p : ascii → bool) (s : string) : string :=
  match s with
  | EmptyString => EmptyString
  | String c s' => if p c then lstrip_by p s' else s
  end.

Fixpoint rstrip_by (p : ascii → bool) (s : string) : string :=
  match s with
  | EmptyString => EmptyString
  | String c s' =>
      match rstrip_by p s' with
      | EmptyString => if p c then EmptyString else str1 c
      | t => String c t
      end
  end.

Definition strip_by (p : ascii → bool) (s : string) : string := rstrip_by p (lstrip_by p s).

Lemma rstrip_end s : rstrip s = "" ∨ ∃ a c, rstrip s = a +:+ str1 c ∧ is_space c = false.
Proof.
  induction s as [|c s IH]; [by left|]. cbn [rstrip]. destruct IH as [->|(a & d & E & Hd)].
  - destruct (is_space c) eqn:Hc; [by left|]. right. by exists "", c.
  - right. exists (String c a), d. rewrite E. split; [|done]. rewrite app_cons. by destruct a.
Qed.

(** A text that ends in a visible character is not shortened on the right. *)
Lemma rstrip_visible a c : is_space c = false → rstrip (a +:+ str1 c) = a +:+ str1 c.
Proof.
  intros Hc. induction a as [|d a IH].
  - rewrite app_empty. cbn. by rewrite Hc.
  - rewrite app_cons. cbn [rstrip]. rewrite IH. by destruct a.
Qed.

Lemma rstrip_by_idem p s : rstrip_by p (rstrip_by p s) = rstrip_by p s.
Proof.
  induction s as [|c s IH]; [done|]. cbn [rstrip_by]. destruct (rstrip_by p s) as [|d t] eqn:E.
  - destruct (p c) eqn:Hc; [done|]. cbn. by rewrite Hc.
  - cbn [rstrip_by] in *. by rewrite IH.
Qed.

Lemma strip_by_idem p s : strip_by p (strip_by p s) = strip_by p s.
Proof.
  unfold strip_by. assert (H : lstrip_by p (rstrip_by p (lstrip_by p s)) = rstrip_by p (lstrip_by p s)).
  { induction s as [|c s IH]; [done|]. cbn [lstrip_by]. destruct (p c) eqn:Hc; [exact IH|]. cbn [rstrip_by].
    destruct (rstrip_by p s); rewrite ?Hc; cbn; by rewrite Hc. }
  by rewrite H, rstrip_by_idem.
Qed.

(** * Prefixes *)
Fixpoint drop_prefix (p s : string) : option string :=
  match p, s with
  | EmptyString, _ => Some s
  | String c p', String d s' => if Ascii.eqb c d then drop_prefix p' s' else None
  | String _ _, EmptyString => None
  end.

(** The text without its last character when that is [c]. *)
Fixpoint chop_end (c : ascii) (s : string) : string :=
  match s with
  | EmptyString => EmptyString
  | String d EmptyString => if Ascii.eqb c d then EmptyString else s
  | String d s' => String d (chop_end c s')
  end.

Fixpoint delete_chars (p : ascii → bool) (s : string) : string :=
  match s with
  | EmptyString => EmptyString
  | String c s' => if p c then delete_chars p s' else String c (delete_chars p s')
  end.

Lemma delete_none p s : all_chars (fun c => negb (p c)) s = true → delete_chars p s = s.
Proof.
  induction s as [|c s IH]; [done|]. cbn [all_chars delete_chars]. intros [Hc%negb_true_iff Hs]%andb_true_iff.
  by rewrite Hc, IH.
Qed.

(** * Words *)
Fixpoint words_from (p : ascii → bool) (cur s : string) : list string :=
  match s with
  | EmptyString => if String.eqb cur "" then [] else [cur]
  | String c s' =>
      if p c then if String.eqb cur "" then words_from p "" s' else cur :: words_from p "" s'
      else words_from p (cur +:+ str1 c) s'
  end.

(** The maximal runs of characters outside [p]. *)
Definition words_by (p : ascii → bool) (s : string) : list string := words_from p "" s.

Lemma words_from_word p cur s :
  all_chars (fun c => negb (p c)) s = true → words_from p cur s = words_from p (cur +:+ s) "".
Proof.
  revert cur. induction s as [|c s IH]; intros cur; [by rewrite app_nil_str|].
  cbn [all_chars words_from]. intros [Hc%negb_true_iff Hs]%andb_true_iff. rewrite Hc, IH by done.
  by rewrite app_assoc_str.
Qed.

Definition is_quote (c : ascii) : bool := Ascii.eqb c squote || Ascii.eqb c dquote.
