(* ===== verification/ProcLogic.v ===== *)
(** A weakest-precondition logic for computations that pass a state and may raise: what
    must hold of a state so that a run from it ends in the postcondition, whether it
    returns or raises.  A run is a function, so the logic is exact. *)

From S2P Require Import Prelude.

Section Wp.
Context {S E : Type}.

Definition wp {A} (m : proc S E A) (Q : outcome E A → S → Prop) (s : S) : Prop := Q (m s).1 (m s).2.

Lemma wp_conseq {A} (m : proc S E A) (P Q : outcome E A → S → Prop) s :
  wp m P s → (∀ r s', P r s' → Q r s') → wp m Q s.
Proof. unfold wp. auto. Qed.

Lemma wp_run {A} (m : proc S E A) Q s r s' : wp m Q s → m s = (r, s') → Q r s'.
Proof. unfold wp. intros H Hm. by rewrite Hm in H. Qed.

Lemma wp_pret {A} (a : A) (Q : outcome E A → S → Prop) s : Q (Ok a) s → wp (pret a) Q s.
Proof. done. Qed.

Lemma wp_ret {A} (r : outcome E A) (Q : outcome E A → S → Prop) s : Q r s → wp (ret r) Q s.
Proof. done. Qed.

Lemma wp_praise {A} e (Q : outcome E A → S → Prop) s : Q (Raise e) s → wp (praise e) Q s.
Proof. done. Qed.

Lemma wp_pgets {A} (f : S → A) (Q : outcome E A → S → Prop) s : Q (Ok (f s)) s → wp (pgets f) Q s.
Proof. done. Qed.

Lemma wp_pmodify (f : S → S) (Q : outcome E unit → S → Prop) s : Q (Ok tt) (f s) → wp (pmodify f) Q s.
Proof. done. Qed.

Lemma wp_pbind {A B} (m : proc S E A) (f : A → proc S E B) Q s :
  wp m (fun r s' => match r with Ok a => wp (f a) Q s' | Raise e => Q (Raise e) s' end) s → wp (pbind m f) Q s.
Proof. unfold wp, pbind, bind. destruct (m s) as [[a|e] s']; cbn; [|done]. by destruct (f a s'). Qed.

Lemma wp_try_except {A} (m : proc S E A) h Q s :
  wp m (fun r s' => match r with Ok a => Q (Ok a) s' | Raise e => wp (h e) Q s' end) s → wp (try_except m h) Q s.
Proof. unfold wp, try_except, bind. destruct (m s) as [[a|e] s']; cbn; [done|]. by destruct (h e s'). Qed.

End Wp.

(** One step of a proof about a run: the rule of the outermost construct. *)
Ltac wp_step :=
  lazymatch goal with
  | |- wp (pbind _ _) _ _ => apply wp_pbind
  | |- wp (try_except _ _) _ _ => apply wp_try_except
  | |- wp (pret _) _ _ => apply wp_pret
  | |- wp (ret _) _ _ => apply wp_ret
  | |- wp (praise _) _ _ => apply wp_praise
  | |- wp (pgets _) _ _ => apply wp_pgets
  | |- wp (pmodify _) _ _ => apply wp_pmodify
  end.

(** Turn a goal about the end of the run [Hrun : m s = (r, s')] into one about the run. *)
Ltac by_run Hrun :=
  match type of Hrun with
  | ?m ?s = (?r, ?s') =>
      pattern r, s';
      lazymatch goal with |- ?Q r s' => apply (wp_run m Q s r s'); [|exact Hrun] end;
      clear Hrun; try clear r s'; cbv beta
  end.
