(* ===== verification/Tasks.v ===== *)
(** Concurrent coroutines.

    A coroutine that other coroutines may run between is a [task]: a tree of atomic
    actions on a shared world, each followed by what the coroutine does with its answer,
    ending in a value or an exception.  [run] runs one alone; [pool_step] lets several take
    their actions in any order, begin at any time and die at any point.  [wp] is the logic
    that carries an invariant of the world through every such order: a task may rely on
    facts that no action of any task takes back. *)

From S2P Require Import Prelude.

Inductive task (W E A : Type) : Type :=
| Done (r : outcome E A)
| Act (R : Type) (f : W → R * W) (k : R → task W E A).
Arguments Done {W E A} r.
Arguments Act {W E A R} f k.

Declare Scope task_scope.
Delimit Scope task_scope with task.

Section Tasks.
Context {W E : Type}.

(** * Composition *)
Definition tret {A} (a : A) : task W E A := Done (Ok a).
Definition traise {A} (e : E) : task W E A := Done (Raise e).

(** One action. *)
Definition act {R} (f : W → R * W) : task W E R := Act f tret.
(** One action that may raise. *)
Definition attempt {R} (f : W → outcome E R * W) : task W E R := Act f Done.

Fixpoint handle {A B} (m : task W E A) (f : outcome E A → task W E B) : task W E B :=
  match m with
  | Done r => f r
  | Act g k => Act g (fun r => handle (k r) f)
  end.

Definition tbind {A B} (m : task W E A) (f : A → task W E B) : task W E B :=
  handle m (fun r => match r with Ok a => f a | Raise e => traise e end).

(** [try: m except Exception: h]. *)
Definition tcatch {A} (m : task W E A) (h : E → task W E A) : task W E A :=
  handle m (fun r => match r with Ok a => tret a | Raise e => h e end).

(** A task alone. *)
Fixpoint run {A} (m : task W E A) (w : W) : outcome E A * W :=
  match m with
  | Done r => (r, w)
  | Act f k => let '(r, w') := f w in run (k r) w'
  end.

Lemma run_handle {A B} (m : task W E A) (f : outcome E A → task W E B) w :
  run (handle m f) w = let '(r, w') := run m w in run (f r) w'.
Proof. revert w. induction m as [r|R g k IH]; intros w; [done|]. cbn. destruct (g w) as [r w']. apply IH. Qed.

Lemma run_bind {A B} (m : task W E A) (f : A → task W E B) w :
  run (tbind m f) w = let '(r, w') := run m w in
                      match r with Ok a => run (f a) w' | Raise e => (Raise e, w') end.
Proof. unfold tbind. rewrite run_handle. by destruct (run m w) as [[a|e] w']. Qed.

Lemma run_catch {A} (m : task W E A) (h : E → task W E A) w :
  run (tcatch m h) w = let '(r, w') := run m w in
                       match r with Ok a => (Ok a, w') | Raise e => run (h e) w' end.
Proof. unfold tcatch. rewrite run_handle. by destruct (run m w) as [[a|e] w']. Qed.

(** * Interleaving *)
Definition pool : Type := W * list (task W E unit).

Inductive pool_step (begins : task W E unit → Prop) (outside : W → W → Prop) : pool → pool → Prop :=
| step_act R w (f : W → R * W) k l1 l2 :
    pool_step begins outside (w, l1 ++ Act f k :: l2) ((f w).2, l1 ++ k (f w).1 :: l2)
| step_begin w l t : begins t → pool_step begins outside (w, l) (w, l ++ [t])
| step_die w l1 t l2 : pool_step begins outside (w, l1 ++ t :: l2) (w, l1 ++ l2)
| step_outside w w' l : outside w w' → pool_step begins outside (w, l) (w', l).

(** The order a schedule gives: each number names the task that acts next. *)
Fixpoint interleave (schedule : list nat) (p : pool) : pool :=
  match schedule with
  | [] => p
  | i :: rest =>
      interleave rest
        match p.2 !! i with
        | Some (Act f k) => ((f p.1).2, <[i := k (f p.1).1]> p.2)
        | _ => p
        end
  end.

Lemma interleave_steps begins outside schedule p :
  rtc (pool_step begins outside) p (interleave schedule p).
Proof.
  revert p. induction schedule as [|i rest IH]; intros [w l]; cbn [interleave fst snd]; [done|].
  destruct (l !! i) as [[r|R f k]|] eqn:Hi; [apply IH| |apply IH].
  eapply rtc_l; [|apply IH]. rewrite insert_take_drop by (eapply lookup_lt_Some; eauto).
  rewrite <-(take_drop_middle l i _ Hi) at 1. apply step_act.
Qed.

(** * The logic *)
Section Logic.
Context (inv : W → Prop) (grows : W → W → Prop) `{!PreOrder grows}.

(** From [w], in whatever worlds its actions find themselves, the task keeps [inv] and
    takes nothing back, and its end satisfies [Q]. *)
Fixpoint wp {A} (m : task W E A) (Q : outcome E A → W → Prop) (w : W) : Prop :=
  match m with
  | Done r => Q r w
  | Act f k => ∀ w1, grows w w1 → inv w1 →
      inv (f w1).2 ∧ grows w1 (f w1).2 ∧ wp (k (f w1).1) Q (f w1).2
  end.

Lemma wp_mono {A} (m : task W E A) (Q Q' : outcome E A → W → Prop) w :
  (∀ r w1, grows w w1 → Q r w1 → Q' r w1) → wp m Q w → wp m Q' w.
Proof.
  revert w. induction m as [r|R f k IH]; intros w HQ; cbn; [by apply HQ|].
  intros H w1 Hg Hi. destruct (H w1 Hg Hi) as (H1 & H2 & H3). split_and!; [done..|].
  eapply IH; [|exact H3]. intros r w2 Hg2. apply HQ. etrans; [exact Hg|]. by etrans.
Qed.

Lemma wp_handle {A B} (m : task W E A) (f : outcome E A → task W E B) Q w :
  wp m (fun r w1 => wp (f r) Q w1) w → wp (handle m f) Q w.
Proof.
  revert w. induction m as [r|R g k IH]; intros w; cbn; [done|].
  intros H w1 Hg Hi. destruct (H w1 Hg Hi) as (H1 & H2 & H3). split_and!; [done..|]. by apply IH.
Qed.

Lemma wp_bind {A B} (m : task W E A) (f : A → task W E B) Q w :
  wp m (fun r w1 => match r with Ok a => wp (f a) Q w1 | Raise e => Q (Raise e) w1 end) w → wp (tbind m f) Q w.
Proof. intros H. apply wp_handle. eapply wp_mono; [|exact H]. by intros [a|e] w1 _. Qed.

Lemma wp_catch {A} (m : task W E A) (h : E → task W E A) Q w :
  wp m (fun r w1 => match r with Ok a => Q (Ok a) w1 | Raise e => wp (h e) Q w1 end) w → wp (tcatch m h) Q w.
Proof. intros H. apply wp_handle. eapply wp_mono; [|exact H]. by intros [a|e] w1 _. Qed.

Lemma wp_act {R} (f : W → R * W) Q w :
  (∀ w1, grows w w1 → inv w1 → inv (f w1).2 ∧ grows w1 (f w1).2 ∧ Q (Ok (f w1).1) (f w1).2) → wp (act f) Q w.
Proof. done. Qed.

Lemma wp_attempt {R} (f : W → outcome E R * W) Q w :
  (∀ w1, grows w w1 → inv w1 → inv (f w1).2 ∧ grows w1 (f w1).2 ∧ Q (f w1).1 (f w1).2) → wp (attempt f) Q w.
Proof. done. Qed.

(** Nothing is promised at the end. *)
Definition anything {A} (r : outcome E A) (w : W) : Prop := True.

Lemma wp_later {A} (m : task W E A) w w' : grows w w' → wp m anything w → wp m anything w'.
Proof. intros Hg. destruct m as [r|R f k]; [done|]. intros H w1 Hg1. apply H. by etrans. Qed.

(** The invariant holds in every world a pool can reach. *)
Theorem pool_invariant begins outside p p' :
  (∀ t w, begins t → inv w → wp t anything w) →
  (∀ w w', outside w w' → inv w → inv w' ∧ grows w w') →
  rtc (pool_step begins outside) p p' →
  inv p.1 → (∀ t, t ∈ p.2 → wp t anything p.1) → inv p'.1.
Proof.
  intros Hb Ho Hr Hi Ht.
  assert (H : inv p'.1 ∧ ∀ t, t ∈ p'.2 → wp t anything p'.1); [|by destruct H].
  eapply (rtc_invariant _ (fun p => inv p.1 ∧ ∀ t, t ∈ p.2 → wp t anything p.1)); [|exact Hr|by split].
  clear p p' Hr Hi Ht. intros p p' Hs [Hi Ht]. destruct Hs as [R w f k l1 l2|w l t Hbt|w l1 t l2|w w' l Hww]; cbn [fst snd] in *.
  - assert (Hc : wp (Act f k) anything w) by (apply Ht; set_solver).
    destruct (Hc w ltac:(reflexivity) Hi) as (H1 & H2 & H3). split; [done|]. intros t Hin.
    apply elem_of_app in Hin as [Hin|[->|Hin]%elem_of_cons]; [|done|];
      (eapply wp_later; [exact H2|]; apply Ht; set_solver).
  - split; [done|]. intros t' Hin. apply elem_of_app in Hin as [Hin|Hin%list_elem_of_singleton]; [by apply Ht|].
    subst. by apply Hb.
  - split; [done|]. intros t' Hin. apply Ht. set_solver.
  - destruct (Ho w w' Hww Hi) as [H1 H2]. split; [done|]. intros t Hin. eapply wp_later; [exact H2|]. by apply Ht.
Qed.
End Logic.
End Tasks.

Notation "x <- m ;; k" := (tbind m (fun x => k))
  (at level 100, m at next level, right associativity) : task_scope.
Notation "m ;; k" := (tbind m (fun _ => k))
  (at level 100, right associativity) : task_scope.
