(* ===== verification/Datetime.v ===== *)
(** UTC instants and their ISO-8601 text.

    A timezone-aware [datetime] in UTC is its number of microseconds since
    1970-01-01T00:00:00Z.  The calendar arithmetic is CPython's proleptic
    Gregorian calendar ([_ymd2ord], [_ord2ymd]); [isoformat] and [fromisoformat]
    cover the form the program writes and reads back,
    [YYYY-MM-DDTHH:MM:SS[.ffffff]] followed by [+00:00] or nothing. *)

From S2P Require Import Prelude PyValue.
From Stdlib Require Import Ascii.
Local Open Scope Z_scope.

Definition datetime : Type := Z.

Definition usec_per_sec : Z := 1000000.
Definition usec_per_day : Z := 86400 * usec_per_sec.
(** The ordinal of 1970-01-01. *)
Definition epoch_ord : Z := 719163.

(** * Calendar *)
Definition is_leap (y : Z) : bool :=
  (y mod 4 =? 0) && (negb (y mod 100 =? 0) || (y mod 400 =? 0)).

Definition days_before_year (y : Z) : Z :=
  let p := y - 1 in p * 365 + p / 4 - p / 100 + p / 400.

Definition leap_day (y : Z) : Z := if is_leap y then 1 else 0.

(** Days of a year before the first of month [m]. *)
Definition days_before_month (y m : Z) : Z :=
  if m =? 1 then 0 else if m =? 2 then 31
  else leap_day y +
    (if m =? 3 then 59 else if m =? 4 then 90 else if m =? 5 then 120
     else if m =? 6 then 151 else if m =? 7 then 181 else if m =? 8 then 212
     else if m =? 9 then 243 else if m =? 10 then 273 else if m =? 11 then 304 else 334).

Definition days_in_month (y m : Z) : Z :=
  if m =? 2 then 28 + leap_day y
  else if (m =? 4) || (m =? 6) || (m =? 9) || (m =? 11) then 30 else 31.

Definition ymd2ord (y m d : Z) : Z := days_before_year y + days_before_month y m + d.

(** Year and zero-based day of the year of an ordinal. *)
Definition ord_year (n : Z) : Z * Z :=
  let n0 := n - 1 in
  let n400 := n0 / 146097 in let r400 := n0 mod 146097 in
  let n100 := r400 / 36524 in let r100 := r400 mod 36524 in
  let n4 := r100 / 1461 in let r4 := r100 mod 1461 in
  let n1 := r4 / 365 in let r1 := r4 mod 365 in
  let year := n400 * 400 + n100 * 100 + n4 * 4 + n1 + 1 in
  if (n1 =? 4) || (n100 =? 4) then (year - 1, 365) else (year, r1).

(** The last month of [ms] that starts on or before day [doy]. *)
Fixpoint find_month (y doy : Z) (ms : list Z) : Z :=
  match ms with
  | [] => 1
  | m :: ms' => if days_before_month y m <=? doy then m else find_month y doy ms'
  end.

Definition ord2ymd (n : Z) : Z * Z * Z :=
  let '(y, doy) := ord_year n in
  let m := find_month y doy [12; 11; 10; 9; 8; 7; 6; 5; 4; 3; 2; 1] in
  (y, m, doy - days_before_month y m + 1).

(** The fields of an instant. *)
Record fields := {
  f_year : Z; f_month : Z; f_day : Z;
  f_hour : Z; f_minute : Z; f_second : Z; f_usec : Z
}.

Definition fields_of (t : datetime) : fields :=
  let days := t / usec_per_day in
  let r := t mod usec_per_day in
  let '(y, m, d) := ord2ymd (days + epoch_ord) in
  {| f_year := y; f_month := m; f_day := d;
     f_hour := r / (3600 * usec_per_sec);
     f_minute := r / (60 * usec_per_sec) mod 60;
     f_second := r / usec_per_sec mod 60;
     f_usec := r mod usec_per_sec |}.

Definition of_fields (f : fields) : datetime :=
  (ymd2ord (f_year f) (f_month f) (f_day f) - epoch_ord) * usec_per_day
  + f_hour f * (3600 * usec_per_sec) + f_minute f * (60 * usec_per_sec)
  + f_second f * usec_per_sec + f_usec f.

(** The ranges [datetime] accepts. *)
Definition valid_fields (f : fields) : bool :=
  (1 <=? f_year f) && (f_year f <=? 9999) && (1 <=? f_month f) && (f_month f <=? 12) &&
  (1 <=? f_day f) && (f_day f <=? days_in_month (f_year f) (f_month f)) &&
  (0 <=? f_hour f) && (f_hour f <? 24) && (0 <=? f_minute f) && (f_minute f <? 60) &&
  (0 <=? f_second f) && (f_second f <? 60) && (0 <=? f_usec f) && (f_usec f <? 1000000).

(** Instants of the years 1 to 9999, the only ones a [datetime] can hold. *)
Definition representable (t : datetime) : Prop :=
  (1 - epoch_ord) * usec_per_day <= t < (3652060 - epoch_ord) * usec_per_day.

(** * Text *)
Definition digit_chr (n : Z) : ascii := chr (48 + n mod 10).

(** [n] in exactly [k] decimal digits, the lowest first in the recursion. *)
Fixpoint pad (k : nat) (n : Z) (rest : string) : string :=
  match k with
  | O => rest
  | S k' => pad k' (n / 10) (String (digit_chr n) rest)
  end.

(** [t.isoformat()] for an aware UTC instant. *)
Definition isoformat (t : datetime) : string :=
  let f := fields_of t in
  pad 4 (f_year f) ("-" +:+ pad 2 (f_month f) ("-" +:+ pad 2 (f_day f) ("T" +:+
  pad 2 (f_hour f) (":" +:+ pad 2 (f_minute f) (":" +:+ pad 2 (f_second f)
  ((if f_usec f =? 0 then "" else "." +:+ pad 6 (f_usec f) "") +:+ "+00:00")))))).

(** Read exactly [k] digits. *)
Fixpoint take_digits (k : nat) (acc : Z) (s : string) : option (Z * string) :=
  match k, s with
  | O, _ => Some (acc, s)
  | S k', String c s' =>
      if is_digit c then take_digits k' (acc * 10 + (code c - 48)) s' else None
  | S _, EmptyString => None
  end.

Definition expect (c : ascii) (s : string) : option string :=
  match s with
  | String c' s' => if Ascii.eqb c' c then Some s' else None
  | EmptyString => None
  end.

(** The optional fraction and offset at the end of the text. *)
Definition take_fraction (s : string) : option (Z * string) :=
  match s with
  | String "." s' => take_digits 6 0 s'
  | _ => Some (0, s)
  end.

(** [datetime.fromisoformat(s)], a naive result being read as UTC. *)
Definition fromisoformat (s : string) : option datetime :=
  '(y, s) ← take_digits 4 0 s; s ← expect "-" s;
  '(mo, s) ← take_digits 2 0 s; s ← expect "-" s;
  '(d, s) ← take_digits 2 0 s; s ← expect "T" s;
  '(h, s) ← take_digits 2 0 s; s ← expect ":" s;
  '(mi, s) ← take_digits 2 0 s; s ← expect ":" s;
  '(sec, s) ← take_digits 2 0 s;
  '(us, s) ← take_fraction s;
  let f := {| f_year := y; f_month := mo; f_day := d; f_hour := h;
              f_minute := mi; f_second := sec; f_usec := us |} in
  if (String.eqb s "+00:00" || String.eqb s "") && valid_fields f
  then Some (of_fields f) else None.

(** [str.replace("Z", "+00:00")]. *)
Fixpoint replace_Z (s : string) : string :=
  match s with
  | EmptyString => EmptyString
  | String c s' => if Ascii.eqb c "Z" then "+00:00" +:+ replace_Z s' else String c (replace_Z s')
  end.

(** * The calendar is a bijection *)
Lemma div_succ p k : 0 < k → (p + 1) / k = p / k + (if (p + 1) mod k =? 0 then 1 else 0).
Proof.
  intros Hk. pose proof (Z.div_mod (p + 1) k ltac:(lia)) as E.
  pose proof (Z.mod_pos_bound (p + 1) k Hk) as Hb.
  destruct (Z.eqb_spec ((p + 1) mod k) 0) as [H|H].
  - rewrite <- (Z.div_unique p k ((p + 1) / k - 1) (k - 1)); lia.
  - rewrite <- (Z.div_unique p k ((p + 1) / k) ((p + 1) mod k - 1)); lia.
Qed.

Lemma mod_divides p a b : 0 < a → 0 < b → p mod (a * b) = 0 → p mod a = 0.
Proof.
  intros Ha Hb H. apply Z.mod_divide in H as [q ->]; [|lia].
  apply Z.mod_divide; [lia|]. exists (q * b). lia.
Qed.

Lemma is_leap_days y :
  days_before_year (y + 1) = days_before_year y + 365 + leap_day y.
Proof.
  unfold days_before_year, leap_day, is_leap.
  replace (y + 1 - 1) with (y - 1 + 1) by lia. set (p := y - 1).
  replace y with (p + 1) by lia.
  rewrite !(div_succ p) by lia.
  pose proof (mod_divides (p + 1) 4 25 ltac:(lia) ltac:(lia)) as H4.
  pose proof (mod_divides (p + 1) 100 4 ltac:(lia) ltac:(lia)) as H100.
  change (4 * 25) with 100 in H4. change (100 * 4) with 400 in H100.
  destruct (Z.eqb_spec ((p + 1) mod 4) 0), (Z.eqb_spec ((p + 1) mod 100) 0),
    (Z.eqb_spec ((p + 1) mod 400) 0); cbn; first [lia | tauto].
Qed.

Lemma leap_day_range y : 0 <= leap_day y <= 1.
Proof. unfold leap_day. destruct (is_leap y); lia. Qed.

Lemma days_before_decomposed a b c d :
  0 <= b <= 3 → 0 <= c <= 24 → 0 <= d <= 3 →
  days_before_year (a * 400 + b * 100 + c * 4 + d + 1)
  = a * 146097 + b * 36524 + c * 1461 + d * 365.
Proof.
  intros Hb Hc Hd. unfold days_before_year.
  replace (a * 400 + b * 100 + c * 4 + d + 1 - 1) with (a * 400 + b * 100 + c * 4 + d) by lia.
  rewrite <- (Z.div_unique_pos _ 4 (a * 100 + b * 25 + c) d) by lia.
  rewrite <- (Z.div_unique_pos _ 100 (a * 4 + b) (c * 4 + d)) by lia.
  rewrite <- (Z.div_unique_pos _ 400 a (b * 100 + c * 4 + d)) by lia.
  lia.
Qed.

Lemma leap_day_century_end a b c :
  0 <= b <= 3 → 0 <= c <= 23 → leap_day (a * 400 + b * 100 + c * 4 + 4) = 1.
Proof.
  intros Hb Hc. unfold leap_day, is_leap.
  rewrite <- (Z.mod_unique_pos _ 4 (a * 100 + b * 25 + c + 1) 0) by lia.
  rewrite <- (Z.mod_unique_pos _ 100 (a * 4 + b) (c * 4 + 4)) by lia.
  destruct (Z.eqb_spec (c * 4 + 4) 0); [lia|done].
Qed.

Lemma leap_day_cycle_end a : leap_day (a * 400 + 400) = 1.
Proof.
  unfold leap_day, is_leap.
  rewrite <- (Z.mod_unique_pos _ 4 (a * 100 + 100) 0) by lia.
  rewrite <- (Z.mod_unique_pos _ 400 (a + 1) 0) by lia.
  change (0 =? 0) with true. by rewrite orb_true_r.
Qed.

(** Euclidean division with its bounds. *)
Ltac euclid x k q r :=
  let Hq := fresh "Hq" in let Hr := fresh "Hr" in
  pose proof (Z.div_mod x k ltac:(lia)) as Hq;
  pose proof (Z.mod_pos_bound x k ltac:(lia)) as Hr;
  set (q := x / k) in *; set (r := x mod k) in *; clearbody q r.

(** [ord_year] finds the year an ordinal falls in. *)
Lemma ord_year_spec n y doy :
  ord_year n = (y, doy) →
  n = days_before_year y + doy + 1 ∧ 0 <= doy < 365 + leap_day y.
Proof.
  unfold ord_year. euclid (n - 1) 146097 a r1. euclid r1 36524 b r2.
  euclid r2 1461 c r3. euclid r3 365 d e.
  destruct (_ || _) eqn:E; intros [= <- <-].
  - apply orb_true_iff in E as [E|E]; apply Z.eqb_eq in E; subst.
    + pose proof (days_before_decomposed a b c 3 ltac:(lia) ltac:(lia) ltac:(lia)) as Hd.
      pose proof (leap_day_century_end a b c ltac:(lia) ltac:(lia)) as Hl.
      replace (a * 400 + b * 100 + c * 4 + 4 + 1 - 1) with (a * 400 + b * 100 + c * 4 + 3 + 1) by lia.
      replace (a * 400 + b * 100 + c * 4 + 4) with (a * 400 + b * 100 + c * 4 + 3 + 1) in Hl by lia.
      lia.
    + pose proof (days_before_decomposed a 3 24 3 ltac:(lia) ltac:(lia) ltac:(lia)) as Hd.
      pose proof (leap_day_cycle_end a) as Hl.
      assert (c = 0 ∧ d = 0) as [-> ->] by lia.
      replace (a * 400 + 4 * 100 + 0 * 4 + 0 + 1 - 1) with (a * 400 + 400) by lia.
      replace (a * 400 + 3 * 100 + 24 * 4 + 3 + 1) with (a * 400 + 400) in Hd by lia.
      lia.
  - apply orb_false_iff in E as [E1 E2]. apply Z.eqb_neq in E1, E2.
    rewrite days_before_decomposed by lia.
    pose proof (leap_day_range (a * 400 + b * 100 + c * 4 + d + 1)). lia.
Qed.

Lemma find_month_spec y doy :
  0 <= doy < 365 + leap_day y →
  let m := find_month y doy [12; 11; 10; 9; 8; 7; 6; 5; 4; 3; 2; 1] in
  1 <= m <= 12 ∧ days_before_month y m <= doy < days_before_month y m + days_in_month y m.
Proof.
  intros H. pose proof (leap_day_range y) as Hl.
  cbn [find_month]. unfold days_before_month, days_in_month. cbn.
  repeat (case_match; cbn; try lia).
Qed.

Lemma days_before_year_mono y y' : y <= y' → days_before_year y <= days_before_year y'.
Proof.
  unfold days_before_year. intros H.
  pose proof (Z.div_le_mono (y - 1) (y' - 1) 4 ltac:(lia) ltac:(lia)).
  pose proof (Z.div_le_mono (y - 1) (y' - 1) 400 ltac:(lia) ltac:(lia)).
  euclid (y - 1) 100 q r. euclid (y' - 1) 100 q' r'.
  assert (q' <= q + (y' - y)) by lia. lia.
Qed.

Lemma ord2ymd_spec n y m d :
  ord2ymd n = (y, m, d) →
  ymd2ord y m d = n ∧ 1 <= m <= 12 ∧ 1 <= d <= days_in_month y m ∧
  (1 <= n <= 3652059 → 1 <= y <= 9999).
Proof.
  unfold ord2ymd. destruct (ord_year n) as [y' doy] eqn:E. apply ord_year_spec in E as [Hn Hdoy].
  pose proof (find_month_spec _ _ Hdoy) as [Hm Hd]. cbv zeta in Hm, Hd.
  set (mo := find_month _ _ _) in *. clearbody mo. intros [= <- <- <-]. unfold ymd2ord.
  split; [lia|]. split; [lia|]. split; [lia|]. intros Hb. split.
  - destruct (Z.le_gt_cases 1 y') as [|Hlt]; [done|].
    pose proof (is_leap_days y'). pose proof (days_before_year_mono (y' + 1) 1 ltac:(lia)) as Hmono.
    change (days_before_year 1) with 0 in Hmono. lia.
  - destruct (Z.le_gt_cases y' 9999) as [|Hlt]; [done|].
    pose proof (days_before_year_mono 10000 y' ltac:(lia)) as Hmono.
    change (days_before_year 10000) with 3652059 in Hmono. lia.
Qed.

Lemma fields_of_spec t :
  of_fields (fields_of t) = t ∧ (representable t → valid_fields (fields_of t) = true).
Proof.
  unfold fields_of, of_fields, representable, valid_fields, usec_per_day, usec_per_sec, epoch_ord.
  euclid t (86400 * 1000000) days r.
  destruct (ord2ymd (days + 719163)) as [[y m] d] eqn:E.
  apply ord2ymd_spec in E as (Ho & Hm & Hd & Hy). cbn [f_year f_month f_day f_hour f_minute f_second f_usec].
  replace (60 * 1000000) with (1000000 * 60) by lia.
  replace (3600 * 1000000) with (1000000 * 60 * 60) by lia.
  rewrite <- !Z.div_div by lia.
  euclid r 1000000 s us. euclid s 60 mi sec. euclid mi 60 hh mm.
  split; [rewrite Ho; lia|]. intros Hr'. specialize (Hy ltac:(lia)).
  repeat (apply andb_true_intro; split); first [apply Z.leb_le | apply Z.ltb_lt]; lia.
Qed.

(** * The text determines the instant *)
Lemma code_chr n : 0 <= n < 256 → code (chr n) = n.
Proof.
  intros H. unfold code, chr. rewrite N_ascii_embedding; lia.
Qed.

Lemma take_digits_pad k j n acc rest :
  0 <= n < 10 ^ Z.of_nat k →
  take_digits (k + j) acc (pad k n rest) = take_digits j (acc * 10 ^ Z.of_nat k + n) rest.
Proof.
  revert j n rest. induction k as [|k IH]; intros j n rest Hn.
  - cbn in *. f_equal. lia.
  - rewrite Nat2Z.inj_succ, Z.pow_succ_r in * by lia.
    cbn [pad]. replace (S k + j)%nat with (k + S j)%nat by lia.
    pose proof (Z.div_mod n 10 ltac:(lia)) as E.
    pose proof (Z.mod_pos_bound n 10 ltac:(lia)) as Hb.
    rewrite IH by lia. cbn [take_digits]. unfold is_digit, digit_chr.
    rewrite code_chr by lia.
    replace ((48 <=? 48 + n mod 10) && (48 + n mod 10 <=? 57)) with true
      by (symmetry; apply andb_true_intro; split; apply Z.leb_le; lia).
    f_equal. lia.
Qed.

Lemma take_digits_pad0 k n rest :
  0 <= n < 10 ^ Z.of_nat k → take_digits k 0 (pad k n rest) = Some (n, rest).
Proof.
  intros H. rewrite <- (Nat.add_0_r k) at 1. by rewrite take_digits_pad.
Qed.

Lemma bind_take_digits {B} k n rest (f : Z * string → option B) :
  0 <= n < 10 ^ Z.of_nat k → take_digits k 0 (pad k n rest) ≫= f = f (n, rest).
Proof. intros H. by rewrite take_digits_pad0. Qed.

Lemma bind_expect {B} c rest (f : string → option B) :
  expect c (String c EmptyString +:+ rest) ≫= f = f rest.
Proof.
  change (String c EmptyString +:+ rest) with (String c rest).
  unfold expect. by rewrite Ascii.eqb_refl.
Qed.

Lemma pad_append k n a b : pad k n a +:+ b = pad k n (a +:+ b).
Proof.
  revert n a. induction k as [|k IH]; intros n a; cbn [pad]; [done|].
  rewrite IH. by change (String (digit_chr n) a +:+ b) with (String (digit_chr n) (a +:+ b)).
Qed.

(** Reading an instant's text gives the instant back. *)
Lemma fromisoformat_isoformat t : representable t → fromisoformat (isoformat t) = Some t.
Proof.
  intros Ht. destruct (fields_of_spec t) as [Hof Hv]. specialize (Hv Ht).
  unfold isoformat, fromisoformat. set (f := fields_of t) in *. clearbody f.
  pose proof Hv as Hv'. unfold valid_fields in Hv'.
  repeat (apply andb_true_iff in Hv' as [Hv' ?]). rewrite ?Z.leb_le, ?Z.ltb_lt in *.
  assert (1 <= days_in_month (f_year f) (f_month f) <= 31).
  { unfold days_in_month. pose proof (leap_day_range (f_year f)). repeat case_match; lia. }
  assert (f_us0 : ∀ us, us = f_usec f → {| f_year := f_year f; f_month := f_month f; f_day := f_day f;
    f_hour := f_hour f; f_minute := f_minute f; f_second := f_second f; f_usec := us |} = f).
  { intros us ->. by destruct f. }
  repeat (rewrite bind_take_digits by (cbn; lia); cbv beta iota;
          rewrite ?bind_expect; cbv beta).
  unfold take_fraction. destruct (Z.eqb_spec (f_usec f) 0) as [Hu|Hu].
  - change ("" +:+ "+00:00") with "+00:00". cbv beta iota.
    change (Some (0, "+00:00") ≫= ?k) with (k (0, "+00:00")). cbv beta iota.
    by rewrite (f_us0 0), Hv, Hof by done.
  - change (("." +:+ pad 6 (f_usec f) "") +:+ "+00:00")
      with (String "." (pad 6 (f_usec f) "" +:+ "+00:00")).
    rewrite pad_append. cbv iota. rewrite bind_take_digits by (cbn; lia). cbv beta iota.
    by rewrite (f_us0 _ eq_refl), Hv, Hof.
Qed.

Lemma isoformat_inj t t' :
  representable t → representable t' → isoformat t = isoformat t' → t = t'.
Proof.
  intros Ht Ht' H. apply fromisoformat_isoformat in Ht, Ht'. congruence.
Qed.

(** * Characters of the text *)
Lemma replace_Z_id s : has_char "Z" s = false → replace_Z s = s.
Proof.
  induction s as [|c s IH]; [done|]. cbn [has_char replace_Z].
  intros [Hc Hs]%orb_false_iff. rewrite Ascii.eqb_sym, Hc. by rewrite IH.
Qed.

Lemma replace_Z_app a b : replace_Z (a +:+ b) = replace_Z a +:+ replace_Z b.
Proof.
  induction a as [|c a IH]; [done|]. rewrite app_cons. cbn [replace_Z].
  destruct (Ascii.eqb c "Z"); by rewrite IH, ?app_assoc_str.
Qed.

Lemma has_char_pad c k n rest : is_digit c = false → has_char c (pad k n rest) = has_char c rest.
Proof.
  intros Hc. revert n rest. induction k as [|k IH]; intros n rest; cbn [pad]; [done|]. rewrite IH.
  cbn [has_char]. unfold digit_chr. destruct (Ascii.eqb_spec c (chr (48 + n mod 10))) as [->|]; [|done].
  unfold is_digit in Hc. pose proof (Z.mod_pos_bound n 10 ltac:(lia)). rewrite code_chr in Hc by lia.
  apply andb_false_iff in Hc as [Hc%Z.leb_gt|Hc%Z.leb_gt]; lia.
Qed.

(** The instant's text is its local part and the offset. *)
Definition iso_local (t : datetime) : string :=
  let f := fields_of t in
  pad 4 (f_year f) ("-" +:+ pad 2 (f_month f) ("-" +:+ pad 2 (f_day f) ("T" +:+
  pad 2 (f_hour f) (":" +:+ pad 2 (f_minute f) (":" +:+ pad 2 (f_second f)
  (if f_usec f =? 0 then "" else "." +:+ pad 6 (f_usec f) "")))))).

Lemma isoformat_local t : isoformat t = iso_local t +:+ "+00:00".
Proof. unfold isoformat, iso_local. cbv zeta. by repeat rewrite pad_append || rewrite app_assoc_str. Qed.

Lemma iso_local_chars c t :
  is_digit c = false → c ∉ (["-"; "T"; ":"; "."]%char : list ascii) → has_char c (iso_local t) = false.
Proof.
  intros Hd Hc. unfold iso_local. rewrite !not_elem_of_cons in Hc. destruct Hc as (H1 & H2 & H3 & H4 & _).
  apply Ascii.eqb_neq in H1, H2, H3, H4.
  repeat ((rewrite has_char_pad by exact Hd) || rewrite has_char_app || (cbn [has_char]; rewrite ?H1, ?H2, ?H3, ?H4; cbn [orb])).
  destruct (f_usec _ =? 0); [done|]. rewrite has_char_app, has_char_pad by done. cbn [has_char]. by rewrite H4.
Qed.

Lemma all_chars_pad p k n rest :
  (∀ c, is_digit c = true → p c = true) → all_chars p (pad k n rest) = all_chars p rest.
Proof.
  intros Hp. revert n rest. induction k as [|k IH]; intros n rest; cbn [pad]; [done|]. rewrite IH.
  cbn [all_chars]. rewrite Hp; [done|]. unfold is_digit, digit_chr.
  pose proof (Z.mod_pos_bound n 10 ltac:(lia)). rewrite code_chr by lia.
  apply andb_true_iff. rewrite !Z.leb_le. lia.
Qed.

Lemma iso_local_ascii t : all_chars (fun c => code c <? 128) (iso_local t) = true.
Proof.
  assert (Hd : ∀ c, is_digit c = true → (code c <? 128) = true).
  { intros c [H1%Z.leb_le H2%Z.leb_le]%andb_true_iff. apply Z.ltb_lt. lia. }
  unfold iso_local. do 6 (rewrite all_chars_pad by exact Hd; rewrite ?app_cons, ?app_empty; cbn [all_chars]).
  destruct (f_usec _ =? 0); [done|]. cbn [all_chars]. by rewrite all_chars_pad.
Qed.

Lemma isoformat_no_Z t : has_char "Z" (isoformat t) = false.
Proof. rewrite isoformat_local, has_char_app, iso_local_chars; [done|done|set_solver]. Qed.

Section Examples.
Example iso_epoch : isoformat 0 = "1970-01-01T00:00:00+00:00".
Proof. reflexivity. Qed.
(* 2024-02-29T12:34:56.000789 *)
Example iso_leap : isoformat 1709210096000789 = "2024-02-29T12:34:56.000789+00:00".
Proof. reflexivity. Qed.
Example iso_parse : fromisoformat (replace_Z "2024-02-29T12:34:56Z") = Some 1709210096000000.
Proof. reflexivity. Qed.
Example iso_bad_day : fromisoformat "2023-02-29T12:34:56" = None.
Proof. reflexivity. Qed.
End Examples.
