(* ===== verification/Float64.v ===== *)
(** Double-precision numbers, as far as the rate limiter computes with them.

    A number that is not negative is the count of 2^-1074, the smallest double, that it is
    made of; the four operations are the exact result rounded to the nearest double, ties
    to even.  Infinity is not represented: the quotas are 64-bit integers and the times a
    monotonic clock, so that no result comes near 2^1024.  Differences are taken where they
    are not negative. *)

From S2P Require Import Prelude.
Local Open Scope Z_scope.

Module Float64.

(** 1.0. *)
Definition one : Z := 2 ^ 1074.

(** The integer nearest to [n / d], the even one of two. *)
Definition nearest (n d : Z) : Z :=
  let '(q, r) := Z.div_eucl n d in
  if 2 * r <? d then q else if d <? 2 * r then q + 1 else if Z.even q then q else q + 1.

(** How many low bits of [n / d] a significand of 53 bits has no room for. *)
Definition excess (n d : Z) : Z := Z.max 0 (Z.log2 (n / d) - 52).

Definition round (n d : Z) : Z :=
  let e := excess n d in nearest n (d * 2 ^ e) * 2 ^ e.

Definition fadd (a b : Z) : Z := round (a + b) 1.
Definition fsub (a b : Z) : Z := round (a - b) 1.
Definition fmul (a b : Z) : Z := round (a * b) one.
Definition fdiv (a b : Z) : Z := round (a * one) b.

(** [float(n)]. *)
Definition of_Z (n : Z) : Z := round (n * one) 1.

(** [math.ceil] and [int]. *)
Definition ceil (a : Z) : Z := - (- a / one).
Definition trunc (a : Z) : Z := a / one.

Definition is_double (a : Z) : Prop := round a 1 = a.

(** * Rounding *)
Lemma one_pos : 0 < one.
Proof. unfold one. lia. Qed.

Lemma nearest_unfold n d :
  nearest n d = if 2 * (n mod d) <? d then n / d
                else if d <? 2 * (n mod d) then n / d + 1 else if Z.even (n / d) then n / d else n / d + 1.
Proof. unfold nearest, Z.div, Z.modulo. by destruct (Z.div_eucl n d). Qed.

Lemma nearest_error n d : 0 < d → 2 * Z.abs (nearest n d * d - n) <= d.
Proof.
  intros Hd. rewrite nearest_unfold. pose proof (Z.div_mod n d ltac:(lia)). pose proof (Z.mod_pos_bound n d Hd).
  destruct (Z.ltb_spec (2 * (n mod d)) d); [nia|]. destruct (Z.ltb_spec d (2 * (n mod d))); [nia|].
  destruct (Z.even _); nia.
Qed.

Lemma nearest_cases n d : 0 < d → nearest n d = n / d ∨ nearest n d = n / d + 1.
Proof. intros Hd. rewrite nearest_unfold. split_ifs; auto. Qed.

Lemma nearest_mono n1 n2 d : 0 < d → n1 <= n2 → nearest n1 d <= nearest n2 d.
Proof.
  intros Hd Hn. pose proof (Z.div_le_mono n1 n2 d Hd Hn) as Hq.
  destruct (Z.eq_dec (n1 / d) (n2 / d)) as [E|N].
  - rewrite !nearest_unfold, E. pose proof (Z.div_mod n1 d ltac:(lia)). pose proof (Z.div_mod n2 d ltac:(lia)).
    assert (n1 mod d <= n2 mod d) by nia.
    destruct (Z.ltb_spec (2 * (n1 mod d)) d), (Z.ltb_spec (2 * (n2 mod d)) d),
      (Z.ltb_spec d (2 * (n1 mod d))), (Z.ltb_spec d (2 * (n2 mod d))), (Z.even (n2 / d)); lia.
  - destruct (nearest_cases n1 d Hd) as [-> | ->], (nearest_cases n2 d Hd) as [-> | ->]; lia.
Qed.

Lemma nearest_exact k d : 0 < d → nearest (k * d) d = k.
Proof.
  intros Hd. rewrite nearest_unfold. rewrite Z.div_mul, Z.mod_mul by lia. by destruct (Z.ltb_spec (2 * 0) d); [|lia].
Qed.

Lemma excess_nonneg n d : 0 <= excess n d.
Proof. unfold excess. lia. Qed.

Lemma pow2_pos e : 0 <= e → 0 < 2 ^ e.
Proof. intros He. by apply Z.pow_pos_nonneg. Qed.

(** A significand that was cut has its top bit set. *)
Lemma excess_low n d : 0 < d → 0 < excess n d → d * 2 ^ (excess n d + 52) <= n.
Proof.
  intros Hd He. unfold excess in *.
  assert (Hq : 0 < n / d) by (pose proof (Z.log2_nonpos (n / d)); lia).
  replace (Z.max 0 (Z.log2 (n / d) - 52) + 52) with (Z.log2 (n / d)) by lia.
  pose proof (Z.log2_spec (n / d) Hq) as [Hl _]. pose proof (Z.mul_div_le n d Hd). nia.
Qed.

Lemma excess_high n d : 0 < d → 0 <= n → n < d * 2 ^ (excess n d + 53).
Proof.
  intros Hd Hn. assert (Hq : n / d < 2 ^ (excess n d + 53)).
  { destruct (Z.eq_dec (n / d) 0) as [->|Hz]; [apply pow2_pos; pose proof (excess_nonneg n d); lia|].
    pose proof (Z.div_pos n d Hn Hd). pose proof (Z.log2_spec (n / d) ltac:(lia)) as [_ Hl].
    eapply Z.lt_le_trans; [exact Hl|]. apply Z.pow_le_mono_r; [lia|]. unfold excess. lia. }
  pose proof (Z.mul_succ_div_gt n d Hd). nia.
Qed.

Lemma excess_mono n1 n2 d : 0 < d → n1 <= n2 → excess n1 d <= excess n2 d.
Proof.
  intros Hd Hn. unfold excess. pose proof (Z.log2_le_mono (n1 / d) (n2 / d)).
  pose proof (Z.div_le_mono n1 n2 d Hd Hn). lia.
Qed.

Lemma round_nonneg n d : 0 < d → 0 <= n → 0 <= round n d.
Proof.
  intros Hd Hn. unfold round. pose proof (pow2_pos _ (excess_nonneg n d)).
  pose proof (nearest_mono 0 n (d * 2 ^ excess n d) ltac:(nia) Hn) as Hm.
  pose proof (nearest_exact 0 (d * 2 ^ excess n d) ltac:(nia)) as H0. rewrite Z.mul_0_l in H0. nia.
Qed.

(** Cut to [2^52 <= m <= 2^53]. *)
Lemma round_low n d : 0 < d → 0 < excess n d → 2 ^ (excess n d + 52) <= round n d.
Proof.
  intros Hd He. pose proof (excess_low n d Hd He) as Hn. unfold round.
  set (e := excess n d) in *. rewrite Z.add_comm, Z.pow_add_r in * by lia.
  pose proof (pow2_pos e ltac:(lia)). apply Z.mul_le_mono_nonneg_r; [lia|].
  rewrite <-(nearest_exact (2 ^ 52) (d * 2 ^ e)) by nia. apply nearest_mono; nia.
Qed.

Lemma round_high n d : 0 < d → 0 <= n → round n d <= 2 ^ (excess n d + 53).
Proof.
  intros Hd Hn. pose proof (excess_high n d Hd Hn) as Hh. unfold round. pose proof (excess_nonneg n d).
  set (e := excess n d) in *. rewrite Z.add_comm, Z.pow_add_r in * by lia.
  pose proof (pow2_pos e ltac:(lia)). apply Z.mul_le_mono_nonneg_r; [lia|].
  rewrite <-(nearest_exact (2 ^ 53) (d * 2 ^ e)) by nia. apply nearest_mono; nia.
Qed.

Lemma round_mono n1 n2 d : 0 < d → 0 <= n1 → n1 <= n2 → round n1 d <= round n2 d.
Proof.
  intros Hd H1 Hn. pose proof (excess_mono n1 n2 d Hd Hn). pose proof (excess_nonneg n1 d).
  destruct (Z.eq_dec (excess n1 d) (excess n2 d)) as [E|N].
  - unfold round. rewrite E. pose proof (pow2_pos (excess n2 d) ltac:(lia)).
    apply Z.mul_le_mono_nonneg_r; [lia|]. apply nearest_mono; nia.
  - pose proof (round_high n1 d Hd H1). pose proof (round_low n2 d Hd ltac:(lia)).
    pose proof (Z.pow_le_mono_r 2 (excess n1 d + 53) (excess n2 d + 52) ltac:(lia) ltac:(lia)). lia.
Qed.

(** The standard model of rounding: a relative error of 2^-53, and half a unit below. *)
Lemma round_error n d : 0 < d → 0 <= n → Z.abs (round n d * d - n) * 2 ^ 53 <= n + d * 2 ^ 52.
Proof.
  intros Hd Hn. unfold round. pose proof (excess_nonneg n d) as He0.
  pose proof (pow2_pos _ He0) as Hp.
  pose proof (nearest_error n (d * 2 ^ excess n d) ltac:(nia)) as Hr.
  replace (nearest n (d * 2 ^ excess n d) * 2 ^ excess n d * d)
    with (nearest n (d * 2 ^ excess n d) * (d * 2 ^ excess n d)) by ring.
  set (x := Z.abs _) in *.
  destruct (Z.eq_dec (excess n d) 0) as [E|N].
  - rewrite E, Z.pow_0_r, Z.mul_1_r in Hr. lia.
  - pose proof (excess_low n d Hd ltac:(lia)) as Hl. rewrite Z.pow_add_r in Hl by lia.
    set (p := 2 ^ excess n d) in *. lia.
Qed.

Lemma is_double_pow m e : 0 <= m <= 2 ^ 53 → 0 <= e → is_double (m * 2 ^ e).
Proof.
  intros Hm He. unfold is_double, round. rewrite Z.mul_1_l.
  destruct (Z.eq_dec m 0) as [->|Hz]; [by rewrite Z.mul_0_l|].
  pose proof (pow2_pos e He) as Hp. set (x := excess (m * 2 ^ e) 1).
  assert (Hx : ∃ k, m * 2 ^ e = k * 2 ^ x).
  { destruct (Z.le_gt_cases x e) as [L|L].
    - exists (m * 2 ^ (e - x)). rewrite <-Z.mul_assoc, <-Z.pow_add_r by (unfold x, excess in *; lia). do 2 f_equal. lia.
    - assert (Hlog : Z.log2 (m * 2 ^ e) = Z.log2 m + e) by (rewrite Z.log2_mul_pow2 by lia; lia).
      pose proof (Z.log2_le_mono m (2 ^ 53) ltac:(lia)) as Hl. rewrite Z.log2_pow2 in Hl by lia.
      assert (Hx : x = Z.max 0 (Z.log2 m + e - 52)) by (unfold x, excess; by rewrite Z.div_1_r, Hlog).
      assert (Hl53 : Z.log2 m = 53) by lia.
      pose proof (Z.log2_spec m ltac:(lia)) as [Hlm _]. rewrite Hl53 in Hlm.
      assert (m = 2 ^ 53) as -> by lia.
      exists (2 ^ 52). rewrite <-!Z.pow_add_r by lia. f_equal. lia. }
  destruct Hx as [k ->]. by rewrite nearest_exact by (apply pow2_pos, excess_nonneg).
Qed.

Lemma round_double n d : 0 < d → 0 <= n → is_double (round n d).
Proof.
  intros Hd Hn. pose proof (excess_nonneg n d) as He. pose proof (pow2_pos _ He) as Hp.
  pose proof (round_high n d Hd Hn) as Hh. pose proof (round_nonneg n d Hd Hn) as H0.
  unfold round in *. rewrite Z.pow_add_r in Hh by lia. apply is_double_pow; [|done]. nia.
Qed.

(** A double on one side of an exact result stays there after rounding. *)
Lemma round_le n a : 0 <= n <= a → is_double a → round n 1 <= a.
Proof. intros Hn Ha. rewrite <-Ha. apply round_mono; lia. Qed.

Lemma le_round n a : 0 <= a <= n → is_double a → a <= round n 1.
Proof. intros Hn Ha. rewrite <-Ha. apply round_mono; lia. Qed.

Lemma of_Z_exact n : 0 <= n <= 2 ^ 53 → of_Z n = n * one.
Proof. intros Hn. apply (is_double_pow n 1074); lia. Qed.

Lemma one_double : is_double one.
Proof. unfold one. rewrite <-(Z.mul_1_l (2 ^ 1074)). apply is_double_pow; lia. Qed.

Lemma ceil_ge a : a <= ceil a * one.
Proof. unfold ceil. pose proof (Z.mul_div_le (- a) one one_pos). lia. Qed.

End Float64.
