(* ===== verification/Seconds.v ===== *)
(** Instants as float seconds.

    The hub keeps the times of its cards as doubles ([time.time()]); the table keeps them
    as [timestamptz], microseconds.  [timestamp] is [datetime.timestamp()], the quotient
    of the microseconds by 10^6 rounded to a double; [to_timestamp] is PostgreSQL's
    function of that name: the distance to 2000-01-01 in doubles, times 10^6, rounded to
    the nearest integer.  A double comes back from the table within two microseconds, and one
    that came from the table comes back as it was. *)

From S2P Require Import Prelude Float64 PyValue Datetime.
Local Open Scope Z_scope.

(** A double that is not negative, counted in units of 2^-1074 (see [Float64]). *)
Definition seconds : Type := Z.

(** [datetime.timestamp()] of an aware instant: [total_microseconds / 10**6]. *)
Definition timestamp (t : datetime) : seconds := Float64.round (t * Float64.one) usec_per_sec.

(** 2000-01-01T00:00:00Z, PostgreSQL's epoch, in seconds. *)
Definition postgres_epoch : Z := 946684800.

(** [to_timestamp(double precision)]. *)
Definition to_timestamp (d : seconds) : datetime :=
  let x := d - postgres_epoch * Float64.one in
  let us := Float64.nearest (Float64.round (Float64.round (Z.abs x) 1 * usec_per_sec) 1) Float64.one in
  postgres_epoch * usec_per_sec + (if x <? 0 then - us else us).

(** Two doubles that are at most two microseconds apart. *)
Definition within_2_usec (d d' : seconds) : Prop := Z.abs (d' - d) * usec_per_sec <= 2 * Float64.one.

Lemma round1_error n : 0 <= n → Z.abs (Float64.round n 1 - n) * 2 ^ 53 <= n + 2 ^ 52.
Proof. intros Hn. pose proof (Float64.round_error n 1 ltac:(lia) Hn). by rewrite !Z.mul_1_r, Z.mul_1_l in *. Qed.

(** PostgreSQL's rounding: a microsecond and a half at most, up to the year 2106. *)
Lemma to_timestamp_error d : 0 <= d <= 2 ^ 32 * Float64.one →
  2 * Z.abs (to_timestamp d * Float64.one - d * usec_per_sec) <= 3 * Float64.one.
Proof.
  unfold to_timestamp, postgres_epoch, usec_per_sec. cbv zeta. set (B := Float64.one). intros Hd.
  assert (HB : 2 ^ 60 <= B) by (unfold B, Float64.one; lia).
  set (x := d - 946684800 * B). pose proof (round1_error (Z.abs x) ltac:(lia)) as H1.
  pose proof (Float64.round_nonneg (Z.abs x) 1 ltac:(lia) ltac:(lia)) as H1p.
  set (s := Float64.round (Z.abs x) 1) in *.
  pose proof (round1_error (s * 1000000) ltac:(lia)) as H2. set (p := Float64.round (s * 1000000) 1) in *.
  pose proof (Float64.nearest_error p B ltac:(lia)) as H3. set (u := Float64.nearest p B) in *.
  clearbody s p u. clearbody B. destruct (Z.ltb_spec x 0); subst x; lia.
Qed.

(** Above its epoch PostgreSQL's subtraction is exact. *)
Lemma epoch_distance n d : 0 <= n → 0 < d → let a := Float64.round n d in
  0 <= a - postgres_epoch * Float64.one → n <= 2 ^ 32 * Float64.one * d →
  Float64.is_double (a - postgres_epoch * Float64.one).
Proof.
  intros Hn Hd a Ha Hmax. pose proof (Float64.round_high n d Hd Hn) as Hh. fold a in Hh.
  pose proof (Float64.excess_nonneg n d) as He.
  assert (Hle : Float64.excess n d <= 1074).
  { unfold Float64.excess. assert (Z.log2 (n / d) <= 1106); [|lia].
    replace 1106 with (Z.log2 (2 ^ 32 * Float64.one)) by (vm_compute; done). apply Z.log2_le_mono.
    apply Z.div_le_upper_bound; lia. }
  subst a. unfold Float64.round in *. set (e := Float64.excess n d) in *.
  set (k := Float64.nearest n (d * 2 ^ e)) in *.
  assert (HB : Float64.one = 2 ^ (1074 - e) * 2 ^ e) by (unfold Float64.one; rewrite <-Z.pow_add_r by lia; f_equal; lia).
  pose proof (Float64.pow2_pos e He) as Hp. rewrite Z.add_comm, Z.pow_add_r in Hh by lia.
  pose proof (Float64.pow2_pos (1074 - e) ltac:(lia)) as Hq.
  rewrite HB in *. replace (k * 2 ^ e - postgres_epoch * (2 ^ (1074 - e) * 2 ^ e))
    with ((k - postgres_epoch * 2 ^ (1074 - e)) * 2 ^ e) in * by ring.
  apply Float64.is_double_pow; [|done]. unfold postgres_epoch in *. nia.
Qed.

(** The last rounding: an error below half a microsecond leaves the microsecond. *)
Lemma nearest_within n p B : 0 < B → 2 * Z.abs (p - n * B) < B → Float64.nearest p B = n.
Proof. intros HB Hp. pose proof (Float64.nearest_error p B HB). nia. Qed.

(** An instant of the table up to the year 2041 is the one its double is read as. *)
Lemma to_timestamp_timestamp t : 0 <= t < 2 ^ 51 → to_timestamp (timestamp t) = t.
Proof.
  unfold to_timestamp, timestamp, usec_per_sec. cbv zeta. intros Ht.
  assert (HB : 2 ^ 60 <= Float64.one) by (unfold Float64.one; lia).
  pose proof (Float64.round_error (t * Float64.one) 1000000 ltac:(lia) ltac:(lia)) as H0.
  pose proof (epoch_distance (t * Float64.one) 1000000 ltac:(lia) ltac:(lia)) as Hex. cbv zeta in Hex.
  assert (HtB : t * Float64.one <= (2 ^ 51 - 1) * Float64.one) by (apply Z.mul_le_mono_nonneg_r; lia).
  set (d := Float64.round _ 1000000) in *. clearbody d. unfold postgres_epoch in *.
  set (B := Float64.one) in *. set (n := t - 946684800 * 1000000).
  destruct (Z.ltb_spec (d - 946684800 * B) 0) as [Hx|Hx].
  - rewrite Z.abs_neq by lia. set (x := - (d - 946684800 * B)).
    pose proof (round1_error x ltac:(lia)) as H1. set (s := Float64.round x 1) in *.
    pose proof (Float64.round_nonneg x 1 ltac:(lia) ltac:(lia) : 0 <= s) as H1p.
    pose proof (round1_error (s * 1000000) ltac:(lia)) as H2. set (p := Float64.round (s * 1000000) 1) in *.
    rewrite (nearest_within (- n) p B ltac:(lia)); [lia|]. subst n x. clearbody s p B.
    replace (- (t - 946684800 * 1000000) * B) with (946684800000000 * B - t * B) by ring. lia.
  - rewrite Z.abs_eq by lia. specialize (Hex Hx ltac:(lia)). rewrite Hex.
    set (x := d - 946684800 * B) in *.
    pose proof (round1_error (x * 1000000) ltac:(lia)) as H2. set (p := Float64.round (x * 1000000) 1) in *.
    rewrite (nearest_within n p B ltac:(lia)); [lia|]. subst n x. clearbody p B.
    replace ((t - 946684800 * 1000000) * B) with (t * B - 946684800000000 * B) by ring. lia.
Qed.

Lemma timestamp_nonneg t : 0 <= t → 0 <= timestamp t.
Proof. intros Ht. apply Float64.round_nonneg; unfold usec_per_sec; pose proof Float64.one_pos; lia. Qed.

(** Through the table and back, from the first second of 1970 to 2106. *)
Definition current (d : seconds) : Prop := Float64.one <= d <= 2 ^ 32 * Float64.one.

Lemma timestamp_to_timestamp d : current d → within_2_usec d (timestamp (to_timestamp d)).
Proof.
  intros Hd. unfold current in Hd. assert (HB : 2 ^ 60 <= Float64.one) by (unfold Float64.one; lia).
  pose proof (to_timestamp_error d ltac:(lia)) as H1. unfold within_2_usec, timestamp, usec_per_sec in *.
  set (t := to_timestamp d) in *. set (B := Float64.one) in *.
  assert (Hn : 0 <= t) by nia.
  pose proof (Float64.round_error (t * B) 1000000 ltac:(lia) ltac:(nia)) as H0.
  set (e := Float64.round (t * B) 1000000) in *. clearbody e t B. lia.
Qed.

#[global] Arguments timestamp : simpl never.
#[global] Arguments to_timestamp : simpl never.
