(* ===== verification/Json.v ===== *)
(** JSON texts: Python's [json.dumps] and [json.loads].

    The signed and hashed records of the program are JSON texts in the compact form
    ([separators=(",", ":")], non-ASCII characters escaped, keys sorted where the code
    asks for it).  A Python string is its UTF-8 bytes, as in PyValue; a float is kept
    as the text of its literal. *)

From S2P Require Import Prelude PyValue Datetime.
From Stdlib Require Import Ascii.
Local Open Scope Z_scope.

Module Json.

Inductive json :=
| JNull
| JBool (b : bool)
| JInt (n : Z)
| JFloat (text : string)
| JStr (s : string)
| JList (l : list json)
| JObj (d : list (string * json)).

(** * Code points and UTF-8 *)
Definition utf8_char (n : Z) : string :=
  if n <? 128 then str1 (chr n)
  else if n <? 2048 then String (chr (192 + n / 64)) (str1 (chr (128 + n mod 64)))
  else if n <? 65536 then
    String (chr (224 + n / 4096)) (String (chr (128 + n / 64 mod 64)) (str1 (chr (128 + n mod 64))))
  else
    String (chr (240 + n / 262144)) (String (chr (128 + n / 4096 mod 64))
      (String (chr (128 + n / 64 mod 64)) (str1 (chr (128 + n mod 64))))).

Fixpoint utf8 (cps : list Z) : string :=
  match cps with [] => "" | n :: rest => utf8_char n +:+ utf8 rest end.

(** The code points of a text; the bytes of the inputs are those of a Python string. *)
Fixpoint code_points (s : string) : list Z :=
  match s with
  | EmptyString => []
  | String a s1 =>
      let n := code a in
      if n <? 128 then n :: code_points s1
      else match s1 with
      | EmptyString => [n]
      | String b s2 =>
          if n <? 224 then ((n - 192) * 64 + (code b - 128)) :: code_points s2
          else match s2 with
          | EmptyString => [n]
          | String c s3 =>
              if n <? 240 then ((n - 224) * 4096 + (code b - 128) * 64 + (code c - 128)) :: code_points s3
              else match s3 with
              | EmptyString => [n]
              | String d s4 =>
                  ((n - 240) * 262144 + (code b - 128) * 4096 + (code c - 128) * 64 + (code d - 128))
                  :: code_points s4
              end
          end
      end
  end.

Definition scalar (n : Z) : Prop := 0 <= n < 55296 ∨ 57344 <= n < 1114112.

(** * [json.dumps] *)

(** Four lower-case hexadecimal digits. *)
Definition hex4 (n : Z) (rest : string) : string :=
  String (hex_digit (n / 4096 mod 16)) (String (hex_digit (n / 256 mod 16))
    (String (hex_digit (n / 16 mod 16)) (String (hex_digit (n mod 16)) rest))).

Definition escape_u (n : Z) (rest : string) : string := String backslash (String "u" (hex4 n rest)).

(** One character of a string literal, followed by [rest]. *)
Definition escape (n : Z) (rest : string) : string :=
  if n =? 34 then String backslash (String dquote rest)
  else if n =? 92 then String backslash (String backslash rest)
  else if n =? 10 then String backslash (String "n" rest)
  else if n =? 13 then String backslash (String "r" rest)
  else if n =? 9 then String backslash (String "t" rest)
  else if n =? 12 then String backslash (String "f" rest)
  else if n =? 8 then String backslash (String "b" rest)
  else if (32 <=? n) && (n <=? 126) then String (chr n) rest
  else if n <? 65536 then escape_u n rest
  else escape_u (55296 + (n - 65536) / 1024) (escape_u (56320 + (n - 65536) mod 1024) rest).

Fixpoint escapes (cps : list Z) (rest : string) : string :=
  match cps with [] => rest | n :: cps' => escape n (escapes cps' rest) end.

Definition quote (s : string) : string := String dquote (escapes (code_points s) (str1 dquote)).

(** [json.dumps(v, separators=(",", ":"))]. *)
Fixpoint dumps (j : json) : string :=
  match j with
  | JNull => "null"
  | JBool true => "true"
  | JBool false => "false"
  | JInt n => str_of_Z n
  | JFloat t => t
  | JStr s => quote s
  | JList l => "[" +:+ join "," (map dumps l) +:+ "]"
  | JObj d => "{" +:+ join "," (map (fun kv => quote kv.1 +:+ ":" +:+ dumps kv.2) d) +:+ "}"
  end.

(** [sort_keys=True]: the items of every object by key. *)
Section Sort.
Context {V : Type}.
Fixpoint insert_key (k : string) (v : V) (d : list (string * V)) : list (string * V) :=
  match d with
  | [] => [(k, v)]
  | (k', v') :: d' => if String.leb k k' then (k, v) :: d else (k', v') :: insert_key k v d'
  end.
Fixpoint sort_items (d : list (string * V)) : list (string * V) :=
  match d with [] => [] | (k, v) :: d' => insert_key k v (sort_items d') end.
End Sort.

Fixpoint sorted (j : json) : json :=
  match j with
  | JList l => JList (map sorted l)
  | JObj d => JObj (sort_items (map (fun kv => (kv.1, sorted kv.2)) d))
  | _ => j
  end.

(** [json.dumps(v, sort_keys=True, separators=(",", ":"))]. *)
Definition canonical (j : json) : string := dumps (sorted j).

(** * [json.loads] *)
Definition is_ws (c : ascii) : bool :=
  let n := code c in (n =? 32) || (n =? 9) || (n =? 10) || (n =? 13).

Fixpoint skip_ws (s : string) : string :=
  match s with
  | EmptyString => EmptyString
  | String c s' => if is_ws c then skip_ws s' else s
  end.

Definition hex_value (c : ascii) : option Z :=
  match digit_value c with Some d => if d <? 16 then Some d else None | None => None end.

Definition hex4_value (a b c d : ascii) : option Z :=
  a ← hex_value a; b ← hex_value b; c ← hex_value c; d ← hex_value d;
  Some (a * 4096 + b * 256 + c * 16 + d).

Definition unescape (c : ascii) : option ascii :=
  if Ascii.eqb c dquote then Some dquote
  else if Ascii.eqb c backslash then Some backslash
  else if Ascii.eqb c "/" then Some c
  else if Ascii.eqb c "b" then Some (chr 8)
  else if Ascii.eqb c "f" then Some (chr 12)
  else if Ascii.eqb c "n" then Some (chr 10)
  else if Ascii.eqb c "r" then Some (chr 13)
  else if Ascii.eqb c "t" then Some (chr 9)
  else None.

(** The literal after its opening quote: its text and what follows the closing one.  A
    high surrogate joins the low one that follows it. *)
Fixpoint parse_chars (s : string) : option (string * string) :=
  match s with
  | EmptyString => None
  | String c s1 =>
      if Ascii.eqb c dquote then Some ("", s1)
      else if Ascii.eqb c backslash then
        match s1 with
        | EmptyString => None
        | String e s2 =>
            if Ascii.eqb e "u" then
              match s2 with
              | String h1 (String h2 (String h3 (String h4 s3))) =>
                  match hex4_value h1 h2 h3 h4 with
                  | None => None
                  | Some u =>
                      let lone := p ← parse_chars s3; Some (utf8_char u +:+ p.1, p.2) in
                      if (55296 <=? u) && (u <? 56320) then
                        match s3 with
                        | String b (String v (String l1 (String l2 (String l3 (String l4 s4))))) =>
                            if Ascii.eqb b backslash && Ascii.eqb v "u" then
                              match hex4_value l1 l2 l3 l4 with
                              | Some w =>
                                  if (56320 <=? w) && (w <? 57344) then
                                    p ← parse_chars s4;
                                    Some (utf8_char (65536 + (u - 55296) * 1024 + (w - 56320)) +:+ p.1, p.2)
                                  else lone
                              | None => lone
                              end
                            else lone
                        | _ => lone
                        end
                      else lone
                  end
              | _ => None
              end
            else match unescape e with
                 | Some x => p ← parse_chars s2; Some (String x p.1, p.2)
                 | None => None
                 end
        end
      else if code c <? 32 then None
      else p ← parse_chars s1; Some (String c p.1, p.2)
  end.

Fixpoint span_digits (s : string) : string * string :=
  match s with
  | String c s' => if is_digit c then let '(a, b) := span_digits s' in (String c a, b) else ("", s)
  | EmptyString => ("", "")
  end.

(** A number: an optional sign, an integer part without leading zeros, and optionally a
    fraction and an exponent, each taken only when it is complete. *)
Definition int_part (s : string) : option (string * string) :=
  match s with
  | String c s' => if Ascii.eqb c "0" then Some ("0", s')
                   else if is_digit c then Some (span_digits s) else None
  | EmptyString => None
  end.

Definition frac_part (s : string) : string * string :=
  match s with
  | String c s' => if Ascii.eqb c "." then
                     match span_digits s' with
                     | ("", _) => ("", s)
                     | (ds, r) => (String c ds, r)
                     end
                   else ("", s)
  | EmptyString => ("", "")
  end.

Definition exp_part (s : string) : string * string :=
  match s with
  | String c s' =>
      if Ascii.eqb c "e" || Ascii.eqb c "E" then
        let '(sign, s'') := match s' with
                            | String g r => if Ascii.eqb g "+" || Ascii.eqb g "-" then (str1 g, r) else ("", s')
                            | EmptyString => ("", s')
                            end in
        match span_digits s'' with
        | ("", _) => ("", s)
        | (ds, r) => (String c (sign +:+ ds), r)
        end
      else ("", s)
  | EmptyString => ("", "")
  end.

Definition parse_unsigned (neg : bool) (s : string) : option (json * string) :=
  i ← int_part s;
  let f := frac_part i.2 in
  let e := exp_part f.2 in
  if String.eqb f.1 "" && String.eqb e.1 "" then
    n ← int_of_str 10 i.1; Some (JInt (if neg then - n else n), i.2)
  else Some (JFloat ((if neg then "-" else "") +:+ i.1 +:+ f.1 +:+ e.1), e.2).

Definition parse_number (s : string) : option (json * string) :=
  match s with
  | String c s' => if Ascii.eqb c "-" then parse_unsigned true s' else parse_unsigned false s
  | EmptyString => None
  end.

(** The words: [null], [true], [false] and the constants [json.loads] adds. *)
Definition words : list (string * json) :=
  [("null", JNull); ("true", JBool true); ("false", JBool false); ("NaN", JFloat "NaN");
   ("Infinity", JFloat "Infinity"); ("-Infinity", JFloat "-Infinity")].

Fixpoint after_word (w s : string) : option string :=
  match w, s with
  | EmptyString, _ => Some s
  | String a w', String b s' => if Ascii.eqb a b then after_word w' s' else None
  | String _ _, EmptyString => None
  end.

Fixpoint parse_word (ws : list (string * json)) (s : string) : option (json * string) :=
  match ws with
  | [] => None
  | (w, j) :: ws' =>
      match after_word w s with Some r => Some (j, r) | None => parse_word ws' s end
  end.

(** The next character, after white space, if it is [c]: what follows it. *)
Definition eat (c : ascii) (s : string) : option string :=
  match skip_ws s with
  | String c' r => if Ascii.eqb c' c then Some r else None
  | EmptyString => None
  end.

Fixpoint parse_value (fuel : nat) (s : string) : option (json * string) :=
  match fuel with
  | O => None
  | S f =>
      match skip_ws s with
      | EmptyString => None
      | String c r =>
          if Ascii.eqb c dquote then p ← parse_chars r; Some (JStr p.1, p.2)
          else if Ascii.eqb c "[" then
            match eat "]" r with
            | Some r' => Some (JList [], r')
            | None => p ← parse_elems f r; Some (JList p.1, p.2)
            end
          else if Ascii.eqb c "{" then
            match eat "}" r with
            | Some r' => Some (JObj [], r')
            | None => p ← parse_members f r; Some (JObj (dict_update [] p.1), p.2)
            end
          else match parse_word words (String c r) with
               | Some p => Some p
               | None => parse_number (String c r)
               end
      end
  end
with parse_elems (fuel : nat) (s : string) : option (list json * string) :=
  match fuel with
  | O => None
  | S f =>
      p ← parse_value f s;
      match eat "," p.2 with
      | Some r => q ← parse_elems f r; Some (p.1 :: q.1, q.2)
      | None => r ← eat "]" p.2; Some ([p.1], r)
      end
  end
with parse_members (fuel : nat) (s : string) : option (list (string * json) * string) :=
  match fuel with
  | O => None
  | S f =>
      r ← eat dquote s;
      k ← parse_chars r;
      r1 ← eat ":" k.2;
      p ← parse_value f r1;
      match eat "," p.2 with
      | Some r2 => q ← parse_members f r2; Some ((k.1, p.1) :: q.1, q.2)
      | None => r2 ← eat "}" p.2; Some ([(k.1, p.1)], r2)
      end
  end.

(** [json.loads(s)]; every call of the parser consumes a character or is one of three
    nested at the same position, so three times the length is enough fuel. *)
Definition loads (s : string) : option json :=
  p ← parse_value (3 * String.length s + 3) s;
  match skip_ws p.2 with EmptyString => Some p.1 | _ => None end.

(** * [loads] inverts [dumps] *)

(** ** Characters *)
Lemma code_byte n : 0 <= n < 256 → code (chr n) = n.
Proof. apply code_chr. Qed.

Lemma code_points_char n rest : scalar n → code_points (utf8_char n +:+ rest) = n :: code_points rest.
Proof.
  intros Hn. unfold utf8_char.
  assert (H0 : 0 <= n < 1114112) by (destruct Hn; lia). clear Hn.
  assert (Hm : ∀ m, 0 <= m mod 64 < 64) by (intros m; apply Z.mod_pos_bound; lia).
  pose proof (Hm n). pose proof (Hm (n / 64)). pose proof (Hm (n / 64 / 64)).
  assert (Hd : n / 4096 = n / 64 / 64) by by rewrite Z.div_div.
  assert (Hd' : n / 262144 = n / 64 / 64 / 64) by by rewrite !Z.div_div.
  pose proof (Z.div_mod n 64 ltac:(lia)). pose proof (Z.div_mod (n / 64) 64 ltac:(lia)).
  pose proof (Z.div_mod (n / 64 / 64) 64 ltac:(lia)).
  destruct (Z.ltb_spec n 128); [|destruct (Z.ltb_spec n 2048); [|destruct (Z.ltb_spec n 65536)]];
    rewrite ?app_cons, ?app_str1; cbn -[Z.div Z.modulo Z.mul Z.ltb Z.add Z.sub code chr]; rewrite ?Hd, ?Hd';
    rewrite !code_byte by lia.
  - by rewrite (proj2 (Z.ltb_lt n 128)) by lia.
  - rewrite (proj2 (Z.ltb_ge _ 128)), (proj2 (Z.ltb_lt _ 224)) by lia. f_equal. lia.
  - rewrite (proj2 (Z.ltb_ge _ 128)), (proj2 (Z.ltb_ge _ 224)), (proj2 (Z.ltb_lt _ 240)) by lia. f_equal. lia.
  - rewrite (proj2 (Z.ltb_ge _ 128)), (proj2 (Z.ltb_ge _ 224)), (proj2 (Z.ltb_ge _ 240)) by lia. f_equal. lia.
Qed.

Lemma code_points_utf8 cps : Forall scalar cps → code_points (utf8 cps) = cps.
Proof.
  induction 1 as [|n cps Hn _ IH]; cbn [utf8]; [done|]. by rewrite code_points_char, IH.
Qed.

Lemma hex_value_digit k : 0 <= k < 16 → hex_value (hex_digit k) = Some k.
Proof.
  intros Hk. assert (H : forallb (fun i => bool_decide (hex_value (hex_digit (Z.of_nat i)) = Some (Z.of_nat i)))
    (seq 0 16) = true) by by vm_compute.
  rewrite forallb_forall in H. specialize (H (Z.to_nat k)).
  rewrite Z2Nat.id in H by lia. eapply bool_decide_eq_true_1, H, in_seq. lia.
Qed.

Lemma hex4_roundtrip n :
  0 <= n < 65536 →
  hex4_value (hex_digit (n / 4096 mod 16)) (hex_digit (n / 256 mod 16)) (hex_digit (n / 16 mod 16))
    (hex_digit (n mod 16)) = Some n.
Proof.
  intros Hn. unfold hex4_value. rewrite !hex_value_digit by (apply Z.mod_pos_bound; lia).
  cbn [mbind option_bind]. f_equal.
  assert (n / 256 = n / 16 / 16) as -> by by rewrite Z.div_div.
  assert (n / 4096 = n / 16 / 16 / 16) as -> by by rewrite !Z.div_div.
  assert (Hb : 0 <= n / 16 / 16 / 16 < 16).
  { rewrite !Z.div_div by lia. split; [apply Z.div_pos; lia|apply Z.div_lt_upper_bound; lia]. }
  pose proof (Z.div_mod n 16 ltac:(lia)). pose proof (Z.div_mod (n / 16) 16 ltac:(lia)).
  pose proof (Z.div_mod (n / 16 / 16) 16 ltac:(lia)).
  rewrite (Z.mod_small (n / 16 / 16 / 16)) by lia. lia.
Qed.

(** [parse_chars] on a prefix that stands for [t]. *)
Definition adds (t : string) (o : option (string * string)) : option (string * string) :=
  p ← o; Some (t +:+ p.1, p.2).

Lemma parse_escape_u n rest :
  0 <= n < 65536 → ¬ (55296 <= n < 56320) →
  parse_chars (escape_u n rest) = adds (utf8_char n) (parse_chars rest).
Proof.
  intros Hn Hs. unfold escape_u, hex4.
  cbn -[hex_digit hex4_value utf8_char Z.leb Z.ltb Z.div Z.modulo]. rewrite hex4_roundtrip by done.
  destruct (Z.leb_spec 55296 n), (Z.ltb_spec n 56320); cbn [andb]; try done. lia.
Qed.

Lemma parse_escape_pair n rest :
  65536 <= n < 1114112 →
  parse_chars (escape_u (55296 + (n - 65536) / 1024) (escape_u (56320 + (n - 65536) mod 1024) rest))
    = adds (utf8_char n) (parse_chars rest).
Proof.
  intros Hn. assert (Hm : 0 <= (n - 65536) mod 1024 < 1024) by (apply Z.mod_pos_bound; lia).
  assert (Hd : 0 <= (n - 65536) / 1024 < 1024).
  { split; [apply Z.div_pos; lia|apply Z.div_lt_upper_bound; lia]. }
  pose proof (Z.div_mod (n - 65536) 1024 ltac:(lia)).
  unfold escape_u, hex4. cbn -[hex_digit hex4_value utf8_char Z.leb Z.ltb Z.div Z.modulo Z.add Z.sub Z.mul].
  rewrite !hex4_roundtrip by lia.
  rewrite (proj2 (Z.leb_le 55296 _)), (proj2 (Z.ltb_lt _ 56320)) by lia. cbn [andb].
  rewrite (proj2 (Z.leb_le 56320 _)), (proj2 (Z.ltb_lt _ 57344)) by lia. cbn [andb].
  match goal with |- context [utf8_char ?m] => replace m with n by lia end. done.
Qed.

Lemma parse_short e x rest :
  unescape e = Some x → Ascii.eqb e "u" = false →
  parse_chars (String backslash (String e rest)) = adds (str1 x) (parse_chars rest).
Proof.
  intros He Hu. cbn [parse_chars]. rewrite Hu, He.
  change (Ascii.eqb backslash dquote) with false. by rewrite Ascii.eqb_refl.
Qed.

Lemma parse_escape n rest :
  scalar n → parse_chars (escape n rest) = adds (utf8_char n) (parse_chars rest).
Proof.
  intros Hn. unfold escape.
  repeat match goal with
  | |- context [n =? ?k] => destruct (Z.eqb_spec n k) as [->|?];
      [change (utf8_char k) with (str1 (chr k)); apply parse_short; reflexivity|]
  end.
  assert (H0 : 0 <= n < 1114112) by (destruct Hn; lia).
  destruct ((32 <=? n) && (n <=? 126)) eqn:Hp.
  - apply andb_true_iff in Hp as [H1%Z.leb_le H2%Z.leb_le].
    unfold utf8_char. rewrite (proj2 (Z.ltb_lt n 128)) by lia.
    cbn [parse_chars]. assert (Hne : ∀ c, n ≠ code c → Ascii.eqb (chr n) c = false).
    { intros c Hc. apply Ascii.eqb_neq. intros <-. by rewrite code_byte in Hc by lia. }
    rewrite (Hne dquote), (Hne backslash) by done. rewrite code_byte by lia.
    rewrite (proj2 (Z.ltb_ge n 32)) by lia. done.
  - destruct (Z.ltb_spec n 65536).
    + apply parse_escape_u; [lia|]. destruct Hn; lia.
    + apply parse_escape_pair. lia.
Qed.

Lemma parse_escapes cps rest :
  Forall scalar cps → parse_chars (escapes cps (String dquote rest)) = Some (utf8 cps, rest).
Proof.
  induction 1 as [|n cps Hn _ IH]; cbn [escapes utf8]; [done|].
  by rewrite parse_escape, IH.
Qed.

(** A text: the UTF-8 form of scalar values. *)
Definition is_text (s : string) : Prop := Forall scalar (code_points s) ∧ utf8 (code_points s) = s.

Lemma utf8_is_text cps : Forall scalar cps → is_text (utf8 cps).
Proof. intros H. split; by rewrite code_points_utf8. Qed.

Lemma parse_quote s rest :
  is_text s → parse_chars (escapes (code_points s) (String dquote rest)) = Some (s, rest).
Proof. intros [Hs He]. by rewrite parse_escapes, He. Qed.

(** ** Numbers *)
(** What may follow a value inside a text. *)
Definition ends_value (rest : string) : Prop :=
  match rest with EmptyString => True | String c _ => c ∈ ([","; "]"; "}"; ":"]%char : list ascii) end.

Lemma span_digits_app ds rest :
  all_chars is_digit ds = true → ends_value rest → span_digits (ds +:+ rest) = (ds, rest).
Proof.
  intros Hd Hr. induction ds as [|c ds IH]; cbn [all_chars] in Hd.
  - rewrite app_empty. destruct rest as [|c r]; [done|]. cbn [span_digits].
    cbn in Hr. rewrite !elem_of_cons in Hr. by destruct Hr as [->|[->|[->|[->|[]%elem_of_nil]]]].
  - apply andb_true_iff in Hd as [Hc Hd]. rewrite app_cons. cbn [span_digits]. by rewrite Hc, IH.
Qed.

Lemma no_fraction rest : ends_value rest → frac_part rest = ("", rest) ∧ exp_part rest = ("", rest).
Proof.
  destruct rest as [|c r]; [done|]. cbn. rewrite !elem_of_cons.
  by intros [->|[->|[->|[->|[]%elem_of_nil]]]].
Qed.

(** Decimal texts have no leading zero. *)
Lemma to_uint_no_zero p d : Pos.to_uint p ≠ Decimal.D0 d.
Proof.
  intros Hd. assert (Hn : Decimal.unorm (Pos.to_uint p) = Pos.to_uint p).
  { rewrite <- DecimalPos.Unsigned.to_of, DecimalPos.Unsigned.of_to. done. }
  rewrite Hd, DecimalFacts.unorm_D0 in Hn. assert (Hne : d = Decimal.Nil ∨ d ≠ Decimal.Nil).
  { destruct d; [by left|by right..]. }
  destruct Hne as [->|Hne]; [by apply (DecimalPos.Unsigned.to_uint_nonzero p)|].
  pose proof (DecimalFacts.nb_digits_unorm d Hne) as Hl. rewrite Hn in Hl. cbn in Hl. lia.
Qed.

Lemma str_of_pos_head p c s : str_of_Z (Z.pos p) = String c s → Ascii.eqb c "0" = false.
Proof.
  unfold str_of_Z. cbn. intros H. apply Ascii.eqb_neq. intros ->.
  destruct (Pos.to_uint p) as [|d|d|d|d|d|d|d|d|d|d] eqn:Hd; cbn in H; try discriminate.
  by apply to_uint_no_zero in Hd.
Qed.

Lemma int_part_str n rest :
  0 <= n → ends_value rest → int_part (str_of_Z n +:+ rest) = Some (str_of_Z n, rest).
Proof.
  intros Hn Hr. destruct (str_of_Z_digits n Hn) as [Hd Hne].
  destruct n as [|p|p]; [done| |lia].
  destruct (str_of_Z (Z.pos p)) as [|c s] eqn:Hs; [done|]. rewrite app_cons. cbn [int_part].
  rewrite (str_of_pos_head p c s Hs). apply andb_true_iff in Hd as [Hc Hd].
  rewrite Hc. rewrite <- app_cons. rewrite span_digits_app; [done| |done].
  apply andb_true_iff. by split.
Qed.

Lemma parse_unsigned_int neg m rest :
  0 <= m → ends_value rest →
  parse_unsigned neg (str_of_Z m +:+ rest) = Some (JInt (if neg then - m else m), rest).
Proof.
  intros Hm Hr. destruct (no_fraction rest Hr) as [Hf He]. unfold parse_unsigned.
  rewrite int_part_str by done. cbn [mbind option_bind fst snd]. cbv zeta.
  rewrite Hf. cbn [fst snd]. rewrite He. cbn [fst snd]. by rewrite int_of_str_str_of_Z by done.
Qed.

Lemma parse_int n rest :
  ends_value rest → parse_number (str_of_Z n +:+ rest) = Some (JInt n, rest).
Proof.
  intros Hr. unfold parse_number. destruct (Z.le_gt_cases 0 n) as [Hn|Hn].
  - destruct (str_of_Z_digits n Hn) as [Hd Hne]. destruct (str_of_Z n) as [|c s] eqn:Hs; [done|].
    rewrite app_cons. assert (Hc : Ascii.eqb c "-" = false).
    { apply Ascii.eqb_neq. intros ->. cbn in Hd. done. }
    rewrite Hc, <- app_cons, <- Hs. by apply (parse_unsigned_int false).
  - assert (Hs : str_of_Z n = String "-" (str_of_Z (- n))) by by destruct n.
    rewrite Hs, app_cons, Ascii.eqb_refl, parse_unsigned_int by (done || lia). by rewrite Z.opp_involutive.
Qed.

Lemma not_digit_end rest c r : ends_value rest → rest = String c r → is_digit c = false.
Proof. intros H ->. cbn in H. rewrite !elem_of_cons in H. by destruct H as [->|[->|[->|[->|[]%elem_of_nil]]]]. Qed.

(** Parsing a prefix of a number is not disturbed by what follows the number. *)
Lemma span_digits_ext s ds r rest :
  ends_value rest → span_digits s = (ds, r) → span_digits (s +:+ rest) = (ds, r +:+ rest).
Proof.
  intros Hr. revert ds r. induction s as [|c s IH]; intros ds r; cbn [span_digits].
  - intros [= <- <-]. rewrite !app_empty. destruct rest as [|c r]; [done|]. cbn [span_digits].
    by rewrite (not_digit_end _ c r Hr eq_refl).
  - rewrite app_cons. cbn [span_digits]. destruct (is_digit c).
    + destruct (span_digits s) as [ds' r'] eqn:Hs. intros [= <- <-]. by rewrite (IH _ _ eq_refl).
    + intros [= <- <-]. done.
Qed.

Lemma int_part_ext s i r rest :
  ends_value rest → int_part s = Some (i, r) → int_part (s +:+ rest) = Some (i, r +:+ rest).
Proof.
  intros Hr. destruct s as [|c s]; [done|]. rewrite app_cons. cbn [int_part].
  destruct (Ascii.eqb c "0"); [by intros [= <- <-]|]. destruct (is_digit c); [|done].
  rewrite <- app_cons. intros [= Hs]. f_equal. by apply span_digits_ext.
Qed.

Lemma frac_part_ext s f r rest :
  ends_value rest → frac_part s = (f, r) → frac_part (s +:+ rest) = (f, r +:+ rest).
Proof.
  intros Hr. destruct s as [|c s].
  - intros [= <- <-]. rewrite app_empty. by apply no_fraction.
  - rewrite app_cons. cbn [frac_part]. destruct (Ascii.eqb c "."); [|by intros [= <- <-]].
    destruct (span_digits s) as [ds r'] eqn:Hs. rewrite (span_digits_ext _ _ _ _ Hr Hs).
    destruct ds; by intros [= <- <-].
Qed.

Lemma exp_part_ext s e r rest :
  ends_value rest → exp_part s = (e, r) → exp_part (s +:+ rest) = (e, r +:+ rest).
Proof.
  intros Hr. destruct s as [|c s].
  - intros [= <- <-]. rewrite app_empty. by apply no_fraction.
  - rewrite app_cons. cbn [exp_part]. destruct (Ascii.eqb c "e" || Ascii.eqb c "E"); [|by intros [= <- <-]].
    destruct s as [|g s].
    + cbn. intros [= <- <-]. rewrite app_empty. destruct rest as [|g r]; [done|].
      assert (Hg : Ascii.eqb g "+" || Ascii.eqb g "-" = false).
      { cbn in Hr. rewrite !elem_of_cons in Hr. by destruct Hr as [->|[->|[->|[->|[]%elem_of_nil]]]]. }
      rewrite Hg. pose proof (span_digits_ext "" "" "" _ Hr eq_refl) as Hs. rewrite !app_empty in Hs. by rewrite Hs.
    + rewrite app_cons. destruct (Ascii.eqb g "+" || Ascii.eqb g "-").
      * destruct (span_digits s) as [ds r'] eqn:Hs. rewrite (span_digits_ext _ _ _ _ Hr Hs).
        destruct ds; by intros [= <- <-].
      * rewrite <- app_cons. destruct (span_digits (String g s)) as [ds r'] eqn:Hs.
        rewrite (span_digits_ext _ _ _ _ Hr Hs). destruct ds; by intros [= <- <-].
Qed.

(** The text of a float is one [json.loads] reads back as that float. *)
Definition float_text (t : string) : bool :=
  match parse_number t with Some (JFloat t', EmptyString) => String.eqb t t' | _ => false end.

Lemma parse_unsigned_ext neg s t rest :
  ends_value rest → parse_unsigned neg s = Some (JFloat t, "") →
  parse_unsigned neg (s +:+ rest) = Some (JFloat t, rest).
Proof.
  intros Hr. unfold parse_unsigned. destruct (int_part s) as [[i r]|] eqn:Hi; [|done].
  rewrite (int_part_ext _ _ _ _ Hr Hi). cbn [mbind option_bind fst snd]. cbv zeta.
  destruct (frac_part r) as [f r1] eqn:Hf. rewrite (frac_part_ext _ _ _ _ Hr Hf). cbn [fst snd].
  destruct (exp_part r1) as [e r2] eqn:He. rewrite (exp_part_ext _ _ _ _ Hr He). cbn [fst snd].
  destruct (String.eqb f "" && String.eqb e ""); [by destruct (int_of_str 10 i)|].
  intros [= <- ->]. by rewrite app_empty.
Qed.

Lemma parse_float t rest :
  float_text t = true → ends_value rest → parse_number (t +:+ rest) = Some (JFloat t, rest).
Proof.
  unfold float_text. intros Ht Hr.
  assert (Hp : parse_number t = Some (JFloat t, "")).
  { destruct (parse_number t) as [[[] []]|]; try done. by apply String.eqb_eq in Ht as <-. }
  clear Ht. revert Hp. unfold parse_number. destruct t as [|c t]; [done|]. rewrite app_cons.
  destruct (Ascii.eqb c "-"); [apply parse_unsigned_ext, Hr|]. rewrite <- app_cons. apply parse_unsigned_ext, Hr.
Qed.

(** ** Values *)
Section JsonInd.
Context (P : json → Prop).
Hypothesis PNull : P JNull.
Hypothesis PBool : ∀ b, P (JBool b).
Hypothesis PInt : ∀ n, P (JInt n).
Hypothesis PFloat : ∀ t, P (JFloat t).
Hypothesis PStr : ∀ s, P (JStr s).
Hypothesis PList : ∀ l, Forall P l → P (JList l).
Hypothesis PObj : ∀ d, Forall (fun kv => P kv.2) d → P (JObj d).

Fixpoint json_ind' (j : json) : P j :=
  match j with
  | JNull => PNull
  | JBool b => PBool b
  | JInt n => PInt n
  | JFloat t => PFloat t
  | JStr s => PStr s
  | JList l =>
      PList l ((fix go l : Forall P l :=
                  match l with [] => Forall_nil_2 P | x :: l' => Forall_cons_2 P x l' (json_ind' x) (go l') end) l)
  | JObj d =>
      PObj d ((fix go d : Forall (fun kv => P kv.2) d :=
                 match d with
                 | [] => Forall_nil_2 _
                 | kv :: d' => Forall_cons_2 (fun kv => P kv.2) kv d' (json_ind' kv.2) (go d')
                 end) d)
  end.
End JsonInd.

Definition is_textb (s : string) : bool :=
  forallb (fun n => ((0 <=? n) && (n <? 55296)) || ((57344 <=? n) && (n <? 1114112))) (code_points s) &&
  String.eqb (utf8 (code_points s)) s.

Lemma is_textb_spec s : is_textb s = true → is_text s.
Proof.
  intros [H1 H2%String.eqb_eq]%andb_true_iff. split; [|done].
  apply Forall_forall. rewrite forallb_forall in H1. intros n Hn%list_elem_of_In. specialize (H1 n Hn).
  apply orb_true_iff in H1 as [[?%Z.leb_le ?%Z.ltb_lt]%andb_true_iff|[?%Z.leb_le ?%Z.ltb_lt]%andb_true_iff];
    unfold scalar; lia.
Qed.

(** The values a Python program can build: texts of scalar values, float literals,
    objects with distinct keys. *)
Fixpoint distinct (ks : list string) : bool :=
  match ks with [] => true | k :: ks' => negb (existsb (String.eqb k) ks') && distinct ks' end.

Lemma distinct_spec ks : distinct ks = true ↔ NoDup ks.
Proof.
  induction ks as [|k ks IH]; cbn; [split; [constructor|done]|].
  rewrite andb_true_iff, negb_true_iff, NoDup_cons, IH. apply and_iff_compat_r.
  rewrite list_elem_of_In. split.
  - intros H Hin. enough (existsb (String.eqb k) ks = true) by congruence.
    apply existsb_exists. exists k. by rewrite String.eqb_refl.
  - intros H. apply not_true_iff_false. intros (x & Hx & ->%String.eqb_eq)%existsb_exists. done.
Qed.

Fixpoint valid (j : json) : bool :=
  match j with
  | JFloat t => float_text t
  | JStr s => is_textb s
  | JList l => forallb valid l
  | JObj d => distinct d.*1 && forallb (fun kv => is_textb kv.1 && valid kv.2) d
  | _ => true
  end.

(** Fuel enough for a value: one for each nested call. *)
Fixpoint cost (j : json) : nat :=
  match j with
  | JList l => S (list_sum (map (fun x => S (cost x)) l))
  | JObj d => S (list_sum (map (fun kv => S (cost kv.2)) d))
  | _ => 1
  end%nat.

Lemma eat_char c rest : is_ws c = false → eat c (String c rest) = Some rest.
Proof. intros H. unfold eat. cbn [skip_ws]. by rewrite H, Ascii.eqb_refl. Qed.

Lemma eat_other c c' rest : is_ws c' = false → Ascii.eqb c' c = false → eat c (String c' rest) = None.
Proof. intros H He. unfold eat. cbn [skip_ws]. by rewrite H, He. Qed.

(** No value starts with white space or a closing bracket. *)
Definition value_head (s : string) : Prop :=
  match s with
  | String c _ => is_ws c = false ∧ Ascii.eqb c "]" = false ∧ Ascii.eqb c "}" = false
  | EmptyString => False
  end.

Lemma number_head s p :
  parse_number s = Some p →
  (∃ c r, s = String c r ∧ is_digit c = true) ∨
  (∃ c r, s = String "-" (String c r) ∧ is_digit c = true).
Proof.
  assert (Hu : ∀ neg s p, parse_unsigned neg s = Some p → ∃ c r, s = String c r ∧ is_digit c = true).
  { intros neg s' p'. unfold parse_unsigned. destruct s' as [|c r]; [done|]. cbn [int_part].
    destruct (Ascii.eqb_spec c "0") as [->|]; [intros _; by exists "0"%char, r|].
    destruct (is_digit c) eqn:Hc; [intros _; by exists c, r|done]. }
  unfold parse_number. destruct s as [|c s]; [done|].
  destruct (Ascii.eqb_spec c "-") as [->|].
  - intros (c & r & -> & Hc)%Hu. right. eauto.
  - intros (c' & r & [= <- <-] & Hc)%Hu. left. eauto.
Qed.

Lemma digit_head c r :
  is_digit c = true →
  Ascii.eqb c dquote = false ∧ Ascii.eqb c "[" = false ∧ Ascii.eqb c "{" = false ∧
  parse_word words (String c r) = None ∧ value_head (String c r).
Proof.
  intros Hc. assert (Hn : ∀ x, is_digit x = false → c ≠ x) by by intros x Hx ->; congruence.
  assert (He : ∀ x, is_digit x = false → Ascii.eqb c x = false) by by intros x Hx; apply Ascii.eqb_neq, Hn.
  split_and!; try (by apply He).
  - unfold words. cbn [parse_word after_word].
    repeat (rewrite (proj2 (Ascii.eqb_neq _ c)); [|intros <-; discriminate Hc]). done.
  - assert (Hcode : ∀ n, 0 <= n < 256 → is_digit (chr n) = false → code c ≠ n).
    { intros n Hr Hd Hcn. apply (Hn (chr n) Hd). rewrite <- Hcn. unfold chr, code.
      by rewrite N2Z.id, ascii_N_embedding. }
    split_and!; [|by apply He..]. unfold is_ws. cbv zeta.
    rewrite !orb_false_iff, !Z.eqb_neq. by split_and!; apply Hcode.
Qed.

Lemma parse_value_number f s j rest :
  ends_value rest → parse_number (s +:+ rest) = Some (j, rest) → parse_number s ≠ None →
  parse_value (S f) (s +:+ rest) = Some (j, rest).
Proof.
  intros Hr Hp Hs. assert (Hh : ∃ c r, s +:+ rest = String c r ∧ is_ws c = false ∧ Ascii.eqb c dquote = false ∧
    Ascii.eqb c "[" = false ∧ Ascii.eqb c "{" = false ∧ parse_word words (String c r) = None).
  { destruct (parse_number s) as [p|] eqn:Hn; [|done].
    destruct (number_head _ _ Hn) as [(c & r & -> & Hc)|(c & r & -> & Hc)]; rewrite !app_cons.
    - destruct (digit_head c (r +:+ rest) Hc) as (? & ? & ? & ? & ? & ?). eauto 10.
    - exists "-"%char, (String c (r +:+ rest)). split_and!; try done.
      assert (Hi : Ascii.eqb "I" c = false) by (apply Ascii.eqb_neq; intros <-; discriminate Hc).
      unfold words. cbn -[Ascii.eqb]. by rewrite Hi. }
  destruct Hh as (c & r & E & H1 & H2 & H3 & H4 & H5). rewrite E in *. cbn [parse_value skip_ws].
  by rewrite H1, H2, H3, H4, H5.
Qed.

Lemma dumps_head j : valid j = true → value_head (dumps j).
Proof.
  destruct j as [|[]|n|t|s|l|d]; try done; intros Hv; cbn [dumps].
  - pose proof (parse_int n "" I) as Hp. destruct (number_head _ _ Hp) as [(c & r & E & Hc)|(c & r & E & Hc)].
    + destruct (str_of_Z n) as [|c' s]; [done|]. rewrite app_cons in E. injection E as -> _.
      apply (digit_head c s Hc).
    + destruct (str_of_Z n) as [|c' s]; [done|]. rewrite app_cons in E. by injection E as -> _.
  - cbn in Hv. unfold float_text in Hv. destruct (parse_number t) as [p|] eqn:Hp; [|done].
    destruct (number_head _ _ Hp) as [(c & r & -> & Hc)|(c & r & -> & Hc)]; [|done].
    apply (digit_head c r Hc).
Qed.

Lemma value_head_skip s rest : value_head s → skip_ws (s +:+ rest) = s +:+ rest.
Proof. destruct s as [|c s]; [done|]. intros (H & _). rewrite app_cons. cbn [skip_ws]. by rewrite H. Qed.

Lemma value_head_eat s rest c : value_head s → c = "]"%char ∨ c = "}"%char → eat c (s +:+ rest) = None.
Proof.
  destruct s as [|c' s]; [done|]. intros (H1 & H2 & H3) [-> | ->]; rewrite app_cons; by apply eat_other.
Qed.

Definition parses (j : json) : Prop :=
  ∀ fuel rest, (cost j ≤ fuel)%nat → ends_value rest → parse_value fuel (dumps j +:+ rest) = Some (j, rest).

Lemma ends_comma r : ends_value (String "," r).
Proof. cbn. set_solver. Qed.
Lemma ends_bracket r : ends_value (String "]" r).
Proof. cbn. set_solver. Qed.
Lemma ends_brace r : ends_value (String "}" r).
Proof. cbn. set_solver. Qed.

Lemma parse_list l : Forall parses l → l ≠ [] →
  ∀ fuel rest, (list_sum (map (fun x => S (cost x)) l) ≤ fuel)%nat →
    parse_elems fuel (join "," (map dumps l) +:+ String "]" rest) = Some (l, rest).
Proof.
  induction 1 as [|x l Hx _ IH]; [done|]. intros _ fuel rest Hf. cbn [map list_sum foldr] in Hf.
  destruct fuel as [|f]; [lia|]. cbn [parse_elems map].
  destruct l as [|y l].
  - cbn [map join]. rewrite (Hx f _ ltac:(lia) (ends_bracket _)). cbn [mbind option_bind fst snd].
    rewrite eat_other, eat_char by done. done.
  - change (join "," (dumps x :: map dumps (y :: l))) with (dumps x +:+ "," +:+ join "," (map dumps (y :: l))).
    rewrite !app_assoc_str. change ("," +:+ ?r) with (String "," r).
    rewrite (Hx f _ ltac:(lia) (ends_comma _)). cbn [mbind option_bind fst snd].
    rewrite eat_char by done. rewrite IH by (done || cbn [map list_sum foldr] in *; lia). done.
Qed.

Lemma set_app_end {V} k (v : V) d : k ∉ d.*1 → dict_set k v d = d ++ [(k, v)].
Proof.
  induction d as [|[k' v'] d IH]; cbn; [done|]. intros [Hk Hd]%not_elem_of_cons.
  destruct (String.eqb_spec k k'); [done|]. by rewrite IH.
Qed.

Lemma dict_update_fresh {V} (d p : list (string * V)) : NoDup (d ++ p).*1 → dict_update d p = d ++ p.
Proof.
  revert d. induction p as [|[k v] p IH]; intros d Hd; cbn [dict_update]; [by rewrite app_nil_r|].
  rewrite set_app_end, IH; rewrite <- ?app_assoc; try done.
  rewrite fmap_app in Hd. apply NoDup_app in Hd as (_ & Hd & _). intros Hin. by apply (Hd k Hin), list_elem_of_here.
Qed.

Definition member (kv : string * json) : string := quote kv.1 +:+ ":" +:+ dumps kv.2.

Lemma escapes_app cps u r : escapes cps u +:+ r = escapes cps (u +:+ r).
Proof.
  assert (He : ∀ n s, escape n s +:+ r = escape n (s +:+ r)).
  { intros m s. unfold escape, escape_u, hex4. by repeat case_match. }
  induction cps as [|n cps IH]; [done|]. cbn [escapes]. by rewrite He, IH.
Qed.

Lemma parse_member fuel kv rest :
  is_text kv.1 → parses kv.2 → (cost kv.2 ≤ fuel)%nat → ends_value rest →
  ∃ s k r1, eat dquote (member kv +:+ rest) = Some s ∧ parse_chars s = Some (kv.1, k) ∧
    eat ":" k = Some r1 ∧ parse_value fuel r1 = Some (kv.2, rest).
Proof.
  intros Ht Hp Hf Hr. unfold member, quote. rewrite app_cons, app_cons, eat_char by done.
  rewrite !escapes_app. eexists _, _, _. split_and!; [done|by apply parse_quote| |by apply Hp].
  exact (eat_char ":" _ eq_refl).
Qed.

Lemma parse_object d : Forall (fun kv => parses kv.2) d → Forall (fun kv => is_text kv.1) d → d ≠ [] →
  ∀ fuel rest, (list_sum (map (fun kv => S (cost kv.2)) d) ≤ fuel)%nat →
    parse_members fuel (join "," (map member d) +:+ String "}" rest) = Some (d, rest).
Proof.
  induction 1 as [|kv d Hp _ IH]; [done|]. intros [Ht Hts]%Forall_cons _ fuel rest Hf.
  cbn [map list_sum foldr] in Hf. destruct fuel as [|f]; [lia|].
  assert (Hc : (cost kv.2 ≤ f)%nat) by lia.
  destruct d as [|kv' d]; cbn [map].
  - cbn [join]. destruct (parse_member f kv _ Ht Hp Hc (ends_brace rest)) as (s & k & r1 & E1 & E2 & E3 & E4).
    cbn [parse_members]. rewrite E1. cbn [mbind option_bind]. rewrite E2. cbn [mbind option_bind fst snd].
    rewrite E3. cbn [mbind option_bind]. rewrite E4. cbn [mbind option_bind fst snd].
    rewrite eat_other, eat_char by done. by destruct kv.
  - change (join "," (member kv :: member kv' :: map member d))
      with (member kv +:+ "," +:+ join "," (map member (kv' :: d))).
    rewrite !app_assoc_str. change ("," +:+ ?r) with (String "," r).
    destruct (parse_member f kv _ Ht Hp Hc (ends_comma (join "," (map member (kv' :: d)) +:+ String "}" rest))) as (s & k & r1 & E1 & E2 & E3 & E4).
    cbn [parse_members]. rewrite E1. cbn [mbind option_bind]. rewrite E2. cbn [mbind option_bind fst snd].
    rewrite E3. cbn [mbind option_bind]. rewrite E4. cbn [mbind option_bind fst snd].
    rewrite eat_char by done. rewrite IH by (done || cbn [map list_sum foldr] in *; lia). by destruct kv.
Qed.

Lemma parse_value_list f r :
  parse_value (S f) (String "[" r) =
    match eat "]" r with Some r' => Some (JList [], r') | None => p ← parse_elems f r; Some (JList p.1, p.2) end.
Proof. reflexivity. Qed.

Lemma parse_value_object f r :
  parse_value (S f) (String "{" r) =
    match eat "}" r with
    | Some r' => Some (JObj [], r')
    | None => p ← parse_members f r; Some (JObj (dict_update [] p.1), p.2)
    end.
Proof. reflexivity. Qed.

Lemma parse_value_string f r :
  parse_value (S f) (String dquote r) = (p ← parse_chars r; Some (JStr p.1, p.2)).
Proof. reflexivity. Qed.

Lemma eat_join c x l r :
  value_head x → c = "]"%char ∨ c = "}"%char → eat c (join "," (x :: l) +:+ r) = None.
Proof.
  intros Hx Hc. destruct l as [|y l]; [by apply value_head_eat|].
  change (join "," (x :: y :: l)) with (x +:+ "," +:+ join "," (y :: l)).
  rewrite app_assoc_str. by apply value_head_eat.
Qed.

Lemma parse_dumps j : valid j = true → parses j.
Proof.
  induction j as [|b|n|t|s|l IH|d IH] using json_ind'; intros Hv fuel rest Hf Hr;
    (destruct fuel as [|f]; [cbn in Hf; lia|]).
  - reflexivity.
  - by destruct b.
  - apply parse_value_number; [done|by apply parse_int|]. pose proof (parse_int n "" I) as Hp.
    rewrite app_nil_str in Hp. cbn [dumps]. by rewrite Hp.
  - apply parse_value_number; [done|by apply parse_float|]. cbn [valid dumps] in *. unfold float_text in Hv.
    by destruct (parse_number t).
  - cbn [dumps]. unfold quote. rewrite app_cons, escapes_app, parse_value_string.
    by rewrite app_str1, parse_quote by by apply is_textb_spec.
  - destruct l as [|x l]; [reflexivity|]. cbn [valid] in Hv. rewrite forallb_forall in Hv.
    change (dumps (JList (x :: l)) +:+ rest)
      with (String "[" ((join "," (map dumps (x :: l)) +:+ "]") +:+ rest)).
    rewrite app_assoc_str, parse_value_list. cbn [map].
    rewrite eat_join; [|apply dumps_head, Hv; by left|by left].
    change ("]" +:+ rest) with (String "]" rest).
    rewrite (parse_list (x :: l)); [done| |done|cbn in *; lia].
    rewrite Forall_forall in IH |- *. intros y Hy. apply IH, Hv, list_elem_of_In; done.
  - destruct d as [|x d]; [reflexivity|]. cbn [valid] in Hv.
    apply andb_true_iff in Hv as [Hd%distinct_spec Hv]. rewrite forallb_forall in Hv.
    change (dumps (JObj (x :: d)) +:+ rest)
      with (String "{" ((join "," (map member (x :: d)) +:+ "}") +:+ rest)).
    rewrite app_assoc_str, parse_value_object. cbn [map].
    rewrite eat_join; [|done|by right].
    change ("}" +:+ rest) with (String "}" rest).
    rewrite (parse_object (x :: d)); [| | |done|cbn in *; lia].
    + cbn [mbind option_bind fst snd]. by rewrite dict_update_fresh.
    + rewrite Forall_forall in IH |- *. intros y Hy. apply IH; [done|].
      apply list_elem_of_In in Hy. by apply Hv in Hy as [_ ?]%andb_true_iff.
    + rewrite Forall_forall. intros y Hy%list_elem_of_In. by apply Hv in Hy as [?%is_textb_spec _]%andb_true_iff.
Qed.

Lemma length_join l :
  (list_sum (map (fun s => S (String.length s)) l) ≤ S (String.length (join "," l)))%nat.
Proof.
  induction l as [|x [|y l] IH]; [cbn; lia|cbn; lia|].
  change (join "," (x :: y :: l)) with (x +:+ "," +:+ join "," (y :: l)).
  rewrite !length_app_str. cbn [map list_sum foldr String.length] in *. lia.
Qed.

Lemma list_sum_le {A} (f g : A → nat) l :
  (∀ x, x ∈ l → (f x ≤ g x)%nat) → (list_sum (map f l) ≤ list_sum (map g l))%nat.
Proof.
  induction l as [|x l IH]; intros H; cbn [map list_sum foldr]; [lia|].
  specialize (IH (fun y Hy => H y (list_elem_of_further _ _ _ Hy))).
  pose proof (H x (list_elem_of_here _ _)). unfold list_sum in IH. lia.
Qed.

Lemma cost_length j : valid j = true → (cost j ≤ String.length (dumps j))%nat.
Proof.
  induction j as [|b|n|t|s|l IH|d IH] using json_ind'; intros Hv; try (cbn [cost dumps]; cbn; lia).
  - destruct b; cbn; lia.
  - pose proof (dumps_head (JInt n) Hv) as Hh. destruct (dumps (JInt n)); cbn in *; [done|lia].
  - pose proof (dumps_head (JFloat t) Hv) as Hh. destruct (dumps (JFloat t)); cbn in *; [done|lia].
  - cbn [cost dumps]. change ("[" +:+ ?r) with (String "[" r). cbn [String.length]. rewrite length_app_str.
    cbn [valid] in Hv. rewrite forallb_forall in Hv. pose proof (length_join (map dumps l)) as Hj.
    rewrite map_map in Hj. rewrite Forall_forall in IH.
    apply le_n_S. etransitivity; [|cbn [String.length]; rewrite Nat.add_1_r; exact Hj].
    apply list_sum_le. intros x Hx.
    enough (cost x ≤ String.length (dumps x))%nat by lia. apply IH, Hv, list_elem_of_In; done.
  - cbn [cost dumps]. change ("{" +:+ ?r) with (String "{" r). cbn [String.length]. rewrite length_app_str.
    cbn [valid] in Hv. apply andb_true_iff in Hv as [_ Hv]. rewrite forallb_forall in Hv.
    pose proof (length_join (map member d)) as Hj. rewrite map_map in Hj. rewrite Forall_forall in IH.
    apply le_n_S. etransitivity; [|cbn [String.length]; rewrite Nat.add_1_r; exact Hj].
    apply list_sum_le. intros x Hx.
    unfold member. rewrite !length_app_str.
    enough (cost x.2 ≤ String.length (dumps x.2))%nat by lia. apply IH; [done|].
    apply list_elem_of_In in Hx. by apply Hv in Hx as [_ ?]%andb_true_iff.
Qed.

(** Reading back what was written gives the same value: for every value with proper
    texts and distinct keys, [json.loads(json.dumps(v))] is [v]. *)
Lemma loads_dumps j : valid j = true → loads (dumps j) = Some j.
Proof.
  intros Hv. unfold loads. pose proof (cost_length j Hv) as Hc.
  pose proof (parse_dumps j Hv (3 * String.length (dumps j) + 3)%nat "" ltac:(lia) I) as Hp.
  rewrite app_nil_str in Hp. by rewrite Hp.
Qed.

Example loads_dumps_sample :
  valid (JObj [("phase", JStr "café"); ("n", JList [JInt (-3); JFloat "1.5e3"])]) = true ∧
  loads (dumps (JObj [("phase", JStr "café"); ("n", JList [JInt (-3); JFloat "1.5e3"])])) =
    Some (JObj [("phase", JStr "café"); ("n", JList [JInt (-3); JFloat "1.5e3"])]).
Proof. split; [vm_compute; reflexivity|apply loads_dumps; vm_compute; reflexivity]. Qed.

(** ** ASCII texts *)
Lemma ascii_text s : all_chars (fun c => code c <? 128) s = true → is_textb s = true.
Proof.
  intros Hs. assert (H : forallb (fun n => ((0 <=? n) && (n <? 55296)) || ((57344 <=? n) && (n <? 1114112)))
    (code_points s) = true ∧ utf8 (code_points s) = s).
  { induction s as [|c s IH]; [done|]. cbn [all_chars] in Hs. apply andb_true_iff in Hs as [Hc Hs].
    destruct (IH Hs) as [H1 H2]. cbn [code_points]. cbv zeta. rewrite Hc. cbn [forallb utf8].
    rewrite H1, H2. apply Z.ltb_lt in Hc. assert (H0 : 0 <= code c) by (unfold code; lia). split.
    - rewrite (proj2 (Z.leb_le 0 (code c))), (proj2 (Z.ltb_lt (code c) 55296)) by lia. done.
    - unfold utf8_char. rewrite (proj2 (Z.ltb_lt (code c) 128)) by lia.
      unfold chr, code. by rewrite N2Z.id, ascii_N_embedding. }
  unfold is_textb. destruct H as [-> ->]. by rewrite String.eqb_refl.
Qed.

Lemma hex_digit_ascii k : (code (hex_digit (k mod 16)) <? 128) = true.
Proof.
  pose proof (Z.mod_pos_bound k 16 ltac:(lia)) as Hb. unfold hex_digit. apply Z.ltb_lt.
  destruct (Z.ltb_spec (k mod 16) 10); rewrite code_byte; lia.
Qed.

(** A string literal is ASCII whatever the text. *)
Lemma escapes_ascii cps rest :
  all_chars (fun c => code c <? 128) rest = true → all_chars (fun c => code c <? 128) (escapes cps rest) = true.
Proof.
  intros Hr. induction cps as [|n cps IH]; [done|]. cbn [escapes]. generalize dependent (escapes cps rest).
  intros r Hs. unfold escape.
  assert (Hu : ∀ m t, all_chars (fun c => code c <? 128) t = true →
    all_chars (fun c => code c <? 128) (escape_u m t) = true).
  { intros m t Ht. unfold escape_u, hex4. cbn [all_chars]. by rewrite !hex_digit_ascii, Ht. }
  repeat (match goal with |- context [n =? ?k] => destruct (n =? k); [cbn [all_chars]; by rewrite Hs|] end).
  destruct ((32 <=? n) && (n <=? 126)) eqn:Hp; [|destruct (n <? 65536); auto].
  apply andb_true_iff in Hp as [H1%Z.leb_le H2%Z.leb_le]. cbn [all_chars]. rewrite code_byte by lia.
  rewrite (proj2 (Z.ltb_lt n 128)) by lia. done.
Qed.

Lemma quote_ascii s : all_chars (fun c => code c <? 128) (quote s) = true.
Proof. unfold quote. cbn [all_chars]. by apply escapes_ascii. Qed.

(** Printable ASCII: what a dumped value is made of. *)
Definition printable (c : ascii) : bool := (32 <=? code c) && (code c <=? 126).

Lemma all_chars_weaken (p q : ascii → bool) s :
  (∀ c, p c = true → q c = true) → all_chars p s = true → all_chars q s = true.
Proof. apply all_chars_impl. Qed.

Lemma digit_printable c : is_digit c = true → printable c = true.
Proof. intros [H1%Z.leb_le H2%Z.leb_le]%andb_true_iff. apply andb_true_iff. rewrite !Z.leb_le. lia. Qed.

Lemma span_digits_chars s ds r : span_digits s = (ds, r) → all_chars printable ds = true.
Proof.
  revert ds r. induction s as [|c s IH]; intros ds r; cbn [span_digits]; [by intros [= <- <-]|].
  destruct (is_digit c) eqn:Hc; [|by intros [= <- <-]]. destruct (span_digits s) as [a b] eqn:Hs.
  intros [= <- <-]. cbn [all_chars]. by rewrite digit_printable, (IH a b).
Qed.

Lemma number_printable neg s t : parse_unsigned neg s = Some (JFloat t, "") → all_chars printable t = true.
Proof.
  unfold parse_unsigned. destruct (int_part s) as [[i r]|] eqn:Hi; [|done]. cbn [mbind option_bind fst snd]. cbv zeta.
  destruct (frac_part r) as [f r1] eqn:Hf. cbn [fst snd]. destruct (exp_part r1) as [e r2] eqn:He. cbn [fst snd].
  destruct (String.eqb f "" && String.eqb e ""); [by destruct (int_of_str 10 i)|]. intros [= <- ->].
  assert (H1 : all_chars printable i = true).
  { destruct s as [|c s]; [done|]. cbn [int_part] in Hi. destruct (Ascii.eqb c "0"); [by injection Hi as <- <-|].
    destruct (is_digit c) eqn:Hd; [|done].
    assert (Hs : span_digits (String c s) = (i, r)) by congruence. by apply span_digits_chars in Hs. }
  assert (H2 : all_chars printable f = true).
  { destruct r as [|c r]; [by injection Hf as <- <-|]. cbn [frac_part] in Hf.
    destruct (Ascii.eqb_spec c ".") as [->|]; [|by injection Hf as <- <-].
    destruct (span_digits r) as [ds r'] eqn:Hs. apply span_digits_chars in Hs.
    destruct ds; injection Hf as <- <-; [done|]. exact Hs. }
  assert (H3 : all_chars printable e = true).
  { destruct r1 as [|c r1]; [by simplify_eq/=|]. cbn [exp_part] in He.
    destruct (Ascii.eqb c "e" || Ascii.eqb c "E") eqn:Hc; [|by simplify_eq/=].
    assert (Hcp : printable c = true) by by apply orb_true_iff in Hc as [->%Ascii.eqb_eq| ->%Ascii.eqb_eq].
    destruct r1 as [|g r1]; [by simplify_eq/=|].
    destruct (Ascii.eqb g "+" || Ascii.eqb g "-") eqn:Hg.
    - destruct (span_digits r1) as [ds r'] eqn:Hs. apply span_digits_chars in Hs. destruct ds; [by simplify_eq/=|]; injection He as <- ->.
      cbn [all_chars]. rewrite Hcp. rewrite all_chars_app. cbn [all_chars] in Hs |- *. rewrite Hs.
      by apply orb_true_iff in Hg as [->%Ascii.eqb_eq| ->%Ascii.eqb_eq].
    - destruct (span_digits (String g r1)) as [ds r'] eqn:Hs. apply span_digits_chars in Hs.
      destruct ds; [by simplify_eq/=|]; injection He as <- ->. cbn [all_chars]. rewrite Hcp, all_chars_app. exact Hs. }
  rewrite !all_chars_app, H1, H2, H3. by destruct neg.
Qed.

Lemma escapes_printable cps rest :
  all_chars printable rest = true → all_chars printable (escapes cps rest) = true.
Proof.
  intros Hr. induction cps as [|n cps IH]; [done|]. cbn [escapes]. generalize dependent (escapes cps rest).
  intros r Hs. unfold escape.
  assert (Hx : ∀ k, printable (hex_digit (k mod 16)) = true).
  { intros k. pose proof (Z.mod_pos_bound k 16 ltac:(lia)). unfold hex_digit, printable.
    destruct (Z.ltb_spec (k mod 16) 10); rewrite code_byte by lia; apply andb_true_iff; rewrite !Z.leb_le; lia. }
  assert (Hu : ∀ m t, all_chars printable t = true → all_chars printable (escape_u m t) = true).
  { intros m t Ht. unfold escape_u, hex4. cbn [all_chars]. by rewrite !Hx, Ht. }
  repeat (match goal with |- context [n =? ?k] => destruct (n =? k); [cbn [all_chars]; by rewrite Hs|] end).
  destruct ((32 <=? n) && (n <=? 126)) eqn:Hp; [|destruct (n <? 65536); auto].
  cbn [all_chars]. rewrite Hs, andb_true_r. unfold printable.
  apply andb_true_iff in Hp as [H1 H2]. rewrite code_byte by (apply Z.leb_le in H1, H2; lia). by rewrite H1, H2.
Qed.

Lemma quote_printable s : all_chars printable (quote s) = true.
Proof. unfold quote. cbn [all_chars]. by apply escapes_printable. Qed.

Lemma join_printable sep l :
  all_chars printable sep = true → Forall (fun s => all_chars printable s = true) l → all_chars printable (join sep l) = true.
Proof.
  intros Hs. induction 1 as [|x l Hx Hl IH]; [done|]. destruct l as [|y l]; [done|].
  change (join sep (x :: y :: l)) with (x +:+ sep +:+ join sep (y :: l)). by rewrite !all_chars_app, Hx, Hs, IH.
Qed.

Lemma str_of_Z_printable n : all_chars printable (str_of_Z n) = true.
Proof.
  destruct (Z.le_gt_cases 0 n) as [Hn|Hn].
  - destruct (str_of_Z_digits n Hn) as [Hd _]. by eapply all_chars_weaken, Hd; apply digit_printable.
  - assert (Hs : str_of_Z n = String "-" (str_of_Z (- n))) by by destruct n. rewrite Hs. cbn [all_chars].
    destruct (str_of_Z_digits (- n)) as [Hd _]; [lia|]. rewrite (all_chars_weaken is_digit printable) by
      (done || apply digit_printable). done.
Qed.

(** A dumped value is one line of printable ASCII. *)
Lemma dumps_printable j : valid j = true → all_chars printable (dumps j) = true.
Proof.
  induction j as [|b|n|t|s|l IH|d IH] using json_ind'; intros Hv; cbn [dumps].
  - done.
  - by destruct b.
  - apply str_of_Z_printable.
  - cbn in Hv. unfold float_text in Hv. destruct (parse_number t) as [[[] []]|] eqn:Hp; try done.
    apply String.eqb_eq in Hv as <-. unfold parse_number in Hp. destruct t as [|c t]; [done|].
    destruct (Ascii.eqb c "-"); by apply number_printable in Hp.
  - apply quote_printable.
  - rewrite !all_chars_app. cbn [valid] in Hv. rewrite forallb_forall in Hv.
    rewrite join_printable; [done|done|]. rewrite Forall_map. rewrite Forall_forall in IH |- *.
    intros x Hx. by apply IH, Hv, list_elem_of_In.
  - rewrite !all_chars_app. cbn [valid] in Hv. apply andb_true_iff in Hv as [_ Hv]. rewrite forallb_forall in Hv.
    rewrite join_printable; [done|done|]. rewrite Forall_map. rewrite Forall_forall in IH |- *. intros x Hx.
    rewrite !all_chars_app, quote_printable. cbn [andb]. rewrite IH; [done|done|].
    apply list_elem_of_In, Hv, andb_true_iff in Hx as [_ ?]. done.
Qed.

(** * Examples *)
Definition sample_obj : json :=
  JObj [("b", JList [JInt (-12); JNull; JBool true; JObj []]); ("a", JStr ("é" +:+ str1 dquote +:+ "😀"));
        ("c", JFloat "1.5e3")].
Definition dq (s : string) : string := str1 dquote +:+ s +:+ str1 dquote.

Example dumps_sample :
  canonical sample_obj =
    "{" +:+ dq "a" +:+ ":" +:+ str1 dquote +:+ "\u00e9\" +:+ str1 dquote +:+ "\ud83d\ude00" +:+ str1 dquote +:+ "," +:+
    dq "b" +:+ ":[-12,null,true,{}]," +:+ dq "c" +:+ ":1.5e3}".
Proof. vm_compute. reflexivity. Qed.
Example loads_sample : loads (canonical sample_obj) = Some (sorted sample_obj).
Proof. vm_compute. reflexivity. Qed.
Example loads_spaces : loads " [ 1 , 02 ] " = None ∧ loads " [ 1 , 2 ] " = Some (JList [JInt 1; JInt 2]).
Proof. vm_compute. split; reflexivity. Qed.

(** * Sorting twice *)
Section SortTwice.
Context {V : Type}.

Fixpoint in_order (d : list (string * V)) : Prop :=
  match d with
  | [] => True
  | kv :: d' => match d' with [] => True | kv' :: _ => String.leb kv.1 kv'.1 = true end ∧ in_order d'
  end.

Lemma insert_in_order k v d : in_order d → in_order (insert_key k v d).
Proof.
  induction d as [|[k1 v1] d IH]; [done|]. intros [Hh Hd]. cbn [insert_key]. destruct (String.leb k k1) eqn:E; [done|].
  specialize (IH Hd). split; [|exact IH]. destruct d as [|[k2 v2] d]; cbn [insert_key].
  - by destruct (String.leb_total k k1); [congruence|].
  - destruct (String.leb k k2); [by destruct (String.leb_total k k1); [congruence|]|exact Hh].
Qed.

Lemma sorted_in_order (d : list (string * V)) : in_order (sort_items d).
Proof. induction d as [|[k v] d IH]; [done|]. cbn. by apply insert_in_order. Qed.

Lemma sort_ordered (d : list (string * V)) : in_order d → sort_items d = d.
Proof.
  induction d as [|[k v] d IH]; [done|]. intros [Hh Hd]. cbn [sort_items]. rewrite IH by done.
  destruct d as [|[k' v'] d]; [done|]. cbn in *. by rewrite Hh.
Qed.
End SortTwice.

Lemma sort_map {V W} (f : V → W) (d : list (string * V)) :
  sort_items (map (fun kv => (kv.1, f kv.2)) d) = map (fun kv => (kv.1, f kv.2)) (sort_items d).
Proof.
  assert (Hi : ∀ k v d, insert_key k (f v) (map (fun kv => (kv.1, f kv.2)) d) = map (fun kv => (kv.1, f kv.2)) (insert_key k v d)).
  { intros k v d'. induction d' as [|[k1 v1] d' IH]; [done|]. cbn. destruct (String.leb k k1); cbn; [done|]. by rewrite IH. }
  induction d as [|[k v] d IH]; [done|]. cbn [map sort_items fst snd]. by rewrite IH, Hi.
Qed.

Lemma sorted_sorted j : sorted (sorted j) = sorted j.
Proof.
  induction j as [|b|n|t|s|l IH|d IH] using json_ind'; cbn [sorted]; try done.
  - f_equal. rewrite map_map. induction IH as [|x l Hx _ IHl]; [done|]. cbn. by rewrite Hx, IHl.
  - f_equal. rewrite <-(sort_map sorted).
    assert (E : map (fun kv => (kv.1, sorted kv.2)) (map (fun kv => (kv.1, sorted kv.2)) d) = map (fun kv => (kv.1, sorted kv.2)) d).
    { rewrite map_map. induction IH as [|kv d Hx _ IHd]; [done|]. cbn. rewrite Hx. f_equal. exact IHd. }
    rewrite E. apply sort_ordered, sorted_in_order.
Qed.
End Json.
