(* ===== verification/Crypto.v ===== *)
(** The standard library's byte encodings and digests that the signed and hashed records
    of the program rest on: [base64.urlsafe_b64encode] without padding and
    [base64.urlsafe_b64decode] (which skips characters outside the alphabet),
    [hashlib.sha256] and [hmac.new(..., hashlib.sha256)], with a byte string as its
    [string] of characters. *)

From S2P Require Import Prelude PyValue Datetime.
From Stdlib Require Import Ascii.
From Stdlib Require String.
Local Open Scope Z_scope.

Module Crypto.

Definition bytes_of (s : string) : list Z := map code (String.list_ascii_of_string s).
Definition of_bytes (l : list Z) : string := String.string_of_list_ascii (map chr l).

(** * Base64 *)

(** The character of a 6-bit value in the URL-safe alphabet. *)
Definition b64_char (n : Z) : ascii :=
  if n <? 26 then chr (65 + n)
  else if n <? 52 then chr (97 + (n - 26))
  else if n <? 62 then chr (48 + (n - 52))
  else if n =? 62 then "-"%char else "_"%char.

(** [base64.urlsafe_b64encode(raw).rstrip(b"=")]. *)
Fixpoint b64_encode (l : list Z) : string :=
  match l with
  | [] => ""
  | [a] => String (b64_char (a / 4)) (str1 (b64_char (a mod 4 * 16)))
  | [a; b] =>
      String (b64_char (a / 4)) (String (b64_char (a mod 4 * 16 + b / 16)) (str1 (b64_char (b mod 16 * 4))))
  | a :: b :: c :: l' =>
      String (b64_char (a / 4)) (String (b64_char (a mod 4 * 16 + b / 16))
        (String (b64_char (b mod 16 * 4 + c / 64)) (String (b64_char (c mod 64)) (b64_encode l'))))
  end.

(** The value of a character after the translation of "-_" to "+/"; other characters of
    the standard alphabet keep theirs. *)
Definition b64_value (c : ascii) : option Z :=
  let n := code c in
  if (65 <=? n) && (n <=? 90) then Some (n - 65)
  else if (97 <=? n) && (n <=? 122) then Some (n - 97 + 26)
  else if (48 <=? n) && (n <=? 57) then Some (n - 48 + 52)
  else if (n =? 43) || (n =? 45) then Some 62
  else if (n =? 47) || (n =? 95) then Some 63
  else None.

(** [binascii.a2b_base64]: the position in the group of four, the bits carried over, the
    padding seen, then the text.  A complete padding ends the data; a character outside
    the alphabet is skipped; an incomplete group at the end is an error. *)
Fixpoint b64_scan (quad left pads : Z) (s : string) : option (list Z) :=
  match s with
  | EmptyString => if quad =? 0 then Some [] else None
  | String c s' =>
      if Ascii.eqb c "=" then
        if 2 <=? quad then
          if 4 <=? quad + (pads + 1) then Some [] else b64_scan quad left (pads + 1) s'
        else b64_scan quad left pads s'
      else match b64_value c with
           | None => b64_scan quad left pads s'
           | Some v =>
               if quad =? 0 then b64_scan 1 v 0 s'
               else if quad =? 1 then l ← b64_scan 2 (v mod 16) 0 s'; Some ((left * 4 + v / 16) :: l)
               else if quad =? 2 then l ← b64_scan 3 (v mod 4) 0 s'; Some ((left * 16 + v / 4) :: l)
               else l ← b64_scan 0 0 0 s'; Some ((left * 64 + v) :: l)
           end
  end.

Definition is_ascii (s : string) : bool := all_chars (fun c => code c <? 128) s.

Definition padding (s : string) : string :=
  let n := - Z.of_nat (String.length s) mod 4 in
  if n =? 1 then "=" else if n =? 2 then "==" else if n =? 3 then "===" else "".

(** [base64.urlsafe_b64decode(s + "=" * (-len(s) % 4))]; a text with a character outside
    ASCII raises. *)
Definition b64_decode (s : string) : option string :=
  if is_ascii s then of_bytes <$> b64_scan 0 0 0 (s +:+ padding s) else None.

(** * SHA-256 *)
Definition w32 (n : Z) : Z := n mod 4294967296.
Definition rotr (k n : Z) : Z := Z.lor (Z.shiftr n k) (w32 (Z.shiftl n (32 - k))).
Definition not32 (n : Z) : Z := 4294967295 - n.

Definition sha_k : list Z :=
  [
    1116352408; 1899447441; 3049323471; 3921009573; 961987163; 1508970993; 2453635748;
    2870763221; 3624381080; 310598401; 607225278; 1426881987; 1925078388; 2162078206;
    2614888103; 3248222580; 3835390401; 4022224774; 264347078; 604807628; 770255983; 1249150122;
    1555081692; 1996064986; 2554220882; 2821834349; 2952996808; 3210313671; 3336571891;
    3584528711; 113926993; 338241895; 666307205; 773529912; 1294757372; 1396182291; 1695183700;
    1986661051; 2177026350; 2456956037; 2730485921; 2820302411; 3259730800; 3345764771;
    3516065817; 3600352804; 4094571909; 275423344; 430227734; 506948616; 659060556; 883997877;
    958139571; 1322822218; 1537002063; 1747873779; 1955562222; 2024104815; 2227730452;
    2361852424; 2428436474; 2756734187; 3204031479; 3329325298
  ].

Record digest8 := Digest { d_a : Z; d_b : Z; d_c : Z; d_d : Z; d_e : Z; d_f : Z; d_g : Z; d_h : Z }.

Definition sha_init : digest8 :=
  Digest 1779033703 3144134277 1013904242 2773480762 1359893119 2600822924 528734635 1541459225.

Fixpoint words_of (l : list Z) : list Z :=
  match l with
  | a :: b :: c :: d :: l' => (a * 16777216 + b * 65536 + c * 256 + d) :: words_of l'
  | _ => []
  end.

(** The schedule, newest word first: [n] more words after [w]. *)
Fixpoint schedule (n : nat) (w : list Z) : list Z :=
  match n with
  | O => w
  | S n' =>
      let x := nth 14 w 0 in let y := nth 1 w 0 in
      let s0 := Z.lxor (Z.lxor (rotr 7 x) (rotr 18 x)) (Z.shiftr x 3) in
      let s1 := Z.lxor (Z.lxor (rotr 17 y) (rotr 19 y)) (Z.shiftr y 10) in
      schedule n' (w32 (nth 15 w 0 + s0 + nth 6 w 0 + s1) :: w)
  end.

Definition round (h : digest8) (kw : Z * Z) : digest8 :=
  let '(Digest a b c d e f g hh) := h in
  let s1 := Z.lxor (Z.lxor (rotr 6 e) (rotr 11 e)) (rotr 25 e) in
  let ch := Z.lxor (Z.land e f) (Z.land (not32 e) g) in
  let t1 := hh + s1 + ch + kw.1 + kw.2 in
  let s0 := Z.lxor (Z.lxor (rotr 2 a) (rotr 13 a)) (rotr 22 a) in
  let maj := Z.lxor (Z.lxor (Z.land a b) (Z.land a c)) (Z.land b c) in
  Digest (w32 (t1 + s0 + maj)) a b c (w32 (d + t1)) e f g.

Definition add8 (x y : digest8) : digest8 :=
  Digest (w32 (d_a x + d_a y)) (w32 (d_b x + d_b y)) (w32 (d_c x + d_c y)) (w32 (d_d x + d_d y))
    (w32 (d_e x + d_e y)) (w32 (d_f x + d_f y)) (w32 (d_g x + d_g y)) (w32 (d_h x + d_h y)).

Definition compress (h : digest8) (block : list Z) : digest8 :=
  let w := reverse (schedule 48 (reverse (words_of block))) in
  add8 h (fold_left round (zip sha_k w) h).

(** [n] blocks of 64 bytes. *)
Fixpoint compress_blocks (n : nat) (h : digest8) (l : list Z) : digest8 :=
  match n with O => h | S n' => compress_blocks n' (compress h (take 64 l)) (drop 64 l) end.

(** [k] bytes of [n], the highest first, before [acc]. *)
Fixpoint big_endian (k : nat) (n : Z) (acc : list Z) : list Z :=
  match k with O => acc | S k' => big_endian k' (n / 256) (n mod 256 :: acc) end.

Definition sha_pad (l : list Z) : list Z :=
  let n := Z.of_nat (length l) in
  l ++ 128 :: replicate (Z.to_nat ((55 - n) mod 64)) 0 ++ big_endian 8 (8 * n) [].

(** [hashlib.sha256(data).digest()]. *)
Definition sha256_bytes (l : list Z) : list Z :=
  let p := sha_pad l in
  let '(Digest a b c d e f g h) := compress_blocks (length p / 64) sha_init p in
  concat (map (fun x => big_endian 4 x []) [a; b; c; d; e; f; g; h]).

Definition sha256 (s : string) : string := of_bytes (sha256_bytes (bytes_of s)).

(** [bytes.hex()]. *)
Definition hex_of (s : string) : string :=
  String.string_of_list_ascii (concat (map (fun n => [hex_digit (n / 16); hex_digit (n mod 16)]) (bytes_of s))).

(** * HMAC *)
Definition xor_pad (k : Z) (key : list Z) : list Z := map (Z.lxor k) key.

(** [hmac.new(key, msg, hashlib.sha256).digest()]. *)
Definition hmac_sha256 (key msg : string) : string :=
  let k0 := bytes_of key in
  let k1 := if (64 <? length k0)%nat then sha256_bytes k0 else k0 in
  let k := k1 ++ replicate (64 - length k1) 0 in
  of_bytes (sha256_bytes (xor_pad 92 k ++ sha256_bytes (xor_pad 54 k ++ bytes_of msg))).

Example sha256_empty : hex_of (sha256 "") = "e3b0c44298fc1c149afbf4c8996fb92427ae41e4649b934ca495991b7852b855".
Proof. vm_compute. reflexivity. Qed.
Example sha256_abc : hex_of (sha256 "abc") = "ba7816bf8f01cfea414140de5dae2223b00361a396177a9cb410ff61f20015ad".
Proof. vm_compute. reflexivity. Qed.
Example sha256_two_blocks :
  hex_of (sha256 "abcdbcdecdefdefgefghfghighijhijkijkljklmklmnlmnomnopnopq")
    = "248d6a61d20638b8e5c026930c3e6039a33ce45964ff2167f6ecedd419db06c1".
Proof. vm_compute. reflexivity. Qed.
Example hmac_rfc4231_2 :
  hex_of (hmac_sha256 "Jefe" "what do ya want for nothing?")
    = "5bdcc146bf60754e6a042426089575c75a003f089d2739839dec58b964ec3843".
Proof. vm_compute. reflexivity. Qed.
Example b64_examples :
  b64_encode (bytes_of "any carnal pleas") = "YW55IGNhcm5hbCBwbGVhcw" ∧
  b64_decode "YW55IGNhcm5hbCBwbGVhcw" = Some "any carnal pleas" ∧
  b64_decode "YW5!!5IGNhc  m5hbCBwbGVhcw" = Some "any carnal pleas" ∧ b64_decode "A" = None.
Proof. vm_compute. done. Qed.

(** * Decoding inverts encoding *)
Definition is_byte (n : Z) : Prop := 0 <= n < 256.

Lemma b64_value_char n : 0 <= n < 64 → b64_value (b64_char n) = Some n ∧ Ascii.eqb (b64_char n) "=" = false ∧
  (code (b64_char n) <? 128) = true.
Proof.
  intros Hn. assert (H : forallb (fun i => bool_decide (b64_value (b64_char (Z.of_nat i)) = Some (Z.of_nat i)) &&
    negb (Ascii.eqb (b64_char (Z.of_nat i)) "=") && (code (b64_char (Z.of_nat i)) <? 128)) (seq 0 64) = true)
    by by vm_compute.
  rewrite forallb_forall in H. specialize (H (Z.to_nat n)). rewrite Z2Nat.id in H by lia.
  assert (Hin : In (Z.to_nat n) (seq 0 64)) by (apply in_seq; lia).
  apply H in Hin as [[H1 H2]%andb_true_iff H3]%andb_true_iff. split_and!; [by eapply bool_decide_eq_true_1| |done].
  by apply negb_true_iff.
Qed.

Lemma b64_scan_char quad left pads n s :
  0 <= n < 64 →
  b64_scan quad left pads (String (b64_char n) s) =
    if quad =? 0 then b64_scan 1 n 0 s
    else if quad =? 1 then l ← b64_scan 2 (n mod 16) 0 s; Some ((left * 4 + n / 16) :: l)
    else if quad =? 2 then l ← b64_scan 3 (n mod 4) 0 s; Some ((left * 16 + n / 4) :: l)
    else l ← b64_scan 0 0 0 s; Some ((left * 64 + n) :: l).
Proof. intros Hn. destruct (b64_value_char n Hn) as (H1 & H2 & _). cbn [b64_scan]. by rewrite H2, H1. Qed.

(** Three bytes at a time. *)
Lemma triples_ind (P : list Z → Prop) :
  P [] → (∀ a, P [a]) → (∀ a b, P [a; b]) → (∀ a b c l, P l → P (a :: b :: c :: l)) → ∀ l, P l.
Proof.
  intros H0 H1 H2 H3. fix go 1. intros [|a [|b [|c l]]]; [done|apply H1|apply H2|apply H3, go].
Qed.

Lemma length_encode l :
  Z.of_nat (String.length (b64_encode l)) mod 4 =
    match Z.of_nat (length l) mod 3 with 0 => 0 | 1 => 2 | _ => 3 end.
Proof.
  induction l as [|a|a b|a b c l IH] using triples_ind; try reflexivity.
  cbn [b64_encode String.length length]. rewrite !Nat2Z.inj_succ.
  replace (Z.succ (Z.succ (Z.succ (Z.succ (Z.of_nat (String.length (b64_encode l)))))))
    with (Z.of_nat (String.length (b64_encode l)) + 1 * 4) by lia.
  replace (Z.succ (Z.succ (Z.succ (Z.of_nat (length l))))) with (Z.of_nat (length l) + 1 * 3) by lia.
  by rewrite !Z_mod_plus_full.
Qed.

Definition tail_padding (l : list Z) : string :=
  match Z.of_nat (length l) mod 3 with 0 => "" | 1 => "==" | _ => "=" end.

Lemma padding_encode l : padding (b64_encode l) = tail_padding l.
Proof.
  unfold padding, tail_padding. pose proof (length_encode l) as H.
  pose proof (Z.mod_pos_bound (Z.of_nat (length l)) 3 ltac:(lia)) as Hb.
  set (n := Z.of_nat (String.length (b64_encode l))) in *. clearbody n.
  assert (Hneg : (- n) mod 4 = (4 - n mod 4) mod 4).
  { rewrite (Z.div_mod n 4) at 1 by lia. replace (- (4 * (n / 4) + n mod 4)) with (- (n mod 4) + (- (n / 4)) * 4) by lia.
    rewrite Z_mod_plus_full. replace (4 - n mod 4) with (- (n mod 4) + 1 * 4) by lia. by rewrite Z_mod_plus_full. }
  rewrite Hneg, H. destruct (Z.of_nat (length l) mod 3) as [|[p|p|]|]; reflexivity || lia || (destruct p; reflexivity || lia).
Qed.

Lemma scan_pad2 left : b64_scan 2 left 0 "==" = Some [].
Proof. reflexivity. Qed.
Lemma scan_pad3 left : b64_scan 3 left 0 "=" = Some [].
Proof. reflexivity. Qed.

Lemma carry a q k : 0 <= q < k → (a * k + q) / k = a ∧ (a * k + q) mod k = q.
Proof.
  intros H. rewrite Z.div_add_l, (Z.div_small q) by lia. rewrite (Z.add_comm (a * k)), Z_mod_plus_full, Z.mod_small by lia. lia.
Qed.

Ltac scan_chars :=
  rewrite !b64_scan_char by lia; cbn [Z.eqb Pos.eqb]; rewrite ?scan_pad2, ?scan_pad3; cbn [mbind option_bind].

Lemma scan_encode l :
  Forall is_byte l → b64_scan 0 0 0 (b64_encode l +:+ tail_padding l) = Some l.
Proof.
  induction l as [|a|a b|a b c l IH] using triples_ind; unfold is_byte; rewrite ?Forall_cons; intros Hl.
  - done.
  - destruct Hl as [Ha _]. cbn [b64_encode]. rewrite app_cons, app_str1. change (tail_padding [a]) with "==".
    euclid a 4 q r. scan_chars. rewrite Z.div_mul by lia. do 2 f_equal. lia.
  - destruct Hl as (Ha & Hb & _). cbn [b64_encode]. rewrite !app_cons, app_str1. change (tail_padding [a; b]) with "=".
    euclid a 4 q r. euclid b 16 q' r'. scan_chars. destruct (carry r q' 16) as [-> ->]; [lia|].
    rewrite Z.div_mul by lia. do 2 f_equal; [lia|f_equal; lia].
  - destruct Hl as (Ha & Hb & Hc & Hl). cbn [b64_encode].
    assert (Ht : tail_padding (a :: b :: c :: l) = tail_padding l).
    { unfold tail_padding. cbn [length]. rewrite !Nat2Z.inj_succ.
      replace (Z.succ (Z.succ (Z.succ (Z.of_nat (length l))))) with (Z.of_nat (length l) + 1 * 3) by lia.
      by rewrite Z_mod_plus_full. }
    rewrite Ht, !app_cons. specialize (IH Hl).
    euclid a 4 q r. euclid b 16 q' r'. euclid c 64 q'' r''. scan_chars. rewrite IH. cbn [mbind option_bind].
    destruct (carry r q' 16) as [-> ->]; [lia|]. destruct (carry r' q'' 4) as [-> ->]; [lia|].
    do 2 f_equal; [lia|]. f_equal; [lia|]. f_equal. lia.
Qed.

Lemma bytes_range s : Forall is_byte (bytes_of s).
Proof.
  unfold bytes_of. induction s as [|c s IH]; cbn; constructor; [|done].
  unfold code, is_byte. pose proof (N_ascii_bounded c). lia.
Qed.

Lemma of_bytes_of s : of_bytes (bytes_of s) = s.
Proof.
  unfold of_bytes, bytes_of. rewrite map_map.
  rewrite (map_ext _ id), map_id; [by rewrite String.string_of_list_ascii_of_string|].
  intros c. unfold chr, code. by rewrite N2Z.id, ascii_N_embedding.
Qed.

(** A property of the alphabet is one of every encoded text. *)
Lemma encode_all (p : ascii → bool) l :
  (∀ n, 0 <= n < 64 → p (b64_char n) = true) → Forall is_byte l → all_chars p (b64_encode l) = true.
Proof.
  intros Hp. assert (Hc : ∀ n s, 0 <= n < 64 → all_chars p s = true → all_chars p (String (b64_char n) s) = true).
  { intros n s Hn Hs. cbn [all_chars]. by rewrite Hp, Hs. }
  induction l as [|a|a b|a b c l IH] using triples_ind; unfold is_byte; rewrite ?Forall_cons; intros Hl;
    cbn [b64_encode]; [done| | |].
  - destruct Hl as [Ha _]. euclid a 4 q r. apply Hc; [lia|]. apply (Hc _ ""); [lia|done].
  - destruct Hl as (Ha & Hb & _). euclid a 4 q r. euclid b 16 q' r'. apply Hc; [lia|]. apply Hc; [lia|].
    apply (Hc _ ""); [lia|done].
  - destruct Hl as (Ha & Hb & Hcc & Hl). euclid a 4 q r. euclid b 16 q' r'. euclid c 64 q'' r''.
    do 4 (apply Hc; [lia|]). by apply IH.
Qed.

Lemma encode_ascii l : Forall is_byte l → is_ascii (b64_encode l) = true.
Proof. apply encode_all. intros n Hn. by destruct (b64_value_char n Hn) as (_ & _ & ->). Qed.

Lemma encode_no_dot l : Forall is_byte l → has_char "." (b64_encode l) = false.
Proof.
  intros Hl. enough (Ha : all_chars (fun c => negb (Ascii.eqb "." c)) (b64_encode l) = true).
  { revert Ha. generalize (b64_encode l). intros s. induction s as [|c s IH]; [done|]. cbn [all_chars has_char].
    intros [Hc%negb_true_iff Hs]%andb_true_iff. by rewrite Hc, IH. }
  apply encode_all; [|done]. intros n Hn. apply negb_true_iff, Ascii.eqb_neq. intros E.
  destruct (b64_value_char n Hn) as (Hv & _). by rewrite <- E in Hv.
Qed.

Lemma b64_decode_encode s : b64_decode (b64_encode (bytes_of s)) = Some s.
Proof.
  unfold b64_decode. rewrite encode_ascii by apply bytes_range.
  rewrite padding_encode, scan_encode by apply bytes_range. cbn. by rewrite of_bytes_of.
Qed.

(** * The standard alphabet *)
Definition std_char (c : ascii) : ascii :=
  if Ascii.eqb c "-" then "+"%char else if Ascii.eqb c "_" then "/"%char else c.

Fixpoint map_chars (f : ascii → ascii) (s : string) : string :=
  match s with EmptyString => EmptyString | String c s' => String (f c) (map_chars f s') end.

(** [base64.b64encode(raw).decode("ascii")]. *)
Definition b64std_encode (raw : string) : string :=
  let l := bytes_of raw in map_chars std_char (b64_encode l) +:+ tail_padding l.

(** The text up to its first padding character, and from there on. *)
Fixpoint split_padding (s : string) : string * string :=
  match s with
  | EmptyString => ("", "")
  | String c s' => if Ascii.eqb c "=" then ("", s) else let '(a, b) := split_padding s' in (String c a, b)
  end.

Definition is_std_char (c : ascii) : bool :=
  match b64_value c with Some _ => negb (Ascii.eqb c "-" || Ascii.eqb c "_") | None => false end.

(** [base64.b64decode(s, validate=True)]: only the alphabet, then exactly the padding the
    length calls for. *)
Definition b64std_decode (s : string) : option string :=
  let '(body, pad) := split_padding s in
  let n := Z.of_nat (String.length body) mod 4 in
  if all_chars is_std_char body &&
     String.eqb pad (if n =? 2 then "==" else if n =? 3 then "=" else "") && negb (n =? 1)
  then of_bytes <$> b64_scan 0 0 0 s else None.

Lemma split_padding_app a b :
  all_chars is_std_char a = true → match b with EmptyString => True | String c _ => c = "="%char end →
  split_padding (a +:+ b) = (a, b).
Proof.
  intros Ha Hb. induction a as [|c a IH].
  - rewrite app_empty. destruct b as [|c b]; [done|]. subst c. done.
  - cbn [all_chars] in Ha. apply andb_true_iff in Ha as [Hc Ha]. rewrite app_cons. cbn [split_padding].
    destruct (Ascii.eqb_spec c "=") as [->|]; [discriminate Hc|]. by rewrite IH.
Qed.

Lemma b64_value_std c : b64_value (std_char c) = b64_value c ∧ Ascii.eqb (std_char c) "=" = Ascii.eqb c "=".
Proof.
  unfold std_char. destruct (Ascii.eqb_spec c "-") as [->|]; [done|]. by destruct (Ascii.eqb_spec c "_") as [->|].
Qed.

Lemma scan_std quad left pads s b : b64_scan quad left pads (map_chars std_char s +:+ b) = b64_scan quad left pads (s +:+ b).
Proof.
  revert quad left pads. induction s as [|c s IH]; intros quad left pads; [done|]. cbn [map_chars]. rewrite !app_cons.
  cbn [b64_scan]. destruct (b64_value_std c) as [-> ->]. repeat case_match; by rewrite ?IH.
Qed.

Lemma length_map_chars f s : String.length (map_chars f s) = String.length s.
Proof. induction s as [|c s IH]; cbn; [done|by rewrite IH]. Qed.

Lemma b64std_decode_encode s : b64std_decode (b64std_encode s) = Some s.
Proof.
  unfold b64std_decode, b64std_encode. cbv zeta. set (l := bytes_of s).
  assert (Hstd : all_chars is_std_char (map_chars std_char (b64_encode l)) = true).
  { assert (Hm : ∀ t, all_chars (fun c => is_std_char (std_char c)) t = true → all_chars is_std_char (map_chars std_char t) = true).
    { induction t as [|c t IH]; [done|]. cbn [all_chars map_chars]. intros [-> Ht]%andb_true_iff. by rewrite IH. }
    apply Hm, encode_all; [|apply bytes_range]. intros n Hn. unfold is_std_char.
    destruct (b64_value_std (b64_char n)) as [-> _]. destruct (b64_value_char n Hn) as (-> & _).
    unfold std_char. destruct (Ascii.eqb_spec (b64_char n) "-"); [done|]. destruct (Ascii.eqb_spec (b64_char n) "_"); [done|].
    apply negb_true_iff, orb_false_iff. by rewrite !Ascii.eqb_neq. }
  pose proof (Z.mod_pos_bound (Z.of_nat (length l)) 3 ltac:(lia)).
  assert (Hc : Z.of_nat (length l) mod 3 = 0 ∨ Z.of_nat (length l) mod 3 = 1 ∨ Z.of_nat (length l) mod 3 = 2) by lia.
  rewrite split_padding_app; [|done|].
  2: { unfold tail_padding. by destruct Hc as [->|[->| ->]]. }
  rewrite Hstd, length_map_chars, length_encode, scan_std, scan_encode by apply bytes_range. fold l.
  unfold tail_padding. destruct Hc as [->|[->| ->]]; exact (f_equal Some (of_bytes_of s)).
Qed.

(** * Lengths *)

(** A digest is 32 bytes. *)
Lemma length_of_bytes l : String.length (of_bytes l) = length l.
Proof. unfold of_bytes. induction l as [|n l IH]; cbn in *; [done|by rewrite IH]. Qed.

Lemma length_sha256 s : String.length (sha256 s) = 32%nat.
Proof.
  unfold sha256. rewrite length_of_bytes. unfold sha256_bytes. by destruct (compress_blocks _ _ _).
Qed.

Lemma length_hex s : String.length (hex_of s) = (2 * String.length s)%nat.
Proof.
  unfold hex_of, bytes_of. induction s as [|c s IH]; [done|]. cbn in *. lia.
Qed.

(** A character that is no hexadecimal digit is not in [bytes.hex()]. *)
Lemma hex_without c s :
  forallb (fun k => negb (Ascii.eqb c (hex_digit k))) [0; 1; 2; 3; 4; 5; 6; 7; 8; 9; 10; 11; 12; 13; 14; 15] = true →
  has_char c (hex_of s) = false.
Proof.
  intros Hc. assert (Hd : ∀ k, 0 <= k < 16 → Ascii.eqb c (hex_digit k) = false).
  { intros k Hk. apply negb_true_iff. rewrite forallb_forall in Hc. apply (Hc k).
    assert (E : k = 0 ∨ k = 1 ∨ k = 2 ∨ k = 3 ∨ k = 4 ∨ k = 5 ∨ k = 6 ∨ k = 7 ∨ k = 8 ∨ k = 9 ∨ k = 10 ∨ k = 11 ∨ k = 12 ∨
                k = 13 ∨ k = 14 ∨ k = 15) by lia. cbn. intuition. }
  unfold hex_of, bytes_of. induction s as [|x s IH]; [done|].
  cbn [String.list_ascii_of_string map concat app String.string_of_list_ascii has_char]. rewrite IH.
  assert (Hx : 0 <= code x < 256) by (unfold code; pose proof (N_ascii_bounded x); lia).
  pose proof (Z.div_mod (code x) 16 ltac:(lia)). pose proof (Z.mod_pos_bound (code x) 16 ltac:(lia)).
  by rewrite !Hd by lia.
Qed.
End Crypto.
