(* ===== verification/Regex.v ===== *)
(** The regular expressions the program uses of Python's [re]: a backtracking matcher in
    Python's order of preference, [re.search], [findall] and [finditer], and the proof that
    the matcher finds a match exactly when the expression has one.  A character is a byte;
    word characters are those of ASCII. *)

From S2P Require Import Prelude PyValue.
From Stdlib Require Import Ascii.
Local Open Scope Z_scope.

Module Regex.

(** * Expressions *)
Inductive re :=
| Eps
| Chr (p : ascii → bool)
| Seq (a b : re)
| Alt (a b : re)
| Star (a : re)       (* greedy *)
| Bound               (* \b *)
| Start               (* ^ *)
| End_.               (* $ *)

(** A place in a text: the character before it and what follows. *)
Record place := At { prev : option ascii; rest : string }.

Definition is_lower (c : ascii) : bool := (97 <=? code c) && (code c <=? 122).
Definition is_word (c : ascii) : bool := is_upper c || is_lower c || is_digit c || Ascii.eqb c "_".
Definition word_before (s : place) : bool := match prev s with Some c => is_word c | None => false end.
Definition word_after (s : place) : bool := match rest s with String c _ => is_word c | EmptyString => false end.
Definition at_boundary (s : place) : bool := xorb (word_before s) (word_after s).
Definition at_start (s : place) : bool := match prev s with Some _ => false | None => true end.
(** [$]: the end, or before a final newline. *)
Definition at_end (s : place) : bool := String.eqb (rest s) "" || String.eqb (rest s) newline.

Definition size (s : place) : nat := String.length (rest s).

(** * The matcher *)

(** [run r k s]: the first way, in the order of preference, in which [r] matches at [s] and
    the continuation accepts the place reached.  A round of [Star] that consumes nothing
    ends the loop. *)
Fixpoint run {R} (r : re) (k : place → option R) (s : place) {struct r} : option R :=
  match r with
  | Eps => k s
  | Chr p => match rest s with
             | String c t => if p c then k (At (Some c) t) else None
             | EmptyString => None
             end
  | Seq a b => run a (run b k) s
  | Alt a b => match run a k s with Some x => Some x | None => run b k s end
  | Star a =>
      (fix loop (n : nat) (s : place) : option R :=
         match n with
         | O => k s
         | S n' => match run a (fun s' => if (size s' <? size s)%nat then loop n' s' else None) s with
                   | Some x => Some x
                   | None => k s
                   end
         end) (size s) s
  | Bound => if at_boundary s then k s else None
  | Start => if at_start s then k s else None
  | End_ => if at_end s then k s else None
  end.

(** * What an expression matches *)
Inductive matches : re → place → place → Prop :=
| m_eps s : matches Eps s s
| m_chr p q c t : p c = true → matches (Chr p) (At q (String c t)) (At (Some c) t)
| m_seq a b s1 s2 s3 : matches a s1 s2 → matches b s2 s3 → matches (Seq a b) s1 s3
| m_left a b s t : matches a s t → matches (Alt a b) s t
| m_right a b s t : matches b s t → matches (Alt a b) s t
| m_stop a s : matches (Star a) s s
| m_round a s1 s2 s3 :
    matches a s1 s2 → (size s2 < size s1)%nat → matches (Star a) s2 s3 → matches (Star a) s1 s3
| m_bound s : at_boundary s = true → matches Bound s s
| m_start s : at_start s = true → matches Start s s
| m_end s : at_end s = true → matches End_ s s.

Lemma matches_size r s t : matches r s t → (size t <= size s)%nat.
Proof. induction 1; cbn in *; lia. Qed.

(** The loop of [run] for [Star]. *)
Definition loop {R} (a : re) (k : place → option R) : nat → place → option R :=
  fix loop (n : nat) (s : place) : option R :=
    match n with
    | O => k s
    | S n' => match run a (fun s' => if (size s' <? size s)%nat then loop n' s' else None) s with
              | Some x => Some x
              | None => k s
              end
    end.

Lemma run_star {R} a (k : place → option R) s : run (Star a) k s = loop a k (size s) s.
Proof. reflexivity. Qed.

Lemma run_sound {R} r (k : place → option R) s x :
  run r k s = Some x → ∃ t, matches r s t ∧ k t = Some x.
Proof.
  revert k s x. induction r as [|p|a IHa b IHb|a IHa b IHb|a IHa| | |]; intros k s x; cbn [run].
  - intros H. exists s. by split; [constructor|].
  - destruct s as [q [|c t]]; cbn; [done|]. destruct (p c) eqn:Hp; [|done]. intros H. eexists. split; [by constructor|done].
  - intros (t & Ht & H)%IHa. apply IHb in H as (u & Hu & H). exists u. by split; [eapply m_seq|].
  - destruct (run a k s) as [y|] eqn:Ha.
    + intros [= ->]. apply IHa in Ha as (t & Ht & H). exists t. by split; [apply m_left|].
    + intros (t & Ht & H)%IHb. exists t. by split; [apply m_right|].
  - change (loop a k (size s) s = Some x → ∃ t, matches (Star a) s t ∧ k t = Some x).
    generalize (size s) as n. intros n. revert s x. induction n as [|n IHn]; intros s x; cbn [loop].
    + intros H. exists s. by split; [constructor|].
    + destruct (run a _ s) as [y|] eqn:Ha.
      * intros [= ->]. apply IHa in Ha as (t & Ht & H). destruct (Nat.ltb_spec (size t) (size s)); [|done].
        apply IHn in H as (u & Hu & H). exists u. by split; [eapply m_round|].
      * intros H. exists s. by split; [constructor|].
  - destruct (at_boundary s) eqn:E; [|done]. intros H. exists s. by split; [constructor|].
  - destruct (at_start s) eqn:E; [|done]. intros H. exists s. by split; [constructor|].
  - destruct (at_end s) eqn:E; [|done]. intros H. exists s. by split; [constructor|].
Qed.

Lemma run_complete {R} r (k : place → option R) s t :
  matches r s t → is_Some (k t) → is_Some (run r k s).
Proof.
  revert k s t. induction r as [|p|a IHa b IHb|a IHa b IHb|a IHa| | |]; intros k s t Hm Hk; cbn [run].
  - by inversion Hm; subst.
  - inversion Hm as [|? q c u Hp| | | | | | | |]; subst. cbn. by rewrite Hp.
  - inversion Hm as [| |? ? ? u ? H1 H2| | | | | | |]; subst. eapply IHa; [done|]. by eapply IHb.
  - destruct (run a k s) as [y|] eqn:Ha; [done|].
    inversion Hm as [| | |? ? ? ? H|? ? ? ? H| | | | |]; subst; [|by eapply IHb].
    eapply IHa in H as [y Hy]; [|done]. congruence.
  - change (is_Some (loop a k (size s) s)).
    assert (H : ∀ n s, (size s <= n)%nat → matches (Star a) s t → is_Some (loop a k n s)).
    { induction n as [|n IHn]; intros s' Hn Hs'; cbn [loop].
      - inversion Hs'; subst; [done|lia].
      - destruct (run a _ s') as [y|] eqn:Ha; [done|].
        inversion Hs' as [| | | | |? s1 E1|? s1 s2 s3 H1 Hlt H2 E1 E2| | |]; subst; [done|].
        eapply (IHa (fun s0 => if (size s0 <? size s')%nat then loop a k n s0 else None)) in H1 as [y Hy]; [congruence|].
        cbv beta. destruct (Nat.ltb_spec (size s2) (size s')); [|lia]. apply IHn; [lia|done]. }
    by apply H.
  - inversion Hm as [| | | | | | |? E| |]; subst. by rewrite E.
  - inversion Hm as [| | | | | | | |? E|]; subst. by rewrite E.
  - inversion Hm as [| | | | | | | | |? E]; subst. by rewrite E.
Qed.

(** * Searching *)

(** The places of a text, from the left. *)
Fixpoint places (p : option ascii) (s : string) : list place :=
  At p s :: match s with EmptyString => [] | String c s' => places (Some c) s' end.

Definition all_places (s : string) : list place := places None s.

(** [bool(r.match(s))]. *)
Definition match_ (r : re) (s : string) : bool := match run r Some (At None s) with Some _ => true | None => false end.

(** [bool(r.search(s))]. *)
Definition search (r : re) (s : string) : bool :=
  existsb (fun p => match run r Some p with Some _ => true | None => false end) (all_places s).

(** [findall]: the texts of the matches from the left, each one after the end of the last;
    an empty match moves one character on.  [n] bounds the characters left. *)
Fixpoint find_from (n : nat) (r : re) (s : place) : list string :=
  match n with
  | O => []
  | S n' =>
      let next := match rest s with EmptyString => [] | String c t => find_from n' r (At (Some c) t) end in
      match run r Some s with
      | Some t => if (size t <? size s)%nat then String.substring 0 (size s - size t) (rest s) :: find_from n' r t
                  else "" :: next
      | None => next
      end
  end.
Definition findall (r : re) (s : string) : list string := find_from (S (String.length s)) r (At None s).

(** The matcher implements the expressions: [match] succeeds exactly when the
    expression matches at the start of the text, [search] exactly when it matches at some
    place of it, whatever the order in which the alternatives are tried. *)
Theorem matcher_correct r s :
  (match_ r s = true ↔ ∃ t, matches r (At None s) t) ∧
  (search r s = true ↔ ∃ p t, p ∈ all_places s ∧ matches r p t).
Proof.
  assert (H : ∀ p, (match run r Some p with Some _ => true | None => false end) = true ↔ ∃ t, matches r p t).
  { intros p. split.
    - destruct (run r Some p) as [t|] eqn:E; [|done]. intros _. apply run_sound in E as (u & Hu & _). by exists u.
    - intros [t Ht]. destruct (run_complete r Some p t Ht) as [x ->]; [by eexists|done]. }
  split; [apply H|]. unfold search. rewrite existsb_exists. split.
  - intros (p & Hp%list_elem_of_In & Hm%H). destruct Hm as [t Ht]. by exists p, t.
  - intros (p & t & Hp & Ht). exists p. split; [by apply list_elem_of_In|]. apply H. by exists t.
Qed.

(** * Writing expressions *)
Definition lit_char (c : ascii) : re := Chr (Ascii.eqb c).
Fixpoint lit (s : string) : re := match s with EmptyString => Eps | String c s' => Seq (lit_char c) (lit s') end.
(** Under [re.IGNORECASE], for a lower-case [s]. *)
Fixpoint ilit (s : string) : re :=
  match s with EmptyString => Eps | String c s' => Seq (Chr (fun d => Ascii.eqb c (lower_char d))) (ilit s') end.
Definition opt (r : re) : re := Alt r Eps.
Definition plus (r : re) : re := Seq r (Star r).
Fixpoint alts (l : list re) : re := match l with [] => Chr (fun _ => false) | [r] => r | r :: l' => Alt r (alts l') end.
Fixpoint seqs (l : list re) : re := match l with [] => Eps | [r] => r | r :: l' => Seq r (seqs l') end.
Fixpoint times (n : nat) (r : re) : re := match n with O => Eps | S n' => Seq r (times n' r) end.
(** [r{1,n}] for [n > 0]. *)
Fixpoint upto (n : nat) (r : re) : re := match n with O => Eps | S n' => Seq r (opt (upto n' r)) end.
Definition one_of (s : string) : re := Chr (fun c => has_char c s).
Definition space : re := Chr is_space.
(** [\b(w1|w2|...)\b] under [re.IGNORECASE]. *)
Definition keywords (ws : list re) : re := Seq Bound (Seq (alts ws) Bound).

Example search_words :
  (search (keywords [ilit "api"; ilit "rest"]) "The REST of it", search (keywords [ilit "api"; ilit "rest"]) "restful rapid") =
  (true, false).
Proof. reflexivity. Qed.
Example find_digits : findall (plus (Chr is_digit)) "a12b3" = ["12"; "3"].
Proof. reflexivity. Qed.
End Regex.
