(* ===== verification/GatePolicy.v ===== *)
(** The gate policy of a project ([shared/runtime/gate_policy.py]): which
    decision cards the pipeline runner may acknowledge without a human. *)

From S2P Require Import Prelude PyValue.

Module GatePolicy.

Inductive PipelineMode := gate_checked | autonomous.

#[export] Instance PipelineMode_eq_dec : EqDecision PipelineMode.
Proof. solve_decision. Defined.

Definition ALL_ACK_KINDS : list string :=
  ["intake_briefing"; "prd_approval"; "roadmap_approval"; "trd_approval";
   "sprint_plan_approval"; "code_approval"; "code_review_pass";
   "code_review_blocked"; "security_review_blocked"; "devops_approval";
   "qa_approval"; "qa_execution"; "auditor_approval"; "release_gate_approval";
   "local_deploy_prompt"; "host_deploy_prompt"; "host_deploy_instructions";
   "deploy_status"; "operate_kickoff"; "project_complete"].

Definition NEVER_AUTO : list string :=
  ["orchestrator_gap"; "role_failure"; "master_daily_briefing"].

(** One entry of [_PRESETS]. *)
Record preset_lists := { base_auto : list string; base_hold : list string }.

Definition strict_lists : preset_lists := {|
  base_auto :=
    ["intake_briefing"; "prd_approval"; "roadmap_approval"; "trd_approval";
     "sprint_plan_approval"; "code_approval"; "code_review_pass";
     "code_review_blocked"; "security_review_blocked"; "devops_approval";
     "qa_approval"; "qa_execution"; "auditor_approval"; "local_deploy_prompt";
     "host_deploy_prompt"; "host_deploy_instructions"; "deploy_status";
     "operate_kickoff"];
  base_hold := ["release_gate_approval"] |}.

Definition PRESETS (name : string) : option preset_lists :=
  if String.eqb name "gate_checked"
  then Some {| base_auto := []; base_hold := ALL_ACK_KINDS |}
  else if String.eqb name "strict" then Some strict_lists
  else if String.eqb name "full_auto"
  then Some {| base_auto := ALL_ACK_KINDS; base_hold := [] |}
  else None.

Record policy := { auto : list string; hold : list string; preset : string }.

(** [GatePolicy.can_auto_ack]. *)
Definition policy_can_auto_ack (p : policy) (kind : string) : bool :=
  if in_strs kind NEVER_AUTO then false
  else if in_strs kind (hold p) then false
  else if in_strs kind (auto p) then true
  else if negb (String.eqb (preset p) "gate_checked") && endswith kind "_approval" then true
  else false.

Definition resolve_pipeline_mode (metadata : dict) : PipelineMode :=
  if is_str (get "pipeline_mode" metadata) "autonomous" then autonomous else gate_checked.

(** The preset's name after [str(... or "strict").strip().lower()] and the
    fallback for unknown names. *)
Definition resolve_preset (md : dict) : string :=
  let raw := lower (strip (py_str (py_or (get "gate_policy_preset" md) (VStr "strict")))) in
  match PRESETS raw with Some _ => raw | None => "strict" end.

(** [explicit.get(field)] when it is a list, as a list of strings. *)
Definition explicit_list (explicit : value) (field : string) : option (list string) :=
  d ← as_dict explicit; l ← as_list (get field d); Some (map py_str l).

Definition resolve_gate_policy (md : dict) : policy :=
  let name := resolve_preset md in
  let base := default strict_lists (PRESETS name) in
  let explicit := get "gate_policy" md in
  {| auto := default (base_auto base) (explicit_list explicit "auto");
     hold := default (base_hold base) (explicit_list explicit "hold");
     preset := name |}.

Definition can_auto_ack (kind : string) (mode : PipelineMode) (p : policy) : bool :=
  match mode with
  | autonomous => policy_can_auto_ack p kind
  | gate_checked => false
  end.

(** The metadata a new project is created with. *)
Definition metadata_patch_for_create
    (mode : option PipelineMode) (preset_name : option string) : dict :=
  (match mode with
   | Some autonomous => [("pipeline_mode", VStr "autonomous")]
   | Some gate_checked => [("pipeline_mode", VStr "gate_checked")]
   | None => []
   end) ++
  (match preset_name, mode with
   | Some p, _ => if String.eqb p "" then
                    match mode with
                    | Some autonomous => [("gate_policy_preset", VStr "strict")]
                    | _ => []
                    end
                  else [("gate_policy_preset", VStr p)]
   | None, Some autonomous => [("gate_policy_preset", VStr "strict")]
   | None, _ => []
   end).

(** Whether the runner acks a card of this kind for a project with this metadata. *)
Definition runner_may_ack (md : dict) (kind : string) : bool :=
  can_auto_ack kind (resolve_pipeline_mode md) (resolve_gate_policy md).

(** ** Lemmas *)
Lemma policy_can_auto_ack_spec p kind :
  policy_can_auto_ack p kind = true ↔
  kind ∉ NEVER_AUTO ∧ kind ∉ hold p ∧
  (kind ∈ auto p ∨ (preset p ≠ "gate_checked" ∧ endswith kind "_approval" = true)).
Proof.
  unfold policy_can_auto_ack.
  destruct (in_strs kind NEVER_AUTO) eqn:H1; [rewrite in_strs_true in H1; naive_solver|].
  rewrite in_strs_false in H1.
  destruct (in_strs kind (hold p)) eqn:H2; [rewrite in_strs_true in H2; naive_solver|].
  rewrite in_strs_false in H2.
  destruct (in_strs kind (auto p)) eqn:H3; [rewrite in_strs_true in H3; naive_solver|].
  rewrite in_strs_false in H3.
  destruct (String.eqb_spec (preset p) "gate_checked"), (endswith kind "_approval"); cbn; naive_solver.
Qed.

Lemma resolve_preset_cases md :
  resolve_preset md = "strict" ∨ resolve_preset md = "gate_checked" ∨
  resolve_preset md = "full_auto".
Proof.
  unfold resolve_preset, PRESETS.
  set (raw := lower _).
  destruct (String.eqb_spec raw "gate_checked"); [auto|].
  destruct (String.eqb_spec raw "strict"); [auto|].
  destruct (String.eqb_spec raw "full_auto"); auto.
Qed.

Lemma runner_may_ack_spec md kind :
  runner_may_ack md kind = true ↔
  resolve_pipeline_mode md = autonomous ∧
  policy_can_auto_ack (resolve_gate_policy md) kind = true.
Proof. unfold runner_may_ack, can_auto_ack. destruct (resolve_pipeline_mode md); naive_solver. Qed.

(** The hold list of a project that sets none of its own. *)
Lemma default_hold md :
  explicit_list (get "gate_policy" md) "hold" = None →
  resolve_preset md ≠ "full_auto" →
  "release_gate_approval" ∈ hold (resolve_gate_policy md).
Proof.
  intros Hex Hp. cbn. rewrite Hex. cbn.
  destruct (resolve_preset_cases md) as [-> | [-> | ?]]; [..|congruence];
    cbn; apply in_strs_true; reflexivity.
Qed.

(** ** Properties *)

(** C6: the release gate stays with a human.  A project whose metadata carries
    no hold list of its own and whose preset does not resolve to [full_auto]
    never has its release-gate card acknowledged by the pipeline runner. *)
Theorem release_gate_needs_human md :
  explicit_list (get "gate_policy" md) "hold" = None →
  resolve_preset md ≠ "full_auto" →
  runner_may_ack md "release_gate_approval" = false.
Proof.
  intros Hex Hp. apply not_true_iff_false.
  rewrite runner_may_ack_spec, policy_can_auto_ack_spec.
  intros (_ & _ & Hh & _). by apply Hh, default_hold.
Qed.

Lemma release_gate_needs_human_witness :
  runner_may_ack [("pipeline_mode", VStr "autonomous")] "release_gate_approval" = false.
Proof. apply release_gate_needs_human; [reflexivity | vm_compute; discriminate]. Defined.

End GatePolicy.
