(* ===== verification/Decisions.v ===== *)
(** The decision queue: [shared/api/routes/decisions.py] and [hub_scope.py].

    A decision card is an approval the hub puts before a person.  [_DecisionStore]
    keeps the cards in a process-local dict (the cache), mirrors each write to the
    table [spine_lifecycle.decision_card] and fans events out to live subscribers.
    The model keeps the cache as a dict in insertion order, the table as a list of
    rows keyed by id, and a list of faults: each SQL statement takes the next fault
    and raises when it is [true], so the [except] branches of the code run. *)

From S2P Require Import Prelude PyValue Datetime Seconds.
From Stdlib Require Import Ascii Sorted.
Local Open Scope Z_scope.

Module Decisions.

(** * Data *)
Inductive DecisionStatus := Pending | Acked | Rejected | Superseded | Expired.
Inductive Severity := Info | Warning | Critical.

#[export] Instance DecisionStatus_eq_dec : EqDecision DecisionStatus.
Proof. solve_decision. Defined.
#[export] Instance Severity_eq_dec : EqDecision Severity.
Proof. solve_decision. Defined.

(** Times are float seconds. *)
Record DecisionCard := {
  decision_id : string;
  decision_class : string;
  project_id : option string;
  title : string;
  body : string;
  severity : Severity;
  actions : list string;
  status : DecisionStatus;
  created_at : seconds;
  expires_at : option seconds;
  metadata : dict;
  citations : list value
}.

Definition default_actions : list string := ["ack"; "reject"].

(** [card.model_copy(update=...)] for the fields the code replaces. *)
Definition with_status (st : DecisionStatus) (c : DecisionCard) : DecisionCard :=
  {| decision_id := decision_id c; decision_class := decision_class c; project_id := project_id c;
     title := title c; body := body c; severity := severity c; actions := actions c;
     status := st; created_at := created_at c; expires_at := expires_at c;
     metadata := metadata c; citations := citations c |}.
Definition with_id (i : string) (c : DecisionCard) : DecisionCard :=
  {| decision_id := i; decision_class := decision_class c; project_id := project_id c;
     title := title c; body := body c; severity := severity c; actions := actions c;
     status := status c; created_at := created_at c; expires_at := expires_at c;
     metadata := metadata c; citations := citations c |}.
Definition with_body_meta (b : string) (m : dict) (c : DecisionCard) : DecisionCard :=
  {| decision_id := decision_id c; decision_class := decision_class c; project_id := project_id c;
     title := title c; body := b; severity := severity c; actions := actions c;
     status := status c; created_at := created_at c; expires_at := expires_at c;
     metadata := m; citations := citations c |}.

(** [dict.setdefault]. *)
Definition setdefault (k : string) (v : value) (d : dict) : dict :=
  if dict_has k d then d else dict_set k v d.

Definition card_list_view (c : DecisionCard) : DecisionCard :=
  with_body_meta ""
    (if String.eqb (body c) "" then metadata c
     else setdefault "body_chars" (VInt (Z.of_nat (text_length (body c)))) (metadata c)) c.

(** Events on the live stream: card events carry the list view, the others are
    arbitrary dicts given to [publish_event]. *)
Inductive event :=
| CardCreated (card : DecisionCard)
| CardUpdated (card : DecisionCard)
| Published (fields : dict).

(** * Hub inbox and project cards *)
Definition is_hub_inbox_card (c : DecisionCard) : bool :=
  if is_str (get "kind" (metadata c)) "master_daily_briefing" then true
  else String.eqb (decision_class c) "briefing"
       && match project_id c with Some p => String.eqb p "" | None => true end
       && negb (truthy (get "project_uuid" (metadata c))).
Definition is_project_decision_card (c : DecisionCard) : bool := negb (is_hub_inbox_card c).

(** * Identifiers *)

(** [s.replace(old, "")] for a non-empty [old]; [fuel] bounds the scan. *)
Fixpoint remove_all (fuel : nat) (old s : string) : string :=
  match fuel, s with
  | O, _ | _, EmptyString => s
  | S fuel', String c s' =>
      if String.prefix old s
      then remove_all fuel' old (String.substring (String.length old) (String.length s) s)
      else String c (remove_all fuel' old s')
  end.
Definition replace_empty (old s : string) : string := remove_all (String.length s) old s.

Fixpoint strip_left_of (cs s : string) : string :=
  match s with
  | EmptyString => EmptyString
  | String c s' => if has_char c cs then strip_left_of cs s' else s
  end.
Fixpoint strip_right_of (cs s : string) : string :=
  match s with
  | EmptyString => EmptyString
  | String c s' =>
      match strip_right_of cs s' with
      | EmptyString => if has_char c cs then EmptyString else str1 c
      | t => String c t
      end
  end.

(** [n] in exactly [k] lower-case hexadecimal digits. *)
Fixpoint hex_pad (k : nat) (n : Z) (rest : string) : string :=
  match k with
  | O => rest
  | S k' => hex_pad k' (n / 16) (String (hex_digit (n mod 16)) rest)
  end.

(** [str(uuid.UUID(int=n))]. *)
Definition uuid_dashed (n : Z) : string :=
  let h := hex_pad 32 n "" in
  String.substring 0 8 h +:+ "-" +:+ String.substring 8 4 h +:+ "-"
  +:+ String.substring 12 4 h +:+ "-" +:+ String.substring 16 4 h +:+ "-"
  +:+ String.substring 20 12 h.

(** [_to_uuid_str]: [str(uuid.UUID(s))], [None] for a [ValueError]. *)
Definition to_uuid_str (s : string) : option string :=
  let h := replace_empty "uuid:" (replace_empty "urn:" s) in
  let h := replace_empty "-" (strip_right_of "{}" (strip_left_of "{}" h)) in
  if Nat.eqb (String.length h) 32 then
    match int_of_str 16 h with
    | Some n => if (0 <=? n) && (n <? 2 ^ 128) then Some (uuid_dashed n) else None
    | None => None
    end
  else None.

(** * Rows of [spine_lifecycle.decision_card] *)
Record row := {
  r_id : string; r_project_id : option Z; r_kind : string; r_title : string; r_body : string;
  r_severity : Severity; r_status : DecisionStatus; r_pushed_at : datetime;
  r_decided_by : option string; r_expires_at : option datetime;
  r_citations : list value; r_metadata : dict
}.

Definition str_or (s default : string) : string := if String.eqb s "" then default else s.

(** The card's project: the [project_id] column, else [metadata.project_uuid]. *)
Definition row_project_id (column : option Z) (m : dict) : option string :=
  match column with
  | Some n => Some (str_of_Z n)
  | None => match get "project_uuid" m with
            | VNone => None
            | v => Some (py_str v)
            end
  end.

(** [_row_to_card]: the columns a row has are typed by the table, so the code's
    defensive conversions keep them. *)
Definition row_to_card (r : row) : DecisionCard :=
  {| decision_id := r_id r;
     decision_class := str_or (r_kind r) "approval";
     project_id := row_project_id (r_project_id r) (r_metadata r);
     title := r_title r; body := r_body r; severity := r_severity r;
     actions := default_actions; status := r_status r;
     created_at := timestamp (r_pushed_at r); expires_at := timestamp <$> r_expires_at r;
     metadata := r_metadata r; citations := r_citations r |}.

(** [int(project_id)] when it is made of digits. *)
Definition numeric_project_id (p : option string) : option Z :=
  match p with
  | Some s => if negb (String.eqb s "") && all_chars is_digit s then int_of_str 10 s else None
  | None => None
  end.

Definition card_to_row (uuid_str : string) (c : DecisionCard) : row :=
  {| r_id := uuid_str; r_project_id := numeric_project_id (project_id c);
     r_kind := decision_class c; r_title := title c; r_body := body c;
     r_severity := severity c; r_status := status c; r_pushed_at := to_timestamp (created_at c);
     r_decided_by := None; r_expires_at := to_timestamp <$> expires_at c;
     r_citations := citations c; r_metadata := metadata c |}.

(** The [ON CONFLICT (id) DO UPDATE] clause of [_INSERT_SQL]. *)
Definition upsert_row (new old : row) : row :=
  {| r_id := r_id old; r_project_id := r_project_id old; r_kind := r_kind old;
     r_title := r_title new; r_body := r_body new; r_severity := r_severity new;
     r_status := r_status new; r_pushed_at := r_pushed_at old;
     r_decided_by := r_decided_by old; r_expires_at := r_expires_at old;
     r_citations := r_citations new; r_metadata := r_metadata new |}.

Definition insert_sql (new : row) (t : list (string * row)) : list (string * row) :=
  match dict_lookup (r_id new) t with
  | Some old => dict_set (r_id new) (upsert_row new old) t
  | None => dict_set (r_id new) new t
  end.

(** [_TRANSITION_SQL]. *)
Definition decide_row (st : DecisionStatus) (by_ : string) (r : row) : row :=
  {| r_id := r_id r; r_project_id := r_project_id r; r_kind := r_kind r; r_title := r_title r;
     r_body := r_body r; r_severity := r_severity r; r_status := st;
     r_pushed_at := r_pushed_at r; r_decided_by := Some by_; r_expires_at := r_expires_at r;
     r_citations := r_citations r; r_metadata := r_metadata r |}.

(** * Sorting: [sorted(items, key=..., reverse=True)], which is stable *)
Section SortDesc.
Context {A : Type} (key : A → Z).
Fixpoint insert_desc (x : A) (l : list A) : list A :=
  match l with
  | [] => [x]
  | y :: l' => if key y <=? key x then x :: l else y :: insert_desc x l'
  end.
Fixpoint sort_desc (l : list A) : list A :=
  match l with
  | [] => []
  | x :: l' => insert_desc x (sort_desc l')
  end.

Lemma insert_desc_perm x l : insert_desc x l ≡ₚ x :: l.
Proof.
  induction l as [|y l IH]; cbn; [done|].
  destruct (key y <=? key x); [done|]. rewrite IH. by constructor.
Qed.
Lemma sort_desc_perm l : sort_desc l ≡ₚ l.
Proof. induction l as [|x l IH]; cbn; [done|]. by rewrite insert_desc_perm, IH. Qed.
Lemma elem_of_sort_desc x l : x ∈ sort_desc l ↔ x ∈ l.
Proof. by rewrite sort_desc_perm. Qed.

Definition desc (x y : A) : Prop := key y <= key x.
Lemma sort_desc_sorted l : StronglySorted desc (sort_desc l).
Proof.
  assert (Hins : ∀ x m, StronglySorted desc m → StronglySorted desc (insert_desc x m)).
  { intros x m Hm. induction Hm as [|y m Hm IH Hall]; cbn; [repeat constructor|].
    destruct (Z.leb_spec (key y) (key x)); constructor; auto.
    - by constructor.
    - constructor; [done|]. eapply Forall_impl; [exact Hall|]. unfold desc. intros; lia.
    - apply list.Forall_forall. intros z Hz. rewrite insert_desc_perm in Hz.
      apply elem_of_cons in Hz as [->|Hz]; unfold desc; [lia|].
      by apply (proj1 (list.Forall_forall _ _) Hall). }
  induction l; cbn; auto using StronglySorted.
Qed.
End SortDesc.

(** * The store *)
Definition sse_buffer : nat := 256.
Definition queue_max : nat := 64.

Record store := {
  cards : list (string * DecisionCard);     (* _cards *)
  events : list event;                      (* _events, oldest first *)
  subscribers : list (nat * list event);    (* _subscribers: object identity, queued events *)
  next_queue : nat;                         (* identity of the next queue object *)
  db : bool;                                (* _db is not None *)
  table : list (string * row);              (* spine_lifecycle.decision_card *)
  faults : list bool;                       (* what the next SQL statements do *)
  background : list DecisionCard            (* created _persist_put tasks, not yet run *)
}.

Definition set_cards cs (s : store) := {| cards := cs; events := events s; subscribers := subscribers s;
  next_queue := next_queue s; db := db s; table := table s; faults := faults s; background := background s |}.
Definition set_events es ss (s : store) := {| cards := cards s; events := es; subscribers := ss;
  next_queue := next_queue s; db := db s; table := table s; faults := faults s; background := background s |}.
Definition set_queue n (s : store) := {| cards := cards s; events := events s; subscribers := subscribers s;
  next_queue := n; db := db s; table := table s; faults := faults s; background := background s |}.
Definition set_db b (s : store) := {| cards := cards s; events := events s; subscribers := subscribers s;
  next_queue := next_queue s; db := b; table := table s; faults := faults s; background := background s |}.
Definition set_table t (s : store) := {| cards := cards s; events := events s; subscribers := subscribers s;
  next_queue := next_queue s; db := db s; table := t; faults := faults s; background := background s |}.
Definition set_faults fs (s : store) := {| cards := cards s; events := events s; subscribers := subscribers s;
  next_queue := next_queue s; db := db s; table := table s; faults := fs; background := background s |}.
Definition set_background bs (s : store) := {| cards := cards s; events := events s; subscribers := subscribers s;
  next_queue := next_queue s; db := db s; table := table s; faults := faults s; background := bs |}.

(** [_DecisionStore()]. *)
Definition empty_store : store :=
  {| cards := []; events := []; subscribers := []; next_queue := 0; db := false;
     table := []; faults := []; background := [] |}.

Local Open Scope state_scope.

(** Does the next statement raise?  Takes one fault. *)
Definition statement_raises : state store bool :=
  f <- gets (fun s => hd false (faults s));;
  modify (fun s => set_faults (tl (faults s)) s);;
  ret f.

(** A bounded deque drops its oldest element. *)
Definition push_bounded (n : nat) (e : event) (l : list event) : list event :=
  let l' := l ++ [e] in drop (length l' - n) l'.

(** [q.put_nowait(event)], a full queue dropping the event. *)
Definition put_nowait (e : event) (q : nat * list event) : nat * list event :=
  if Nat.leb queue_max (length q.2) then q else (q.1, q.2 ++ [e]).

Definition publish (e : event) : state store unit :=
  modify (fun s => set_events (push_bounded sse_buffer e (events s))
                              (map (put_nowait e) (subscribers s)) s).

Definition cache_set (k : string) (c : DecisionCard) : state store unit :=
  modify (fun s => set_cards (dict_set k c (cards s)) s).

Definition persist_put (c : DecisionCard) : state store unit :=
  has_db <- gets db;;
  if negb has_db then ret tt else
  match to_uuid_str (decision_id c) with
  | None => ret tt
  | Some u =>
      raised <- statement_raises;;
      if raised then ret tt
      else modify (fun s => set_table (insert_sql (card_to_row u c) (table s)) s)
  end.

Definition persist_transition (did : string) (st : DecisionStatus) (actor : option string)
    : state store (option DecisionCard) :=
  has_db <- gets db;;
  if negb has_db then ret None else
  match to_uuid_str did with
  | None => ret None
  | Some u =>
      raised <- statement_raises;;
      if raised then ret None else
      found <- gets (fun s => dict_lookup u (table s));;
      match found with
      | None => ret None
      | Some r =>
          let by_ := match actor with Some a => str_or a "system" | None => "system" end in
          modify (fun s => set_table (dict_set u (decide_row st by_ r) (table s)) s);;
          ret (Some (row_to_card (decide_row st by_ r)))
      end
  end.

Definition hydrate (did : string) : state store (option DecisionCard) :=
  has_db <- gets db;;
  if negb has_db then ret None else
  match to_uuid_str did with
  | None => ret None
  | Some u =>
      raised <- statement_raises;;
      if raised then ret None else
      found <- gets (fun s => dict_lookup u (table s));;
      match found with
      | None => ret None
      | Some r => cache_set (decision_id (row_to_card r)) (row_to_card r);; ret (Some (row_to_card r))
      end
  end.

Definition status_matches (f : option DecisionStatus) (st : DecisionStatus) : bool :=
  match f with None => true | Some f => bool_decide (f = st) end.

Definition list_from_db (f : option DecisionStatus) : state store (list DecisionCard) :=
  has_db <- gets db;;
  if negb has_db then ret [] else
  raised <- statement_raises;;
  if raised then ret [] else
  gets (fun s =>
    map row_to_card
      (take 500 (sort_desc r_pushed_at
         (List.filter (fun r => status_matches f (r_status r)) ((table s).*2))))).

(** [put]: [in_loop] tells whether the caller runs inside an event loop. *)
Definition put (in_loop : bool) (c : DecisionCard) : state store unit :=
  cache_set (decision_id c) c;;
  publish (CardCreated (card_list_view c));;
  has_db <- gets db;;
  if has_db && in_loop then modify (fun s => set_background (background s ++ [c]) s) else ret tt.

(** The event loop runs the oldest background task. *)
Definition run_background : state store unit :=
  bs <- gets background;;
  match bs with
  | [] => ret tt
  | c :: bs' => modify (set_background bs');; persist_put c
  end.

Definition aput (c : DecisionCard) : state store unit :=
  cache_set (decision_id c) c;;
  publish (CardCreated (card_list_view c));;
  persist_put c.

Definition store_get (did : string) : state store (option DecisionCard) :=
  gets (fun s => dict_lookup did (cards s)).

Definition aget (did : string) : state store (option DecisionCard) :=
  c <- store_get did;;
  match c with
  | Some c => ret (Some c)
  | None => hydrate did
  end.

Definition store_list (f : option DecisionStatus) (s : store) : list DecisionCard :=
  sort_desc created_at (List.filter (fun c => status_matches f (status c)) ((cards s).*2)).

Definition merge_cards (acc : list (string * DecisionCard)) (l : list DecisionCard)
    : list (string * DecisionCard) :=
  fold_left (fun acc c => dict_set (decision_id c) c acc) l acc.

Definition alist (f : option DecisionStatus) : state store (list DecisionCard) :=
  db_cards <- list_from_db f;;
  cached <- gets (store_list f);;
  ret (sort_desc created_at (merge_cards (merge_cards [] db_cards) cached).*2).

Definition transition (did : string) (st : DecisionStatus) : state store (option DecisionCard) :=
  c <- store_get did;;
  match c with
  | None => ret None
  | Some c =>
      cache_set did (with_status st c);;
      publish (CardUpdated (card_list_view (with_status st c)));;
      ret (Some (with_status st c))
  end.

Definition atransition (did : string) (st : DecisionStatus) (actor : option string)
    : state store (option DecisionCard) :=
  c <- persist_transition did st actor;;
  match c with
  | Some c =>
      cache_set did c;;
      publish (CardUpdated (card_list_view c));;
      ret (Some c)
  | None =>
      cached <- store_get did;;
      (match cached with None => hydrate did;; ret tt | Some _ => ret tt end);;
      c <- transition did st;;
      has_db <- gets db;;
      match c with
      | Some c' =>
          if has_db then
            persisted <- persist_transition did st actor;;
            match persisted with Some p => ret (Some p) | None => ret (Some c') end
          else ret (Some c')
      | None => ret None
      end
  end.

Definition subscribe : state store nat :=
  q <- gets next_queue;;
  modify (set_queue (S q));;
  modify (fun s => set_events (events s) (subscribers s ++ [(q, [])]) s);;
  ret q.

Definition unsubscribe (q : nat) : state store unit :=
  modify (fun s => set_events (events s)
    (List.filter (fun e => negb (Nat.eqb e.1 q)) (subscribers s)) s).

(** One turn of the stream of a subscriber: it takes the oldest queued event. *)
Definition queue_get (q : nat) : state store (option event) :=
  ss <- gets subscribers;;
  match list_find (fun e => e.1 = q) ss with
  | Some (i, (_, e :: es)) =>
      modify (fun s => set_events (events s) (<[i := (q, es)]> (subscribers s)) s);; ret (Some e)
  | _ => ret None
  end.

(** * Routes and helpers *)
Definition publish_event (fields : dict) : state store unit := publish (Published fields).

Definition list_decisions (f : option DecisionStatus) (project_scope include_body : bool)
    : state store (list DecisionCard) :=
  items <- alist f;;
  let items := if project_scope then List.filter is_project_decision_card items else items in
  ret (if include_body then items else map card_list_view items).

Inductive route_error := DecisionNotFound (id : string).

Definition get_decision (did : string) : state store (outcome route_error DecisionCard) :=
  c <- aget did;;
  ret (match c with Some c => Ok c | None => Raise (DecisionNotFound did) end).

(** [enqueue_decision] and [aenqueue_decision]; [fresh] is [uuid.uuid4().hex]. *)
Definition assign_id (fresh : string) (c : DecisionCard) : DecisionCard :=
  if String.eqb (decision_id c) "" then with_id fresh c else c.

Definition enqueue_decision (in_loop : bool) (fresh : string) (c : DecisionCard)
    : state store DecisionCard :=
  put in_loop (assign_id fresh c);; ret (assign_id fresh c).
Definition aenqueue_decision (fresh : string) (c : DecisionCard) : state store DecisionCard :=
  aput (assign_id fresh c);; ret (assign_id fresh c).

(** The audit record of a queue mutation, before it is hashed. *)
Record audit_event := {
  ae_action : string; ae_actor : string; ae_subject_id : string; ae_project_id : option Z
}.
Definition audit_decision_event (action did actor : string) (p : option string) : audit_event :=
  {| ae_action := action; ae_actor := actor; ae_subject_id := did;
     ae_project_id := numeric_project_id p |}.

(** ** Steps of the store: one operation of some request or task *)
Inductive store_step : store → store → Prop :=
| step_put b c s : store_step s (exec (put b c) s)
| step_aput c s : store_step s (exec (aput c) s)
| step_background s : store_step s (exec run_background s)
| step_aget d s : store_step s (exec (aget d) s)
| step_alist f s : store_step s (exec (alist f) s)
| step_transition d st s : store_step s (exec (transition d st) s)
| step_atransition d st a s : store_step s (exec (atransition d st a) s)
| step_subscribe s : store_step s (exec subscribe s)
| step_unsubscribe q s : store_step s (exec (unsubscribe q) s)
| step_queue_get q s : store_step s (exec (queue_get q) s)
| step_publish e s : store_step s (exec (publish_event e) s)
| step_set_db b s : store_step s (set_db b s)
| step_faults fs s : store_step s (set_faults fs s).

(** What bounds the memory of the live stream: the deque, every subscriber's
    queue, and queue identities that are never handed out twice. *)
Record stream_wf (s : store) : Prop := {
  wf_events : (length (events s) <= sse_buffer)%nat;
  wf_queues : Forall (fun q => (length q.2 <= queue_max)%nat) (subscribers s);
  wf_ids : Forall (fun q => (q.1 < next_queue s)%nat) (subscribers s);
  wf_nodup : NoDup (subscribers s).*1
}.

Lemma stream_wf_irrel s s' :
  events s' = events s → subscribers s' = subscribers s → next_queue s' = next_queue s →
  stream_wf s → stream_wf s'.
Proof. intros He Hs Hn []. split; by rewrite ?He, ?Hs, ?Hn. Qed.

Lemma push_bounded_length n e l : (length (push_bounded n e l) <= n)%nat.
Proof. unfold push_bounded. rewrite length_drop. lia. Qed.

Lemma put_nowait_id e q : (put_nowait e q).1 = q.1.
Proof. unfold put_nowait. by case_match. Qed.
Lemma put_nowait_bound e q :
  (length q.2 <= queue_max)%nat → (length (put_nowait e q).2 <= queue_max)%nat.
Proof.
  unfold put_nowait. destruct (Nat.leb_spec queue_max (length q.2)); cbn; [done|].
  intros _. rewrite length_app. cbn. lia.
Qed.

Lemma map_put_nowait_ids e l : (map (put_nowait e) l).*1 = l.*1.
Proof.
  rewrite <- list_fmap_compose. apply list_fmap_ext. intros i q _. apply put_nowait_id.
Qed.

Lemma publish_wf e : keeps stream_wf (publish e).
Proof.
  intros s [He Hq Hi Hd]. unfold publish. rewrite exec_modify. split; cbn.
  - apply push_bounded_length.
  - apply Forall_fmap. eapply Forall_impl; [exact Hq|]. cbn. intros. by apply put_nowait_bound.
  - apply Forall_fmap. eapply Forall_impl; [exact Hi|]. cbn. intros q ?. by rewrite put_nowait_id.
  - by rewrite map_put_nowait_ids.
Qed.

(** Updates of the cache, the table, the faults and the tasks leave the stream alone. *)
Ltac irrel := intros; eapply stream_wf_irrel; [| | |eassumption]; reflexivity.

Lemma statement_raises_wf : keeps stream_wf statement_raises.
Proof. repeat apply keeps_bind; intros; auto with statedb. apply keeps_modify. irrel. Qed.
Lemma cache_set_wf k c : keeps stream_wf (cache_set k c).
Proof. apply keeps_modify. irrel. Qed.
#[local] Hint Resolve publish_wf statement_raises_wf cache_set_wf : statedb.

(** Walk through a handler, one bind or branch at a time. *)
Ltac keep_steps :=
  repeat first
    [ progress intros
    | apply keeps_bind
    | solve [eauto with statedb]
    | (apply keeps_modify; irrel)
    | case_match ].

Lemma persist_put_wf c : keeps stream_wf (persist_put c).
Proof. unfold persist_put. keep_steps. Qed.
Lemma persist_transition_wf d st a : keeps stream_wf (persist_transition d st a).
Proof. unfold persist_transition. keep_steps. Qed.
Lemma hydrate_wf d : keeps stream_wf (hydrate d).
Proof. unfold hydrate. keep_steps. Qed.
#[local] Hint Resolve persist_put_wf persist_transition_wf hydrate_wf : statedb.
Lemma transition_wf d st : keeps stream_wf (transition d st).
Proof. unfold transition, store_get. keep_steps. Qed.
#[local] Hint Resolve transition_wf : statedb.
Lemma aget_wf d : keeps stream_wf (aget d).
Proof. unfold aget, store_get. keep_steps. Qed.
Lemma alist_wf f : keeps stream_wf (alist f).
Proof. unfold alist, list_from_db. keep_steps. Qed.
Lemma atransition_wf d st a : keeps stream_wf (atransition d st a).
Proof. unfold atransition, store_get. keep_steps. Qed.
Lemma put_wf b c : keeps stream_wf (put b c).
Proof. unfold put. keep_steps. Qed.
Lemma aput_wf c : keeps stream_wf (aput c).
Proof. unfold aput. keep_steps. Qed.
Lemma run_background_wf : keeps stream_wf run_background.
Proof. unfold run_background. keep_steps. Qed.
#[local] Hint Resolve aget_wf alist_wf atransition_wf put_wf aput_wf run_background_wf : statedb.

Lemma subscribe_wf : keeps stream_wf subscribe.
Proof.
  intros s [He Hq Hi Hd]. unfold subscribe. run_state. cbn. split; cbn; auto.
  - apply Forall_app. split; [done|]. constructor; [unfold queue_max; cbn; lia|done].
  - apply Forall_app. split; [|constructor; [cbn; lia|done]].
    eapply Forall_impl; [exact Hi|]. cbn. lia.
  - rewrite fmap_app. apply NoDup_app. split; [done|]. split; [|apply NoDup_singleton].
    intros x Hx Hx'. cbn in Hx'. apply list_elem_of_singleton in Hx'.
    apply list_elem_of_fmap in Hx as (q & Hx & Hq').
    pose proof (proj1 (list.Forall_forall _ _) Hi _ Hq'). cbn in *. lia.
Qed.

Lemma filter_sublist {A} (f : A → bool) l : List.filter f l `sublist_of` l.
Proof. induction l as [|x l IH]; cbn; [done|]. case_match; by constructor. Qed.

Lemma Forall_filter_bool {A} (P : A → Prop) f l : Forall P l → Forall P (List.filter f l).
Proof. induction 1; cbn; [done|]. case_match; auto. Qed.

Lemma unsubscribe_wf q : keeps stream_wf (unsubscribe q).
Proof.
  intros s [He Hq Hi Hd]. unfold unsubscribe. rewrite exec_modify.
  split; cbn; auto using Forall_filter_bool.
  eapply sublist_NoDup; [exact Hd|]. apply fmap_sublist, filter_sublist.
Qed.

Lemma queue_get_wf q : keeps stream_wf (queue_get q).
Proof.
  intros s Hs. unfold queue_get. run_state.
  destruct (list_find _ _) as [[i [q' [|e es]]]|] eqn:E; try done.
  apply list_find_Some in E as (Hl & Hq' & _). cbn in Hq'. subst q'. destruct Hs as [He Hq Hi Hd].
  run_state. split; cbn; [done| | |].
  - apply Forall_insert; [done|]. eapply Forall_lookup_1 in Hl; [|exact Hq]. cbn in *. lia.
  - apply Forall_insert; [done|]. by eapply Forall_lookup_1 in Hl; [|exact Hi].
  - rewrite list_fmap_insert, list_insert_id; [done|]. by rewrite list_lookup_fmap, Hl.
Qed.

Lemma store_step_wf s s' : store_step s s' → stream_wf s → stream_wf s'.
Proof.
  intros [] Hs; try (eapply stream_wf_irrel; [| | |exact Hs]; reflexivity).
  all: first [ by apply put_wf | by apply aput_wf | by apply run_background_wf | by apply aget_wf
    | by apply alist_wf | by apply transition_wf | by apply atransition_wf | by apply subscribe_wf
    | by apply unsubscribe_wf | by apply queue_get_wf | by apply publish_wf ].
Qed.

(** Whatever requests and background tasks run against the store of the
    decision queue, in any order and with any database failures, the live stream
    stays bounded: at most 256 buffered events, at most 64 events waiting in each
    subscriber's queue, and no two subscribers share a queue. *)
Theorem stream_bounded s :
  rtc store_step empty_store s →
  (length (events s) <= 256)%nat ∧
  (∀ q es, (q, es) ∈ subscribers s → (length es <= 64)%nat) ∧
  NoDup (subscribers s).*1.
Proof.
  intros Hr. apply (rtc_invariant _ _ store_step_wf) in Hr as [He Hq _ Hd].
  2: { split; cbn; auto using NoDup_nil_2. unfold sse_buffer. lia. }
  split; [done|]. split; [|done]. intros q es Hin.
  pose proof (proj1 (list.Forall_forall _ _) Hq _ Hin). done.
Qed.

(** ** What the statements change *)
Lemma statement_raises_run s :
  exec statement_raises s = set_faults (tl (faults s)) s ∧
  eval statement_raises s = hd false (faults s).
Proof. done. Qed.

Lemma persist_transition_spec d st a s :
  cards (exec (persist_transition d st a) s) = cards s ∧
  db (exec (persist_transition d st a) s) = db s ∧
  ∀ c, eval (persist_transition d st a) s = Some c → status c = st.
Proof.
  unfold persist_transition. run_state. destruct (db s) eqn:Hdb; cbn; [|run_state; naive_solver].
  destruct (to_uuid_str d); [|run_state; naive_solver].
  run_state. destruct (statement_raises_run s) as [-> ->].
  destruct (hd false (faults s)); [run_state; naive_solver|].
  run_state. cbn. destruct (dict_lookup _ _) as [r|]; [|run_state; naive_solver].
  run_state. naive_solver.
Qed.

(** Every row is stored under its own id. *)
Definition table_wf (s : store) : Prop := ∀ u r, dict_lookup u (table s) = Some r → r_id r = u.

Lemma hydrate_spec d s :
  db (exec (hydrate d) s) = db s ∧
  match eval (hydrate d) s with
  | Some c => cards (exec (hydrate d) s) = dict_set (decision_id c) c (cards s) ∧
              (table_wf s → to_uuid_str d = Some (decision_id c))
  | None => cards (exec (hydrate d) s) = cards s
  end.
Proof.
  unfold hydrate. run_state. destruct (db s) eqn:Hdb; cbn; [|by run_state].
  destruct (to_uuid_str d) as [u|]; [|by run_state].
  run_state. destruct (statement_raises_run s) as [-> ->].
  destruct (hd false (faults s)); [by run_state|].
  run_state. cbn. destruct (dict_lookup u (table s)) as [r|] eqn:E; [|by run_state].
  unfold cache_set. run_state. cbn. split; [done|]. split; [done|].
  intros Hw. by rewrite (Hw _ _ E).
Qed.

Lemma transition_spec d st s :
  match eval (transition d st) s with
  | Some c => status c = st ∧ cards (exec (transition d st) s) = dict_set d c (cards s)
  | None => dict_lookup d (cards s) = None ∧ exec (transition d st) s = s
  end ∧ db (exec (transition d st) s) = db s.
Proof.
  unfold transition, store_get, cache_set, publish. run_state.
  destruct (dict_lookup d (cards s)) as [c|] eqn:E; by run_state.
Qed.

(** The state [atransition] works on once the first [UPDATE] found nothing: the
    card has been loaded into the cache if the table has it. *)
Definition hydrated (d : string) (st : DecisionStatus) (a : option string) (s : store) : store :=
  let s1 := exec (persist_transition d st a) s in
  match dict_lookup d (cards s1) with None => exec (hydrate d) s1 | Some _ => s1 end.

Lemma hydrated_cards d st a s :
  (∀ k, k ≠ d → table_wf (exec (persist_transition d st a) s) → to_uuid_str d ≠ Some k →
     dict_lookup k (cards (hydrated d st a s)) = dict_lookup k (cards s)) ∧
  (∀ c, dict_lookup d (cards s) = Some c → dict_lookup d (cards (hydrated d st a s)) = Some c).
Proof.
  unfold hydrated. destruct (persist_transition_spec d st a s) as (Hc & _ & _). rewrite Hc.
  destruct (dict_lookup d (cards s)) as [c0|] eqn:E; [rewrite Hc; naive_solver|].
  pose proof (hydrate_spec d (exec (persist_transition d st a) s)) as [_ Hh].
  split; [|done]. intros k Hk Hw Hu. destruct (eval (hydrate d) _) as [c|].
  - destruct Hh as [-> Hid]. rewrite Hc. apply dict_lookup_set_ne. intros ->. by apply Hu, Hid.
  - by rewrite Hh, Hc.
Qed.

(** [atransition] by the branch it takes. *)
Lemma atransition_run d st a s :
  (∃ c, eval (persist_transition d st a) s = Some c ∧ eval (atransition d st a) s = Some c ∧
        cards (exec (atransition d st a) s) = dict_set d c (cards s)) ∨
  (eval (persist_transition d st a) s = None ∧
   match eval (transition d st) (hydrated d st a s) with
   | Some c => (∃ c', eval (atransition d st a) s = Some c' ∧ status c' = st) ∧
               cards (exec (atransition d st a) s) = dict_set d c (cards (hydrated d st a s))
   | None => eval (atransition d st a) s = None ∧
             exec (atransition d st a) s = hydrated d st a s
   end).
Proof.
  destruct (persist_transition_spec d st a s) as (Hc & Hdb & _).
  unfold atransition. run_state.
  destruct (eval (persist_transition d st a) s) as [c|] eqn:E.
  - left. exists c. unfold cache_set, publish. run_state. cbn. by rewrite Hc.
  - right. split; [done|]. unfold store_get. run_state.
    assert (Hh : exec (match dict_lookup d (cards (exec (persist_transition d st a) s)) with
                       | Some _ => ret () | None => hydrate d;; ret () end)
                      (exec (persist_transition d st a) s) = hydrated d st a s).
    { unfold hydrated. case_match; by run_state. }
    rewrite Hh. pose proof (transition_spec d st (hydrated d st a s)) as [Ht Hdb'].
    destruct (eval (transition d st) (hydrated d st a s)) as [c|]; [|run_state; by destruct Ht as [_ ->]].
    destruct Ht as [Hs Hcs]. destruct (db (exec (transition _ _) _)); [|run_state; by eauto 6].
    run_state. destruct (persist_transition_spec d st a (exec (transition d st) (hydrated d st a s))) as (Hc2 & _ & Hst).
    destruct (eval (persist_transition d st a) (exec _ _)) as [p|]; run_state; rewrite Hc2, Hcs; by eauto 6.
Qed.

(** The cards [atransition] leaves alone. *)
Lemma atransition_frame d st a s k :
  k ≠ d → to_uuid_str d ≠ Some k → table_wf (exec (persist_transition d st a) s) →
  dict_lookup k (cards (exec (atransition d st a) s)) = dict_lookup k (cards s).
Proof.
  intros Hk Hu Hw. pose proof (hydrated_cards d st a s) as [Hframe _].
  destruct (atransition_run d st a s) as [(c & _ & _ & ->)|[_ Hrun]]; [by apply dict_lookup_set_ne|].
  pose proof (transition_spec d st (hydrated d st a s)) as [Ht _].
  destruct (eval (transition d st) (hydrated d st a s)) as [c|].
  - destruct Hrun as [_ ->]. rewrite dict_lookup_set_ne by done. auto.
  - destruct Hrun as [_ ->]. auto.
Qed.

Lemma table_set_wf s u r t :
  table_wf s → r_id r = u → t = dict_set u r (table s) → table_wf (set_table t s).
Proof.
  intros Hw Hr -> v q. cbn [table set_table]. rewrite dict_lookup_set.
  destruct (String.eqb_spec v u) as [->|]; [by intros [= <-]|apply Hw].
Qed.

Lemma table_wf_same s s' : table s' = table s → table_wf s → table_wf s'.
Proof. intros E Hw u r. rewrite E. apply Hw. Qed.

Lemma cards_only f : (∀ s, table (f s) = table s) → keeps table_wf (modify f).
Proof. intros Hf. apply keeps_modify. intros s. by apply table_wf_same. Qed.

Lemma persist_transition_table d st a : keeps table_wf (persist_transition d st a).
Proof.
  intros s Hw. unfold persist_transition. run_state. destruct (db s); cbn [negb]; [|by run_state].
  destruct (to_uuid_str d) as [u|]; [|by run_state]. run_state.
  destruct (statement_raises_run s) as [-> ->].
  destruct (hd false (faults s)); run_state; [by eapply table_wf_same|]. cbn [table set_faults].
  destruct (dict_lookup u (table s)) as [r|] eqn:E; run_state; [|by eapply table_wf_same].
  eapply (table_set_wf _ u); [by eapply table_wf_same| |reflexivity]. apply (Hw _ _ E).
Qed.

Lemma hydrate_table d : keeps table_wf (hydrate d).
Proof.
  intros s Hw. eapply table_wf_same; [|exact Hw].
  unfold hydrate, cache_set. run_state. destruct (db s); cbn [negb]; [|by run_state].
  destruct (to_uuid_str d) as [u|]; [|by run_state]. run_state.
  destruct (statement_raises_run s) as [-> ->].
  destruct (hd false (faults s)); run_state; [done|]. cbn [table set_faults].
  destruct (dict_lookup u (table s)); by run_state.
Qed.

Lemma transition_table d st : keeps table_wf (transition d st).
Proof.
  intros s Hw. eapply table_wf_same; [|exact Hw].
  unfold transition, store_get, cache_set, publish. run_state. destruct (dict_lookup _ _); by run_state.
Qed.

Lemma atransition_table d st a : keeps table_wf (atransition d st a).
Proof.
  unfold atransition, store_get, cache_set, publish.
  apply keeps_bind; [apply persist_transition_table|intros [c|]].
  - repeat (apply keeps_bind; [by apply cards_only|intros]). apply keeps_ret.
  - apply keeps_bind; [apply keeps_gets|intros cached].
    apply keeps_bind; [destruct cached; [apply keeps_ret|apply keeps_bind; [apply hydrate_table|intros; apply keeps_ret]]|intros _].
    apply keeps_bind; [apply transition_table|intros c]. apply keeps_bind; [apply keeps_gets|intros b].
    destruct c; [|apply keeps_ret]. destruct b; [|apply keeps_ret].
    apply keeps_bind; [apply persist_transition_table|intros [?|]; apply keeps_ret].
Qed.

(** Deciding a card.  [atransition] answers with a card exactly in the new
    status, and from then on the cache holds a card in that status under the id the
    caller gave; it answers nothing only when the cache had no such card; and it
    touches no cached card other than that one and the one under the canonical
    spelling of its id. *)
Theorem atransition_decides d st a s :
  match eval (atransition d st a) s with
  | Some c => status c = st ∧
      ∃ c', dict_lookup d (cards (exec (atransition d st a) s)) = Some c' ∧ status c' = st
  | None => dict_lookup d (cards s) = None
  end ∧
  ∀ k, k ≠ d → to_uuid_str d ≠ Some k → table_wf (exec (persist_transition d st a) s) →
    dict_lookup k (cards (exec (atransition d st a) s)) = dict_lookup k (cards s).
Proof.
  pose proof (persist_transition_spec d st a s) as (_ & _ & Hst).
  pose proof (hydrated_cards d st a s) as [Hframe Hkeep].
  destruct (atransition_run d st a s) as [(c & Hp & -> & ->)|[_ Hrun]].
  - rewrite dict_lookup_set_eq. split; [naive_solver|]. intros. by apply dict_lookup_set_ne.
  - pose proof (transition_spec d st (hydrated d st a s)) as [Ht _].
    destruct (eval (transition d st) (hydrated d st a s)) as [c|].
    + destruct Hrun as [(c' & -> & Hc') ->]. destruct Ht as [Hs _].
      rewrite dict_lookup_set_eq. split; [naive_solver|].
      intros. rewrite dict_lookup_set_ne by done. auto.
    + destruct Hrun as [-> ->]. destruct Ht as [Hn _]. split; [|auto].
      destruct (dict_lookup d (cards s)) as [c|] eqn:E; [|done].
      pose proof (Hkeep _ eq_refl). congruence.
Qed.

(** ** Durability across a restart *)

(** A restart loses the cache, the stream and the tasks, and keeps the table. *)
Definition restart (fs : list bool) (s : store) : store :=
  {| cards := []; events := []; subscribers := []; next_queue := 0; db := db s;
     table := table s; faults := fs; background := [] |}.

(** The columns keep the project and the class: the project id is numeric or is kept in
    the metadata. *)
Definition storable (c : DecisionCard) : Prop :=
  decision_class c ≠ "" ∧
  match project_id c with
  | Some p => (∃ n, 0 <= n ∧ p = str_of_Z n) ∨
              (numeric_project_id (Some p) = None ∧ get "project_uuid" (metadata c) = VStr p)
  | None => get "project_uuid" (metadata c) = VNone
  end.

(** What the table makes of a card: the id in its canonical spelling, the times at the
    table's microseconds, and the default actions, for which there is no column. *)
Definition reread (u : string) (c : DecisionCard) : DecisionCard :=
  {| decision_id := u; decision_class := decision_class c; project_id := project_id c;
     title := title c; body := body c; severity := severity c; actions := default_actions;
     status := status c; created_at := timestamp (to_timestamp (created_at c));
     expires_at := (timestamp ∘ to_timestamp) <$> expires_at c;
     metadata := metadata c; citations := citations c |}.

(** A time that came from the table, up to 2041. *)
Definition from_table (d : seconds) : Prop := ∃ t, 0 <= t < 2 ^ 51 ∧ d = timestamp t.

Lemma from_table_kept d : from_table d → timestamp (to_timestamp d) = d.
Proof. intros (t & Ht & ->). by rewrite to_timestamp_timestamp. Qed.

Lemma reread_exact c :
  actions c = default_actions → from_table (created_at c) →
  match expires_at c with Some d => from_table d | None => True end → reread (decision_id c) c = c.
Proof.
  intros Ha Hc He. destruct c as [i cl p t b sv ac st cr ex m ci]. cbn in *. unfold reread. cbn.
  rewrite from_table_kept by done. subst. f_equal. destruct ex as [d|]; cbn; [|done]. by rewrite from_table_kept.
Qed.

Lemma row_to_card_to_row u c : storable c → row_to_card (card_to_row u c) = reread u c.
Proof.
  intros [Hclass Hp]. unfold row_to_card, card_to_row, str_or, reread. cbn [r_kind r_project_id r_metadata].
  destruct (String.eqb_spec (decision_class c) "") as [|_]; [done|].
  assert (Hpid : row_project_id (numeric_project_id (project_id c)) (metadata c) = project_id c).
  { unfold row_project_id. destruct (project_id c) as [q|]; [|by cbn [numeric_project_id]; rewrite Hp].
    destruct Hp as [(n & Hn & ->)|[-> Hu]]; [|by rewrite Hu].
    cbn [numeric_project_id]. destruct (str_of_Z_digits n Hn) as [-> Hne].
    destruct (String.eqb_spec (str_of_Z n) "") as [|_]; [done|]. cbn [negb andb].
    by rewrite int_of_str_str_of_Z. }
  cbn [r_id r_title r_body r_severity r_status r_pushed_at r_expires_at r_citations]. rewrite Hpid.
  by destruct (expires_at c).
Qed.

Lemma hydrate_found d u r s :
  db s = true → to_uuid_str d = Some u → hd false (faults s) = false →
  dict_lookup u (table s) = Some r → eval (hydrate d) s = Some (row_to_card r).
Proof.
  intros Hdb Hu Hf Hr. unfold hydrate. run_state. rewrite Hdb, Hu. cbn [negb]. run_state.
  destruct (statement_raises_run s) as [-> ->]. rewrite Hf. run_state. cbn. rewrite Hr. by run_state.
Qed.

Lemma aput_stores c u s :
  to_uuid_str (decision_id c) = Some u → db s = true → hd false (faults s) = false →
  dict_lookup u (table s) = None →
  table (exec (aput c) s) = dict_set u (card_to_row u c) (table s) ∧ db (exec (aput c) s) = true.
Proof.
  intros Hid Hdb Hf Hnew. unfold aput, persist_put, cache_set, publish. run_state. cbn. rewrite Hdb, Hid. cbn. run_state.
  unfold statement_raises. run_state. cbn. rewrite Hf. run_state. cbn. unfold insert_sql. cbn. by rewrite Hnew.
Qed.

(** C7: a card survives a restart of the hub.  Once [aput] has written a card whose id
    is a UUID in any spelling, under a row of its own, a new process with an empty cache
    finds it by the spelling it was posted with and by the canonical one: the same text,
    status, metadata and project, the canonical id, the default actions and times within two
    microseconds; and exactly the card that was put if its id is canonical, its actions
    are the default ones and its times are ones the table gives.  The statements run, the
    class is not empty and the project is numeric or named in the metadata. *)
Theorem restart_keeps_card c u i fs s :
  to_uuid_str (decision_id c) = Some u → to_uuid_str i = Some u → storable c →
  db s = true → hd false (faults s) = false → hd false fs = false → dict_lookup u (table s) = None →
  eval (aget i) (restart fs (exec (aput c) s)) = Some (reread u c) ∧
  (current (created_at c) → within_2_usec (created_at c) (created_at (reread u c))) ∧
  (∀ d, expires_at c = Some d → current d →
   ∃ d', expires_at (reread u c) = Some d' ∧ within_2_usec d d') ∧
  (u = decision_id c → actions c = default_actions → from_table (created_at c) →
   match expires_at c with Some d => from_table d | None => True end → reread u c = c).
Proof.
  intros Hid Hi Hst Hdb Hf Hfs Hnew. split_and!.
  - destruct (aput_stores c u s Hid Hdb Hf Hnew) as [Ht Hdb'].
    set (s1 := exec (aput c) s) in *. clearbody s1.
    unfold aget, store_get. run_state. cbn [restart cards dict_lookup].
    rewrite (hydrate_found _ u (card_to_row u c)); cbn; auto.
    + by rewrite row_to_card_to_row.
    + by rewrite Ht, dict_lookup_set_eq.
  - apply timestamp_to_timestamp.
  - intros d Hd Hc. cbn [reread expires_at]. rewrite Hd. eexists. split; [done|]. by apply timestamp_to_timestamp.
  - intros ->. apply reread_exact.
Qed.

(** ** Listing *)
Definition has_id (i : string) (c : DecisionCard) : Prop := decision_id c = i.

Lemma merge_cards_lookup l : ∀ acc i,
  (dict_lookup i (merge_cards acc l) = dict_lookup i acc ∧ ∀ c, c ∈ l → decision_id c ≠ i) ∨
  (∃ c, c ∈ l ∧ decision_id c = i ∧ dict_lookup i (merge_cards acc l) = Some c).
Proof.
  induction l as [|c l IH]; intros acc i; cbn; [left; split; [done|]; set_solver|].
  destruct (IH (dict_set (decision_id c) c acc) i) as [[He Hn]|(c' & Hin & Hid & He)].
  - rewrite dict_lookup_set in He. destruct (String.eqb_spec i (decision_id c)) as [Hi|Hne].
    + right. exists c. repeat split; [by left|done|done].
    + left. split; [done|]. intros c' [->|Hc']%elem_of_cons; auto.
  - right. exists c'. repeat split; [by right|done|done].
Qed.

Lemma dict_lookup_elem {V} i (v : V) d : dict_lookup i d = Some v → (i, v) ∈ d.
Proof.
  induction d as [|[k w] d IH]; cbn; [done|].
  destruct (String.eqb_spec i k) as [->|]; intros H; [simplify_eq|]; set_solver.
Qed.

Lemma dict_set_keys {V} k (v : V) d x : (k, v) ∈ dict_set k v d ∧
  (x ∈ dict_set k v d → x = (k, v) ∨ x ∈ d).
Proof.
  induction d as [|[k' w] d [IH1 IH2]]; cbn; [set_solver|].
  destruct (String.eqb_spec k k') as [->|]; set_solver.
Qed.

Lemma merge_cards_elem l : ∀ acc x, x ∈ merge_cards acc l →
  x ∈ acc ∨ ∃ c, c ∈ l ∧ x = (decision_id c, c).
Proof.
  induction l as [|c l IH]; intros acc x; cbn; [auto|].
  intros [H|(c' & Hin & ->)]%IH; [|right; exists c'; set_solver].
  apply (proj2 (dict_set_keys _ _ _ _)) in H as [->|H]; [right; exists c|]; set_solver.
Qed.

Lemma elem_of_filter_bool {A} (f : A → bool) l x : x ∈ List.filter f l ↔ x ∈ l ∧ f x = true.
Proof. rewrite !list_elem_of_In. apply filter_In. Qed.

Lemma list_from_db_run f s :
  (∀ c, c ∈ eval (list_from_db f) s → status_matches f (status c) = true) ∧
  cards (exec (list_from_db f) s) = cards s.
Proof.
  unfold list_from_db. run_state. destruct (db s); cbn; [|run_state; set_solver].
  run_state. destruct (statement_raises_run s) as [-> ->].
  destruct (hd false (faults s)); run_state; [set_solver|]. cbn. split; [|done].
  intros c Hc. apply list_elem_of_fmap in Hc as (r & -> & Hr).
  apply (subseteq_take _ _) in Hr. apply elem_of_sort_desc, elem_of_filter_bool in Hr. apply Hr.
Qed.

(** What [alist] returns.  The cards are in descending order of creation, each
    has the status asked for, and the cached card wins over the row of the same id:
    for every cached card in that status a card of its id, itself from the cache in
    that status, is listed. *)
Theorem alist_lists_cached f s :
  let l := eval (alist f) s in
  StronglySorted (desc created_at) l ∧
  (∀ c, c ∈ l → status_matches f (status c) = true) ∧
  (∀ k c, (k, c) ∈ cards s → status_matches f (status c) = true →
     ∃ c', c' ∈ l ∧ decision_id c' = decision_id c ∧ c' ∈ (cards s).*2).
Proof.
  cbv zeta. unfold alist. run_state. destruct (list_from_db_run f s) as [Hdb Hcs].
  assert (store_list f (exec (list_from_db f) s) = store_list f s) as ->
    by (unfold store_list; by rewrite Hcs).
  split; [apply sort_desc_sorted|]. split.
  - intros c Hc. apply elem_of_sort_desc, list_elem_of_fmap in Hc as ([i c'] & -> & Hx).
    apply merge_cards_elem in Hx as [Hx|(c & Hc & [= -> ->])].
    + apply merge_cards_elem in Hx as [Hx|(c & Hc & [= -> ->])]; [set_solver|auto].
    + unfold store_list in Hc. apply elem_of_sort_desc, elem_of_filter_bool in Hc. apply Hc.
  - intros k c Hc Hst. set (acc := merge_cards [] _).
    assert (Hin : c ∈ store_list f s).
    { unfold store_list. rewrite elem_of_sort_desc, elem_of_filter_bool. split; [|done].
      apply list_elem_of_fmap. by exists (k, c). }
    destruct (merge_cards_lookup (store_list f s) acc (decision_id c)) as [[_ Hn]|(c' & Hin' & Hid & He)].
    + by destruct (Hn c).
    + exists c'. split; [|split; [done|]].
      * rewrite elem_of_sort_desc. apply list_elem_of_fmap.
        exists (decision_id c, c'). split; [done|]. by apply dict_lookup_elem.
      * unfold store_list in Hin'. apply elem_of_sort_desc, elem_of_filter_bool in Hin'. apply Hin'.
Qed.

(** ** Behaviours the callers rely on, or should know of *)

(** No status is final: a cached card can be decided again, whatever its status. *)
Lemma decided_card_decides_again d c st a s :
  dict_lookup d (cards s) = Some c → is_Some (eval (atransition d st a) s).
Proof.
  intros Hc. pose proof (atransition_run d st a s) as [(c' & _ & -> & _)|[_ H]]; [by eexists|].
  pose proof (transition_spec d st (hydrated d st a s)) as [Ht _].
  destruct (eval (transition d st) _) as [c'|]; [destruct H as [(? & -> & _) _]; by eexists|].
  destruct Ht as [Ht _]. destruct (hydrated_cards d st a s) as [_ Hk].
  specialize (Hk _ Hc). congruence.
Qed.

(** The row, not the cached card, is listed when only the cache saw the decision: the
    cached card is filtered out by its status before the merge, so it does not
    overwrite the row that is still pending. *)
Definition sample_card : DecisionCard :=
  {| decision_id := "123e4567-e89b-42d3-a456-426614174000"; decision_class := "approval";
     project_id := Some "7"; title := "PRD"; body := "text"; severity := Info;
     actions := default_actions; status := Pending; created_at := timestamp 1700000000123456; expires_at := None;
     metadata := [("kind", VStr "prd_approval")]; citations := [] |}.

Definition failed_write_store : store :=
  exec (aput sample_card;;
        modify (set_faults [true; true]);;
        atransition (decision_id sample_card) Acked (Some "po");;
        ret tt) (set_db true empty_store).

Example failed_write_is_listed_pending :
  status <$> eval (aget (decision_id sample_card)) failed_write_store = Some Acked ∧
  eval (alist (Some Pending)) failed_write_store = [sample_card].
Proof. by vm_compute. Qed.

(** A card enqueued without an id is cached under 32 hexadecimal digits and stored
    under the dashed spelling, so the merged list shows it twice. *)
Example hex_id_is_listed_twice :
  decision_id <$> eval (alist (Some Pending))
    (exec (aenqueue_decision "123e4567e89b42d3a456426614174000" (with_id "" sample_card))
          (set_db true empty_store))
  = ["123e4567-e89b-42d3-a456-426614174000"; "123e4567e89b42d3a456426614174000"].
Proof. by vm_compute. Qed.

(** ** Witnesses *)
Lemma table_wf_check s :
  forallb (fun kr => String.eqb (r_id kr.2) kr.1) (table s) = true → table_wf s.
Proof.
  intros H u r Hr%dict_lookup_elem. rewrite forallb_forall in H.
  apply list_elem_of_In, H in Hr. by apply String.eqb_eq in Hr.
Qed.

Lemma stream_bounded_witness :
  let s := exec subscribe empty_store in
  (length (events (exec (put true sample_card) s)) <= 256)%nat ∧
  (∀ q es, (q, es) ∈ subscribers (exec (put true sample_card) s) → (length es <= 64)%nat) ∧
  NoDup (subscribers (exec (put true sample_card) s)).*1.
Proof.
  apply (stream_bounded (exec (put true sample_card) (exec subscribe empty_store))).
  eapply rtc_l; [apply step_subscribe|]. eapply rtc_l; [apply step_put|]. apply rtc_refl.
Defined.

Lemma atransition_decides_witness :
  let s := exec (aput sample_card) (set_db true empty_store) in
  let s' := exec (aput (with_id "b" sample_card)) s in
  status <$> eval (atransition (decision_id sample_card) Rejected None) s' = Some Rejected ∧
  dict_lookup "b" (cards (exec (atransition (decision_id sample_card) Rejected None) s'))
  = Some (with_id "b" sample_card).
Proof.
  pose proof (atransition_decides (decision_id sample_card) Rejected None
    (exec (aput (with_id "b" sample_card)) (exec (aput sample_card) (set_db true empty_store)))) as [H1 H2].
  split; [vm_compute; reflexivity|]. cbv zeta. etransitivity; [apply H2|vm_compute; reflexivity].
  - vm_compute. discriminate.
  - vm_compute. discriminate.
  - apply table_wf_check. vm_compute. reflexivity.
Defined.

(** The sample card, and the same card as the hub's own helpers name it. *)
Lemma restart_keeps_card_witness :
  eval (aget (decision_id sample_card))
    (restart [] (exec (aput sample_card) (set_db true empty_store))) = Some sample_card ∧
  let c := with_id "123e4567e89b42d3a456426614174000" sample_card in
  eval (aget (decision_id c)) (restart [] (exec (aput c) (set_db true empty_store))) = Some sample_card.
Proof.
  assert (Hs : storable sample_card) by (split; [discriminate|left; exists 7; split; [lia|reflexivity]]).
  destruct (restart_keeps_card sample_card (decision_id sample_card) (decision_id sample_card) []
              (set_db true empty_store)) as (H1 & _ & _ & H2); [vm_compute; reflexivity|vm_compute; reflexivity|exact Hs|reflexivity|reflexivity|reflexivity|reflexivity|].
  assert (Hx : reread (decision_id sample_card) sample_card = sample_card).
  { apply H2; [reflexivity|reflexivity| |exact I]. exists 1700000000123456. split; [lia|reflexivity]. }
  split; [etransitivity; [exact H1|]; exact (f_equal Some Hx)|].
  destruct (restart_keeps_card (with_id "123e4567e89b42d3a456426614174000" sample_card) (decision_id sample_card)
              "123e4567e89b42d3a456426614174000" [] (set_db true empty_store)) as (H3 & _);
    [vm_compute; reflexivity|vm_compute; reflexivity|exact Hs|reflexivity|reflexivity|reflexivity|reflexivity|].
  cbv zeta. etransitivity; [exact H3|]. exact (f_equal Some Hx).
Defined.

Lemma alist_lists_cached_witness :
  ∃ c', c' ∈ eval (alist None) failed_write_store ∧ decision_id c' = decision_id sample_card ∧
        c' ∈ (cards failed_write_store).*2.
Proof.
  destruct (alist_lists_cached None failed_write_store) as (_ & _ & H).
  apply (H (decision_id sample_card) (with_status Acked sample_card)); [|done].
  vm_compute. left.
Defined.

End Decisions.
