(* ===== verification/Hub.v ===== *)
(** The hub: project rows, the decision store, queued tasks and the outside world.

    The hub is one process.  Its handlers are coroutines; a handler runs here to its
    end before another one starts, and work it leaves with [create_task] is an
    element of [tasks].  The projects are rows of [spine_lifecycle.project], read and
    patched by [_load_project_full] and [_persist_metadata_patch] of
    [shared/api/routes/_post_ack.py].  A statement on the pool takes the next pool
    fault and raises when it is [true]. *)

From S2P Require Import Prelude PyValue Datetime Seconds Decisions.
From Stdlib Require Import Ascii.
Local Open Scope Z_scope.

Module Hub.

(** * Data *)

(** A row of [spine_lifecycle.project]. *)
Record project := {
  p_id : Z;
  p_uuid : string;
  p_name : string;
  p_type : string;
  p_phase : string;
  p_status : string;
  p_pipeline : option string;
  p_meta : dict
}.

Definition with_meta (m : dict) (p : project) : project :=
  {| p_id := p_id p; p_uuid := p_uuid p; p_name := p_name p; p_type := p_type p;
     p_phase := p_phase p; p_status := p_status p; p_pipeline := p_pipeline p; p_meta := m |}.
Definition with_phase (ph : string) (p : project) : project :=
  {| p_id := p_id p; p_uuid := p_uuid p; p_name := p_name p; p_type := p_type p;
     p_phase := ph; p_status := p_status p; p_pipeline := p_pipeline p; p_meta := p_meta p |}.

(** The keyword arguments of [_orchestrate_hub_role] a recovery action maps to; the
    only [extra] the code passes is [extra_context]. *)
Record dispatch_params := {
  dp_kind : string;
  dp_card : option string;
  dp_next_phase : option string;
  dp_extra : option string;
  dp_expected_role : option string
}.

(** Work scheduled on the event loop. *)
Inductive task :=
| TAutoRemediate (project_id actor : string) (attempt : nat)
| TAutoReview (project_id actor : string)
| TRecovery (p : project) (params : dispatch_params) (actor : string)
| TPulse (project_id : string)
| TAcked (card : Decisions.DecisionCard) (actor : string)
| TRejected (card : Decisions.DecisionCard) (actor : string).

(** An entry of [_DEPLOY_PIDS]; [d_alive] is [proc.returncode is None]. *)
Record deployment := {
  d_port : option Z; d_cmd : string; d_started : datetime; d_alive : bool; d_log_tail : string
}.

Record hub := {
  projects : list project;
  pool : bool;                       (* get_db_pool_raw() is not None *)
  pool_faults : list bool;           (* what the next pool statements do *)
  store : Decisions.store;
  phase_history : list (Z * string); (* spine_lifecycle.phase_history, newest last *)
  route_history : list (Z * string * string * datetime); (* spine_lifecycle.route_history: id, phase, role, when *)
  tasks : list task;
  auto_scheduled : list string;      (* _AUTO_REMEDIATE_SCHEDULED *)
  dispatched : list (string * string); (* the MCP role calls made: project, ack kind *)
  deployments : list (string * deployment); (* _DEPLOY_PIDS *)
  now : datetime;
  ticks : nat                        (* answers of the outside world consumed *)
}.

Definition set_projects ps (h : hub) := {| projects := ps; pool := pool h; pool_faults := pool_faults h;
  store := store h; phase_history := phase_history h; route_history := route_history h; tasks := tasks h;
  auto_scheduled := auto_scheduled h; dispatched := dispatched h; deployments := deployments h; now := now h; ticks := ticks h |}.
Definition set_pool_faults fs (h : hub) := {| projects := projects h; pool := pool h; pool_faults := fs;
  store := store h; phase_history := phase_history h; route_history := route_history h; tasks := tasks h;
  auto_scheduled := auto_scheduled h; dispatched := dispatched h; deployments := deployments h; now := now h; ticks := ticks h |}.
Definition set_store st (h : hub) := {| projects := projects h; pool := pool h; pool_faults := pool_faults h;
  store := st; phase_history := phase_history h; route_history := route_history h; tasks := tasks h;
  auto_scheduled := auto_scheduled h; dispatched := dispatched h; deployments := deployments h; now := now h; ticks := ticks h |}.
Definition set_phase_history ph (h : hub) := {| projects := projects h; pool := pool h; pool_faults := pool_faults h;
  store := store h; phase_history := ph; route_history := route_history h; tasks := tasks h;
  auto_scheduled := auto_scheduled h; dispatched := dispatched h; deployments := deployments h; now := now h; ticks := ticks h |}.
Definition set_route_history rh (h : hub) := {| projects := projects h; pool := pool h; pool_faults := pool_faults h;
  store := store h; phase_history := phase_history h; route_history := rh; tasks := tasks h;
  auto_scheduled := auto_scheduled h; dispatched := dispatched h; deployments := deployments h; now := now h; ticks := ticks h |}.
Definition set_tasks ts (h : hub) := {| projects := projects h; pool := pool h; pool_faults := pool_faults h;
  store := store h; phase_history := phase_history h; route_history := route_history h; tasks := ts;
  auto_scheduled := auto_scheduled h; dispatched := dispatched h; deployments := deployments h; now := now h; ticks := ticks h |}.
Definition set_auto_scheduled a (h : hub) := {| projects := projects h; pool := pool h; pool_faults := pool_faults h;
  store := store h; phase_history := phase_history h; route_history := route_history h; tasks := tasks h;
  auto_scheduled := a; dispatched := dispatched h; deployments := deployments h; now := now h; ticks := ticks h |}.
Definition set_dispatched d (h : hub) := {| projects := projects h; pool := pool h; pool_faults := pool_faults h;
  store := store h; phase_history := phase_history h; route_history := route_history h; tasks := tasks h;
  auto_scheduled := auto_scheduled h; dispatched := d; deployments := deployments h; now := now h; ticks := ticks h |}.
Definition set_deployments d (h : hub) := {| projects := projects h; pool := pool h; pool_faults := pool_faults h;
  store := store h; phase_history := phase_history h; route_history := route_history h; tasks := tasks h;
  auto_scheduled := auto_scheduled h; dispatched := dispatched h; deployments := d; now := now h; ticks := ticks h |}.
Definition set_now t (h : hub) := {| projects := projects h; pool := pool h; pool_faults := pool_faults h;
  store := store h; phase_history := phase_history h; route_history := route_history h; tasks := tasks h;
  auto_scheduled := auto_scheduled h; dispatched := dispatched h; deployments := deployments h; now := t; ticks := ticks h |}.
Definition set_ticks n (h : hub) := {| projects := projects h; pool := pool h; pool_faults := pool_faults h;
  store := store h; phase_history := phase_history h; route_history := route_history h; tasks := tasks h;
  auto_scheduled := auto_scheduled h; dispatched := dispatched h; deployments := deployments h; now := now h; ticks := n |}.

(** * The outside world

    What is not code of the hub: identifiers, the roles behind the MCP tools, the
    orchestrator's gate and transition tools, the files on disk.  Each answer is
    indexed by the number of answers taken before it, so a fixed environment can
    answer the same call differently over time. *)

(** What calling a role does: it raises, or returns the MCP response, after writing
    [patch] to the project's metadata. *)
Inductive role_answer :=
| RoleRaises (message : string)
| RoleReturns (raw : dict) (patch : dict).

(** What an orchestrator tool answers: it raises, or returns a status with either the
    data or the text of the error. *)
Inductive tool_answer :=
| ToolRaises
| ToolReturns (status_ok : bool) (data : dict) (error : option string).

Record env := {
  e_uuid : nat → string;
  e_role : nat → string → dict → role_answer;          (* invoke_mcp_tool *)
  e_kg : nat → string → option string;                 (* retrieve_kg_context_for_dispatch *)
  e_grant : nat → string → string → tool_answer;       (* approval_grant *)
  e_advance : nat → string → string → option value → tool_answer; (* phase_advance *)
  e_files : string → dict → Z;                         (* count_workspace_files *)
  e_host_path : string → dict → string;                (* workspace_host_path *)
  e_pipeline_version : string                          (* SPINE_PIPELINE_VERSION *)
}.

(** * Handlers *)

(** The exceptions a handler can end with; [TypeError] also stands for
    [AttributeError], the other way Python refuses a value of the wrong type. *)
Inductive exn :=
| DbError
| RoleError (message : string)
| TypeError
| NameError
| ValueError.

Abbreviation handler A := (proc hub exn A).

Local Open Scope proc_scope.

(** Takes the next index of the outside world's answers. *)
Definition tick : handler nat :=
  n <- pgets ticks;; pmodify (set_ticks (S n));; pret n.

Definition on_store {A} (m : state Decisions.store A) : handler A :=
  s <- pgets store;; pmodify (set_store (exec m s));; pret (eval m s).

Definition spawn (t : task) : handler unit :=
  pmodify (fun h => set_tasks (tasks h ++ [t]) h).

(** A statement on the pool. *)
Definition statement : handler unit :=
  f <- pgets (fun h => hd false (pool_faults h));;
  pmodify (fun h => set_pool_faults (tl (pool_faults h)) h);;
  if f then praise DbError else pret tt.

(** The [WHERE] clause: [id = n] for a numeric id, [project_uuid::text = s] otherwise. *)
Definition isdigit (s : string) : bool := negb (String.eqb s "") && all_chars is_digit s.

Definition row_matches (pid : string) (p : project) : bool :=
  if isdigit pid then
    match int_of_str 10 pid with Some n => p_id p =? n | None => false end
  else String.eqb (p_uuid p) pid.

Definition find_project (pid : string) (ps : list project) : option project :=
  List.find (row_matches pid) ps.

Definition load_project_full (pid : string) : handler (option project) :=
  up <- pgets pool;;
  if negb up then pret None else
  statement;;
  pgets (fun h => find_project pid (projects h)).

Definition update_rows (pid : string) (f : project → project) (ps : list project) : list project :=
  map (fun p => if row_matches pid p then f p else p) ps.

Definition merge_meta (patch : dict) (p : project) : project :=
  with_meta (dict_update (p_meta p) patch) p.

Definition persist_metadata_patch (pid : string) (patch : dict) : handler unit :=
  up <- pgets pool;;
  if negb up then pret tt else
  statement;;
  pmodify (fun h => set_projects (update_rows pid (merge_meta patch) (projects h)) h).

(** [_advance_phase] and the transaction of [_fallback_advance]: the row's phase and
    its history entry are written together or not at all. *)
Definition advance_row (pid target : string) : handler bool :=
  found <- pgets (fun h => find_project pid (projects h));;
  match found with
  | None => pret false
  | Some p =>
      pmodify (fun h => set_projects (update_rows pid (with_phase target) (projects h)) h);;
      pmodify (fun h => set_phase_history (phase_history h ++ [(p_id p, target)]) h);;
      pret true
  end.

Definition advance_phase (pid target : string) : handler unit :=
  up <- pgets pool;;
  if negb up then pret tt else
  statement;;
  advance_row pid target;;
  pret tt.

(** * Cards and events *)
Definition DECISION_BODY_MAX : nat := Z.to_nat 63000.

Definition fit_suffix : string :=
"

---

_(truncated for decision queue limit; see project workspace / metadata for full content)_".

Definition fit_card_body (max_len : nat) (b : string) : string :=
  if Nat.leb (text_length b) max_len then b
  else take_text (max_len - text_length fit_suffix) b +:+ fit_suffix.

(** The card [_enqueue] builds from its keyword arguments. *)
Record card_kwargs := {
  k_class : string; k_project : string; k_title : string; k_body : string;
  k_severity : Decisions.Severity; k_actions : list string; k_meta : dict
}.

Definition make_card (fresh : string) (t : datetime) (k : card_kwargs) : Decisions.DecisionCard :=
  {| Decisions.decision_id := fresh; Decisions.decision_class := k_class k;
     Decisions.project_id := Some (k_project k); Decisions.title := k_title k;
     Decisions.body := fit_card_body DECISION_BODY_MAX (k_body k);
     Decisions.severity := k_severity k; Decisions.actions := k_actions k;
     Decisions.status := Decisions.Pending; Decisions.created_at := timestamp t;
     Decisions.expires_at := None; Decisions.metadata := k_meta k; Decisions.citations := [] |}.

(** The API model's limits ([max_length=200] and [min_length=1] on titles): a card
    that breaks them raises pydantic's [ValidationError], a [ValueError]. *)
Definition valid_title (t : string) : bool :=
  negb (String.eqb t "") && Nat.leb (text_length t) 200.

Section WithEnv.
Context (E : env).

Definition enqueue (k : card_kwargs) : handler unit :=
  n <- tick;;
  t <- pgets now;;
  if valid_title (k_title k) then
    on_store (Decisions.enqueue_decision true "" (make_card (e_uuid E n) t k));; pret tt
  else praise ValueError.

Definition publish_event (fields : dict) : handler unit :=
  on_store (Decisions.publish_event fields).

Definition publish_project_pulse (uuid : string) (fields : dict) : handler unit :=
  t <- pgets now;;
  publish_event ([("type", VStr "project_pulse"); ("project_uuid", VStr uuid); ("ts", VInt t)] ++ fields).

Definition pulse_idle : dict :=
  [("dispatch_in_flight", VBool false); ("refresh_artifacts", VBool false)].

Definition schedule_recovery_pulse (uuid : string) : handler unit := spawn (TPulse uuid).

(** [_emit]. *)
Definition emit (event_type uuid role : string) (extra : dict) : handler unit :=
  t <- pgets now;;
  publish_event ([("type", VStr event_type); ("role", VStr role); ("project_uuid", VStr uuid);
                  ("ts", VInt t)] ++ extra);;
  (if in_strs event_type ["role_finished"; "role_failed"]
   then publish_project_pulse uuid pulse_idle else pret tt);;
  if in_strs event_type ["role_started"; "role_finished"; "role_failed"]
  then schedule_recovery_pulse uuid else pret tt.

(** * Phases: [_pipeline_bridge.py] *)
Definition PHASE_INTAKE := "intake".
Definition PHASE_PLAN_IN_PROGRESS := "plan_in_progress".
Definition PHASE_PLAN_APPROVED := "plan_approved".
Definition PHASE_BUILD_IN_PROGRESS := "build_in_progress".
Definition PHASE_BUILD_COMPLETE := "build_complete".
Definition PHASE_VERIFY_IN_PROGRESS := "verify_in_progress".
Definition PHASE_VERIFY_APPROVED := "verify_approved".
Definition PHASE_VERIFY_APPROVED_WARN := "verify_approved_with_warnings".
Definition PHASE_ACCEPTANCE := "acceptance".
Definition PHASE_RELEASED := "released".
Definition PHASE_OPERATE := "operate".
Definition PHASE_RETRO := "retro".

Definition PHASE_BUCKETS : list string := ["intake"; "plan"; "build"; "verify"; "release"].

Definition BUCKET_BY_PHASE : list (string * string) :=
  [(PHASE_INTAKE, "intake"); (PHASE_PLAN_IN_PROGRESS, "plan"); (PHASE_PLAN_APPROVED, "plan");
   (PHASE_BUILD_IN_PROGRESS, "build"); (PHASE_BUILD_COMPLETE, "build");
   (PHASE_VERIFY_IN_PROGRESS, "verify"); (PHASE_VERIFY_APPROVED, "verify");
   (PHASE_VERIFY_APPROVED_WARN, "verify"); (PHASE_ACCEPTANCE, "release");
   (PHASE_RELEASED, "release"); (PHASE_OPERATE, "release"); (PHASE_RETRO, "release");
   ("plan", "plan"); ("build", "build"); ("verify", "verify"); ("release", "release")].

Definition phase_bucket (phase : string) : string :=
  if String.eqb phase "" then "intake"
  else match dict_lookup phase BUCKET_BY_PHASE with Some b => b | None => "intake" end.

(** [_phase_requires_gate] over [orchestrator/state/phases.yaml]: the phases the file
    marks with a non-null [gate]. *)
Definition gated_phases : list string :=
  [PHASE_PLAN_APPROVED; PHASE_VERIFY_APPROVED_WARN; PHASE_VERIFY_APPROVED;
   PHASE_ACCEPTANCE; PHASE_RELEASED].
Definition phase_requires_gate (phase : string) : bool := in_strs phase gated_phases.

(** [_fallback_advance]: direct SQL, its own exceptions answered with [false]. *)
Definition fallback_advance (pid target : string) : handler bool :=
  up <- pgets pool;;
  if negb up then pret false else
  try_except (statement;; advance_row pid target) (fun _ => pret false).

(** The second half of [advance_lifecycle_phase], once the token is known.  An accepted
    [phase_advance] has run [transition.sh execute], which writes the row's phase and
    its history entry as [advance_row] does. *)
Definition advance_with_token (pid target : string) (token : option value) : handler bool :=
  n <- tick;;
  match e_advance E n pid target token with
  | ToolRaises => fallback_advance pid target
  | ToolReturns ok data err =>
      if ok && truthy (get "accepted" data) then advance_row pid target;; pret true
      else match err with
           | Some e => if contains "noop" (lower e) then pret true else fallback_advance pid target
           | None => fallback_advance pid target
           end
  end.

Definition advance_lifecycle_phase (pid target actor : string) (grant_gate : bool) : handler bool :=
  if grant_gate || phase_requires_gate target then
    n <- tick;;
    match e_grant E n pid target with
    | ToolRaises => fallback_advance pid target
    | ToolReturns ok data _ =>
        if negb ok then fallback_advance pid target
        else advance_with_token pid target (dict_lookup "token" data)
    end
  else advance_with_token pid target None.

Fixpoint advance_sequence (pid : string) (phases : list (string * bool)) (actor : string) : handler bool :=
  match phases with
  | [] => pret true
  | (ph, grant) :: rest =>
      ok <- advance_lifecycle_phase pid ph actor grant;;
      ok' <- advance_sequence pid rest actor;;
      pret (ok && ok')
  end.

End WithEnv.

(** ** Cards fit the queue *)
(** Every card a handler posts fits the decision queue.  The body of the card is at
    most 63000 characters, whatever the artifact's size; a body that fits is posted
    as it is, and a longer one keeps its first characters and says it was cut. *)
Theorem card_body_bounded fresh t k :
  let b := Decisions.body (make_card fresh t k) in
  (text_length b <= DECISION_BODY_MAX)%nat ∧
  ((text_length (k_body k) <= DECISION_BODY_MAX)%nat → b = k_body k) ∧
  ((DECISION_BODY_MAX < text_length (k_body k))%nat →
     b = take_text (DECISION_BODY_MAX - text_length fit_suffix) (k_body k) +:+ fit_suffix).
Proof.
  cbn zeta. cbn [make_card Decisions.body]. unfold fit_card_body.
  assert (Hs : (text_length fit_suffix <= DECISION_BODY_MAX)%nat).
  { apply Nat2Z.inj_le. unfold DECISION_BODY_MAX. rewrite Z2Nat.id by done. by vm_compute. }
  remember DECISION_BODY_MAX as n eqn:Hn. clear Hn.
  pose proof (text_length_take (n - text_length fit_suffix) (k_body k)) as Ht.
  destruct (Nat.leb_spec (text_length (k_body k)) n); [by split_and!; [|done|lia]|].
  split_and!; [rewrite text_length_app|..]; lia || done.
Qed.

(** ** Phases always move *)
Lemma find_update pid pid' f ps :
  (∀ p, row_matches pid (f p) = row_matches pid p) →
  find_project pid (update_rows pid' f ps) =
  (fun p => if row_matches pid' p then f p else p) <$> find_project pid ps.
Proof.
  intros Hf. unfold find_project, update_rows. induction ps as [|p ps IH]; cbn; [done|].
  destruct (row_matches pid' p) eqn:E.
  - rewrite Hf. destruct (row_matches pid p); cbn; [by rewrite E|done].
  - destruct (row_matches pid p); cbn; [by rewrite E|done].
Qed.

(** [h'] shows the project in the target phase, with an entry in its history. *)
Definition advanced (pid target : string) (h h' : hub) : Prop :=
  ∃ p, find_project pid (projects h) = Some p ∧
    find_project pid (projects h') = Some (with_phase target p) ∧
    phase_history h' = phase_history h ++ [(p_id p, target)].

Lemma advance_row_run pid target h p :
  find_project pid (projects h) = Some p →
  eval (advance_row pid target) h = Ok true ∧ advanced pid target h (exec (advance_row pid target) h).
Proof.
  intros Hp. unfold advance_row, advanced. run_state. rewrite Hp. run_state. split; [done|].
  exists p. split; [done|]. split; [|done]. cbn [projects set_phase_history set_projects].
  rewrite find_update by done. rewrite Hp. cbn.
  by rewrite (proj2 (List.find_some _ _ Hp)).
Qed.

Lemma fallback_run pid target h p :
  pool h = true → hd false (pool_faults h) = false → find_project pid (projects h) = Some p →
  eval (fallback_advance pid target) h = Ok true ∧
  advanced pid target h (exec (fallback_advance pid target) h).
Proof.
  intros Hp Hf Hx. unfold fallback_advance, statement. run_state. rewrite Hp. cbn [negb].
  unfold try_except. run_state. rewrite Hf. run_state.
  destruct (advance_row_run pid target (set_pool_faults (tl (pool_faults h)) h) p Hx) as [He Ha].
  rewrite He. run_state. split; [done|]. exact Ha.
Qed.

Section Advance.
Context (E : env) (pid target : string).
(** The text [noop] in the error of [phase_advance] is how the tool says that the
    project is in the target phase already; the code then leaves the row alone. *)
Definition says_noop (a : tool_answer) : bool :=
  match a with ToolReturns _ _ (Some e) => contains "noop" (lower e) | _ => false end.

(** The row and its history as they were. *)
Definition unmoved (h h' : hub) : Prop := projects h' = projects h ∧ phase_history h' = phase_history h.

(** The three ways a phase change can end. *)
Definition advance_ends (h : hub) (r : outcome exn bool) (h' : hub) : Prop :=
  (r = Ok true ∧ advanced pid target h h') ∨
  (r = Ok true ∧ (∃ n tok, says_noop (e_advance E n pid target tok) = true) ∧ unmoved h h') ∨
  (r = Ok false ∧ (pool h = false ∨ hd false (pool_faults h) = true) ∧ unmoved h h').

Lemma fallback_ends h p :
  find_project pid (projects h) = Some p →
  advance_ends h (eval (fallback_advance pid target) h) (exec (fallback_advance pid target) h).
Proof.
  intros Hx. destruct (pool h) eqn:Hp; [destruct (hd false (pool_faults h)) eqn:Hf|].
  - right. right. unfold fallback_advance, statement, try_except. run_state. rewrite Hp. cbn [negb]. run_state.
    rewrite Hf. run_state. by split_and!; auto.
  - left. by apply (fallback_run pid target h p).
  - right. right. unfold fallback_advance. run_state. rewrite Hp. split; [done|]. split; [by left|done].
Qed.

Lemma token_ends h p tok :
  find_project pid (projects h) = Some p →
  advance_ends h (eval (advance_with_token E pid target tok) h) (exec (advance_with_token E pid target tok) h).
Proof.
  intros Hx. unfold advance_with_token, tick. run_state. set (h1 := set_ticks (S (ticks h)) h).
  pose proof (fallback_ends h1 p Hx : advance_ends h _ _) as Hb.
  destruct (e_advance E (ticks h) pid target tok) as [|ok d err] eqn:Ha; [exact Hb|].
  destruct (ok && truthy (get "accepted" d)).
  { run_state. destruct (advance_row_run pid target h1 p Hx) as [He Hadv]. rewrite He. run_state. by left. }
  destruct err as [m|]; [|exact Hb]. destruct (contains "noop" (lower m)) eqn:Hn; [|exact Hb].
  run_state. right. left. split; [done|]. split; [|done]. exists (ticks h), tok. by rewrite Ha.
Qed.

(** C8: a phase change happens whatever the orchestrator's gate says.  For a project in the
    table, [advance_lifecycle_phase] returns, and it has put the project in the target
    phase, with one new history entry: a rejected or failing grant, a failing or refused
    [phase_advance] all end in the direct SQL.  The two other ends are: [phase_advance]
    answered with an error that mentions noop, which the code takes for done, and nothing
    moved; and [False] with nothing moved, where the pool is down or its statement fails.
    An accepted [phase_advance] is taken to have moved the row. *)
Theorem advance_reaches_target actor grant h p :
  find_project pid (projects h) = Some p →
  advance_ends h (eval (advance_lifecycle_phase E pid target actor grant) h)
                 (exec (advance_lifecycle_phase E pid target actor grant) h).
Proof.
  intros Hx. unfold advance_lifecycle_phase. destruct (grant || phase_requires_gate target); [|by apply (token_ends h p)].
  unfold tick. run_state. set (h1 := set_ticks (S (ticks h)) h).
  destruct (e_grant E (ticks h) pid target) as [|[] d err]; cbn [negb].
  - exact (fallback_ends h1 p Hx).
  - exact (token_ends h1 p _ Hx).
  - exact (fallback_ends h1 p Hx).
Qed.
End Advance.

(** Both tools refuse, and the project is released all the same. *)
Definition refusing_env : env :=
  {| e_uuid := fun _ => ""; e_role := fun _ _ _ => RoleRaises ""; e_kg := fun _ _ => None;
     e_grant := fun _ _ _ => ToolReturns false [] (Some "key_init_failed");
     e_advance := fun _ _ _ _ => ToolReturns false [] (Some "transition_rejected");
     e_files := fun _ _ => 0; e_host_path := fun _ _ => ""; e_pipeline_version := "1" |}.
Definition released_project : project :=
  {| p_id := 7; p_uuid := "u"; p_name := "Todo"; p_type := "feature"; p_phase := "intake";
     p_status := "active"; p_pipeline := None; p_meta := [] |}.
Definition gate_hub : hub :=
  {| projects := [released_project]; pool := true; pool_faults := []; store := Decisions.empty_store;
     phase_history := []; route_history := []; tasks := []; auto_scheduled := []; dispatched := [];
     deployments := []; now := 0; ticks := 0 |}.

Lemma advance_reaches_target_witness :
  phase_history (exec (advance_lifecycle_phase refusing_env "u" "released" "po" true) gate_hub)
  = [(7, "released")].
Proof.
  destruct (advance_reaches_target refusing_env "u" "released" "po" true gate_hub released_project)
    as [(_ & p & Hp & _ & ->)|[(_ & (n & tok & Hn) & _)|(_ & [Hn|Hn] & _)]]; [done|..].
  - injection Hp as <-. reflexivity.
  - discriminate Hn.
  - discriminate Hn.
  - discriminate Hn.
Defined.
End Hub.
