(* ===== verification/FixLoop.v ===== *)
(** Pure rules of [shared/api/routes/_project_recovery.py].

    What the recovery layer decides from a project row alone: the remediation
    counter and its limit, the age of a dispatch, the queue of operate-phase feature
    requests, which recovery actions a phase offers, and which one [resume] runs. *)

From S2P Require Import Prelude PyValue Datetime Decisions Hub.
From Stdlib Require Import Ascii Sorted.
Local Open Scope Z_scope.

Module FixLoop.
Import Hub.

(** * Constants *)
Definition TERMINAL_PHASES : list string := ["retro"; "completed"; "terminated"].
Definition INFLIGHT_STALE_SECONDS : Z := 5 * 60.
Definition MAX_CODE_FIX_ITERATIONS : Z := 3.
Definition AUTO_REMEDIATE_MAX_ATTEMPTS : nat := 12.
Definition AUTO_REMEDIATE_RETRY_DELAY : Z := 5 * usec_per_sec.

(** * The remediation counter *)
Definition code_fix_iteration_count (md : dict) : Z :=
  match dict_lookup "code_fix_iteration" md with
  | None => 0
  | Some v => match py_int v with Some n => Z.max 0 n | None => 0 end
  end.

Definition fix_loop_exhausted (p : project) : bool :=
  if negb (truthy (get "code_review_blocked" (p_meta p))) then false
  else MAX_CODE_FIX_ITERATIONS <=? code_fix_iteration_count (p_meta p).

(** * Age of a dispatch *)

(** The [except] clause answers [True] for a text that is not an instant. *)
Definition dispatch_in_flight_stale (now : datetime) (inflight : value) : bool :=
  match inflight with
  | VDict d =>
      let started := get "started_at" d in
      if negb (truthy started) then true
      else match fromisoformat (replace_Z (py_str started)) with
           | Some t => INFLIGHT_STALE_SECONDS * usec_per_sec <? now - t
           | None => true
           end
  | _ => true
  end.

(** A dispatch that is recorded and not stale excludes another one. *)
Definition in_flight (now : datetime) (md : dict) : bool :=
  truthy (get "recovery_dispatch_in_flight" md)
  && negb (dispatch_in_flight_stale now (get "recovery_dispatch_in_flight" md)).

(** * Feature requests of the operate phase *)
Definition has_status (st : string) (entry : value) : bool :=
  match entry with VDict d => is_str (get "status" d) st | _ => false end.

(** The text [str(entry.get("feature") or "").strip()]. *)
Definition feature_text (entry : value) : string :=
  strip (py_str (py_or (get "feature" (dict_of entry)) (VStr ""))).

(** The last requested entry with a text, reading the list backwards. *)
Fixpoint last_requested (rev_requests : list value) : option string :=
  match rev_requests with
  | [] => None
  | e :: rest =>
      if has_status "requested" e && negb (String.eqb (feature_text e) "")
      then Some (feature_text e) else last_requested rest
  end.

Definition latest_text (md : dict) : option string :=
  let t := strip (py_str (py_or (get "latest_feature_request" md) (VStr ""))) in
  if String.eqb t "" then None else Some t.

Definition pending_feature_request (md : dict) : option string :=
  match get "feature_requests" md with
  | VList requests =>
      match last_requested (rev requests) with
      | Some t => Some t
      | None => if existsb (has_status "in_progress") requests then None else latest_text md
      end
  | _ => latest_text md
  end.

(** [list(v or [])]: a list, the keys of a dict or the characters of a string. *)
Fixpoint chars_of (s : string) : list value :=
  match s with
  | EmptyString => []
  | String c s' => VStr (str1 c) :: chars_of s'
  end.
Definition list_of (v : value) : outcome exn (list value) :=
  if negb (truthy v) then Ok [] else
  match v with
  | VList l => Ok l
  | VDict d => Ok (map (fun kv => VStr kv.1) d)
  | VStr s => Ok (chars_of s)
  | _ => Raise TypeError
  end.

(** Change the first entry that satisfies [p]. *)
Fixpoint update_first (p : value → bool) (f : dict → dict) (l : list value) : list value :=
  match l with
  | [] => []
  | e :: l' => if p e then VDict (f (dict_of e)) :: l' else e :: update_first p f l'
  end.
(** The same reading the list backwards: the code's [for entry in reversed(...)]. *)
Definition update_last (p : value → bool) (f : dict → dict) (l : list value) : list value :=
  rev (update_first p f (rev l)).

Definition feature_iteration_start_patch (md : dict) : outcome exn dict :=
  requests ← list_of (get "feature_requests" md);
  Ok [("feature_iteration_active", VBool true);
      ("feature_requests",
        VList (update_last (has_status "requested") (dict_set "status" (VStr "in_progress")) requests))].

Definition complete_active_feature_request_patch (now : datetime) (md : dict) : outcome exn dict :=
  requests ← list_of (get "feature_requests" md);
  Ok [("feature_requests",
        VList (update_last (has_status "in_progress")
          (fun d => dict_set "completed_at" (VStr (isoformat now)) (dict_set "status" (VStr "completed") d))
          requests))].

(** [int(e.get("priority") or 999)]. *)
Definition priority_of (e : value) : outcome exn Z :=
  match py_or (get "priority" (dict_of e)) (VInt 999) with
  | VStr s => match int_of_str 10 s with Some n => Ok n | None => Raise ValueError end
  | v => match py_int v with Some n => Ok n | None => Raise TypeError end
  end.

(** The backlog entries with their positions in the list and their priorities. *)
Fixpoint backlog_from (i : nat) (l : list value) : outcome exn (list (nat * Z * value)) :=
  match l with
  | [] => Ok []
  | e :: l' =>
      if has_status "backlog" e then
        k ← priority_of e; rest ← backlog_from (S i) l'; Ok ((i, k, e) :: rest)
      else backlog_from (S i) l'
  end.

(** The first entry of least priority: the head of the stable sort. *)
Fixpoint least_priority (best : nat * Z * value) (l : list (nat * Z * value)) : nat * Z * value :=
  match l with
  | [] => best
  | x :: l' => least_priority (if x.1.2 <? best.1.2 then x else best) l'
  end.

Definition entry_title (e : value) : string :=
  take_text 80 (py_str (py_or (get "title" (dict_of e)) (py_or (get "feature" (dict_of e)) (VStr "")))).

Definition promote_next_feature_request_patch (now : datetime) (md : dict) : outcome exn dict :=
  requests ← list_of (get "feature_requests" md);
  backlog ← backlog_from 0 requests;
  match backlog with
  | [] => Ok []
  | x :: rest =>
      let '(i, _, e) := least_priority x rest in
      let e' := VDict (dict_set "requested_at" (VStr (isoformat now))
                        (dict_set "status" (VStr "requested") (dict_of e))) in
      Ok [("feature_requests", VList (<[i := e']> requests));
          ("latest_feature_request",
            if String.eqb (entry_title e) "" then VNone else VStr (entry_title e))]
  end.

Definition operate_devops_ack_metadata_patch (now : datetime) (prior_md : dict) : outcome exn dict :=
  patch ← complete_active_feature_request_patch now prior_md;
  promoted ← promote_next_feature_request_patch now (dict_update prior_md patch);
  Ok (dict_update (dict_update patch promoted)
        [("feature_iteration_active", VBool false); ("code_review_blocked", VBool false);
         ("last_role_failure", VNone)]).

(** * Stuck projects *)
Section Files.
Context (files : string → dict → Z).

Definition files_on_disk (p : project) : Z := files (p_uuid p) (p_meta p).
Definition has_meta (k : string) (p : project) : bool := truthy (get k (p_meta p)).

Definition stuck_reasons (p : project) (pending : nat) : list string :=
  (if Nat.eqb pending 0 && negb (in_strs (p_phase p) TERMINAL_PHASES)
      && negb (String.eqb (p_phase p) "released") then ["no_pending_decisions"] else []) ++
  (if has_meta "code_review_blocked" p
   then [if fix_loop_exhausted p then "fix_loop_exhausted" else "code_review_blocked"] else []) ++
  (if has_meta "last_role_failure" p then ["last_role_failed"] else []) ++
  (if has_meta "code_files" p && (files_on_disk p =? 0) then ["workspace_empty_stale_metadata"]
   else if negb (has_meta "code_files" p) && (files_on_disk p =? 0) && startswith (p_phase p) "build"
   then ["workspace_empty_no_code"] else []).

Definition is_stuck (p : project) (pending : nat) : bool :=
  if in_strs (p_phase p) TERMINAL_PHASES || String.eqb (p_phase p) "released" then false
  else negb (Nat.eqb (length (stuck_reasons p pending)) 0) && Nat.eqb pending 0.

(** * Recovery actions *)
Record action_spec := { as_action : string; as_label : string; as_description : string }.

(** [if c: specs.append(...)]. *)
Definition offer (c : bool) (a l d : string) : list action_spec :=
  if c then [{| as_action := a; as_label := l; as_description := d |}] else [].

Definition plan_specs (p : project) : list action_spec :=
  offer (has_meta "prd_md" p) "retry_planner" "Regenerate roadmap"
    "Regenerate the delivery roadmap from the approved product requirements." ++
  offer (has_meta "roadmap_md" p) "retry_architect" "Regenerate technical design"
    "Regenerate the technical requirements document from the approved roadmap." ++
  offer (has_meta "trd_md" p) "retry_conductor" "Regenerate sprint plan"
    "Regenerate the sprint plan from the approved technical design.".

Definition has_code (p : project) : bool := has_meta "code_intro_md" p || has_meta "code_files" p.
Definition has_review (p : project) : bool :=
  has_meta "code_review_blocked" p || has_meta "code_review_md" p.

Definition iter_note (p : project) : string :=
  if has_meta "code_review_blocked" p && negb (fix_loop_exhausted p)
  then " (attempt " +:+ str_of_Z (code_fix_iteration_count (p_meta p) + 1) +:+ " of "
       +:+ str_of_Z MAX_CODE_FIX_ITERATIONS +:+ ")"
  else "".

(** The remediation and reset actions, which the build and operate phases share. *)
Definition remediate_specs (p : project) : list action_spec :=
  offer (has_review p && has_code p) "retry_engineer_remediate"
    (if fix_loop_exhausted p then "Fix security findings (auto re-review)"
     else "Apply security remediation")
    (if fix_loop_exhausted p
     then "Run targeted engineer remediation from the latest security findings, then automatically re-run security review — no full regen."
     else "Send the engineer role the latest security findings" +:+ iter_note p +:+
          ". Security review re-runs automatically after remediation.") ++
  offer (fix_loop_exhausted p
         || (has_meta "code_review_blocked" p && (0 <? code_fix_iteration_count (p_meta p))))
    "reset_fix_loop" "Reset fix loop"
    "Clear the remediation attempt counter and security block flag so automated fix passes can run again from zero.".

Definition reviewed_clean (p : project) : bool :=
  has_meta "code_review_md" p && negb (has_meta "code_review_blocked" p).

Definition build_specs (p : project) : list action_spec :=
  offer (has_meta "sprint_plan_md" p) "retry_engineer" "Regenerate application code"
    "Generate application code from the approved sprint plan (fresh pass)." ++
  offer (has_code p) "retry_code_review" "Run security review"
    "Run the security engineer review against the current workspace." ++
  remediate_specs p ++
  offer (reviewed_clean p) "retry_devops" "Run environment setup"
    "Install dependencies and run smoke validation in the project workspace.".

Definition feature_waiting (p : project) : bool :=
  match pending_feature_request (p_meta p) with Some _ => true | None => false end.

Definition operate_specs (p : project) : list action_spec :=
  offer (feature_waiting p && negb (has_meta "recovery_dispatch_in_flight" p))
    "retry_feature" "Implement feature request"
    "Send the engineer role the latest founder feature request and run review → install → redeploy." ++
  offer (has_code p) "retry_code_review" "Run security review"
    "Run security review on the latest feature code changes." ++
  remediate_specs p ++
  offer (reviewed_clean p) "retry_devops" "Run environment setup"
    "Install dependencies and smoke-test after feature changes.".

Definition operate_ready (p : project) : bool :=
  String.eqb (p_phase p) "released" && has_meta "deploy_result" p
  && negb (has_meta "operate_started_at" p).

(** The specs before [resume] is appended and repeats are dropped. *)
Definition base_specs (p : project) : list action_spec :=
  (if startswith (p_phase p) "plan" || String.eqb (p_phase p) "intake" then plan_specs p else []) ++
  (if startswith (p_phase p) "build" || startswith (p_phase p) "verify"
      || String.eqb (p_phase p) "acceptance" then build_specs p else []) ++
  (if startswith (p_phase p) "verify" || String.eqb (p_phase p) "acceptance"
      || String.eqb (p_phase p) "released"
   then offer (negb (is_False (get "devops_install_ok" (p_meta p)))) "retry_qa" "Generate test plan"
          "Regenerate the test plan after environment setup completes." else []) ++
  offer (operate_ready p) "retry_operate" "Start operate monitoring"
    "Run the operate runner (released → operate) after deploy is acknowledged." ++
  (if String.eqb (p_phase p) "operate" then operate_specs p else []).

Fixpoint dedupe (seen : list string) (specs : list action_spec) : list action_spec :=
  match specs with
  | [] => []
  | s :: rest =>
      if in_strs (as_action s) seen then dedupe seen rest
      else s :: dedupe (as_action s :: seen) rest
  end.

Definition action_specs (p : project) : list action_spec :=
  let specs := base_specs p in
  dedupe [] (specs ++
    (if Nat.eqb (length specs) 0 then []
     else [{| as_action := "resume"; as_label := "Resume pipeline";
              as_description := "Select and run the most appropriate next step for the current phase." |}])).

Definition allowed (p : project) : list string := map as_action (action_specs p).

Definition preferred : list string :=
  ["retry_feature"; "retry_operate"; "retry_engineer_remediate"; "retry_engineer";
   "retry_code_review"; "retry_devops"; "retry_qa"; "retry_conductor"; "retry_architect";
   "retry_planner"].

(** The last part of [_pick_resume_action]: the first preferred action on offer. *)
Definition pick_from_specs (p : project) : option string :=
  match action_specs p with
  | [] => None
  | s :: _ => Some (match List.find (fun a => in_strs a (allowed p)) preferred with
                    | Some a => a
                    | None => as_action s
                    end)
  end.

(** The choice for a blocked review. *)
Definition pick_blocked (p : project) : option string :=
  if fix_loop_exhausted p then (if has_code p then Some "retry_code_review" else None)
  else Some "retry_engineer_remediate".

(** The part of [_pick_resume_action] after the empty-workspace case. *)
Definition pick_by_phase (p : project) : option string :=
  let m k := has_meta k p in
  let build := startswith (p_phase p) "build" in
  let plan := startswith (p_phase p) "plan" || String.eqb (p_phase p) "intake" in
  if m "code_review_blocked" then pick_blocked p
  else if build && m "code_intro_md" && negb (m "code_review_md") then Some "retry_code_review"
  else if build && m "code_review_md" && negb (m "devops_install_ok") then Some "retry_devops"
  else if build && m "sprint_plan_md" && negb (m "code_intro_md") then Some "retry_engineer"
  else if startswith (p_phase p) "verify" && negb (m "qa_md") then Some "retry_qa"
  else if operate_ready p then Some "retry_operate"
  else if String.eqb (p_phase p) "operate" && feature_waiting p then Some "retry_feature"
  else if plan && m "trd_md" && negb (m "sprint_plan_md") then Some "retry_conductor"
  else if plan && m "roadmap_md" && negb (m "trd_md") then Some "retry_architect"
  else if plan && m "prd_md" && negb (m "roadmap_md") then Some "retry_planner"
  else pick_from_specs p.

Definition pick_resume_action (p : project) : option string :=
  if (files_on_disk p =? 0) && (has_meta "code_files" p || startswith (p_phase p) "build") then
    if has_meta "code_review_blocked" p && has_meta "code_review_md" p then pick_blocked p
    else if has_meta "sprint_plan_md" p then Some "retry_engineer"
    else pick_by_phase p
  else pick_by_phase p.
End Files.

(** * From an action to a dispatch *)

(** [a + b] on a value that must be a string. *)
Definition concat_str (a : string) (v : value) : outcome exn string :=
  match v with VStr s => Ok (a +:+ s) | _ => Raise TypeError end.

Definition with_note (note : option string) (feedback : string) : string :=
  match note with
  | Some n => if String.eqb n "" then feedback
              else feedback +:+ newline +:+ newline +:+ "## Founder note" +:+ newline +:+ newline +:+ strip n
  | None => feedback
  end.

Definition plain_params (kind : string) (card next_phase role : option string) : dispatch_params :=
  {| dp_kind := kind; dp_card := card; dp_next_phase := next_phase; dp_extra := None;
     dp_expected_role := role |}.

Definition dispatch_params_of (action : string) (p : project) (note : option string)
    : outcome exn dispatch_params :=
  let md := p_meta p in
  let plan := Some (phase_bucket PHASE_PLAN_IN_PROGRESS) in
  let verify := Some (phase_bucket PHASE_VERIFY_IN_PROGRESS) in
  if String.eqb action "retry_planner" then
    Ok (plain_params "prd_approval" (Some "roadmap_approval") plan None)
  else if String.eqb action "retry_architect" then
    Ok (plain_params "roadmap_approval" (Some "trd_approval") plan None)
  else if String.eqb action "retry_conductor" then
    Ok (plain_params "trd_approval" (Some "sprint_plan_approval") plan None)
  else if String.eqb action "retry_engineer" then
    Ok (plain_params "sprint_plan_approval" (Some "code_approval") None None)
  else if String.eqb action "retry_engineer_remediate" then
    feedback ← concat_str ("## Code review findings (manual recovery)" +:+ newline +:+ newline)
                 (py_or (get "code_review_md" md) (VStr ""));
    Ok {| dp_kind := "code_review_blocked"; dp_card := Some "code_approval"; dp_next_phase := verify;
          dp_extra := Some (take_text 12000 (with_note note feedback)); dp_expected_role := None |}
  else if String.eqb action "retry_code_review" then
    Ok (plain_params "code_approval" None verify (Some "verify"))
  else if String.eqb action "retry_devops" then
    Ok (plain_params "code_review_pass" (Some "devops_approval") (Some PHASE_VERIFY_IN_PROGRESS) None)
  else if String.eqb action "retry_qa" then
    Ok (plain_params "devops_approval" (Some "qa_approval") verify None)
  else if String.eqb action "retry_operate" then
    Ok (plain_params "operate_kickoff" None None None)
  else if String.eqb action "retry_feature" then
    let feature := match pending_feature_request md with Some f => f | None => "" end in
    Ok {| dp_kind := "feature_request"; dp_card := Some "code_approval"; dp_next_phase := None;
          dp_extra := Some (take_text 12000 (with_note note
            ("## Operate-phase feature request" +:+ newline +:+ newline +:+ strip feature)));
          dp_expected_role := None |}
  else Raise ValueError.

(** [retry_action_for_dispatch_kind]. *)
Definition retry_actions : list (string * string) :=
  [("sprint_plan_approval", "retry_engineer"); ("feature_request", "retry_feature");
   ("code_approval", "retry_code_review"); ("code_review_blocked", "retry_engineer_remediate");
   ("security_review_blocked", "retry_engineer_remediate"); ("code_review_pass", "retry_devops");
   ("devops_approval", "retry_qa"); ("prd_approval", "retry_planner");
   ("roadmap_approval", "retry_architect"); ("trd_approval", "retry_conductor")].
Definition retry_action_for_dispatch_kind (kind : string) : option string :=
  dict_lookup kind retry_actions.

(** * What [resume] picks *)
Lemma dedupe_actions seen specs a :
  a ∈ map as_action (dedupe seen specs) ↔ a ∈ map as_action specs ∧ a ∉ seen.
Proof.
  revert seen. induction specs as [|s specs IH]; intros seen; cbn; [set_solver|].
  destruct (in_strs (as_action s) seen) eqn:Es.
  - apply in_strs_true in Es. rewrite IH, elem_of_cons. set_solver.
  - apply in_strs_false in Es. cbn. rewrite !elem_of_cons, IH, not_elem_of_cons.
    destruct (decide (a = as_action s)); set_solver.
Qed.

Lemma dedupe_nodup seen specs : NoDup (map as_action (dedupe seen specs)).
Proof.
  revert seen. induction specs as [|s specs IH]; intros seen; cbn; [constructor|].
  destruct (in_strs _ seen); [apply IH|]. cbn. constructor; [|apply IH].
  rewrite dedupe_actions. set_solver.
Qed.

Lemma allowed_base p a : a ∈ map as_action (base_specs p) → a ∈ allowed p.
Proof.
  intros Ha. unfold allowed, action_specs. apply dedupe_actions.
  rewrite map_app. set_solver.
Qed.

Lemma offer_actions c a l d x : x ∈ map as_action (offer c a l d) ↔ c = true ∧ x = a.
Proof. unfold offer. destruct c; cbn; set_solver. Qed.

(** The phases in which code is written and reviewed. *)
Definition code_lane (p : project) : bool :=
  startswith (p_phase p) "build" || startswith (p_phase p) "verify"
  || String.eqb (p_phase p) "acceptance".

Definition review_lane (p : project) : bool := code_lane p || String.eqb (p_phase p) "operate".

Lemma base_specs_parts p a :
  (startswith (p_phase p) "plan" || String.eqb (p_phase p) "intake" = true ∧ a ∈ map as_action (plan_specs p)) ∨
  (code_lane p = true ∧ a ∈ map as_action (build_specs p)) ∨
  (operate_ready p = true ∧ a = "retry_operate") ∨
  (String.eqb (p_phase p) "operate" = true ∧ a ∈ map as_action (operate_specs p)) ∨
  (startswith (p_phase p) "verify" || String.eqb (p_phase p) "acceptance"
     || String.eqb (p_phase p) "released" = true ∧
   is_False (get "devops_install_ok" (p_meta p)) = false ∧ a = "retry_qa") →
  a ∈ allowed p.
Proof.
  intros H. apply allowed_base. unfold base_specs, code_lane in *. rewrite !map_app, !elem_of_app.
  destruct H as [[-> H]|[[-> H]|[[Hr ->]|[[-> H]|(-> & Hq & ->)]]]].
  - by left.
  - by right; left.
  - right; right; right; left. rewrite Hr. cbn. set_solver.
  - by do 4 right.
  - right; right; left. rewrite Hq. cbn. set_solver.
Qed.

Lemma build_or_operate_specs p a :
  (has_code p = true ∧ a = "retry_code_review") ∨
  (has_review p && has_code p = true ∧ a = "retry_engineer_remediate") ∨
  (reviewed_clean p = true ∧ a = "retry_devops") →
  review_lane p = true → a ∈ allowed p.
Proof.
  intros Ha Hl. unfold review_lane in Hl. apply orb_true_iff in Hl.
  apply base_specs_parts. destruct Hl as [Hl|Hl]; [right; left|do 3 right; left];
    (split; [done|]); unfold build_specs, operate_specs, remediate_specs;
    rewrite !map_app, !elem_of_app, !offer_actions; naive_solver.
Qed.

(** Where [resume] can recommend an action that is not on offer: a blocked review
    without code to remediate or outside the code phases, an empty workspace outside
    the code phases, and a failed install while a test plan is due. *)
Definition resumable (files : string → dict → Z) (p : project) : bool :=
  (negb (has_meta "code_review_blocked" p) || (has_code p && review_lane p)) &&
  (negb ((files_on_disk files p =? 0) && has_meta "code_files" p && has_meta "sprint_plan_md" p)
   || code_lane p) &&
  (negb (startswith (p_phase p) "verify") || negb (is_False (get "devops_install_ok" (p_meta p)))) &&
  negb (has_meta "recovery_dispatch_in_flight" p).

Lemma pick_blocked_allowed p a :
  has_meta "code_review_blocked" p = true → has_code p = true → review_lane p = true →
  pick_blocked p = Some a → a ∈ allowed p.
Proof.
  unfold pick_blocked. intros Hb Hc Hl. rewrite Hc. intros H.
  apply build_or_operate_specs; [|done]. unfold has_review. rewrite Hb, Hc.
  destruct (fix_loop_exhausted p); simplify_eq; auto.
Qed.

Lemma pick_from_specs_allowed p a : pick_from_specs p = Some a → a ∈ allowed p.
Proof.
  unfold pick_from_specs, allowed. destruct (action_specs p) as [|s l] eqn:E; [done|].
  destruct (List.find _ _) as [b|] eqn:Ef; intros [= <-].
  - apply find_some in Ef as [_ Ef]. by apply in_strs_true in Ef.
  - cbn. set_solver.
Qed.

Lemma startswith_exclusive s p q :
  startswith s p = true → String.prefix p q = false → String.prefix q p = false → startswith s q = false.
Proof.
  unfold startswith. revert p q. induction s as [|c s IH]; intros [|a p] [|b q]; cbn; try done.
  destruct (Ascii.ascii_dec a c) as [->|], (Ascii.ascii_dec b c) as [->|]; try done.
  destruct (Ascii.ascii_dec c c); [|done]. apply IH.
Qed.

Lemma build_is_code_lane p : startswith (p_phase p) "build" = true → code_lane p = true.
Proof. unfold code_lane. by intros ->. Qed.
Lemma code_is_review_lane p : code_lane p = true → review_lane p = true.
Proof. unfold review_lane. by intros ->. Qed.

Lemma pick_by_phase_allowed files p a :
  resumable files p = true → pick_by_phase p = Some a → a ∈ allowed p.
Proof.
  unfold resumable, pick_by_phase. rewrite !andb_true_iff. intros [[[Hblock Hempty] Hqa] Hfree].
  destruct (has_meta "code_review_blocked" p) eqn:Hb.
  { cbn [negb orb] in Hblock. apply andb_true_iff in Hblock as [Hc Hl]. by apply pick_blocked_allowed. }
  destruct (startswith (p_phase p) "build" && _ && _) eqn:H1.
  { intros [= <-]. rewrite !andb_true_iff in H1. destruct H1 as [[Hp Hc] _].
    apply build_or_operate_specs; [left|by apply code_is_review_lane, build_is_code_lane].
    unfold has_code. by rewrite Hc. }
  clear H1. destruct (startswith (p_phase p) "build" && _ && _) eqn:H2.
  { intros [= <-]. rewrite !andb_true_iff in H2. destruct H2 as [[Hp Hc] _].
    apply build_or_operate_specs; [right; right|by apply code_is_review_lane, build_is_code_lane].
    unfold reviewed_clean. by rewrite Hc, Hb. }
  clear H2. destruct (startswith (p_phase p) "build" && _ && _) eqn:H3.
  { intros [= <-]. rewrite !andb_true_iff in H3. destruct H3 as [[Hp Hc] _].
    apply base_specs_parts. right; left. split; [by apply build_is_code_lane|].
    unfold build_specs. rewrite map_app, elem_of_app, offer_actions. auto. }
  clear H3. destruct (startswith (p_phase p) "verify" && _) eqn:H4.
  { intros [= <-]. apply andb_true_iff in H4 as [Hp _]. rewrite Hp in Hqa. cbn [negb orb] in Hqa.
    apply base_specs_parts. do 4 right. rewrite Hp. by apply negb_true_iff in Hqa. }
  destruct (operate_ready p) eqn:H5; [intros [= <-]; apply base_specs_parts; auto 6|].
  destruct (String.eqb (p_phase p) "operate" && _) eqn:H6.
  { intros [= <-]. apply andb_true_iff in H6 as [Hp Hf]. apply base_specs_parts. do 3 right. left.
    split; [done|]. unfold operate_specs. rewrite map_app, elem_of_app, offer_actions, Hf, Hfree. auto. }
  destruct (startswith (p_phase p) "plan" || String.eqb (p_phase p) "intake") eqn:Hplan;
    [|cbn [andb]; apply pick_from_specs_allowed].
  cbn [andb]. repeat (destruct (has_meta _ p && negb _) eqn:Hm;
    [apply andb_true_iff in Hm as [Hm _]; intros [= <-]; apply base_specs_parts; left;
     split; [done|]; unfold plan_specs; rewrite !map_app, !elem_of_app, !offer_actions; auto
    |clear Hm]).
  apply pick_from_specs_allowed.
Qed.

Lemma engineer_allowed p :
  has_meta "sprint_plan_md" p = true → code_lane p = true → "retry_engineer" ∈ allowed p.
Proof.
  intros Hs Hl. apply base_specs_parts. right; left. split; [done|].
  unfold build_specs. rewrite map_app, elem_of_app, offer_actions. auto.
Qed.

(** [resume] only recommends what it can run.  For a project without a dispatch
    on record, outside the three situations [resumable] names, the action
    [_pick_resume_action] picks is one [_action_specs] offers, so the dispatch of a
    resumed action is never refused as not allowed. *)
Theorem pick_resume_allowed files p a :
  resumable files p = true → pick_resume_action files p = Some a → a ∈ allowed p.
Proof.
  intros Hr. unfold pick_resume_action.
  destruct ((files_on_disk files p =? 0) && _) eqn:Hd; [|by eapply pick_by_phase_allowed].
  apply andb_true_iff in Hd as [Hd Hcode]. pose proof Hr as Hr'. unfold resumable in Hr'.
  rewrite !andb_true_iff in Hr'. destruct Hr' as [[[Hblock Hempty] _] _].
  assert (Hlane : has_meta "sprint_plan_md" p = true → code_lane p = true).
  { intros Hs. rewrite Hd, Hs in Hempty. apply orb_true_iff in Hcode as [Hcode|Hcode];
      [rewrite Hcode in Hempty|]; [done|by apply build_is_code_lane]. }
  assert (Hrest : (if has_meta "sprint_plan_md" p then Some "retry_engineer" else pick_by_phase p) = Some a →
                  a ∈ allowed p).
  { destruct (has_meta "sprint_plan_md" p) eqn:Hs; [|by eapply pick_by_phase_allowed].
    intros [= <-]. by apply engineer_allowed; auto. }
  destruct (has_meta "code_review_blocked" p) eqn:Hb; [|exact Hrest].
  destruct (has_meta "code_review_md" p); [|exact Hrest].
  cbn [negb orb] in Hblock. apply andb_true_iff in Hblock as [Hc Hl]. by apply pick_blocked_allowed.
Qed.

(** The three situations do occur: what [resume] picks is then not on offer. *)
(** ** The backlog *)
Lemma backlog_from_spec i l b :
  backlog_from i l = Ok b →
  (∀ j k e, (j, k, e) ∈ b ↔ (i <= j)%nat ∧ l !! (j - i)%nat = Some e ∧ has_status "backlog" e = true ∧ priority_of e = Ok k)
  ∧ StronglySorted (fun x y => (x.1.1 < y.1.1)%nat) b.
Proof.
  revert i b. induction l as [|e l IH]; intros i b; cbn [backlog_from].
  { intros [= <-]. split; [|constructor]. intros j k e. rewrite elem_of_nil, lookup_nil. naive_solver. }
  assert (Hshift : ∀ j k e' , (S i <= j)%nat ∧ l !! (j - S i)%nat = Some e' ∧ has_status "backlog" e' = true ∧ priority_of e' = Ok k ↔
     (S i <= j)%nat ∧ (e :: l) !! (j - i)%nat = Some e' ∧ has_status "backlog" e' = true ∧ priority_of e' = Ok k).
  { intros j k e'. split; intros (Hj & H & ?); (split; [done|split; [|done]]); revert H;
      replace (j - i)%nat with (S (j - S i)) by lia; done. }
  destruct (has_status "backlog" e) eqn:Hb.
  - destruct (priority_of e) as [k0|] eqn:Hk; [|done]. cbn [mbind outcome_bind].
    destruct (backlog_from (S i) l) as [rest|] eqn:Hr; [|done]. intros [= <-].
    destruct (IH _ _ Hr) as [Hin Hsort]. split.
    + intros j k e'. rewrite elem_of_cons, Hin, Hshift. split.
      * intros [[= -> -> ->]|(? & ? & ?)]; [|split; [lia|done]].
        rewrite Nat.sub_diag. split; [lia|]. by split_and!.
      * intros (Hj & Hl & Hs & Hp). destruct (decide (j = i)) as [->|Hne]; [|right; split; [lia|done]].
        left. rewrite Nat.sub_diag in Hl. injection Hl as <-. congruence.
    + constructor; [done|]. apply Forall_forall. intros [[j k] e'] Hx. apply Hin in Hx as [Hx _]. cbn. lia.
  - intros Hr. destruct (IH _ _ Hr) as [Hin Hsort]. split; [|done].
    intros j k e'. rewrite Hin, Hshift. split; [intros (? & ?); split; [lia|done]|].
    intros (Hj & Hl & Hs & Hp). destruct (decide (j = i)) as [->|Hne]; [|split; [lia|done]].
    rewrite Nat.sub_diag in Hl. injection Hl as <-. congruence.
Qed.

(** [x] comes before [y] in the stable sort by priority. *)
Definition before (x y : nat * Z * value) : Prop := x.1.2 < y.1.2 ∨ (x.1.2 = y.1.2 ∧ (x.1.1 <= y.1.1)%nat).

Lemma least_priority_spec best l :
  StronglySorted (fun x y => (x.1.1 < y.1.1)%nat) (best :: l) →
  least_priority best l ∈ best :: l ∧ ∀ y, y ∈ best :: l → before (least_priority best l) y.
Proof.
  revert best. induction l as [|x l IH]; intros best Hs; cbn [least_priority].
  { split; [by constructor|]. intros y ->%list_elem_of_singleton. right. split; [done|lia]. }
  apply StronglySorted_inv in Hs as [Hs Hall]. apply StronglySorted_inv in Hs as [Hs Hall2].
  apply Forall_cons in Hall as [Hbx Hbl].
  destruct (Z.ltb_spec x.1.2 best.1.2) as [Hlt|Hge].
  - destruct (IH x) as [Hin Hb]; [by constructor|]. split; [by right|].
    intros y [->|Hy]%elem_of_cons; [|auto].
    destruct (Hb x) as [?|[? ?]]; [by constructor|left; lia|left; lia].
  - destruct (IH best) as [Hin Hb]; [by constructor|]. split; [set_solver|].
    intros y [->|[->|Hy]%elem_of_cons]%elem_of_cons; [apply Hb; by constructor| |apply Hb; by right].
    destruct (Hb best) as [?|[? ?]]; [by constructor|left; lia|].
    destruct (decide (best.1.2 = x.1.2)); [right; split; lia|left; lia].
Qed.

(** The next feature is the most urgent one.  Promoting the backlog either finds no
    backlog entry and changes nothing, or turns exactly one entry into the requested
    one: an entry of the backlog with the least priority number, the earliest of those
    that share it; every other entry of the list stays as it is. *)
Theorem promote_most_urgent now md requests patch :
  get "feature_requests" md = VList requests →
  promote_next_feature_request_patch now md = Ok patch →
  (patch = [] ∧ ∀ e, e ∈ requests → has_status "backlog" e = false) ∨
  ∃ i e k requests', requests !! i = Some e ∧ has_status "backlog" e = true ∧ priority_of e = Ok k ∧
    (∀ j e' k', requests !! j = Some e' → has_status "backlog" e' = true → priority_of e' = Ok k' →
       k < k' ∨ (k = k' ∧ (i <= j)%nat)) ∧
    get "feature_requests" patch = VList requests' ∧ length requests' = length requests ∧
    (∀ j, j ≠ i → requests' !! j = requests !! j) ∧
    ∃ e', requests' !! i = Some e' ∧ has_status "requested" e' = true.
Proof.
  intros Hl. unfold promote_next_feature_request_patch. rewrite Hl.
  assert (Hlist : list_of (VList requests) = Ok requests) by by destruct requests.
  rewrite Hlist. cbn [mbind outcome_bind].
  destruct (backlog_from 0 requests) as [b|] eqn:Hb; [|done]. cbn [mbind outcome_bind].
  destruct (backlog_from_spec 0 requests b Hb) as [Hin Hsort].
  destruct b as [|x rest].
  - intros [= <-]. left. split; [done|]. intros e He. apply not_true_is_false. intros Hs.
    apply list_elem_of_lookup in He as [j Hj].
    assert (Hp : ∃ k, priority_of e = Ok k).
    { revert Hb. clear -Hj Hs. generalize 0%nat. revert j Hj. induction requests as [|e' l IH]; intros j Hj i; [done|].
      cbn [backlog_from]. destruct j as [|j].
      - injection Hj as ->. rewrite Hs. destruct (priority_of e) as [k|]; [by eexists|done].
      - destruct (has_status "backlog" e'); [|by apply (IH j)].
        destruct (priority_of e'); [|done]. cbn. by destruct (backlog_from _ _). }
    destruct Hp as [k Hk]. assert (Hx : (j, k, e) ∈ ([] : list (nat * Z * value))).
    { apply Hin. rewrite Nat.sub_0_r. split_and!; [lia|done..]. }
    by apply elem_of_nil in Hx.
  - destruct (least_priority_spec x rest Hsort) as [Hmin Hbefore].
    destruct (least_priority x rest) as [[i k] e] eqn:Hlp. intros [= <-]. right.
    apply Hin in Hmin as (_ & Hi & Hs & Hk). rewrite Nat.sub_0_r in Hi.
    eexists i, e, k, _. split_and!; [done..| |reflexivity|apply length_insert| |].
    + intros j e' k' Hj Hs' Hk'. destruct (Hbefore (j, k', e')) as [?|[? ?]]; [|by left|by right].
      apply Hin. rewrite Nat.sub_0_r. split_and!; [lia|done..].
    + intros j Hne. by apply list_lookup_insert_ne.
    + eexists. rewrite list_lookup_insert_eq by (by eapply lookup_lt_Some). split; [done|].
      unfold has_status. cbn [as_dict]. by rewrite !get_set.
Qed.

Definition sample (phase : string) (md : dict) : project :=
  {| p_id := 7; p_uuid := "u"; p_name := "Todo"; p_type := "feature"; p_phase := phase;
     p_status := "active"; p_pipeline := None; p_meta := md |}.

Definition resume_refused (files : Z) (p : project) : bool :=
  match pick_resume_action (fun _ _ => files) p with
  | Some a => negb (in_strs a (allowed p))
  | None => false
  end.

Example blocked_without_code :
  resume_refused 3 (sample "build_in_progress"
    [("sprint_plan_md", VStr "s"); ("code_review_blocked", VBool true)]) = true.
Proof. reflexivity. Qed.
Example operate_workspace_lost :
  resume_refused 0 (sample "operate"
    [("sprint_plan_md", VStr "s"); ("code_intro_md", VStr "i"); ("code_files", VList [VStr "a.py"])]) = true.
Proof. reflexivity. Qed.
Example verify_install_failed :
  resume_refused 3 (sample "verify_in_progress" [("devops_install_ok", VBool false)]) = true.
Proof. reflexivity. Qed.

Lemma pick_resume_allowed_witness :
  "retry_devops" ∈ allowed (sample "build_in_progress"
    [("sprint_plan_md", VStr "s"); ("code_intro_md", VStr "i"); ("code_review_md", VStr "ok")]).
Proof. by apply (pick_resume_allowed (fun _ _ => 4)). Defined.

(** Three features wait; the second and the third share the least priority. *)
Definition backlog_entry (title : string) (priority : Z) : value :=
  VDict [("title", VStr title); ("status", VStr "backlog"); ("priority", VInt priority)].
Definition backlog_list : list value := [backlog_entry "a" 2; backlog_entry "b" 1; backlog_entry "c" 1].
Definition promoted_patch : dict :=
  match promote_next_feature_request_patch 0 [("feature_requests", VList backlog_list)] with
  | Ok patch => patch
  | Raise _ => []
  end.

Lemma promote_most_urgent_witness :
  ∃ requests' e', get "feature_requests" promoted_patch = VList requests' ∧
    requests' !! 1%nat = Some e' ∧ has_status "requested" e' = true ∧ requests' !! 2%nat = backlog_list !! 2%nat.
Proof.
  destruct (promote_most_urgent 0 [("feature_requests", VList backlog_list)] backlog_list promoted_patch)
    as [[_ H]|(i & e & k & l & Hi & Hs & Hk & Hmin & Hl & Hlen & Hrest & e' & He' & Hreq)];
    [reflexivity|vm_compute; reflexivity| |].
  - specialize (H (backlog_entry "a" 2) (list_elem_of_here _ _)). discriminate.
  - assert (i = 1)%nat as ->.
    { destruct i as [|[|[|i]]]; [|done| |done].
      - injection Hi as <-. injection Hk as <-.
        destruct (Hmin 1%nat (backlog_entry "b" 1) 1) as [?|[? ?]]; [reflexivity..|lia|lia].
      - injection Hi as <-. injection Hk as <-.
        destruct (Hmin 1%nat (backlog_entry "b" 1) 1) as [?|[? ?]]; [reflexivity..|lia|lia]. }
    exists l, e'. split_and!; [done..|]. by apply Hrest.
Defined.

End FixLoop.
