(* ===== verification/Orchestrate.v ===== *)
(** Dispatching a role and posting the card its result asks for.

    [shared/api/routes/_role_dispatch_bridge.py] maps the kind of an acked card to a
    role call; [_orchestrate_hub_role] and its companions in
    [shared/api/routes/_post_ack.py] run that call and put the next approval card on
    the decision queue.  A remediation pass counts one iteration and runs the review
    again; a blocked review schedules the next pass while the counter allows it. *)

From S2P Require Import Prelude PyValue Datetime Decisions Hub FixLoop.
From Stdlib Require Import Ascii.
Local Open Scope Z_scope.

Module Orchestrate.
Import Hub FixLoop.
Local Open Scope proc_scope.

(** * Role dispatch: [_role_dispatch_bridge.py] *)
Definition SUBSYSTEM_TOOLS : list (string * string) :=
  [("plan", "plan_dispatch"); ("build", "build_dispatch"); ("verify", "verify_hub_review")].

Record RoleDispatchSpec := { subsystem : string; role : string; directive : string }.

Definition spec_of (s r d : string) : RoleDispatchSpec :=
  {| subsystem := s; role := r; directive := d |}.

Definition KIND_ROLE_DISPATCH : list (string * RoleDispatchSpec) :=
  [("prd_approval", spec_of "plan" "planner" "PRODUCE_ROADMAP");
   ("roadmap_approval", spec_of "plan" "architect" "PRODUCE_TRD");
   ("trd_approval", spec_of "plan" "conductor" "PRODUCE_SPRINT_PLAN");
   ("sprint_plan_approval", spec_of "build" "engineer" "PRODUCE_CODE");
   ("code_approval", spec_of "verify" "auditor" "CODE_REVIEW");
   ("code_review_pass", spec_of "build" "devops" "INSTALL_AND_SMOKE");
   ("code_review_blocked", spec_of "build" "engineer" "REMEDIATE_FROM_REVIEW");
   ("security_review_blocked", spec_of "build" "engineer" "REMEDIATE_FROM_REVIEW");
   ("devops_approval", spec_of "plan" "qa" "PRODUCE_TEST_PLAN");
   ("qa_approval", spec_of "plan" "release_manager" "PRODUCE_RELEASE_GATE");
   ("local_deploy_prompt", spec_of "build" "devops_release" "DEPLOY_LOCAL");
   ("feature_request", spec_of "build" "engineer" "PRODUCE_FEATURE")].

Record RoleDispatchResult := {
  rd_ok : bool;
  rd_directive_id : string;
  rd_tool : string;
  rd_data : dict;
  rd_error : option string
}.

Section WithEnv.
Context (E : env).

Definition load_pipeline_version (pid : string) : handler string :=
  up <- pgets pool;;
  if negb up then pret (e_pipeline_version E) else
  statement;;
  p <- pgets (fun h => find_project pid (projects h));;
  pret (match p with
        | Some p => match p_pipeline p with Some v => v | None => "1" end
        | None => "1"
        end).

(** [_record_route_history]: best effort, its exceptions are swallowed. *)
Definition record_route_history (pid r : string) : handler unit :=
  up <- pgets pool;;
  if negb up then pret tt else
  try_except
    (statement;;
     p <- pgets (fun h => find_project pid (projects h));;
     match p with
     | None => pret tt
     | Some p =>
         statement;;
         pmodify (fun h => set_route_history (route_history h ++ [(p_id p, p_phase p, r, now h)]) h)
     end)
    (fun _ => pret tt).

Definition build_payload (tool pid r d version actor : string) (extra_context : option string) : dict :=
  [("project_id", VStr pid); ("role", VStr r); ("directive", VStr d);
   ("pipeline_version", VStr version); ("actor", VStr actor)]
  ++ (if String.eqb tool "plan_dispatch" then [("phase", VStr "plan_in_progress")] else [])
  ++ match extra_context with Some c => [("extra_context", VStr c)] | None => [] end.

(** The knowledge-graph block is appended to the caller's context. *)
Definition with_kg (kg : option string) (extra : option string) : option string :=
  match kg with
  | None => extra
  | Some block =>
      if String.eqb block "" then extra
      else match extra with
           | Some prev => if String.eqb prev "" then Some block
                          else Some (strip (prev +:+ newline +:+ newline +:+ block))
           | None => Some block
           end
  end.

(** [raw.get("error") or {}], its message or its text. *)
Definition error_message (raw : dict) : string :=
  let m := match py_or (get "error" raw) (VDict []) with
           | VDict d => get "message" d
           | v => VStr (py_str v)
           end in
  py_str (py_or m (VStr "dispatch failed")).

Definition directive_id_of (fresh : string) (data : dict) : string :=
  py_str (py_or (get "directive_id" data) (VStr ("dir_" +:+ take_text 12 fresh))).

(** The call of a role: the outside world answers, and what the role wrote to the
    project's metadata is merged before the answer is looked at. *)
Definition call_role (pid kind tool : string) (payload : dict) : handler dict :=
  n <- tick;;
  pmodify (fun h => set_dispatched (dispatched h ++ [(pid, kind)]) h);;
  match e_role E n tool payload with
  | RoleRaises m => praise (RoleError m)
  | RoleReturns raw patch =>
      pmodify (fun h => set_projects (update_rows pid (merge_meta patch) (projects h)) h);;
      pret raw
  end.

Definition dispatch_role_for_kind (kind pid actor : string) (extra : option string)
    : handler (option RoleDispatchResult) :=
  match dict_lookup kind KIND_ROLE_DISPATCH with
  | None => pret None
  | Some spec =>
      match dict_lookup (subsystem spec) SUBSYSTEM_TOOLS with
      | None =>
          n <- tick;;
          pret (Some {| rd_ok := false; rd_directive_id := "dir_" +:+ take_text 12 (e_uuid E n);
                        rd_tool := ""; rd_data := [];
                        rd_error := Some ("no MCP tool for subsystem " +:+ subsystem spec) |})
      | Some tool =>
          version <- load_pipeline_version pid;;
          n <- tick;;
          let payload := build_payload tool pid (role spec) (directive spec) version actor
                           (with_kg (e_kg E n pid) extra) in
          raw <- call_role pid kind tool payload;;
          let data := dict_of (get "data" raw) in
          m <- tick;;
          let did := directive_id_of (e_uuid E m) data in
          if is_str (get "status" raw) "ok" then
            record_route_history pid (role spec);;
            pret (Some {| rd_ok := true; rd_directive_id := did; rd_tool := tool;
                          rd_data := data; rd_error := None |})
          else
            pret (Some {| rd_ok := false; rd_directive_id := did; rd_tool := tool;
                          rd_data := data; rd_error := Some (error_message raw) |})
      end
  end.

(** * The next card: [_orchestrate_hub_role] *)
Definition ACK_CARD_META : list (string * (string * string)) :=
  [("prd_approval", ("roadmap_approval", PHASE_PLAN_IN_PROGRESS));
   ("roadmap_approval", ("trd_approval", PHASE_PLAN_IN_PROGRESS));
   ("trd_approval", ("sprint_plan_approval", PHASE_PLAN_IN_PROGRESS));
   ("devops_approval", ("qa_approval", PHASE_VERIFY_IN_PROGRESS));
   ("qa_execution", ("qa_approval", PHASE_VERIFY_IN_PROGRESS));
   ("qa_approval", ("release_gate_approval", PHASE_RELEASED))].

Definition opt_value (o : option string) : value :=
  match o with Some s => VStr s | None => VNone end.

Definition nl2 : string := newline +:+ newline.
Definition approval_actions : list string := ["ack"; "reject"].

(** [increment_code_fix_iteration]. *)
Definition increment_code_fix_iteration (uuid : string) : handler Z :=
  p <- load_project_full uuid;;
  match p with
  | None => pret 0
  | Some p =>
      let next := code_fix_iteration_count (p_meta p) + 1 in
      persist_metadata_patch uuid [("code_fix_iteration", VInt next)];;
      pret next
  end.

(** [schedule_auto_engineer_remediate]: at most one scheduler per project. *)
Definition schedule_auto_engineer_remediate (pid actor : string) : handler unit :=
  seen <- pgets (fun h => in_strs pid (auto_scheduled h));;
  if seen then pret tt
  else pmodify (fun h => set_auto_scheduled (pid :: auto_scheduled h) h);;
       spawn (TAutoRemediate pid actor 1).

(** Branch of a failed call. *)
Definition role_failed_card (p : project) (spec : RoleDispatchSpec) (kind err : string) : card_kwargs :=
  let retry := retry_action_for_dispatch_kind kind in
  {| k_class := "approval"; k_project := p_uuid p;
     k_title := upper (role spec) +:+ " role FAILED — " +:+ p_name p;
     k_body := "Orchestrator dispatch to **" +:+ role spec +:+ "** failed." +:+ nl2 +:+
       "**Error:** `" +:+ err +:+ "`" +:+ nl2 +:+
       match retry with
       | Some a => "Use **Pipeline controls** on the project workspace, or ack this card to retry `"
                   +:+ a +:+ "`."
       | None => "Use **Pipeline controls** on the project workspace to pick a recovery action."
       end;
     k_severity := Decisions.Critical; k_actions := approval_actions;
     k_meta := [("kind", VStr "role_failure"); ("project_uuid", VStr (p_uuid p));
                ("project_name", VStr (p_name p)); ("failed_role", VStr (role spec));
                ("failed_dispatch_kind", VStr kind); ("error_message", VStr err);
                ("retry_action", opt_value retry)] |}.

Definition orchestrate_failure (p : project) (spec : RoleDispatchSpec) (kind : string)
    (error : option string) : handler unit :=
  let err := take_text 500 (match error with
                            | Some e => Decisions.str_or e "unknown" | None => "unknown" end) in
  emit "role_failed" (p_uuid p) (role spec)
    [("error", VStr (match error with Some e => Decisions.str_or e "dispatch failed"
                     | None => "dispatch failed" end))];;
  persist_metadata_patch (p_uuid p)
    [("last_role_failure",
      VDict [("role", VStr (role spec)); ("dispatch_kind", VStr kind); ("error", VStr err);
             ("retry_action", opt_value (retry_action_for_dispatch_kind kind))])];;
  enqueue E (role_failed_card p spec kind err).

(** [data.get("extra") or {}]. *)
Definition extra_of (data : dict) : outcome exn dict :=
  if truthy (get "extra" data) then
    match get "extra" data with VDict d => Ok d | _ => Raise TypeError end
  else Ok [].

Definition py_len (v : value) : outcome exn Z :=
  match v with
  | VStr s => Ok (Z.of_nat (text_length s))
  | VList l => Ok (Z.of_nat (length l))
  | VDict d => Ok (Z.of_nat (length d))
  | _ => Raise TypeError
  end.

(** [f"{n:,}"] for [n >= 0]. *)
Fixpoint group_thousands (fuel : nat) (n : Z) : string :=
  match fuel with
  | O => ""
  | S fuel' => if n <? 1000 then str_of_Z n
               else group_thousands fuel' (n / 1000) +:+ "," +:+ pad 3 (n mod 1000) ""
  end.
Definition thousands (n : Z) : string := group_thousands (S (Z.to_nat n)) n.

Definition unpack2 (v : value) : outcome exn (value * value) :=
  l ← list_of v;
  match l with [a; b] => Ok (a, b) | _ => Raise ValueError end.

Fixpoint tree_lines (l : list value) : outcome exn (list string) :=
  match l with
  | [] => Ok []
  | x :: l' =>
      pc ← unpack2 x; n ← py_len pc.2; rest ← tree_lines l';
      Ok (("  - `" +:+ py_str pc.1 +:+ "` (" +:+ thousands n +:+ " bytes)") :: rest)
  end.

(** Pure steps that may raise, inside a handler. *)
Definition lift {A} (o : outcome exn A) : handler A :=
  match o with Ok a => pret a | Raise e => praise e end.

Definition get_default (k : string) (default : value) (d : dict) : value :=
  match dict_lookup k d with Some v => v | None => default end.

(** Title and body of the engineer's code card. *)
Definition code_card_text (p : project) (extra : dict) : outcome exn (string * string) :=
  let files := get_default "files_written" (VInt 0) extra in
  let run_block := get_default "run_block" (VStr "") extra in
  tree ← list_of (get "file_tree" extra);
  lines ← tree_lines tree;
  let tree_md := match lines with [] => "  _(no files parsed)_" | _ => join newline lines end in
  Ok ("Approve CODE output — " +:+ p_name p,
      "The engineer role generated **" +:+ py_str files +:+ "** files via orchestrator. " +:+
      "Approve to run security review." +:+ nl2 +:+
      "Review files in the project workspace; full engineer intro is in metadata." +:+ nl2 +:+
      "## Generated files" +:+ nl2 +:+ tree_md +:+ nl2 +:+
      "## Local run" +:+ nl2 +:+ "```bash" +:+ newline +:+
      py_str (py_or run_block (VStr "# (no RUN block)")) +:+ newline +:+ "```").

Definition devops_card_text (p : project) (extra : dict) (artifact : value) : string * string :=
  let ok := truthy (get_default "install_ok" (VBool true) extra) in
  ("DevOps stand-up — " +:+ p_name p,
   "DevOps ran install via orchestrator." +:+ nl2 +:+ "**Status:** " +:+
   (if ok then "✅ install completed cleanly" else "❌ install FAILED") +:+ nl2 +:+
   "## Install log" +:+ nl2 +:+ "```" +:+ newline +:+ py_str artifact +:+ newline +:+ "```").

Definition role_card_text (p : project) (r target : string) (artifact : value) : string * string :=
  ("Approve " +:+ upper r +:+ " output — " +:+ p_name p,
   "The " +:+ r +:+ " role produced this artifact (orchestrator dispatch). " +:+
   "Approve to advance to **" +:+ phase_bucket target +:+ "** and dispatch the next role." +:+ nl2 +:+
   "---" +:+ nl2 +:+ py_str artifact).

(** What every successful branch that posts a card shares. *)
Definition artifact_of (data : dict) : value := py_or (get "artifact_md" data) (VStr "").
Definition artifact_key_of (data : dict) : value := py_or (get "artifact_key" data) (VStr "").

Definition emit_artifact (p : project) (r : string) (data : dict) : handler unit :=
  n <- lift (py_len (artifact_of data));;
  emit "role_finished" (p_uuid p) r
    [("artifact_key", artifact_key_of data); ("artifact_chars", VInt n)].

(** The metadata keys common to the approval cards of a role's result. *)
Definition result_meta (p : project) (kind : value) (advances : option string) (r : string)
    (result : RoleDispatchResult) (more : dict) : dict :=
  [("kind", kind); ("project_name", VStr (p_name p)); ("project_uuid", VStr (p_uuid p))]
  ++ match advances with Some t => [("advances_phase_to", VStr t)] | None => [] end
  ++ [("produced_by", VStr r); ("directive_id", VStr (rd_directive_id result));
      ("orchestrator_tool", VStr (rd_tool result))] ++ more.

(** The branch [card_kind in ("code_review_pass", "code_review_blocked")]. *)
Definition orchestrate_review (p : project) (r actor : string) (blocked : bool)
    (result : RoleDispatchResult) : handler unit :=
  let data := rd_data result in
  let uuid := p_uuid p in
  let artifact := artifact_of data in
  let note := if truthy (get "used_tron" data) then " (TRON verify_audit)" else "" in
  let title := (if blocked then "Code review BLOCKED — " else "Code review PASS — ") +:+ p_name p in
  let body :=
    if blocked then "Verify found critical/high issues" +:+ note +:+
      ". Approve to send engineer back with these findings." +:+ nl2 +:+ "---" +:+ nl2 +:+ py_str artifact
    else "No critical/high findings" +:+ note +:+
      ". Approve to advance to **devops install + smoke**." +:+ nl2 +:+ "---" +:+ nl2 +:+ py_str artifact in
  let severity := if blocked then Decisions.Critical else Decisions.Info in
  n <- lift (py_len artifact);;
  emit "role_finished" uuid r [("artifact_chars", VInt n)];;
  persist_metadata_patch uuid [("code_review_md", artifact); ("code_review_blocked", VBool blocked)];;
  auto <- (if blocked then
             reloaded <- load_project_full uuid;;
             match reloaded with
             | Some q =>
                 if fix_loop_exhausted q then pret false
                 else schedule_auto_engineer_remediate uuid actor;; pret true
             | None => pret false
             end
           else pret false);;
  if blocked && auto then
    text <- lift (concat_str ("Verify found critical/high issues" +:+ note +:+
              ". Engineer remediation was started automatically." +:+ nl2 +:+ "---" +:+ nl2) artifact);;
    enqueue E {| k_class := "briefing"; k_project := uuid; k_title := title; k_body := text;
                 k_severity := severity; k_actions := ["ack"];
                 k_meta := [("kind", VStr "security_review_blocked"); ("project_name", VStr (p_name p));
                            ("project_uuid", VStr uuid); ("produced_by", VStr r)] |}
  else
    enqueue E {| k_class := "approval"; k_project := uuid; k_title := title; k_body := body;
                 k_severity := severity; k_actions := approval_actions;
                 k_meta := result_meta p
                   (VStr (if blocked then "code_review_blocked" else "code_review_pass")) None r result
                   [("used_tron", VBool (truthy (get "used_tron" data)))] |}.

(** The branch [card_kind == "qa_approval" and kind == "qa_execution"]. *)
Definition orchestrate_qa_execution (p : project) (r target : string) (result : RoleDispatchResult)
    : handler unit :=
  let data := rd_data result in
  extra <- lift (extra_of data);;
  let passed := get_default "all_passed" (VBool false) extra in
  let ok := truthy passed in
  emit_artifact p r data;;
  enqueue E {| k_class := "approval"; k_project := p_uuid p;
               k_title := "QA execution — " +:+ p_name p;
               k_body := "QA ran sprint-plan acceptance checks against the engineer RUN block." +:+ nl2 +:+
                 "**Status:** " +:+ (if ok then "✅ QA execution PASS" else "❌ QA execution FAIL") +:+ nl2 +:+
                 "---" +:+ nl2 +:+ py_str (artifact_of data);
               k_severity := if ok then Decisions.Info else Decisions.Critical;
               k_actions := approval_actions;
               k_meta := result_meta p (VStr "qa_approval") (Some target) r result
                 [("qa_execution_ok", passed)] |}.

(** Title and body of the remaining cards. *)
Definition card_text (p : project) (r target : string) (card_kind : value) (data : dict)
    : outcome exn (string * string) :=
  if is_str card_kind "code_approval" then extra ← extra_of data; code_card_text p extra
  else if is_str card_kind "devops_approval" then
    extra ← extra_of data; Ok (devops_card_text p extra (artifact_of data))
  else Ok (role_card_text p r target (artifact_of data)).

Definition orchestrate_card (p : project) (r target : string) (card_kind : value)
    (result : RoleDispatchResult) : handler unit :=
  text <- lift (card_text p r target card_kind (rd_data result));;
  emit_artifact p r (rd_data result);;
  enqueue E {| k_class := "approval"; k_project := p_uuid p; k_title := text.1; k_body := text.2;
               k_severity := Decisions.Info; k_actions := approval_actions;
               k_meta := result_meta p card_kind (Some target) r result [] |}.

(** The branch [result_kind == "deploy" or kind == "local_deploy_prompt"]. *)
Definition orchestrate_deploy (p : project) (r kind actor : string) (data : dict) : handler unit :=
  if String.eqb kind "operate_kickoff" then
    (if truthy (get "operate_started_at" (dict_of (get "extra" data)))
     then advance_lifecycle_phase E (p_uuid p) PHASE_OPERATE actor true;; pret tt else pret tt);;
    emit "role_finished" (p_uuid p) r [("message", VStr "operate runner finished via orchestrator")]
  else
    emit "role_finished" (p_uuid p) r [("message", VStr "local deploy dispatched via orchestrator")].

Record orchestrate_args := {
  oa_kind : string; oa_project : project; oa_actor : string;
  oa_card : option string; oa_next_phase : option string; oa_extra : option string
}.

Definition card_kind_of (a : orchestrate_args) (r : string) (data : dict) : value :=
  py_or (opt_value (oa_card a))
    (py_or (py_or (get "result_kind" data) (opt_value (oa_card a))) (VStr (r +:+ "_approval"))).

Definition target_phase_of (a : orchestrate_args) : string :=
  let meta_phase := match dict_lookup (oa_kind a) ACK_CARD_META with Some m => m.2 | None => "" end in
  Decisions.str_or (match oa_next_phase a with Some t => t | None => "" end)
    (Decisions.str_or meta_phase (phase_bucket PHASE_PLAN_IN_PROGRESS)).

(** After a successful call.  [rerun] runs the security review on the reloaded
    project: the recursive call of the code, on kind [code_approval]. *)
Definition orchestrate_success (rerun : project → handler unit) (a : orchestrate_args)
    (r : string) (result : RoleDispatchResult) : handler unit :=
  let p := oa_project a in
  let kind := oa_kind a in
  let data := rd_data result in
  let result_kind := py_or (get "result_kind" data) (opt_value (oa_card a)) in
  let card_kind := card_kind_of a r data in
  let target := target_phase_of a in
  if is_str result_kind "deploy" || String.eqb kind "local_deploy_prompt" then
    orchestrate_deploy p r kind (oa_actor a) data
  else if is_str card_kind "code_approval" && String.eqb kind "code_review_blocked" then
    increment_code_fix_iteration (p_uuid p);;
    emit "role_finished" (p_uuid p) r
      [("message", VStr "remediation complete — re-running security review")];;
    reloaded <- load_project_full (p_uuid p);;
    match reloaded with Some q => rerun q | None => pret tt end
  else if is_str card_kind "code_review_pass" then
    orchestrate_review p r (oa_actor a) false result
  else if is_str card_kind "code_review_blocked" then
    orchestrate_review p r (oa_actor a) true result
  else if is_str card_kind "qa_approval" && String.eqb kind "qa_execution" then
    orchestrate_qa_execution p r target result
  else orchestrate_card p r target card_kind result.

(** [True]: handled, with a card of success or failure.  [False]: no mapping. *)
Definition orchestrate_with (rerun : project → handler unit) (a : orchestrate_args) : handler bool :=
  match dict_lookup (oa_kind a) KIND_ROLE_DISPATCH with
  | None => pret false
  | Some spec =>
      let uuid := p_uuid (oa_project a) in
      emit "role_started" uuid (role spec)
        [("message", VStr (role spec +:+ " role dispatched via orchestrator…"))];;
      result <- dispatch_role_for_kind (oa_kind a) uuid (oa_actor a) (oa_extra a);;
      match result with
      | None => pret false
      | Some result =>
          (if rd_ok result then orchestrate_success rerun a (role spec) result
           else orchestrate_failure (oa_project a) spec (oa_kind a) (rd_error result));;
          pret true
      end
  end.

(** [_enqueue_orchestrator_gap]. *)
Definition enqueue_orchestrator_gap (kind : string) (p : project) (expected_role : option string)
    : handler unit :=
  let spec := dict_lookup kind KIND_ROLE_DISPATCH in
  let r := match expected_role with
           | Some r => r
           | None => match spec with Some s => role s | None => "unknown" end
           end in
  let mapped := match spec with Some _ => true | None => false end in
  let reason := if mapped
                then "Orchestrator dispatch returned no result for `" +:+ kind +:+ "` → **" +:+ r +:+ "**."
                else "No orchestrator mapping for ack kind `" +:+ kind +:+ "`." in
  emit "role_failed" (p_uuid p) r [("error", VStr reason)];;
  enqueue E {| k_class := "approval"; k_project := p_uuid p;
               k_title := "Orchestrator gap — " +:+ p_name p;
               k_body := "The approval chain stopped because Spine could not dispatch via the " +:+
                 "orchestrator bridge." +:+ nl2 +:+ "**Ack kind:** `" +:+ kind +:+ "`" +:+ newline +:+
                 "**Expected role:** `" +:+ r +:+ "`" +:+ nl2 +:+ "**Reason:** " +:+ reason +:+ nl2 +:+
                 "Inline LLM fallback is disabled. Wire the bridge or fix MCP dispatch, " +:+
                 "then re-ack the upstream card.";
               k_severity := Decisions.Critical; k_actions := approval_actions;
               k_meta := [("kind", VStr "orchestrator_gap"); ("project_uuid", VStr (p_uuid p));
                          ("project_name", VStr (p_name p)); ("ack_kind", VStr kind);
                          ("expected_role", VStr r); ("bridge_mapped", VBool mapped)] |}.

Definition require_with (rerun : project → handler unit) (a : orchestrate_args)
    (expected_role : option string) : handler bool :=
  handled <- orchestrate_with rerun a;;
  (if handled then pret tt else enqueue_orchestrator_gap (oa_kind a) (oa_project a) expected_role);;
  pret handled.

(** The review that follows a remediation.  Its kind is [code_approval], so it never
    takes the branch that reruns a review. *)
Definition review_args (actor : string) (p : project) : orchestrate_args :=
  {| oa_kind := "code_approval"; oa_project := p; oa_actor := actor; oa_card := None;
     oa_next_phase := None; oa_extra := None |}.

Definition rerun_review (actor : string) (p : project) : handler unit :=
  require_with (fun _ => pret tt) (review_args actor p) (Some "verify");; pret tt.

Definition orchestrate_hub_role (a : orchestrate_args) : handler bool :=
  orchestrate_with (rerun_review (oa_actor a)) a.

Definition require_orchestrate_hub_role (a : orchestrate_args) (expected_role : option string)
    : handler bool :=
  require_with (rerun_review (oa_actor a)) a expected_role.

End WithEnv.
End Orchestrate.
