(* ===== verification/Recovery.v ===== *)
(** Recovery dispatches: the effectful part of
    [shared/api/routes/_project_recovery.py].

    A dispatch marks the project with [recovery_dispatch_in_flight], starts a
    background worker and returns; the worker runs the role, posts the card and
    clears the mark whatever happened.  The automatic loop remediates a blocked
    security review until it passes or the counter reaches its limit. *)

From S2P Require Import Prelude PyValue Datetime Decisions Hub FixLoop Orchestrate.
From Stdlib Require Import Ascii.
Local Open Scope Z_scope.

Module Recovery.
Import Hub FixLoop Orchestrate.
Local Open Scope proc_scope.

(** * Pending decisions of a project *)
Definition project_card_keys (p : project) : list string :=
  (if String.eqb (p_uuid p) "" then [] else [p_uuid p]) ++ [str_of_Z (p_id p)].

(** The keys a card is indexed under. *)
Definition card_keys (c : Decisions.DecisionCard) : list string :=
  match Decisions.project_id c with
  | Some s => if String.eqb s "" then [] else [s]
  | None => []
  end ++
  match get "project_uuid" (Decisions.metadata c) with VNone => [] | v => [py_str v] end.

Abbreviation index := (gmap string (gset string)).

Definition index_get (k : string) (i : index) : gset string := default ∅ (i !! k).

(** [index.setdefault(key, set()).add(decision_id)]. *)
Definition index_add (did : string) (i : index) (k : string) : index :=
  <[k := {[did]} ∪ index_get k i]> i.

Definition index_card (i : index) (c : Decisions.DecisionCard) : index :=
  if Decisions.is_project_decision_card c
  then fold_left (index_add (Decisions.decision_id c)) (card_keys c) i else i.

Definition build_index (cards : list Decisions.DecisionCard) : index := fold_left index_card cards ∅.

Definition build_pending_decision_index : handler index :=
  items <- on_store (Decisions.alist (Some Decisions.Pending));;
  pret (build_index items).

(** The union over the project's keys: a card under both keys counts once. *)
Definition pending_ids (keys : list string) (i : index) : gset string :=
  fold_left (fun acc k => acc ∪ index_get k i) keys ∅.

Definition pending_count_for_project (p : project) (i : index) : nat :=
  size (pending_ids (project_card_keys p) i).

(** A card counts for the project when it is a project card filed under the project's
    uuid or under its number. *)
Definition counts_for (keys : list string) (c : Decisions.DecisionCard) : bool :=
  Decisions.is_project_decision_card c && existsb (fun k => in_strs k keys) (card_keys c).

Lemma index_get_add did i k k' :
  index_get k' (index_add did i k) = (if String.eqb k k' then {[did]} else ∅) ∪ index_get k' i.
Proof.
  unfold index_get, index_add. destruct (String.eqb_spec k k') as [->|Hne].
  - by rewrite lookup_insert_eq.
  - rewrite lookup_insert_ne by done. set_solver.
Qed.

Lemma index_get_adds did ks i x k :
  x ∈ index_get k (fold_left (index_add did) ks i) ↔ (x = did ∧ k ∈ ks) ∨ x ∈ index_get k i.
Proof.
  revert i. induction ks as [|k' ks IH]; intros i; cbn; [set_solver|].
  rewrite IH, index_get_add, elem_of_union, elem_of_cons. destruct (String.eqb_spec k' k); set_solver.
Qed.

Lemma index_get_build cards i x k :
  x ∈ index_get k (fold_left index_card cards i) ↔
  (∃ c, c ∈ cards ∧ Decisions.is_project_decision_card c = true ∧ k ∈ card_keys c ∧ x = Decisions.decision_id c)
  ∨ x ∈ index_get k i.
Proof.
  revert i. induction cards as [|c cards IH]; intros i; cbn; [set_solver|]. rewrite IH.
  assert (Hc : x ∈ index_get k (index_card i c) ↔
    (Decisions.is_project_decision_card c = true ∧ k ∈ card_keys c ∧ x = Decisions.decision_id c) ∨ x ∈ index_get k i).
  { unfold index_card. destruct (Decisions.is_project_decision_card c); [|naive_solver].
    rewrite index_get_adds. naive_solver. }
  rewrite Hc. split.
  - intros [(c' & Hin & Hx)|[Hx|Hx]]; [left; exists c'|left; exists c|by right]; by rewrite elem_of_cons; auto.
  - intros [(c' & [->|Hin]%elem_of_cons & Hx)|Hx]; naive_solver.
Qed.

Lemma pending_ids_elem keys i acc x :
  x ∈ fold_left (fun acc k => acc ∪ index_get k i) keys acc ↔ x ∈ acc ∨ ∃ k, k ∈ keys ∧ x ∈ index_get k i.
Proof.
  revert acc. induction keys as [|k keys IH]; intros acc; cbn; [set_solver|].
  rewrite IH. set_solver.
Qed.

(** The number of pending decisions of a project, which every guard of the
    recovery code reads, is the number of different decision ids among the cards that
    are filed under one of the project's keys: a card filed under both its keys, or
    listed twice, counts once, and the hub's own briefings never count. *)
Theorem pending_count_spec p cards :
  pending_count_for_project p (build_index cards) =
  size (list_to_set (map Decisions.decision_id
          (List.filter (counts_for (project_card_keys p)) cards)) : gset string).
Proof.
  unfold pending_count_for_project, pending_ids. f_equal. apply set_eq. intros x.
  rewrite pending_ids_elem, elem_of_list_to_set, list_elem_of_In, in_map_iff. unfold build_index.
  assert (Hb : ∀ c, counts_for (project_card_keys p) c = true ↔
    Decisions.is_project_decision_card c = true ∧ ∃ k, k ∈ card_keys c ∧ k ∈ project_card_keys p).
  { intros c. unfold counts_for. rewrite andb_true_iff, existsb_elem. by setoid_rewrite in_strs_true. }
  setoid_rewrite filter_In. setoid_rewrite <- list_elem_of_In. setoid_rewrite Hb.
  setoid_rewrite index_get_build. split.
  - intros [Hx|(k & Hk & [(c & Hc & Hp & Hkc & ->)|Hx])]; [set_solver|exists c; naive_solver|].
    unfold index_get in Hx. rewrite lookup_empty in Hx. set_solver.
  - intros (c & <- & Hc & Hp & k & Hkc & Hk). right. exists k. split; [done|]. left. by exists c.
Qed.

Section WithEnv.
Context (E : env).

Definition count_pending_for_project (p : project) : handler nat :=
  i <- build_pending_decision_index;; pret (pending_count_for_project p i).

(** * Status and pulses *)
Record recovery_snapshot := {
  rs_uuid : string; rs_phase : string; rs_pending : nat; rs_stuck : bool; rs_reasons : list string;
  rs_last_failure : value; rs_in_flight : value; rs_files : Z; rs_actions : list action_spec;
  rs_recommended : option string; rs_iteration : Z; rs_exhausted : bool; rs_blocked : bool;
  rs_code_files : Z
}.

(** [code_files_count], or the length of [code_files]. *)
Definition code_files_count (md : dict) : Z :=
  match get "code_files_count" md with
  | VInt n => n
  | VBool b => if b then 1 else 0
  | _ => match get "code_files" md with VList l => Z.of_nat (length l) | _ => 0 end
  end.

Definition snapshot (p : project) (pending : nat) (inflight : value) : recovery_snapshot :=
  {| rs_uuid := p_uuid p; rs_phase := p_phase p; rs_pending := pending;
     rs_stuck := is_stuck (e_files E) p pending;
     rs_reasons := stuck_reasons (e_files E) p pending;
     rs_last_failure := get "last_role_failure" (p_meta p); rs_in_flight := inflight;
     rs_files := files_on_disk (e_files E) p; rs_actions := action_specs p;
     rs_recommended := pick_resume_action (e_files E) p;
     rs_iteration := code_fix_iteration_count (p_meta p);
     rs_exhausted := fix_loop_exhausted p;
     rs_blocked := truthy (get "code_review_blocked" (p_meta p));
     rs_code_files := code_files_count (p_meta p) |}.

Definition strs (l : list string) : value := VList (map VStr l).

Definition pulse_fields (s : recovery_snapshot) : dict :=
  [("stuck", VBool (rs_stuck s)); ("reasons", strs (rs_reasons s));
   ("pending_decisions", VInt (Z.of_nat (rs_pending s)));
   ("recommended_action", opt_value (rs_recommended s));
   ("last_role_failure", rs_last_failure s); ("dispatch_in_flight", rs_in_flight s);
   ("actions", VList (map (fun a => VDict [("action", VStr (as_action a)); ("label", VStr (as_label a));
                                          ("description", VStr (as_description a))]) (rs_actions s)));
   ("code_fix_iteration", VInt (rs_iteration s));
   ("max_code_fix_iterations", VInt MAX_CODE_FIX_ITERATIONS);
   ("fix_loop_exhausted", VBool (rs_exhausted s)); ("current_phase", VStr (rs_phase s));
   ("workspace_files_on_disk", VInt (rs_files s)); ("code_review_blocked", VBool (rs_blocked s));
   ("code_files_count", VInt (rs_code_files s))].

(** The write of [_reap_stale_dispatch_inflight]. *)
Definition clear_in_flight (uuid : string) : handler unit :=
  persist_metadata_patch uuid [("recovery_dispatch_in_flight", VNone)].

Definition is_stale (t : datetime) (p : project) : bool :=
  let inflight := get "recovery_dispatch_in_flight" (p_meta p) in
  truthy inflight && dispatch_in_flight_stale t inflight.

(** [recovery_status], given the reaper it calls; [None]: no such project. *)
Definition recovery_status_with (reap : project → handler bool) (pid : string)
    : handler (option recovery_snapshot) :=
  p <- load_project_full pid;;
  match p with
  | None => pret None
  | Some p =>
      i <- build_pending_decision_index;;
      reaped <- reap p;;
      pret (Some (snapshot p (pending_count_for_project p i)
                   (if reaped : bool then VNone else get "recovery_dispatch_in_flight" (p_meta p))))
  end.

(** [publish_recovery_pulse]: its exceptions are swallowed. *)
Definition publish_pulse_with (reap : project → handler bool) (pid : string) (extra : dict)
    : handler unit :=
  try_except
    (status <- recovery_status_with reap pid;;
     match status with
     | None => pret tt
     | Some s =>
         t <- pgets now;;
         publish_event ([("type", VStr "recovery_pulse"); ("project_uuid", VStr pid); ("ts", VInt t)]
           ++ dict_update (pulse_fields s) extra)
     end)
    (fun _ => pret tt).

(** [_reap_stale_dispatch_inflight]: clears a stale mark and publishes a pulse, whose
    status reaps again.  The row then carries no mark, so [depth] 1 is already the
    whole recursion ([reap_depth] below). *)
Fixpoint reap_stale (depth : nat) (p : project) : handler bool :=
  t <- pgets now;;
  if negb (is_stale t p) then pret false else
  clear_in_flight (p_uuid p);;
  publish_project_pulse (p_uuid p) pulse_idle;;
  match depth with
  | O => pret true
  | S depth' =>
      publish_pulse_with (reap_stale depth') (p_uuid p) [("dispatch_in_flight", VNone)];;
      pret true
  end.

Definition reap_stale_dispatch_inflight (p : project) : handler bool := reap_stale 1 p.
Definition recovery_status := recovery_status_with reap_stale_dispatch_inflight.
Definition publish_recovery_pulse := publish_pulse_with reap_stale_dispatch_inflight.

(** ** One pulse is the whole recursion *)
Lemma reap_unmarked n p h :
  get "recovery_dispatch_in_flight" (p_meta p) = VNone →
  eval (reap_stale n p) h = Ok false ∧ exec (reap_stale n p) h = h.
Proof.
  intros Hm. assert (Hs : ∀ t, is_stale t p = false) by (intros t; unfold is_stale; by rewrite Hm).
  destruct n; cbn [reap_stale]; run_state; rewrite Hs; cbn [negb]; by run_state.
Qed.

Lemma pulse_depth n m pid x h :
  (pool h = true → ∀ p, find_project pid (projects h) = Some p →
     get "recovery_dispatch_in_flight" (p_meta p) = VNone) →
  exec (publish_pulse_with (reap_stale n) pid x) h = exec (publish_pulse_with (reap_stale m) pid x) h ∧
  eval (publish_pulse_with (reap_stale n) pid x) h = eval (publish_pulse_with (reap_stale m) pid x) h.
Proof.
  intros Hun. unfold publish_pulse_with, recovery_status_with, load_project_full, statement, try_except.
  run_state. destruct (pool h); cbn [negb]; [|by run_state].
  run_state. destruct (hd false (pool_faults h)); run_state; [done|].
  change (projects (set_pool_faults (tail (pool_faults h)) h)) with (projects h).
  destruct (find_project pid (projects h)) as [p|] eqn:Hp; run_state; [|done].
  assert (Hi : ∃ i, eval build_pending_decision_index (set_pool_faults (tail (pool_faults h)) h) = Ok i).
  { eexists. unfold build_pending_decision_index, on_store. by run_state. }
  destruct Hi as [i Hi]. rewrite Hi. run_state.
  set (h1 := exec build_pending_decision_index _).
  destruct (reap_unmarked n p h1 (Hun eq_refl p eq_refl)) as [-> ->].
  by destruct (reap_unmarked m p h1 (Hun eq_refl p eq_refl)) as [-> ->].
Qed.

(** A deeper recursion does the same: the status of the pulse finds no mark. *)
Lemma reap_depth n p h :
  isdigit (p_uuid p) = false →
  exec (reap_stale (S n) p) h = exec (reap_stale 1 p) h ∧ eval (reap_stale (S n) p) h = eval (reap_stale 1 p) h.
Proof.
  intros Hu. cbn [reap_stale]. run_state. destruct (is_stale (now h) p); cbn [negb]; [|by run_state].
  run_state. destruct (eval (clear_in_flight (p_uuid p)) h) eqn:Hc; [|by run_state].
  set (h1 := exec (clear_in_flight (p_uuid p)) h) in *. run_state.
  destruct (eval (publish_project_pulse _ _) h1) eqn:He; [|done]. run_state.
  destruct (pulse_depth n 0 (p_uuid p) [("dispatch_in_flight", VNone)]
              (exec (publish_project_pulse (p_uuid p) pulse_idle) h1)) as [He1 He2]; [|by rewrite He1, He2].
  unfold publish_project_pulse, publish_event, on_store. run_state. cbn [projects pool set_store].
  subst h1. revert Hc. unfold clear_in_flight, persist_metadata_patch, statement. run_state.
  destruct (pool h) eqn:Hp; cbn [negb]; run_state; [|by rewrite Hp].
  destruct (hd false (pool_faults h)); run_state; [done|]. intros _ _ q Hq.
  cbn [projects set_projects set_pool_faults] in Hq. rewrite find_update in Hq by done.
  apply fmap_Some in Hq as (q0 & Hq0 & ->). rewrite (proj2 (List.find_some _ _ Hq0)).
  unfold merge_meta, with_meta. cbn. by rewrite get_set.
Qed.

(** * The fix-loop guard *)
Inductive guard_error := FixLoopExhausted (iteration : Z) | PendingDecisions (pending : nat).

Definition fix_loop_guard (p : project) (block_on_pending : bool) : handler (option guard_error) :=
  if fix_loop_exhausted p then pret (Some (FixLoopExhausted (code_fix_iteration_count (p_meta p))))
  else if block_on_pending then
    pending <- count_pending_for_project p;;
    pret (if Nat.ltb 0 pending then Some (PendingDecisions pending) else None)
  else pret None.

(** * Dispatch *)

(** The responses of [recovery_dispatch], one constructor per response dict. *)
Inductive dispatch_response :=
| ProjectNotFound
| NoResumeAction
| RemediateAlreadyInFlight
| DispatchInFlight
| ActionNotAllowed
| FixLoopReset
| GuardRefused (g : guard_error)
| Started (action kind : string).

(** [result.get("ok")]. *)
Definition response_ok (r : dispatch_response) : bool :=
  match r with RemediateAlreadyInFlight | FixLoopReset | Started _ _ => true | _ => false end.

Definition in_flight_mark (t : datetime) (action kind actor : string) : value :=
  VDict [("action", VStr action); ("dispatch_kind", VStr kind); ("actor", VStr actor);
         ("started_at", VStr (isoformat t))].

Definition reset_allowed (p : project) : bool :=
  fix_loop_exhausted p
  || (truthy (get "code_review_blocked" (p_meta p)) && (0 <? code_fix_iteration_count (p_meta p))).

(** The refusal of [resolved], if any, before the action is looked up. *)
Definition remediate_guard (p : project) (auto_loop : bool) : handler (option guard_error) :=
  if auto_loop then
    if fix_loop_exhausted p then fix_loop_guard p false else pret None
  else
    g <- fix_loop_guard p true;;
    pret (match g with Some (PendingDecisions n) => Some (PendingDecisions n) | _ => None end).

(** The mark, the feature patch and the worker. *)
Definition start_dispatch (p : project) (action actor : string) (note : option string)
    : handler dispatch_response :=
  params <- lift (dispatch_params_of action p note);;
  t <- pgets now;;
  feature <- lift (if String.eqb action "retry_feature" then feature_iteration_start_patch (p_meta p)
                   else Ok []);;
  persist_metadata_patch (p_uuid p)
    (dict_update [("recovery_dispatch_in_flight", in_flight_mark t action (dp_kind params) actor)] feature);;
  publish_project_pulse (p_uuid p)
    [("current_phase", VStr (p_phase p)); ("dispatch_in_flight", VBool true);
     ("dispatch_kind", VStr (dp_kind params))];;
  schedule_recovery_pulse (p_uuid p);;
  spawn (TRecovery p params actor);;
  pret (Started action (dp_kind params)).

Definition reset_fix_loop (p : project) : handler dispatch_response :=
  if negb (reset_allowed p) then pret ActionNotAllowed else
  persist_metadata_patch (p_uuid p)
    [("code_review_blocked", VBool false); ("code_fix_iteration", VInt 0)];;
  publish_recovery_pulse (p_uuid p) [];;
  pret FixLoopReset.

(** After [resume] is resolved and a stale mark is reaped. *)
Definition dispatch_resolved (p : project) (action actor : string) (note : option string)
    (auto_loop : bool) : handler dispatch_response :=
  t <- pgets now;;
  let inflight := get "recovery_dispatch_in_flight" (p_meta p) in
  if in_flight t (p_meta p) then
    if auto_loop && String.eqb action "retry_engineer_remediate"
       && is_str (get "action" (dict_of inflight)) "retry_engineer_remediate"
    then pret RemediateAlreadyInFlight else pret DispatchInFlight
  else if String.eqb action "reset_fix_loop" then reset_fix_loop p
  else
    guard <- (if String.eqb action "retry_engineer_remediate" then remediate_guard p auto_loop
              else pret None);;
    match guard with
    | Some g => pret (GuardRefused g)
    | None =>
        if negb (in_strs action (allowed p)) then pret ActionNotAllowed
        else start_dispatch p action actor note
    end.

Definition recovery_dispatch (pid action actor : string) (note : option string) (auto_loop : bool)
    : handler dispatch_response :=
  p <- load_project_full pid;;
  match p with
  | None => pret ProjectNotFound
  | Some p =>
      match (if String.eqb action "resume" then pick_resume_action (e_files E) p else Some action) with
      | None => pret NoResumeAction
      | Some resolved =>
          reaped <- reap_stale_dispatch_inflight p;;
          let p' := if reaped
                    then with_meta (dict_set "recovery_dispatch_in_flight" VNone (p_meta p)) p else p in
          dispatch_resolved p' resolved actor note auto_loop
      end
  end.

(** * The worker: [_run_recovery_orchestration] *)
Definition orchestrate_args_of (p : project) (d : dispatch_params) (actor : string) : orchestrate_args :=
  {| oa_kind := dp_kind d; oa_project := p; oa_actor := actor; oa_card := dp_card d;
     oa_next_phase := dp_next_phase d; oa_extra := dp_extra d |}.

Definition with_extra (x : string) (d : dispatch_params) : dispatch_params :=
  {| dp_kind := dp_kind d; dp_card := dp_card d; dp_next_phase := dp_next_phase d;
     dp_extra := Some x; dp_expected_role := dp_expected_role d |}.

Definition is_remediate_kind (kind : string) : bool :=
  in_strs kind ["code_review_blocked"; "security_review_blocked"].

(** [str(md.get("code_review_md") or "").strip()]. *)
Definition review_text (p : project) : string :=
  strip (py_str (py_or (get "code_review_md" (p_meta p)) (VStr ""))).

(** A remediation without a review report first runs the review.  [None]: the review
    passed and there is nothing to remediate. *)
Definition scan_first (p : project) (d : dispatch_params) (actor : string)
    : handler (option (project * dispatch_params)) :=
  if is_remediate_kind (dp_kind d) && String.eqb (review_text p) "" then
    scanned <- orchestrate_hub_role E (review_args actor p);;
    if scanned : bool then
      reloaded <- load_project_full (p_uuid p);;
      let q := match reloaded with Some q => q | None => p end in
      if negb (truthy (get "code_review_blocked" (p_meta q))) then pret None
      else
        let heading := if String.eqb (dp_kind d) "security_review_blocked"
                       then "## Security review findings (recovery scan)"
                       else "## Code review findings (recovery scan)" in
        let text := py_str (py_or (get "code_review_md" (p_meta q)) (VStr "")) in
        pret (Some (q, with_extra (heading +:+ nl2 +:+ take_text 12000 text) d))
    else pret (Some (p, d))
  else pret (Some (p, d)).

Definition recovery_body (p : project) (d : dispatch_params) (actor : string) : handler unit :=
  next <- scan_first p d actor;;
  match next with
  | None => pret tt
  | Some (q, d') =>
      handled <- orchestrate_hub_role E (orchestrate_args_of q d' actor);;
      if handled : bool then pret tt
      else enqueue_orchestrator_gap E (dp_kind d') q (dp_expected_role d')
  end.

(** The [finally] clause. *)
Definition recovery_finally (uuid : string) : handler unit :=
  clear_in_flight uuid;;
  publish_project_pulse uuid pulse_idle;;
  publish_recovery_pulse uuid [].

Definition run_recovery_orchestration (p : project) (d : dispatch_params) (actor : string)
    : handler unit :=
  try_finally (recovery_body p d actor) (recovery_finally (p_uuid p)).

(** [recovery_cancel_inflight]: did it clear a mark? *)
Definition recovery_cancel_inflight (pid : string) : handler (option bool) :=
  p <- load_project_full pid;;
  match p with
  | None => pret None
  | Some p =>
      if negb (truthy (get "recovery_dispatch_in_flight" (p_meta p))) then
        publish_recovery_pulse (p_uuid p) [];; pret (Some false)
      else
        clear_in_flight (p_uuid p);;
        publish_project_pulse (p_uuid p) pulse_idle;;
        publish_recovery_pulse (p_uuid p) [("dispatch_in_flight", VNone)];;
        pret (Some true)
  end.

(** [dispatch_next_operate_feature]: [None] when it refuses or skips. *)
Definition dispatch_next_operate_feature (pid : string) (md : dict) (actor : string)
    : handler (option dispatch_response) :=
  match pending_feature_request md with
  | None => pret None
  | Some _ =>
      if truthy (get "recovery_dispatch_in_flight" md) then pret None
      else r <- recovery_dispatch pid "retry_feature" actor None true;; pret (Some r)
  end.

(** * Scheduled work *)
Definition discard_schedule (pid : string) : handler unit :=
  pmodify (fun h => set_auto_scheduled (List.filter (fun q => negb (String.eqb q pid)) (auto_scheduled h)) h).

(** One attempt of [_run_with_retry]: it ends the loop, or sleeps and tries again. *)
Definition auto_remediate_attempt (pid actor : string) (attempt : nat) : handler bool :=
  r <- recovery_dispatch pid "retry_engineer_remediate" actor None true;;
  pret (match r with DispatchInFlight => Nat.ltb attempt AUTO_REMEDIATE_MAX_ATTEMPTS | _ => false end).

(** The [finally] of the loop runs when it ends or raises; a sleeping scheduler keeps
    its place. *)
Definition run_auto_remediate (pid actor : string) (attempt : nat) : handler unit :=
  bind (auto_remediate_attempt pid actor attempt) (fun r =>
    match r with
    | Ok true =>
        pmodify (fun h => set_now (now h + AUTO_REMEDIATE_RETRY_DELAY) h);;
        spawn (TAutoRemediate pid actor (S attempt))
    | Ok false => discard_schedule pid
    | Raise e => discard_schedule pid;; praise e
    end).

(** [schedule_auto_code_review]'s coroutine. *)
Definition run_auto_review (pid actor : string) : handler unit :=
  p <- load_project_full pid;;
  match p with
  | None => pret tt
  | Some p =>
      (if fix_loop_exhausted p || (0 <? code_fix_iteration_count (p_meta p))
       then recovery_dispatch pid "reset_fix_loop" actor None true;; pret tt else pret tt);;
      recovery_dispatch pid "retry_code_review" actor None true;;
      pret tt
  end.

(** [clear_orphaned_recovery_dispatches_on_startup]: the [metadata - key] of the
    update removes the key from the rows that have it. *)
Fixpoint dict_remove {V} (k : string) (d : list (string * V)) : list (string * V) :=
  match d with
  | [] => []
  | (k', v) :: d' => if String.eqb k k' then dict_remove k d' else (k', v) :: dict_remove k d'
  end.

Definition orphaned (p : project) : bool :=
  dict_has "recovery_dispatch_in_flight" (p_meta p)
  && negb (in_strs (p_status p) ["terminated"; "completed"]).

Definition clear_orphan (p : project) : project :=
  if orphaned p then with_meta (dict_remove "recovery_dispatch_in_flight" (p_meta p)) p else p.

Fixpoint pulse_all (uuids : list string) : handler unit :=
  match uuids with
  | [] => pret tt
  | u :: rest =>
      try_except
        (publish_project_pulse u pulse_idle;;
         publish_recovery_pulse u [("dispatch_in_flight", VNone)])
        (fun _ => pret tt);;
      pulse_all rest
  end.

Definition clear_orphaned_on_startup : handler nat :=
  up <- pgets pool;;
  if negb up then pret 0%nat else
  statement;;
  rows <- pgets (fun h => List.filter orphaned (projects h));;
  statement;;
  pmodify (fun h => set_projects (map clear_orphan (projects h)) h);;
  pulse_all (map p_uuid rows);;
  pret (length rows).

End WithEnv.
End Recovery.
