(* ===== verification/InFlight.v ===== *)
(** One recovery dispatch at a time.

    A dispatch leaves the mark [recovery_dispatch_in_flight], which is fresh for five
    minutes; the worker removes it whatever happens to it.  What the mark keeps away is
    in [DispatchTasks]. *)

From S2P Require Import Prelude PyValue Datetime Decisions Hub FixLoop Orchestrate Recovery.
From Stdlib Require Import Ascii.
Local Open Scope Z_scope.

Module InFlight.
Import Hub FixLoop Orchestrate Recovery.

(** * The age of a mark *)
Lemma isoformat_nonempty t : isoformat t ≠ "".
Proof.
  unfold isoformat. intros E. apply (f_equal (has_char "T")) in E. revert E.
  assert (Hp : ∀ k n r, has_char "T" r = true → has_char "T" (pad k n r) = true).
  { intros k. induction k as [|k IH]; intros n r Hr; cbn [pad]; [done|]. apply IH. cbn [has_char].
    by rewrite Hr, orb_true_r. }
  rewrite Hp; [done|]. rewrite has_char_app. apply orb_true_iff. right. apply Hp.
  rewrite has_char_app. apply orb_true_iff. right. apply Hp. by rewrite has_char_app.
Qed.

(** A mark is stale once more than 300 seconds have passed, to the microsecond. *)
Lemma mark_stale t t' action kind actor :
  representable t →
  dispatch_in_flight_stale t' (in_flight_mark t action kind actor) = (300 * usec_per_sec <? t' - t).
Proof.
  intros Ht. unfold in_flight_mark, dispatch_in_flight_stale. 
  change (get "started_at" _) with (VStr (isoformat t)).
  cbn [truthy py_str]. destruct (String.eqb_spec (isoformat t) "") as [E|_]; [by apply isoformat_nonempty in E|].
  cbn [negb]. by rewrite replace_Z_id, fromisoformat_isoformat by auto using isoformat_no_Z.
Qed.

Lemma mark_truthy t action kind actor : truthy (in_flight_mark t action kind actor) = true.
Proof. done. Qed.

(** * A fresh mark excludes dispatches *)
Definition refused (r : outcome exn dispatch_response) : Prop :=
  r = Ok DispatchInFlight ∨ r = Ok RemediateAlreadyInFlight ∨ r = Ok NoResumeAction.

(** * A started dispatch leaves a fresh mark *)
Lemma find_after_patch pid patch h p :
  find_project pid (projects h) = Some p →
  find_project pid (update_rows pid (merge_meta patch) (projects h)) = Some (merge_meta patch p).
Proof.
  unfold find_project, update_rows. induction (projects h) as [|q ps IH]; cbn; [done|].
  destruct (row_matches pid q) eqn:E; cbn.
  - intros [= ->]. change (row_matches pid (merge_meta patch p)) with (row_matches pid p). by rewrite E.
  - rewrite E. apply IH.
Qed.

(** What [start_dispatch] does when it succeeds. *)
Definition started_state (p : project) (action actor kind : string) (d : dispatch_params) (h h' : hub) : Prop :=
  now h' = now h ∧ tasks h' = tasks h ++ [TPulse (p_uuid p); TRecovery p d actor] ∧
  dp_kind d = kind ∧ pool h' = pool h ∧
  (pool h = true →
   ∃ feature, "recovery_dispatch_in_flight" ∉ feature.*1 ∧
     projects h' = update_rows (p_uuid p)
       (merge_meta (("recovery_dispatch_in_flight", in_flight_mark (now h) action kind actor) :: feature))
       (projects h)).

Lemma persist_ok pid patch h :
  eval (persist_metadata_patch pid patch) h = Ok tt →
  now (exec (persist_metadata_patch pid patch) h) = now h ∧
  tasks (exec (persist_metadata_patch pid patch) h) = tasks h ∧
  pool (exec (persist_metadata_patch pid patch) h) = pool h ∧
  (pool h = true → projects (exec (persist_metadata_patch pid patch) h)
                   = update_rows pid (merge_meta patch) (projects h)).
Proof.
  unfold persist_metadata_patch, statement. run_state. destruct (pool h) eqn:Hp; cbn [negb]; [|by run_state].
  run_state. destruct (hd false (pool_faults h)); run_state; cbn; naive_solver.
Qed.

Lemma feature_keys p feature :
  feature_iteration_start_patch (p_meta p) = Ok feature →
  feature.*1 = ["feature_iteration_active"; "feature_requests"].
Proof. unfold feature_iteration_start_patch. destruct (list_of _); [|done]. by intros [= <-]. Qed.

Lemma start_dispatch_started p action actor note h a k :
  eval (start_dispatch p action actor note) h = Ok (Started a k) →
  ∃ d, a = action ∧ started_state p action actor k d h (exec (start_dispatch p action actor note) h).
Proof.
  unfold start_dispatch. rewrite eval_pbind, exec_pbind.
  destruct (dispatch_params_of action p note) as [d|e]; cbn [lift]; [|by run_state].
  rewrite eval_pret, exec_pret, eval_pbind, exec_pbind, eval_pgets, exec_pgets, eval_pbind, exec_pbind.
  set (fo := if String.eqb action "retry_feature" then _ else _).
  assert (Hfo : ∀ f, fo = Ok f → "recovery_dispatch_in_flight" ∉ f.*1 ∧
    dict_update [("recovery_dispatch_in_flight", in_flight_mark (now h) action (dp_kind d) actor)] f
    = ("recovery_dispatch_in_flight", in_flight_mark (now h) action (dp_kind d) actor) :: f).
  { intros f Hf. subst fo. destruct (String.eqb action "retry_feature").
    - pose proof (feature_keys p f Hf) as Hk. rewrite Hk. split; [set_solver|].
      destruct f as [|[k1 v1] [|[k2 v2] [|? ?]]]; try done. cbn in Hk. injection Hk as -> ->. done.
    - injection Hf as <-. split; [set_solver|done]. }
  destruct fo as [feature|e]; cbn [lift]; [|by run_state]. specialize (Hfo _ eq_refl) as [Hnk Hfo].
  rewrite eval_pret, exec_pret, eval_pbind, exec_pbind, Hfo.
  set (patch := _ :: feature). pose proof (persist_ok (p_uuid p) patch h) as Hpo.
  destruct (eval (persist_metadata_patch (p_uuid p) patch) h) as [[]|e]; [|done].
  specialize (Hpo eq_refl) as (Hn & Ht & Hpl & Hpr). set (h1 := exec (persist_metadata_patch _ _) h) in *.
  unfold publish_project_pulse, publish_event, schedule_recovery_pulse, spawn, on_store. run_state. cbn.
  intros [= <- <-]. exists d. split; [done|]. unfold started_state. cbn. rewrite Hn, Ht, Hpl.
  repeat split; [by rewrite <- app_assoc|]. intros Hp. exists feature. split; [done|]. by apply Hpr.
Qed.

(** Before [start_dispatch] the queue, the clock and the pool do not move. *)
Definition same_queue (h h' : hub) : Prop :=
  tasks h' = tasks h ∧ now h' = now h ∧ pool h' = pool h ∧
  (∀ pid, (∃ p, find_project pid (projects h) = Some p) → ∃ q, find_project pid (projects h') = Some q).

#[local] Instance same_queue_preorder : PreOrder same_queue.
Proof.
  split; [by intros h|]. intros h1 h2 h3 (A & B & C & D) (A' & B' & C' & D').
  repeat split; [congruence..|]. auto.
Qed.

Lemma same_queue_rows pid f h :
  (∀ p q, row_matches q (f p) = row_matches q p) →
  same_queue h (set_projects (update_rows pid f (projects h)) h).
Proof.
  intros Hf. repeat split. intros q [p Hp]. cbn [projects set_projects]. revert Hp.
  unfold find_project, update_rows. induction (projects h) as [|r ps IH]; cbn; [done|].
  destruct (row_matches pid r); rewrite ?Hf; destruct (row_matches q r); eauto.
Qed.

Create HintDb queuedb.
#[local] Hint Extern 1 (within same_queue (pret _)) => apply within_pret; typeclasses eauto : queuedb.
#[local] Hint Extern 1 (within same_queue (praise _)) => apply within_praise; typeclasses eauto : queuedb.
#[local] Hint Extern 1 (within same_queue (pgets _)) => apply within_pgets; typeclasses eauto : queuedb.
Ltac queue_steps :=
  repeat first
    [ progress intros
    | solve [auto with queuedb nocore]
    | apply within_pbind; [typeclasses eauto| |]
    | apply within_try_except; [typeclasses eauto| |]
    | (apply within_pmodify; [typeclasses eauto|]; intros; solve [repeat split; eauto | by apply same_queue_rows])
    | case_match ].

Lemma statement_queue : within same_queue statement.
Proof. unfold statement. queue_steps. Qed.
Lemma on_store_queue {A} (m : state Decisions.store A) : within same_queue (on_store m).
Proof. unfold on_store. queue_steps. Qed.
#[local] Hint Resolve statement_queue on_store_queue : queuedb.
Lemma load_queue pid : within same_queue (load_project_full pid).
Proof. unfold load_project_full. queue_steps. Qed.
Lemma index_queue : within same_queue build_pending_decision_index.
Proof. unfold build_pending_decision_index. queue_steps. Qed.
Lemma persist_queue pid patch : within same_queue (persist_metadata_patch pid patch).
Proof. unfold persist_metadata_patch. queue_steps. Qed.
Lemma pulse_queue uuid f : within same_queue (publish_project_pulse uuid f).
Proof. unfold publish_project_pulse, publish_event. queue_steps. Qed.
#[local] Hint Resolve load_queue index_queue persist_queue pulse_queue : queuedb.
Lemma status_queue E reap pid :
  (∀ p, within same_queue (reap p)) → within same_queue (publish_pulse_with E reap pid [("dispatch_in_flight", VNone)]).
Proof. intros H. unfold publish_pulse_with, recovery_status_with, publish_event. queue_steps. Qed.
Lemma reap_queue E depth p : within same_queue (reap_stale E depth p).
Proof.
  revert p. induction depth as [|d IH]; intros p; cbn [reap_stale]; unfold clear_in_flight;
    queue_steps; by apply status_queue.
Qed.

Lemma guard_queue p auto : within same_queue (remediate_guard p auto).
Proof. unfold remediate_guard, fix_loop_guard, count_pending_for_project. queue_steps. Qed.

Lemma resolved_started E p action actor note auto h a k :
  eval (dispatch_resolved E p action actor note auto) h = Ok (Started a k) →
  ∃ h1 d, same_queue h h1 ∧ a ∈ allowed p ∧
    started_state p a actor k d h1 (exec (dispatch_resolved E p action actor note auto) h).
Proof.
  unfold dispatch_resolved. rewrite eval_pbind, exec_pbind, eval_pgets, exec_pgets.
  destruct (in_flight _ _); [case_match; by run_state|].
  destruct (String.eqb action "reset_fix_loop").
  { unfold reset_fix_loop. destruct (reset_allowed p); cbn [negb]; [|by run_state].
    rewrite eval_pbind. destruct (eval (persist_metadata_patch _ _) h); [|done].
    rewrite eval_pbind. destruct (eval (publish_recovery_pulse _ _ _) _); [|done]. by run_state. }
  rewrite eval_pbind, exec_pbind. set (g := if String.eqb action "retry_engineer_remediate" then _ else _).
  assert (within same_queue g) as Hg by (subst g; destruct (String.eqb action _); [apply guard_queue|apply within_pret; typeclasses eauto]).
  specialize (Hg h). destruct (eval g h) as [[?|]|]; [by run_state| |done].
  destruct (in_strs action (allowed p)) eqn:Hal; cbn [negb]; [|by run_state].
  intros (d & -> & Hst)%start_dispatch_started. apply in_strs_true in Hal. eauto.
Qed.

Lemma dispatch_started E pid action actor note auto h a k :
  eval (recovery_dispatch E pid action actor note auto) h = Ok (Started a k) →
  ∃ p q d h1, same_queue h h1 ∧ pool h = true ∧ find_project pid (projects h) = Some p ∧
    p_uuid q = p_uuid p ∧ a ∈ allowed q ∧
    started_state q a actor k d h1 (exec (recovery_dispatch E pid action actor note auto) h).
Proof.
  unfold recovery_dispatch. rewrite eval_pbind, exec_pbind. pose proof (load_queue pid h) as Hl.
  destruct (eval (load_project_full pid) h) as [[p|]|] eqn:El; [|by run_state|done].
  assert (pool h = true ∧ find_project pid (projects h) = Some p) as [Hp Hf].
  { revert El. unfold load_project_full, statement. run_state. destruct (pool h); cbn; [|done].
    run_state. destruct (hd false (pool_faults h)); run_state; [done|]. cbn. naive_solver. }
  set (h1 := exec (load_project_full pid) h) in *.
  destruct (if String.eqb action "resume" then _ else _) as [resolved|]; [|by run_state].
  rewrite eval_pbind, exec_pbind. pose proof (reap_queue E 1 p h1) as Hr.
  fold (reap_stale_dispatch_inflight E p) in Hr.
  destruct (eval (reap_stale_dispatch_inflight E p) h1) as [reaped|]; [|done].
  set (q := if reaped then _ else p).
  intros (h3 & d & Hq & Hal & Hst)%resolved_started. exists p, q, d, h3.
  split; [etransitivity; [exact Hl|]; etransitivity; [exact Hr|exact Hq]|].
  split; [done|]. split; [done|]. split; [subst q; by destruct reaped|]. by split.
Qed.

(** A dispatch that starts puts exactly one worker on the queue, for an action the project
    offers, and leaves its mark on the project's row. *)
Lemma dispatch_marks E pid action actor note auto h a k :
  isdigit pid = false →
  eval (recovery_dispatch E pid action actor note auto) h = Ok (Started a k) →
  let h' := exec (recovery_dispatch E pid action actor note auto) h in
  now h' = now h ∧ pool h' = true ∧
  (∃ q d, a ∈ allowed q ∧ dp_kind d = k ∧ p_uuid q = pid ∧
          tasks h' = tasks h ++ [TPulse pid; TRecovery q d actor]) ∧
  ∃ p, find_project pid (projects h') = Some p ∧
       get "recovery_dispatch_in_flight" (p_meta p) = in_flight_mark (now h) a k actor.
Proof.
  intros Hn Hst h'.
  destruct (dispatch_started _ _ _ _ _ _ _ _ _ Hst) as (p & q & d & h1 & (Ht & Hnow & Hpl & Hfind) & Hp & Hf & Hu & Hal & Hs).
  fold h' in Hs. destruct Hs as (Hn1 & Ht1 & Hk & Hp1 & Hproj).
  assert (p_uuid p = pid) as Hpid.
  { apply find_some in Hf as [_ Hf]. unfold row_matches in Hf. rewrite Hn in Hf. by apply String.eqb_eq in Hf. }
  split_and!; [congruence|congruence| |].
  { exists q, d. rewrite Ht1, Ht, Hu, Hpid. done. }
  destruct Hproj as (feature & Hkey & Hproj); [congruence|]. rewrite Hu, Hpid in Hproj.
  destruct (Hfind pid) as [r Hr]; [by eexists|].
  set (patch := ("recovery_dispatch_in_flight", in_flight_mark (now h1) a k actor) :: feature) in *.
  apply (find_after_patch pid patch h1) in Hr. rewrite <- Hproj in Hr. eexists. split; [exact Hr|].
  unfold merge_meta, patch, get. cbn [p_meta with_meta].
  pose proof (dict_lookup_update_last "recovery_dispatch_in_flight" (in_flight_mark (now h1) a k actor)
    (p_meta r) [] feature Hkey) as Hl. cbn [app] in Hl. by rewrite Hl, Hnow.
Qed.

(** * The worker removes the mark *)

(** No handler takes the pool away, and statements that do not fail leave it that way. *)
Definition pool_kept (h h' : hub) : Prop :=
  pool h' = pool h ∧ (pool_faults h = [] → pool_faults h' = []).

#[local] Instance pool_kept_preorder : PreOrder pool_kept.
Proof.
  split; [by intros h|]. intros h1 h2 h3 [A B] [A' B']. split; [congruence|auto].
Qed.

Create HintDb pooldb.
#[local] Hint Extern 1 (within pool_kept (pret _)) => apply within_pret; typeclasses eauto : pooldb.
#[local] Hint Extern 1 (within pool_kept (praise _)) => apply within_praise; typeclasses eauto : pooldb.
#[local] Hint Extern 1 (within pool_kept (pgets _)) => apply within_pgets; typeclasses eauto : pooldb.
Ltac pool_steps :=
  repeat first
    [ progress intros
    | solve [auto with pooldb nocore]
    | apply within_pbind; [typeclasses eauto| |]
    | apply within_try_except; [typeclasses eauto| |]
    | (apply within_pmodify; [typeclasses eauto|]; intros; by split)
    | case_match ].

Lemma statement_pool : within pool_kept statement.
Proof.
  unfold statement. apply within_pbind; [typeclasses eauto|pool_steps|intros f].
  apply within_pbind; [typeclasses eauto| |intros; destruct f; pool_steps].
  apply within_pmodify; [typeclasses eauto|]. intros h. split; [done|]. cbn. by intros ->.
Qed.
Lemma on_store_pool {A} (m : state Decisions.store A) : within pool_kept (on_store m).
Proof. unfold on_store. pool_steps. Qed.
Lemma tick_pool : within pool_kept tick.
Proof. unfold tick. pool_steps. Qed.
Lemma lift_pool {A} (o : outcome exn A) : within pool_kept (lift o).
Proof. destruct o; cbn [lift]; pool_steps. Qed.
#[local] Hint Resolve statement_pool on_store_pool tick_pool lift_pool : pooldb.
Lemma load_pool pid : within pool_kept (load_project_full pid).
Proof. unfold load_project_full. pool_steps. Qed.
Lemma persist_pool pid patch : within pool_kept (persist_metadata_patch pid patch).
Proof. unfold persist_metadata_patch. pool_steps. Qed.
Lemma event_pool f : within pool_kept (publish_event f).
Proof. unfold publish_event. pool_steps. Qed.
Lemma spawn_pool t : within pool_kept (spawn t).
Proof. unfold spawn. pool_steps. Qed.
Lemma enqueue_pool E k : within pool_kept (enqueue E k).
Proof. unfold enqueue. pool_steps. Qed.
#[local] Hint Resolve load_pool persist_pool event_pool spawn_pool enqueue_pool : pooldb.
Lemma ppulse_pool uuid f : within pool_kept (publish_project_pulse uuid f).
Proof. unfold publish_project_pulse. pool_steps. Qed.
#[local] Hint Resolve ppulse_pool : pooldb.
Lemma emit_pool_kept ty uuid r x : within pool_kept (emit ty uuid r x).
Proof. unfold emit, schedule_recovery_pulse. pool_steps. Qed.
Lemma advance_row_pool pid t : within pool_kept (advance_row pid t).
Proof. unfold advance_row. pool_steps. Qed.
#[local] Hint Resolve emit_pool_kept advance_row_pool : pooldb.
Lemma fallback_pool pid t : within pool_kept (fallback_advance pid t).
Proof. unfold fallback_advance. pool_steps. Qed.
#[local] Hint Resolve fallback_pool : pooldb.
Lemma token_pool E pid t tok : within pool_kept (advance_with_token E pid t tok).
Proof. unfold advance_with_token. pool_steps. Qed.
#[local] Hint Resolve token_pool : pooldb.
Lemma advance_pool E pid t a g : within pool_kept (advance_lifecycle_phase E pid t a g).
Proof. unfold advance_lifecycle_phase. pool_steps. Qed.
#[local] Hint Resolve advance_pool : pooldb.
Lemma index_pool : within pool_kept build_pending_decision_index.
Proof. unfold build_pending_decision_index. pool_steps. Qed.
#[local] Hint Resolve index_pool : pooldb.

Lemma version_pool E pid : within pool_kept (load_pipeline_version E pid).
Proof. unfold load_pipeline_version. pool_steps. Qed.
Lemma route_pool pid r : within pool_kept (record_route_history pid r).
Proof. unfold record_route_history. pool_steps. Qed.
Lemma call_pool E pid k t p : within pool_kept (call_role E pid k t p).
Proof. unfold call_role. pool_steps. Qed.
#[local] Hint Resolve version_pool route_pool call_pool : pooldb.
Lemma dispatch_role_pool E k pid a x : within pool_kept (dispatch_role_for_kind E k pid a x).
Proof. unfold dispatch_role_for_kind. pool_steps. Qed.
Lemma failure_pool E p s k e : within pool_kept (orchestrate_failure E p s k e).
Proof. unfold orchestrate_failure. pool_steps. Qed.
Lemma increment_pool u : within pool_kept (increment_code_fix_iteration u).
Proof. unfold increment_code_fix_iteration. pool_steps. Qed.
Lemma schedule_pool u a : within pool_kept (schedule_auto_engineer_remediate u a).
Proof. unfold schedule_auto_engineer_remediate. pool_steps. Qed.
Lemma artifact_pool p r d : within pool_kept (emit_artifact p r d).
Proof. unfold emit_artifact. pool_steps. Qed.
#[local] Hint Resolve dispatch_role_pool failure_pool increment_pool schedule_pool artifact_pool : pooldb.
Lemma review_pool E p r a b res : within pool_kept (orchestrate_review E p r a b res).
Proof. unfold orchestrate_review. destruct b; pool_steps. Qed.
Lemma qa_pool E p r t res : within pool_kept (orchestrate_qa_execution E p r t res).
Proof. unfold orchestrate_qa_execution. pool_steps. Qed.
Lemma card_pool E p r t c res : within pool_kept (orchestrate_card E p r t c res).
Proof. unfold orchestrate_card. pool_steps. Qed.
Lemma deploy_pool E p r k a d : within pool_kept (orchestrate_deploy E p r k a d).
Proof. unfold orchestrate_deploy. pool_steps. Qed.
Lemma gap_pool E k p r : within pool_kept (enqueue_orchestrator_gap E k p r).
Proof. unfold enqueue_orchestrator_gap. pool_steps. Qed.
#[local] Hint Resolve review_pool qa_pool card_pool deploy_pool gap_pool : pooldb.

Lemma orchestrate_with_pool E rerun a :
  (∀ p, within pool_kept (rerun p)) → within pool_kept (orchestrate_with E rerun a).
Proof.
  intros Hr. unfold orchestrate_with. destruct (dict_lookup _ _); [|pool_steps].
  apply within_pbind; [typeclasses eauto|pool_steps|intros _].
  apply within_pbind; [typeclasses eauto|pool_steps|intros [res|]]; [|pool_steps].
  apply within_pbind; [typeclasses eauto| |pool_steps].
  destruct (rd_ok res); [|pool_steps]. unfold orchestrate_success. cbv zeta.
  destruct (_ || _); [pool_steps|].
  destruct (is_str _ "code_approval" && _).
  - repeat (apply within_pbind; [typeclasses eauto|pool_steps|intros]). case_match; pool_steps.
  - repeat (destruct (is_str _ _); [pool_steps|]); pool_steps.
Qed.

Lemma orchestrate_pool E a : within pool_kept (orchestrate_hub_role E a).
Proof.
  apply orchestrate_with_pool. intros p. unfold rerun_review, require_with.
  apply within_pbind; [typeclasses eauto| |pool_steps].
  apply within_pbind; [typeclasses eauto| |intros [|]; pool_steps].
  apply orchestrate_with_pool. intros; pool_steps.
Qed.
#[local] Hint Resolve orchestrate_pool : pooldb.

Lemma body_pool E p d a : within pool_kept (recovery_body E p d a).
Proof. unfold recovery_body, scan_first. pool_steps. Qed.

(** The rows of [u] carry no mark. *)
Definition unmarked (u : string) (h : hub) : Prop :=
  ∀ p, p ∈ projects h → row_matches u p = true → get "recovery_dispatch_in_flight" (p_meta p) = VNone.

Definition keeps_unmarked (u : string) (h h' : hub) : Prop := unmarked u h → unmarked u h'.
#[local] Instance keeps_unmarked_preorder u : PreOrder (keeps_unmarked u).
Proof. split; [by intros h Hh|]. intros h1 h2 h3 A B Hh. by apply B, A. Qed.

Lemma clear_rows u v ps :
  ∀ p, p ∈ update_rows v (merge_meta [("recovery_dispatch_in_flight", VNone)]) ps → row_matches u p = true →
  get "recovery_dispatch_in_flight" (p_meta p) = VNone ∨ (p ∈ ps ∧ row_matches v p = false).
Proof.
  intros p Hp Hm. unfold update_rows in Hp. apply list_elem_of_fmap in Hp as (q & -> & Hq).
  destruct (row_matches v q) eqn:E; [left|right; by rewrite E].
  unfold merge_meta. cbn [p_meta with_meta dict_update]. by rewrite get_set.
Qed.

Ltac unmarked_steps :=
  repeat first
    [ progress intros
    | solve [auto with markdb nocore]
    | apply within_pbind; [typeclasses eauto| |]
    | apply within_try_except; [typeclasses eauto| |]
    | (apply within_pmodify; [typeclasses eauto|]; intros; intros Hun; exact Hun)
    | case_match ].
Create HintDb markdb.
#[local] Hint Extern 1 (within (keeps_unmarked _) (pret _)) => apply within_pret; typeclasses eauto : markdb.
#[local] Hint Extern 1 (within (keeps_unmarked _) (praise _)) => apply within_praise; typeclasses eauto : markdb.
#[local] Hint Extern 1 (within (keeps_unmarked _) (pgets _)) => apply within_pgets; typeclasses eauto : markdb.

Section Unmarked.
Context (u : string).
Lemma statement_mark : within (keeps_unmarked u) statement.
Proof. unfold statement. unmarked_steps. Qed.
Lemma on_store_mark {A} (m : state Decisions.store A) : within (keeps_unmarked u) (on_store m).
Proof. unfold on_store. unmarked_steps. Qed.
#[local] Hint Resolve statement_mark on_store_mark : markdb.
Lemma load_mark pid : within (keeps_unmarked u) (load_project_full pid).
Proof. unfold load_project_full. unmarked_steps. Qed.
Lemma clear_mark v : within (keeps_unmarked u) (clear_in_flight v).
Proof.
  unfold clear_in_flight, persist_metadata_patch. unmarked_steps.
  apply within_pmodify; [typeclasses eauto|]. intros h Hun p Hp Hm.
  destruct (clear_rows u v (projects h) p Hp Hm) as [|[Hp' _]]; auto.
Qed.
Lemma event_mark f : within (keeps_unmarked u) (publish_event f).
Proof. unfold publish_event. unmarked_steps. Qed.
Lemma index_mark : within (keeps_unmarked u) build_pending_decision_index.
Proof. unfold build_pending_decision_index. unmarked_steps. Qed.
#[local] Hint Resolve load_mark clear_mark event_mark index_mark : markdb.
Lemma ppulse_mark v f : within (keeps_unmarked u) (publish_project_pulse v f).
Proof. unfold publish_project_pulse. unmarked_steps. Qed.
#[local] Hint Resolve ppulse_mark : markdb.
Lemma pulse_with_mark E reap pid x :
  (∀ p, within (keeps_unmarked u) (reap p)) → within (keeps_unmarked u) (publish_pulse_with E reap pid x).
Proof. intros H. unfold publish_pulse_with, recovery_status_with. unmarked_steps. Qed.
Lemma reap_mark E n p : within (keeps_unmarked u) (reap_stale E n p).
Proof.
  revert p. induction n as [|n IH]; intros p; cbn [reap_stale]; unmarked_steps; by apply pulse_with_mark.
Qed.
Lemma recovery_pulse_mark E pid x : within (keeps_unmarked u) (publish_recovery_pulse E pid x).
Proof. apply pulse_with_mark. intros; apply reap_mark. Qed.

(** C5: the worker always cleans up.  When the pool works, the rows of the project
    carry no [recovery_dispatch_in_flight] once the worker has ended, whether the role
    call succeeded, failed or raised, and whatever the worker did before. *)
Theorem worker_clears_mark E p d actor h :
  p_uuid p = u → pool h = true → pool_faults h = [] →
  unmarked u (exec (run_recovery_orchestration E p d actor) h).
Proof.
  intros Hu Hp Hf. unfold run_recovery_orchestration, try_finally. rewrite exec_bind, Hu.
  destruct (body_pool E p d actor h) as [Hp1 Hf1]. specialize (Hf1 Hf). rewrite Hp in Hp1.
  set (h1 := exec (recovery_body E p d actor) h) in *. clearbody h1.
  set (r := eval (recovery_body E p d actor) h). clearbody r.
  rewrite exec_pbind. enough (unmarked u (exec (recovery_finally E u) h1)) as Hend.
  { by destruct (eval (recovery_finally E u) h1). }
  unfold recovery_finally. rewrite exec_pbind.
  assert (Hc : eval (clear_in_flight u) h1 = Ok tt ∧ unmarked u (exec (clear_in_flight u) h1)).
  { unfold clear_in_flight, persist_metadata_patch, statement. run_state. rewrite Hp1. cbn [negb].
    run_state. rewrite Hf1. cbn [hd]. run_state. split; [done|]. intros q Hq Hm. cbn [projects set_projects] in Hq.
    destruct (clear_rows u u _ q Hq Hm) as [|[_ Hn]]; [done|congruence]. }
  destruct Hc as [-> Hun]. rewrite exec_pbind.
  pose proof (ppulse_mark u pulse_idle (exec (clear_in_flight u) h1) Hun) as Hun2.
  destruct (eval (publish_project_pulse u pulse_idle) _); [|done].
  by apply recovery_pulse_mark.
Qed.
End Unmarked.

(** A dispatch, and then what the mark does not stop: after five minutes and one
    second the first worker is still queued and a second one is started. *)
Definition demo_env : env :=
  {| e_uuid := fun n => str_of_Z (Z.of_nat n); e_role := fun _ _ _ => RoleRaises "down";
     e_kg := fun _ _ => None; e_grant := fun _ _ _ => ToolRaises; e_advance := fun _ _ _ _ => ToolRaises;
     e_files := fun _ _ => 4; e_host_path := fun _ _ => "/work"; e_pipeline_version := "1" |}.

Definition demo_hub : hub :=
  {| projects := [sample "build_in_progress" [("sprint_plan_md", VStr "plan")]]; pool := true;
     pool_faults := []; store := Decisions.empty_store; phase_history := []; route_history := [];
     tasks := []; auto_scheduled := []; dispatched := []; deployments := [];
     now := 1700000000000000; ticks := 0 |}.

Definition demo_dispatch : handler dispatch_response :=
  recovery_dispatch demo_env "u" "retry_engineer" "founder" None false.

Definition is_worker (t : task) : bool := match t with TRecovery _ _ _ => true | _ => false end.

Example second_worker_after_window :
  let h := exec demo_dispatch demo_hub in
  let h2 := set_now (now h + 301 * usec_per_sec) h in
  eval demo_dispatch demo_hub = Ok (Started "retry_engineer" "sprint_plan_approval") ∧
  eval demo_dispatch h2 = Ok (Started "retry_engineer" "sprint_plan_approval") ∧
  length (List.filter is_worker (tasks (exec demo_dispatch h2))) = 2%nat.
Proof. vm_compute. done. Qed.

(** The demo role raises: the worker still removes its mark. *)
Lemma worker_clears_mark_witness :
  let h := exec demo_dispatch demo_hub in
  match tasks h with
  | [_; TRecovery p d a] =>
      unmarked "u" (exec (run_recovery_orchestration demo_env p d a) h)
  | _ => False
  end.
Proof.
  cbv zeta. set (h := exec demo_dispatch demo_hub).
  assert (Ht : ∃ t p d a, tasks h = [t; TRecovery p d a] ∧ p_uuid p = "u") by (vm_compute; eauto 10).
  destruct Ht as (t & p & d & a & -> & Hu).
  apply (worker_clears_mark "u" demo_env p d a h Hu); vm_compute; reflexivity.
Defined.

End InFlight.
