(* ===== verification/HubTasks.v ===== *)
(** Handlers cut at their awaits.

    The hub's coroutines give way to each other where they await: at a statement, at a
    subprocess, at a sleep.  A handler whose answer can be spoilt there is written a second
    time as a [Tasks.task] over the hub's state, one action per statement and per stretch of
    code between two awaits, or finer; [runs] says that it is the same program: left alone
    it does what the handler does.  The logic of [Tasks] then speaks about every order in
    which such coroutines, the clock and the rest of the hub can take turns. *)

From S2P Require Import Prelude Tasks PyValue Datetime Decisions Hub.
Import Hub.
Local Open Scope Z_scope.

Abbreviation coroutine A := (Tasks.task hub exn A).

(** A stretch of code that runs without giving way. *)
Definition seg {A} (m : handler A) : coroutine A := attempt m.

(** Left alone, [t] is [m]. *)
Definition runs {A} (t : coroutine A) (m : handler A) : Prop := ∀ h, run t h = m h.

Lemma runs_seg {A} (m : handler A) : runs (seg m) m.
Proof. intros h. unfold seg, attempt. cbn. by destruct (m h). Qed.

Lemma runs_ret {A} (a : A) : runs (tret a) (pret a).
Proof. done. Qed.

Lemma runs_raise {A} e : runs (traise e : coroutine A) (praise e).
Proof. done. Qed.

Lemma runs_bind {A B} (t : coroutine A) m (f : A → coroutine B) g :
  runs t m → (∀ a, runs (f a) (g a)) → runs (tbind t f) (pbind m g).
Proof.
  intros Ht Hf h. rewrite run_bind, Ht. unfold pbind, bind. destruct (m h) as [[a|e] h']; [apply Hf|done].
Qed.

Lemma runs_catch {A} (t : coroutine A) m f g :
  runs t m → (∀ e, runs (f e) (g e)) → runs (tcatch t f) (try_except m g).
Proof.
  intros Ht Hf h. rewrite run_catch, Ht. unfold try_except, bind. destruct (m h) as [[a|e] h']; [done|apply Hf].
Qed.

(** Sequencing and branching follow the handler. *)
Create HintDb runsdb.
#[export] Hint Resolve @runs_seg @runs_ret @runs_raise : runsdb.
Ltac runs_steps :=
  repeat first
    [ progress intros
    | solve [auto with runsdb nocore]
    | apply runs_bind
    | apply runs_catch
    | case_match ].

(** A stretch that only moves along a relation. *)
Lemma wp_seg {A} (inv : hub → Prop) (grows : hub → hub → Prop) (m : handler A) Q h :
  (∀ h1, grows h h1 → inv h1 →
     inv (exec m h1) ∧ grows h1 (exec m h1) ∧ Q (eval m h1) (exec m h1)) →
  Tasks.wp inv grows (seg m) Q h.
Proof. intros H. apply wp_attempt. exact H. Qed.
