(* ===== verification/DispatchTasks.v ===== *)
(** A recovery dispatch at its awaits.

    [recovery_dispatch] of [shared/api/routes/_project_recovery.py] awaits the pool between
    reading the project and writing its mark.  Here it is cut at its awaits, next to any
    number of others and to the rest of the hub: a mark that stands keeps every dispatch
    away, and two dispatches that both read before either has written both start. *)

From S2P Require Import Prelude Tasks PyValue Datetime Decisions Hub HubTasks FixLoop Orchestrate Recovery InFlight.
Local Open Scope Z_scope.

Module DispatchTasks.
Import Hub FixLoop Orchestrate Recovery InFlight.
Local Open Scope task_scope.

Section WithEnv.
Context (E : env).

(** * The program *)
Definition recovery_status_task (reap : project → coroutine bool) (pid : string)
    : coroutine (option recovery_snapshot) :=
  p <- seg (load_project_full pid);;
  match p with
  | None => tret None
  | Some p =>
      i <- seg build_pending_decision_index;;
      reaped <- reap p;;
      tret (Some (snapshot E p (pending_count_for_project p i)
                   (if reaped : bool then VNone else get "recovery_dispatch_in_flight" (p_meta p))))
  end.

Definition publish_pulse_task (reap : project → coroutine bool) (pid : string) (extra : dict) : coroutine unit :=
  tcatch
    (status <- recovery_status_task reap pid;;
     match status with
     | None => tret tt
     | Some s =>
         t <- seg (pgets now);;
         seg (publish_event ([("type", VStr "recovery_pulse"); ("project_uuid", VStr pid); ("ts", VInt t)]
                ++ dict_update (pulse_fields s) extra))
     end)
    (fun _ => tret tt).

Fixpoint reap_stale_task (depth : nat) (p : project) : coroutine bool :=
  t <- seg (pgets now);;
  if negb (is_stale t p) then tret false else
  seg (clear_in_flight (p_uuid p));;
  seg (publish_project_pulse (p_uuid p) pulse_idle);;
  match depth with
  | O => tret true
  | S depth' =>
      publish_pulse_task (reap_stale_task depth') (p_uuid p) [("dispatch_in_flight", VNone)];;
      tret true
  end.

(** The mark is made before the statement that writes it is awaited; the rest runs on
    without giving way. *)
Definition start_dispatch_task (p : project) (action actor : string) (note : option string)
    : coroutine dispatch_response :=
  params <- seg (lift (dispatch_params_of action p note));;
  t <- seg (pgets now);;
  feature <- seg (lift (if String.eqb action "retry_feature" then feature_iteration_start_patch (p_meta p)
                        else Ok []));;
  seg (persist_metadata_patch (p_uuid p)
    (dict_update [("recovery_dispatch_in_flight", in_flight_mark t action (dp_kind params) actor)] feature));;
  seg (publish_project_pulse (p_uuid p)
    [("current_phase", VStr (p_phase p)); ("dispatch_in_flight", VBool true);
     ("dispatch_kind", VStr (dp_kind params))]);;
  seg (schedule_recovery_pulse (p_uuid p));;
  seg (spawn (TRecovery p params actor));;
  tret (Started action (dp_kind params)).

Definition reset_fix_loop_task (p : project) : coroutine dispatch_response :=
  if negb (reset_allowed p) then tret ActionNotAllowed else
  seg (persist_metadata_patch (p_uuid p)
    [("code_review_blocked", VBool false); ("code_fix_iteration", VInt 0)]);;
  publish_pulse_task (reap_stale_task 1) (p_uuid p) [];;
  tret FixLoopReset.

Definition dispatch_resolved_task (p : project) (action actor : string) (note : option string)
    (auto_loop : bool) : coroutine dispatch_response :=
  t <- seg (pgets now);;
  let inflight := get "recovery_dispatch_in_flight" (p_meta p) in
  if in_flight t (p_meta p) then
    if auto_loop && String.eqb action "retry_engineer_remediate"
       && is_str (get "action" (dict_of inflight)) "retry_engineer_remediate"
    then tret RemediateAlreadyInFlight else tret DispatchInFlight
  else if String.eqb action "reset_fix_loop" then reset_fix_loop_task p
  else
    guard <- seg (if String.eqb action "retry_engineer_remediate" then remediate_guard p auto_loop
                  else pret None);;
    match guard with
    | Some g => tret (GuardRefused g)
    | None =>
        if negb (in_strs action (allowed p)) then tret ActionNotAllowed
        else start_dispatch_task p action actor note
    end.

Definition recovery_dispatch_task (pid action actor : string) (note : option string) (auto_loop : bool)
    : coroutine dispatch_response :=
  p <- seg (load_project_full pid);;
  match p with
  | None => tret ProjectNotFound
  | Some p =>
      match (if String.eqb action "resume" then pick_resume_action (e_files E) p else Some action) with
      | None => tret NoResumeAction
      | Some resolved =>
          reaped <- reap_stale_task 1 p;;
          let p' := if reaped : bool
                    then with_meta (dict_set "recovery_dispatch_in_flight" VNone (p_meta p)) p else p in
          dispatch_resolved_task p' resolved actor note auto_loop
      end
  end.

(** * Alone it is the handler *)
Lemma runs_status reap reap' pid :
  (∀ p, runs (reap p) (reap' p)) → runs (recovery_status_task reap pid) (recovery_status_with E reap' pid).
Proof. intros H. unfold recovery_status_task, recovery_status_with. runs_steps. Qed.
#[local] Hint Resolve runs_status : runsdb.

Lemma runs_pulse reap reap' pid x :
  (∀ p, runs (reap p) (reap' p)) → runs (publish_pulse_task reap pid x) (publish_pulse_with E reap' pid x).
Proof. intros H. unfold publish_pulse_task, publish_pulse_with. runs_steps. Qed.
#[local] Hint Resolve runs_pulse : runsdb.

Lemma runs_reap depth p : runs (reap_stale_task depth p) (reap_stale E depth p).
Proof. revert p. induction depth as [|d IH]; intros p; cbn [reap_stale_task reap_stale]; runs_steps. Qed.
#[local] Hint Resolve runs_reap : runsdb.

Lemma runs_start p action actor note : runs (start_dispatch_task p action actor note) (start_dispatch p action actor note).
Proof. unfold start_dispatch_task, start_dispatch. runs_steps. Qed.
#[local] Hint Resolve runs_start : runsdb.

Lemma runs_reset p : runs (reset_fix_loop_task p) (reset_fix_loop E p).
Proof. unfold reset_fix_loop_task, reset_fix_loop. runs_steps. Qed.
#[local] Hint Resolve runs_reset : runsdb.

Lemma runs_resolved p action actor note auto :
  runs (dispatch_resolved_task p action actor note auto) (dispatch_resolved E p action actor note auto).
Proof. unfold dispatch_resolved_task, dispatch_resolved. runs_steps. Qed.
#[local] Hint Resolve runs_resolved : runsdb.

(** Left alone, a dispatch cut at its awaits is [Recovery.recovery_dispatch]. *)
Theorem runs_dispatch pid action actor note auto :
  runs (recovery_dispatch_task pid action actor note auto) (recovery_dispatch E pid action actor note auto).
Proof. unfold recovery_dispatch_task, recovery_dispatch, reap_stale_dispatch_inflight. runs_steps. Qed.

(** * A standing mark *)
Definition standing (pid : string) (m : value) (limit : datetime) (h : hub) : Prop :=
  (∀ p, find_project pid (projects h) = Some p → get "recovery_dispatch_in_flight" (p_meta p) = m) ∧
  now h <= limit.

(** The workers of the project that wait in the queue. *)
Definition is_worker_of (pid : string) (t : Hub.task) : bool :=
  match t with TRecovery q _ _ => String.eqb (p_uuid q) pid | _ => false end.
Definition workers (pid : string) (h : hub) : nat := length (List.filter (is_worker_of pid) (tasks h)).

Definition turned_away (r : outcome exn dispatch_response) : Prop :=
  refused r ∨ r = Ok ProjectNotFound ∨ r = Raise DbError.

(** A dispatch of the project, by whomever, for whatever action. *)
Inductive dispatches (pid : string) : coroutine unit → Prop :=
| dispatches_intro action actor note auto :
    dispatches pid (recovery_dispatch_task pid action actor note auto;; tret tt).

(** Whatever the rest of the hub and the clock do while the mark stands, workers that
    end included; it queues no worker of its own for the project. *)
Definition elsewhere (pid : string) (m : value) (limit : datetime) (h h' : hub) : Prop :=
  standing pid m limit h' ∧ (workers pid h' <= workers pid h)%nat.

Section Standing.
Context (pid : string) (t0 : datetime) (action0 kind0 actor0 : string).
Context (Ht0 : representable t0).
Let m := in_flight_mark t0 action0 kind0 actor0.
Let limit := t0 + 300 * usec_per_sec.

Definition guarded (n : nat) (h : hub) : Prop := standing pid m limit h ∧ (workers pid h <= n)%nat.
Definition any_change (h h' : hub) : Prop := True.
#[local] Instance any_change_preorder : PreOrder any_change.
Proof. by split. Qed.

Lemma mark_fresh t md : get "recovery_dispatch_in_flight" md = m → t <= limit → in_flight t md = true.
Proof.
  intros Hm Ht. unfold in_flight. rewrite Hm. subst m limit. rewrite mark_truthy, mark_stale by done.
  apply negb_true_iff, Z.ltb_ge. lia.
Qed.

Lemma wp_now n (Q : outcome exn datetime → hub → Prop) h :
  (∀ t h1, t <= limit → guarded n h1 → Q (Ok t) h1) → Tasks.wp (guarded n) any_change (seg (pgets now)) Q h.
Proof.
  intros HQ. apply wp_seg. intros h1 _ [[Hm Hn] Hw]. rewrite exec_pgets, eval_pgets.
  split; [by split|]. split; [done|]. apply HQ; [done|by split].
Qed.

Lemma wp_load n h :
  Tasks.wp (guarded n) any_change (seg (load_project_full pid))
    (fun r _ => match r with
                | Ok (Some p) => get "recovery_dispatch_in_flight" (p_meta p) = m
                | Ok None => True
                | Raise e => e = DbError
                end) h.
Proof.
  apply wp_seg. intros h1 _ [[Hm Hn] Hw]. unfold guarded, standing, workers, load_project_full, statement.
  run_state. destruct (Hub.pool h1); cbn [negb]; run_state; [|done].
  destruct (hd false (pool_faults h1)); run_state; cbn; [done|]. split; [done|]. split; [done|].
  destruct (List.find (row_matches pid) (projects h1)) eqn:Hf; [|done]. by apply Hm.
Qed.

Lemma wp_guard {A} (inv : hub → Prop) grows (b : bool) (x y : coroutine A) Q h :
  Tasks.wp inv grows (if b then x else y) Q h ↔ (if b then Tasks.wp inv grows x Q h else Tasks.wp inv grows y Q h).
Proof. by destruct b. Qed.

(** Read under the mark, a dispatch is refused. *)
Lemma dispatch_turned_away n action actor note auto h :
  Tasks.wp (guarded n) any_change (recovery_dispatch_task pid action actor note auto)
    (fun r _ => turned_away r) h.
Proof.
  unfold recovery_dispatch_task, turned_away, refused. apply (Tasks.wp_bind _ _).
  eapply (Tasks.wp_mono _ _); [|apply wp_load]. intros r h1 _ Hr. destruct r as [[p|]|e]; [|cbn; auto|cbn; subst; auto].
  destruct (if String.eqb action "resume" then _ else _) as [resolved|]; [|cbn; auto].
  apply (Tasks.wp_bind _ _). cbn [reap_stale_task]. apply (Tasks.wp_bind _ _), (wp_now n).
  intros t h2 Ht _. assert (Hs : is_stale t p = false).
  { pose proof (mark_fresh t (p_meta p) Hr Ht) as Hf. unfold in_flight in Hf. unfold is_stale.
    apply andb_true_iff in Hf as [-> Hf]. by apply negb_true_iff in Hf. }
  rewrite Hs. cbn [negb]. cbn [Tasks.wp tret]. unfold dispatch_resolved_task. apply (Tasks.wp_bind _ _), (wp_now n).
  intros t2 h3 Ht2 _. rewrite (mark_fresh t2 (p_meta p) Hr Ht2). case_match; cbn; auto.
Qed.

Lemma standing_excludes h0 h l :
  standing pid m limit h0 →
  rtc (pool_step (dispatches pid) (elsewhere pid m limit)) (h0, []) (h, l) →
  standing pid m limit h ∧ (workers pid h <= workers pid h0)%nat.
Proof.
  intros Hs Hr. change (guarded (workers pid h0) (h, l).1).
  eapply (pool_invariant (guarded (workers pid h0)) any_change); [| |exact Hr|by split|].
  - intros t w [action actor note auto] _. apply (Tasks.wp_bind _ _).
    eapply (Tasks.wp_mono _ _); [|apply dispatch_turned_away]. by intros [?|?].
  - intros w w' [Hs' Hw] [_ Hn]. split; [|done]. split; [done|]. lia.
  - intros t Ht. cbn in Ht. by apply elem_of_nil in Ht.
Qed.
End Standing.

(** C4: a started dispatch keeps the others away.  It puts exactly one worker on the queue,
    for an action the project offers, and its mark on the project's row.  From then on, for
    as long as the row carries the mark and at most five minutes have passed, and whatever
    else the hub does meanwhile: dispatches of the project that begin now, any number of
    them, for any action, by anyone, in any interleaving of their statements, put no worker
    on the queue, and each that comes to its end has refused, has lost the project or the
    database.  A dispatch that read the project before the mark was written is not kept
    away ([both_start]), nor one after five minutes ([second_worker_after_window]). *)
Theorem dispatch_excludes pid action actor note auto h a k :
  isdigit pid = false → representable (now h) →
  eval (recovery_dispatch E pid action actor note auto) h = Ok (Started a k) →
  let h' := exec (recovery_dispatch E pid action actor note auto) h in
  let m := in_flight_mark (now h) a k actor in
  let limit := now h + 300 * usec_per_sec in
  (∃ q d, a ∈ allowed q ∧ dp_kind d = k ∧ p_uuid q = pid ∧
          tasks h' = tasks h ++ [TPulse pid; TRecovery q d actor]) ∧
  standing pid m limit h' ∧
  ∀ h1 l, rtc (pool_step (dispatches pid) (elsewhere pid m limit)) (h', []) (h1, l) →
    standing pid m limit h1 ∧ (workers pid h1 <= workers pid h')%nat ∧
    ∀ action2 actor2 note2 auto2,
      Tasks.wp (λ w, standing pid m limit w ∧ (workers pid w <= workers pid h')%nat) any_change
        (recovery_dispatch_task pid action2 actor2 note2 auto2) (λ r _, turned_away r) h1.
Proof.
  intros Hn Hrep Hst h' m limit.
  destruct (dispatch_marks _ _ _ _ _ _ _ _ _ Hn Hst) as (Hnow & _ & Hq & p & Hf & Hm). fold h' in Hnow, Hf, Hq.
  split; [exact Hq|]. assert (Hs : standing pid m limit h').
  { split; [|subst limit; rewrite Hnow; unfold usec_per_sec; lia]. intros q Hq'. rewrite Hf in Hq'. by injection Hq' as <-. }
  split; [exact Hs|]. intros h1 l Hr.
  destruct (standing_excludes pid (now h) a k actor Hrep h' h1 l Hs Hr) as [H1 H2].
  split; [exact H1|]. split; [exact H2|]. intros action2 actor2 note2 auto2.
  exact (dispatch_turned_away pid (now h) a k actor Hrep (workers pid h') action2 actor2 note2 auto2 h1).
Qed.
End WithEnv.

(** * Two dispatches at once *)
Definition demo_task : coroutine unit :=
  (recovery_dispatch_task demo_env "u" "retry_engineer" "founder" None false;; tret tt).

(** Both read the project before either writes its mark: both start, and two workers wait. *)
Example both_start :
  let '(h, l) := interleave ([0; 1] ++ repeat 0 20 ++ repeat 1 20)%nat (demo_hub, [demo_task; demo_task]) in
  workers "u" h = 2%nat ∧ l = [tret tt; tret tt].
Proof. vm_compute. done. Qed.

(** After one has started, two that begin now are refused, step by step. *)
Lemma dispatch_excludes_witness :
  let h' := exec demo_dispatch demo_hub in
  let p := interleave [0; 1; 0; 1; 0; 1]%nat (h', [demo_task; demo_task]) in
  workers "u" h' = 1%nat ∧ p.2 = [tret tt; tret tt] ∧ (workers "u" p.1 <= 1)%nat.
Proof.
  cbv zeta. split; [vm_compute; reflexivity|]. split; [vm_compute; reflexivity|].
  assert (Hrep : representable (now demo_hub)) by (unfold representable; vm_compute; by split).
  destruct (dispatch_excludes demo_env "u" "retry_engineer" "founder" None false demo_hub
              "retry_engineer" "sprint_plan_approval" eq_refl Hrep ltac:(vm_compute; reflexivity)) as (_ & _ & H).
  destruct (H (interleave [0; 1; 0; 1; 0; 1]%nat (exec demo_dispatch demo_hub, [demo_task; demo_task])).1
              (interleave [0; 1; 0; 1; 0; 1]%nat (exec demo_dispatch demo_hub, [demo_task; demo_task])).2) as (_ & Hw & _).
  - assert (Hd : dispatches demo_env "u" demo_task) by apply dispatches_intro.
    eapply rtc_l; [apply (step_begin _ _ _ [] _ Hd)|]. eapply rtc_l; [apply (step_begin _ _ _ [demo_task] _ Hd)|].
    rewrite <-surjective_pairing. apply interleave_steps.
  - etransitivity; [exact Hw|]. vm_compute. reflexivity.
Defined.

End DispatchTasks.
