(* ===== verification/Deploy.v ===== *)
(** Local deployments: the devops part of [shared/api/routes/_post_ack.py].

    A project is served from the hub's container by a managed subprocess bound to a
    port of a fixed range, or run once when it has no server.  The registry
    [_DEPLOY_PIDS] is the hub's [deployments]. *)

From S2P Require Import Prelude PyValue Datetime Decisions Hub FixLoop Orchestrate.
From Stdlib Require Import Ascii.
Local Open Scope Z_scope.

Module Deploy.
Import Hub FixLoop Orchestrate.
Local Open Scope proc_scope.

(** * Splitting a run block *)
Definition INSTALL_HINTS : list string :=
  ["npm install"; "npm ci"; "pip install"; "pnpm install"; "yarn install"; "yarn";
   "bundle install"; "cargo build"; "cargo fetch"; "go mod download"; "poetry install";
   "uv pip install"; "uv sync"].
Definition START_HINTS : list string :=
  ["npm start"; "npm run dev"; "yarn dev"; "uvicorn"; "fastapi run"; "python -m"; "python app";
   "cargo run"; "go run"; "flask run"; "rails server"].

Definition mentions (hints : list string) (line : string) : bool :=
  existsb (fun h => contains h (lower line)) hints.

Definition is_start_line (line : string) : bool :=
  negb (mentions INSTALL_HINTS line) && mentions START_HINTS line.

Definition is_comment_or_blank (line : string) : bool :=
  String.eqb line "" || startswith line "#".

Fixpoint classify_lines (lines : list string) : list string * list string :=
  match lines with
  | [] => ([], [])
  | raw :: rest =>
      let '(install, start) := classify_lines rest in
      let line := strip raw in
      if is_comment_or_blank line then (install, start)
      else if mentions INSTALL_HINTS line then (line :: install, start)
      else if mentions START_HINTS line then (install, line :: start)
      else (line :: install, start)
  end.
Definition classify_run_block (run_block : string) : list string * list string :=
  classify_lines (splitlines run_block).

(** * The workspace on disk and the processes, outside the model *)
Record workspace := {
  w_path : string;                      (* resolve_code_dir(...) *)
  w_exists : bool;                      (* resolve_code_dir(...).exists() *)
  w_file : string → bool;               (* (workspace / name).exists() *)
  w_scripts : list string               (* the script names of package.json, none if unreadable *)
}.
Record process := { pr_pid : Z; pr_returncode : option Z; pr_log : string }.

Record deploy_env := {
  de_workspace : string → dict → workspace;
  de_port_free : nat → Z → bool;                         (* can the port be bound *)
  de_spawn : nat → string → outcome string process;      (* the server, 3 s after its start *)
  de_run : nat → string → string * option Z              (* the one-shot command: log, exit code *)
}.

Definition DEPLOY_PORT_MIN : Z := 18000.
Definition DEPLOY_PORT_MAX : Z := 18019.

(** [range(MIN, MAX + 1)]. *)
Definition port_range : list Z := map (fun i => DEPLOY_PORT_MIN + Z.of_nat i) (seq 0 20).

Definition taken_ports (ds : list (string * deployment)) : list Z := omap (fun e => d_port e.2) ds.

Definition pick_free_port (free : Z → bool) (ds : list (string * deployment)) : option Z :=
  List.find (fun port => negb (existsb (Z.eqb port) (taken_ports ds)) && free port) port_range.

Section WithEnv.
Context (E : env) (D : deploy_env).

Definition remove_deployment (uuid : string) (ds : list (string * deployment)) : list (string * deployment) :=
  List.filter (fun e => negb (String.eqb e.1 uuid)) ds.

Definition stop_deployment (uuid : string) : handler bool :=
  found <- pgets (fun h => dict_lookup uuid (deployments h));;
  match found with
  | None => pret false
  | Some _ =>
      pmodify (fun h => set_deployments (remove_deployment uuid (deployments h)) h);;
      emit "deploy_stopped" uuid "devops_release" [];;
      pret true
  end.

Definition register (uuid : string) (d : deployment) : handler unit :=
  pmodify (fun h => set_deployments (dict_set uuid d (deployments h)) h).

(** * One-shot runs *)
Definition CLI_INSTALL_PREFIXES : list string :=
  ["npm install"; "npm ci"; "pnpm install"; "yarn install"; "pip install"; "poetry install";
   "uv sync"; "uv pip install"].

Definition cli_line (line : string) : bool :=
  negb (is_comment_or_blank line) && negb (existsb (startswith line) CLI_INSTALL_PREFIXES).

Definition detect_cli_container_cmd (w : workspace) (md : dict) : outcome exn (option string) :=
  if w_file w "smoke_test.sh" then Ok (Some "bash smoke_test.sh")
  else if w_file w "test_todo.py" then Ok (Some "python3 test_todo.py -v")
  else if w_file w "tests/test_todo.py" then Ok (Some "python3 tests/test_todo.py -v")
  else
    match py_or (get "code_run_block" md) (VStr "") with
    | VStr rb =>
        let run_block := strip rb in
        let lines := if String.eqb run_block "" || String.eqb run_block "# (no RUN block)" then []
                     else List.filter cli_line (map strip (splitlines run_block)) in
        match lines with
        | _ :: _ => Ok (Some (join " && " (take 12 lines)))
        | [] =>
            if w_file w "todo.py"
            then Ok (Some ("rm -f todo.json && python3 todo.py add " +:+ str1 dquote +:+ "buy milk" +:+
                           str1 dquote +:+ " && python3 todo.py list && python3 todo.py done 1 && python3 todo.py list"))
            else Ok None
        end
    | _ => Raise TypeError
    end.

Definition stop_prior (uuid : string) : handler unit :=
  prior <- pgets (fun h => dict_has uuid (deployments h));;
  if prior then stop_deployment uuid;; pret tt else pret tt.

Definition deploy_status_meta (p : project) (ok : bool) (more : dict) : dict :=
  [("kind", VStr "deploy_status"); ("project_uuid", VStr (p_uuid p));
   ("project_name", VStr (p_name p)); ("deploy_ok", VBool ok)] ++ more.

Definition cli_ok (rc : option Z) : bool := match rc with Some c => c =? 0 | None => false end.

(** The command is awaited and registered when it has ended. *)
Definition cli_register (p : project) (cmd : string) : handler (datetime * string * option Z) :=
  started <- pgets now;;
  n <- tick;;
  let '(log, rc) := de_run D n cmd in
  register (p_uuid p) {| d_port := None; d_cmd := cmd; d_started := started; d_alive := false;
                         d_log_tail := last_text 8000 log |};;
  pret (started, log, rc).

Definition cli_patch (started : datetime) (log : string) (rc : option Z) : dict :=
  [("deploy_cli_last_run", VInt started); ("deploy_cli_ok", VBool (cli_ok rc));
   ("deploy_cli_log", VStr (last_text 4000 log)); ("deploy_local_running", VBool false)].

Definition cli_report (p : project) (path cmd log : string) (rc : option Z) : handler unit :=
  let ok := cli_ok rc in
  emit "role_finished" (p_uuid p) "devops_release" [("cli_mode", VBool true); ("deploy_ok", VBool ok)];;
  let status := if ok then "✅ CLI smoke run passed"
                else "❌ CLI smoke run failed (rc=" +:+
                     match rc with Some c => str_of_Z c | None => "None" end +:+ ")" in
  enqueue E {| k_class := "approval"; k_project := p_uuid p;
    k_title := (if ok then "Container CLI run PASS — " else "Container CLI run FAILED — ") +:+ p_name p;
    k_body := "DevOps ran the project **inside the Hub container** as a one-shot CLI " +:+
      "(no web server to open). " +:+ status +:+ nl2 +:+ "## Command" +:+ nl2 +:+ "```bash" +:+ newline
      +:+ cmd +:+ newline +:+ "```" +:+ nl2 +:+ "**Workspace:** `" +:+ path +:+ "`" +:+ nl2 +:+
      "## Output" +:+ nl2 +:+ "```" +:+ newline +:+ Decisions.str_or (last_text 6000 log) "(no output)"
      +:+ newline +:+ "```" +:+ nl2 +:+
      "Ack to dismiss. Re-run from the project page **Run in container** button.";
    k_severity := if ok then Decisions.Info else Decisions.Warning; k_actions := approval_actions;
    k_meta := deploy_status_meta p ok [("deploy_cli_mode", VBool true)] |}.

Definition cli_run (p : project) (path cmd : string) : handler unit :=
  ran <- cli_register p cmd;;
  let '(started, log, rc) := ran in
  persist_metadata_patch (p_uuid p) (cli_patch started log rc);;
  cli_report p path cmd log rc.

Definition dispatch_cli_container_run (p : project) (path cmd : string) : handler unit :=
  stop_prior (p_uuid p);;
  cli_run p path cmd.

(** * Servers *)

(** [_harden]: the flags that bind the server to the published port. *)
Definition harden (is_next : bool) (port : Z) (cmd : string) : string :=
  let l := lower cmd in
  let flags := " --host 0.0.0.0 --port " +:+ str_of_Z port in
  if contains "npm run dev" l || contains "npm start" l then
    if is_next then cmd +:+ " -- -H 0.0.0.0 -p " +:+ str_of_Z port
    else if negb (contains "--host" l) then cmd +:+ " --" +:+ flags else cmd
  else if contains "vite" l || contains "astro dev" l then
    if negb (contains "--host" l) then cmd +:+ flags else cmd
  else if contains "flask run" l && negb (contains "--host" l) then cmd +:+ flags
  else if contains "uvicorn" l && negb (contains "--host" l) then cmd +:+ flags
  else cmd.

(** [devops_start_cmds] as the list of strings it is written as; anything else raises
    here, at the latest where the code joins the commands. *)
Fixpoint all_strings (l : list value) : outcome exn (list string) :=
  match l with
  | [] => Ok []
  | VStr s :: l' => rest ← all_strings l'; Ok (s :: rest)
  | _ => Raise TypeError
  end.

(** The start commands before the entry points of a project without any. *)
Definition package_commands (w : workspace) (operate : bool) (cmds : list string) : list string :=
  let has s := in_strs s (w_scripts w) in
  if negb (w_file w "package.json") then cmds
  else if operate && has "build" && has "start" then ["npm run build && npm run start"]
  else if has "dev" && negb operate then ["npm run dev"]
  else match cmds with [] => ["npm start"] | _ => cmds end.

Definition install_prelude (w : workspace) : list string :=
  if w_file w "package.json" && negb (w_file w "node_modules")
  then ["npm install --no-audit --no-fund"]
  else if w_file w "requirements.txt" then ["pip install -q -r requirements.txt"] else [].

Definition is_next_project (w : workspace) : bool :=
  w_file w "next.config.ts" || w_file w "next.config.js" || w_file w "next.config.mjs".

Definition deploy_failed_card (p : project) (text : string) : card_kwargs :=
  {| k_class := "approval"; k_project := p_uuid p; k_title := "Local deploy FAILED — " +:+ p_name p;
     k_body := text; k_severity := Decisions.Warning; k_actions := approval_actions;
     k_meta := deploy_status_meta p false [] |}.

Definition deploy_failed (p : project) (error text : string) : handler unit :=
  emit "role_failed" (p_uuid p) "devops_release" [("error", VStr error)];;
  enqueue E (deploy_failed_card p text).

Definition url_of (port : Z) : string := "http://localhost:" +:+ str_of_Z port.

Definition deploy_card (p : project) (port : Z) (cmd : string) (pr : process) : card_kwargs :=
  let running := match pr_returncode pr with None => true | Some _ => false end in
  let status := match pr_returncode pr with
                | None => "✅ Live at [" +:+ url_of port +:+ "](" +:+ url_of port +:+ ")"
                | Some rc => "❌ Process exited (rc=" +:+ str_of_Z rc +:+ ") — see log tail"
                end in
  {| k_class := "approval"; k_project := p_uuid p; k_title := "Local deployment — " +:+ p_name p;
     k_body := "DevOps started the project locally. " +:+ status +:+ nl2 +:+ "## Command" +:+ nl2 +:+
       "```bash" +:+ newline +:+ cmd +:+ newline +:+ "```" +:+ nl2 +:+ "**Port:** " +:+ str_of_Z port +:+
       " (range 18000-18019 published from Hub container)  " +:+ newline +:+
       "**Workspace:** `/var/lib/spine/projects/" +:+ p_uuid p +:+ "/`  " +:+ newline +:+
       "**PID:** " +:+ str_of_Z (pr_pid pr) +:+ nl2 +:+ "## Recent stdout/stderr" +:+ nl2 +:+ "```" +:+
       newline +:+ Decisions.str_or (take_text 2000 (pr_log pr)) "(no output yet)" +:+ newline +:+ "```"
       +:+ nl2 +:+ "Approve to keep running. Reject to stop the process (engineer can iterate).";
     k_severity := if running then Decisions.Info else Decisions.Warning; k_actions := approval_actions;
     k_meta := deploy_status_meta p running
       [("deploy_url", VStr (url_of port)); ("deploy_port", VInt port)] |}.

(** The process is awaited and registered when it is there. *)
Definition spawn_server (p : project) (cmd : string) (port : Z) : handler (outcome string (process * datetime)) :=
  m <- tick;;
  match de_spawn D m cmd with
  | Raise err => pret (Raise err)
  | Ok pr =>
      started <- pgets now;;
      register (p_uuid p) {| d_port := Some port; d_cmd := cmd; d_started := started;
                             d_alive := match pr_returncode pr with None => true | Some _ => false end;
                             d_log_tail := pr_log pr |};;
      pret (Ok (pr, started))
  end.

Definition server_command (w : workspace) (cmds : list string) (port : Z) : string :=
  join " && " (install_prelude w ++ map (harden (is_next_project w) port) cmds).

Definition announce_server (p : project) (port : Z) (cmd : string) (pr : process) : handler unit :=
  emit "role_finished" (p_uuid p) "devops_release"
    [("deploy_url", VStr (url_of port));
     ("running", VBool match pr_returncode pr with None => true | Some _ => false end)];;
  enqueue E (deploy_card p port cmd pr).

Definition server_patch (port : Z) (started : datetime) (pr : process) : dict :=
  [("deploy_local_url", VStr (url_of port)); ("deploy_local_port", VInt port);
   ("deploy_local_started", VInt started);
   ("deploy_local_running", VBool match pr_returncode pr with None => true | Some _ => false end)].

(** [asyncio.sleep(3.0)]. *)
Definition sleep3 : handler unit := pmodify (fun h => set_now (now h + 3 * usec_per_sec) h).

(** From the port on.  In the operate phase the code evaluates [datetime.now(UTC)] in
    a module that imports neither name: Python raises [NameError] there, after the
    process was started and registered. *)
Definition serve_on (p : project) (w : workspace) (operate : bool) (cmds : list string) (port : Z)
    : handler unit :=
  let cmd := server_command w cmds port in
  spawned <- spawn_server p cmd port;;
  match spawned with
  | Raise err => emit "role_failed" (p_uuid p) "devops_release" [("error", VStr err)]
  | Ok (pr, started) =>
      sleep3;;
      if operate then praise NameError
      else
        persist_metadata_patch (p_uuid p) (server_patch port started pr);;
        announce_server p port cmd pr
  end.

Definition pick_port : handler (option Z) :=
  n <- tick;; pgets (fun h => pick_free_port (de_port_free D n) (deployments h)).

Definition no_port_left (p : project) : handler unit :=
  deploy_failed p "no free port in 9000-9019 range"
    "No free port in the 18000-18019 range — stop another deployment first.".

Definition serve (p : project) (w : workspace) (operate : bool) (cmds : list string) : handler unit :=
  port <- pick_port;;
  match port with
  | None => no_port_left p
  | Some port => serve_on p w operate cmds port
  end.

Definition dispatch_local_deploy (p : project) : handler unit :=
  emit "role_started" (p_uuid p) "devops_release" [("message", VStr "standing up local deployment…")];;
  let w := de_workspace D (p_uuid p) (p_meta p) in
  if negb (w_exists w) then pret tt else
  cmds <- lift (l ← list_of (get "devops_start_cmds" (p_meta p)); all_strings l);;
  let operate := String.eqb (p_phase p) "operate" in
  let cmds := package_commands w operate cmds in
  match cmds with
  | _ :: _ => stop_prior (p_uuid p);; serve p w operate cmds
  | [] =>
      if w_file w "app.py" || w_file w "main.py" then
        stop_prior (p_uuid p);;
        serve p w operate [if w_file w "app.py" then "python app.py" else "python main.py"]
      else
        cli <- lift (detect_cli_container_cmd w (p_meta p));;
        match cli with
        | Some cmd => dispatch_cli_container_run p (w_path w) cmd
        | None =>
            deploy_failed p "no start command in metadata or detectable entry point"
              ("Couldn't find a start command. Engineer didn't emit one and " +:+
               "no `package.json` / `app.py` / `main.py` / CLI smoke script in workspace.")
        end
  end.

End WithEnv.

(** ** Properties *)
Definition is_blank_line (l : string) : bool := is_comment_or_blank l.

(** A run block is split without loss.  The install and the start commands are the
    stripped lines of the block that are neither blank nor comments, each in exactly
    one of the two lists and in the order of the block; a line is a start command when
    it names a server and no installer. *)
Theorem classify_run_block_splits rb :
  let lines := List.filter (fun l => negb (is_blank_line l)) (map strip (splitlines rb)) in
  classify_run_block rb =
    (List.filter (fun l => negb (is_start_line l)) lines, List.filter is_start_line lines) ∧
  (classify_run_block rb).1 ++ (classify_run_block rb).2 ≡ₚ lines.
Proof.
  cbn zeta. unfold classify_run_block.
  assert (H : classify_lines (splitlines rb) =
    (List.filter (fun l => negb (is_start_line l)) (List.filter (fun l => negb (is_blank_line l)) (map strip (splitlines rb))),
     List.filter is_start_line (List.filter (fun l => negb (is_blank_line l)) (map strip (splitlines rb))))).
  { induction (splitlines rb) as [|raw rest IH]; cbn [classify_lines map List.filter]; [done|].
    rewrite IH. unfold is_blank_line. destruct (is_comment_or_blank (strip raw)); [done|].
    cbn [negb List.filter].
    assert (Hs : is_start_line (strip raw) =
      negb (mentions INSTALL_HINTS (strip raw)) && mentions START_HINTS (strip raw)) by done.
    rewrite Hs.
    destruct (mentions INSTALL_HINTS (strip raw)); [done|].
    by destruct (mentions START_HINTS (strip raw)). }
  rewrite H. split; [done|]. cbn [fst snd].
  generalize (List.filter (fun l => negb (is_blank_line l)) (map strip (splitlines rb))).
  intros l. induction l as [|x l IH]; cbn; [done|].
  destruct (is_start_line x); cbn; [|by f_equiv].
  rewrite <- Permutation_middle. by f_equiv.
Qed.

(** *** Ports *)
Definition ports_ok (h : hub) : Prop :=
  NoDup (deployments h).*1 ∧ NoDup (taken_ports (deployments h)) ∧
  ∀ p, p ∈ taken_ports (deployments h) → DEPLOY_PORT_MIN <= p <= DEPLOY_PORT_MAX.

Definition keeps_ports (h h' : hub) : Prop := ports_ok h → ports_ok h'.

#[local] Instance keeps_ports_preorder : PreOrder keeps_ports.
Proof. split; [intros h H; exact H|]. intros h1 h2 h3 A B H. auto. Qed.

Create HintDb portsdb.
#[local] Hint Extern 1 (within keeps_ports (pret _)) => apply within_pret; typeclasses eauto : portsdb.
#[local] Hint Extern 1 (within keeps_ports (praise _)) => apply within_praise; typeclasses eauto : portsdb.
#[local] Hint Extern 1 (within keeps_ports (pgets _)) => apply within_pgets; typeclasses eauto : portsdb.

Ltac ports_steps :=
  repeat first
    [ progress intros
    | solve [auto with portsdb nocore]
    | apply within_pbind; [typeclasses eauto| |]
    | (apply within_pmodify; [typeclasses eauto|]; intros; solve [intros Hw; exact Hw])
    | case_match ].

Lemma statement_ports : within keeps_ports statement.
Proof. unfold statement. ports_steps. Qed.
Lemma on_store_ports {A} (m : state Decisions.store A) : within keeps_ports (on_store m).
Proof. unfold on_store. ports_steps. Qed.
Lemma tick_ports : within keeps_ports tick.
Proof. unfold tick. ports_steps. Qed.
Lemma lift_ports {A} (o : outcome exn A) : within keeps_ports (lift o).
Proof. destruct o; cbn [lift]; ports_steps. Qed.
Lemma spawn_ports t : within keeps_ports (spawn t).
Proof. unfold spawn. ports_steps. Qed.
#[local] Hint Resolve statement_ports on_store_ports tick_ports lift_ports spawn_ports : portsdb.
Lemma persist_ports pid patch : within keeps_ports (persist_metadata_patch pid patch).
Proof. unfold persist_metadata_patch. ports_steps. Qed.
Lemma ppulse_ports u f : within keeps_ports (publish_project_pulse u f).
Proof. unfold publish_project_pulse, publish_event. ports_steps. Qed.
#[local] Hint Resolve persist_ports ppulse_ports : portsdb.
Lemma emit_ports e u r x : within keeps_ports (emit e u r x).
Proof. unfold emit, publish_event, schedule_recovery_pulse. ports_steps. Qed.
Lemma enqueue_ports E k : within keeps_ports (enqueue E k).
Proof. unfold enqueue. ports_steps. Qed.
#[local] Hint Resolve emit_ports enqueue_ports : portsdb.

Lemma dict_lookup_fst {V} (u : string) (ds : list (string * V)) : u ∉ ds.*1 → dict_lookup u ds = None.
Proof.
  induction ds as [|[k v] ds IH]; cbn; [done|]. rewrite not_elem_of_cons. intros [Hk Hu].
  destruct (String.eqb_spec u k); [done|auto].
Qed.

(** The registry after an entry is set: the other entries and the new one. *)
Lemma dict_set_perm {V} (u : string) (v : V) (ds : list (string * V)) :
  NoDup ds.*1 → ∃ rest, dict_set u v ds ≡ₚ (u, v) :: rest ∧ sublist rest ds ∧ u ∉ rest.*1.
Proof.
  induction ds as [|[k w] ds IH]; cbn; [exists []; split_and!; [done|done|apply not_elem_of_nil]|].
  rewrite NoDup_cons. intros [Hk Hn].
  destruct (String.eqb_spec u k) as [->|Hne].
  - exists ds. split_and!; [done|by constructor|done].
  - destruct (IH Hn) as (rest & Hp & Hs & Hu). exists ((k, w) :: rest). split_and!.
    + rewrite Hp. by apply Permutation_swap.
    + by constructor.
    + cbn. rewrite not_elem_of_cons. done.
Qed.

Lemma taken_ports_sublist l1 l2 : sublist l1 l2 → sublist (taken_ports l1) (taken_ports l2).
Proof.
  induction 1 as [|x l1 l2 _ IH|x l1 l2 _ IH]; cbn; [constructor| |].
  - destruct (d_port x.2); [by constructor|done].
  - destruct (d_port x.2); [by constructor|done].
Qed.

Lemma ports_sublist h ds :
  sublist ds (deployments h) → ports_ok h → ports_ok (set_deployments ds h).
Proof.
  intros Hs (H1 & H2 & H3). pose proof (taken_ports_sublist _ _ Hs) as Ht. split_and!; cbn [deployments set_deployments].
  - apply (sublist_NoDup _ (deployments h).*1); [done|by apply fmap_sublist].
  - by eapply sublist_NoDup.
  - intros p Hp. apply H3. by eapply elem_of_sublist.
Qed.

Lemma filter_bool_sublist {A} (f : A → bool) l : sublist (List.filter f l) l.
Proof. induction l as [|x l IH]; cbn; [done|]. destruct (f x); by constructor. Qed.

Lemma stop_ports u : within keeps_ports (stop_deployment u).
Proof.
  unfold stop_deployment. ports_steps.
  apply within_pmodify; [typeclasses eauto|]. intros h Hok. revert Hok. apply ports_sublist, filter_bool_sublist.
Qed.
Lemma eval_register u d h : eval (register u d) h = Ok tt.
Proof. unfold register. by run_state. Qed.
#[local] Hint Resolve stop_ports : portsdb.
Lemma stop_prior_ports u : within keeps_ports (stop_prior u).
Proof. unfold stop_prior. ports_steps. Qed.
#[local] Hint Resolve stop_prior_ports : portsdb.

Lemma register_ports u d h :
  (∀ p, d_port d = Some p → p ∉ taken_ports (deployments h) ∧ DEPLOY_PORT_MIN <= p <= DEPLOY_PORT_MAX) →
  keeps_ports h (exec (register u d) h).
Proof.
  intros Hd (H1 & H2 & H3). unfold register. run_state.
  destruct (dict_set_perm u d (deployments h) H1) as (rest & Hp & Hs & Hu).
  pose proof (taken_ports_sublist _ _ Hs) as Ht.
  assert (Htp : taken_ports (dict_set u d (deployments h)) ≡ₚ
                option_list (d_port d) ++ taken_ports rest).
  { unfold taken_ports. rewrite Hp. cbn. by destruct (d_port d). }
  unfold ports_ok. cbn [deployments set_deployments]. split_and!.
  - rewrite Hp. cbn. constructor; [done|]. apply (sublist_NoDup _ (deployments h).*1); [done|by apply fmap_sublist].
  - rewrite Htp. destruct (d_port d) as [p|] eqn:Hdp; cbn; [|by eapply sublist_NoDup].
    constructor; [|by eapply sublist_NoDup]. intros Hin. destruct (Hd p eq_refl) as [Hn _].
    apply Hn. by eapply elem_of_sublist.
  - intros p. rewrite Htp, elem_of_app. intros [Hin|Hin].
    + destruct (d_port d) as [q|]; cbn in Hin; [|by apply elem_of_nil in Hin].
      apply list_elem_of_singleton in Hin as ->. by apply Hd.
    + apply H3. by eapply elem_of_sublist.
Qed.

Lemma pick_free_port_spec free ds p :
  pick_free_port free ds = Some p →
  p ∉ taken_ports ds ∧ DEPLOY_PORT_MIN <= p <= DEPLOY_PORT_MAX ∧ free p = true.
Proof.
  unfold pick_free_port. intros [Hin Hb]%List.find_some. apply andb_true_iff in Hb as [Hn Hf].
  split_and!; [| | |done].
  - intros Hp. apply negb_true_iff in Hn. rewrite existsb_elem_false in Hn.
    specialize (Hn p Hp). by rewrite Z.eqb_refl in Hn.
  - apply in_map_iff in Hin as (i & <- & _). unfold DEPLOY_PORT_MIN. lia.
  - apply in_map_iff in Hin as (i & <- & Hi%in_seq). unfold DEPLOY_PORT_MIN, DEPLOY_PORT_MAX. lia.
Qed.

(** *** The registry over time *)
Section Registry.
Context (E : env) (D : deploy_env).

Lemma register_portless u d : d_port d = None → within keeps_ports (register u d).
Proof. intros Hd h. apply register_ports. by rewrite Hd. Qed.

Lemma cli_register_ports p cmd : within keeps_ports (cli_register D p cmd).
Proof. unfold cli_register. ports_steps. by apply register_portless. Qed.
Lemma cli_report_ports p path cmd log rc : within keeps_ports (cli_report E p path cmd log rc).
Proof. unfold cli_report. ports_steps. Qed.
#[local] Hint Resolve cli_register_ports cli_report_ports : portsdb.
Lemma cli_run_ports p path cmd : within keeps_ports (cli_run E D p path cmd).
Proof. unfold cli_run. ports_steps. Qed.
#[local] Hint Resolve cli_run_ports : portsdb.
Lemma cli_ports p path cmd : within keeps_ports (dispatch_cli_container_run E D p path cmd).
Proof. unfold dispatch_cli_container_run. ports_steps. Qed.

Lemma failed_ports p e t : within keeps_ports (deploy_failed E p e t).
Proof. unfold deploy_failed. ports_steps. Qed.
#[local] Hint Resolve cli_ports failed_ports : portsdb.

Lemma spawn_server_ports p cmd port h :
  port ∉ taken_ports (deployments h) → DEPLOY_PORT_MIN <= port <= DEPLOY_PORT_MAX →
  keeps_ports h (exec (spawn_server D p cmd port) h).
Proof.
  intros Hfree Hrange. unfold spawn_server, tick. run_state.
  destruct (de_spawn D (ticks h) _) as [pr|err]; run_state; [|by intros H].
  match goal with |- keeps_ports h ?x => change (keeps_ports (set_ticks (S (ticks h)) h) x) end.
  rewrite eval_register. apply register_ports. intros q [= <-]. by split.
Qed.

Lemma announce_ports p port cmd pr : within keeps_ports (announce_server E p port cmd pr).
Proof. unfold announce_server. ports_steps. Qed.
Lemma sleep_ports : within keeps_ports sleep3.
Proof. unfold sleep3. ports_steps. Qed.
Lemma no_port_ports p : within keeps_ports (no_port_left E p).
Proof. unfold no_port_left. ports_steps. Qed.
#[local] Hint Resolve announce_ports sleep_ports no_port_ports : portsdb.

Lemma serve_on_ports p w op cmds port h :
  port ∉ taken_ports (deployments h) → DEPLOY_PORT_MIN <= port <= DEPLOY_PORT_MAX →
  keeps_ports h (exec (serve_on E D p w op cmds port) h).
Proof.
  intros Hfree Hrange. unfold serve_on. rewrite exec_pbind.
  etransitivity; [by apply (spawn_server_ports p (server_command w cmds port) port)|].
  destruct (eval (spawn_server _ _ _ _) h) as [[[pr t]|err]|]; [|apply emit_ports|done].
  match goal with |- keeps_ports _ (exec ?m _) => enough (within keeps_ports m) as Hm by apply Hm end. ports_steps.
Qed.

Lemma pick_port_found h port h' :
  pick_port D h = (Ok (Some port), h') →
  port ∉ taken_ports (deployments h') ∧ DEPLOY_PORT_MIN <= port <= DEPLOY_PORT_MAX ∧ deployments h' = deployments h.
Proof.
  intros Hp. assert (He : eval (pick_port D) h = Ok (Some port) ∧ exec (pick_port D) h = h')
    by (unfold eval, exec; by rewrite Hp).
  revert He. unfold pick_port, tick. run_state. intros [[= Hpick] <-]. cbn [deployments set_ticks] in *.
  by destruct (pick_free_port_spec _ _ _ Hpick) as (? & ? & _).
Qed.

Lemma serve_ports p w op cmds : within keeps_ports (serve E D p w op cmds).
Proof.
  intros h. unfold serve. rewrite exec_pbind. destruct (pick_port D h) as [r h'] eqn:Hp.
  assert (He : eval (pick_port D) h = r ∧ exec (pick_port D) h = h') by (unfold eval, exec; by rewrite Hp).
  destruct He as [-> ->]. assert (Hk : keeps_ports h h').
  { assert (Hw : within keeps_ports (pick_port D)) by (unfold pick_port; ports_steps).
    specialize (Hw h). unfold exec in Hw. by rewrite Hp in Hw. }
  destruct r as [[port|]|e]; [| |done].
  - destruct (pick_port_found _ _ _ Hp) as (Hfree & Hrange & _). etransitivity; [exact Hk|]. by apply serve_on_ports.
  - etransitivity; [exact Hk|]. apply no_port_ports.
Qed.
#[local] Hint Resolve serve_ports : portsdb.

Lemma deploy_ports p : within keeps_ports (dispatch_local_deploy E D p).
Proof. unfold dispatch_local_deploy. ports_steps. Qed.

Lemma ports_count h : ports_ok h → (length (taken_ports (deployments h)) <= 20)%nat.
Proof.
  intros (_ & Hn & Hr). transitivity (length port_range); [|done].
  apply submseteq_length, NoDup_submseteq; [done|]. intros p Hp%Hr. unfold port_range.
  apply list_elem_of_In, in_map_iff. exists (Z.to_nat (p - DEPLOY_PORT_MIN)).
  unfold DEPLOY_PORT_MIN, DEPLOY_PORT_MAX in *. split; [lia|]. apply in_seq. lia.
Qed.

(** What the hub does to the registry: it deploys a project or stops a deployment. *)
Inductive deploy_op := Deploy (p : project) | Stop (uuid : string).
Definition run_op (h : hub) (o : deploy_op) : hub :=
  match o with
  | Deploy p => exec (dispatch_local_deploy E D p) h
  | Stop u => exec (stop_deployment u) h
  end.

(** Deployments that run one after another.  After any sequence of deployments and stops,
    failed ones included, every project has at most one entry in the registry, the
    ports of the entries are pairwise different and lie in 18000-18019; so at most
    twenty servers are registered at a time. *)
Theorem ports_in_order ops h :
  deployments h = [] →
  let h' := fold_left run_op ops h in
  ports_ok h' ∧ (length (taken_ports (deployments h')) <= 20)%nat.
Proof.
  intros H0. cbn zeta.
  assert (Hok : ports_ok (fold_left run_op ops h)).
  { assert (Hh : ports_ok h).
    { unfold ports_ok. rewrite H0. cbn. split_and!; [apply NoDup_nil_2..|]. intros p Hp. by apply elem_of_nil in Hp. }
    clear H0. revert h Hh. induction ops as [|[p|u] ops IH]; intros h Hh; cbn; [done|apply IH..].
    - by apply deploy_ports.
    - by apply stop_ports. }
  split; [done|]. by apply ports_count.
Qed.
End Registry.

(** A disk with a web project for everyone, and no port but 18001 and 18002 free. *)
Definition demo_deploy_env : deploy_env :=
  {| de_workspace := fun u _ => {| w_path := u; w_exists := true; w_file := fun _ => false; w_scripts := [] |};
     de_port_free := fun _ p => (p =? 18001) || (p =? 18002);
     de_spawn := fun _ _ => Ok {| pr_pid := 9; pr_returncode := None; pr_log := "up" |};
     de_run := fun _ _ => ("", Some 0) |}.
Definition served (u : string) : project :=
  {| p_id := 7; p_uuid := u; p_name := "Todo"; p_type := "feature"; p_phase := "released";
     p_status := "active"; p_pipeline := None; p_meta := [("devops_start_cmds", VList [VStr "flask run"])] |}.

Lemma ports_in_order_witness :
  let h' := fold_left (run_op refusing_env demo_deploy_env)
              [Deploy (served "a"); Deploy (served "b"); Deploy (served "a"); Deploy (served "c")] gate_hub in
  taken_ports (deployments h') = [18002; 18001] ∧ NoDup (taken_ports (deployments h')).
Proof.
  cbv zeta. split; [vm_compute; reflexivity|].
  destruct (ports_in_order refusing_env demo_deploy_env
    [Deploy (served "a"); Deploy (served "b"); Deploy (served "a"); Deploy (served "c")] gate_hub eq_refl)
    as ((_ & Hn & _) & _). exact Hn.
Defined.
End Deploy.
