(* ===== verification/DeployTasks.v ===== *)
(** Deployments at their awaits.

    [_dispatch_local_deploy] of [shared/api/routes/_post_ack.py] picks a port, awaits the
    process and registers both; a route starts it with [create_task], so that several can be
    on their way at once.  Here deployments and stops are cut at their awaits.  The ports of
    the registry stay different for as long as no two deployments wait for their processes
    at the same time; two that do can be given one port. *)

From S2P Require Import Prelude Tasks PyValue Datetime Decisions Hub HubTasks FixLoop Orchestrate Deploy.
Local Open Scope Z_scope.

Module DeployTasks.
Import Hub FixLoop Orchestrate Deploy.
Local Open Scope task_scope.

Section WithEnv.
Context (E : env) (D : deploy_env).

(** * The program *)

(** The entry is looked up, the process killed and awaited, the entry popped. *)
Definition stop_deployment_task (uuid : string) : coroutine bool :=
  found <- seg (pgets (fun h => dict_lookup uuid (deployments h)));;
  match found with
  | None => tret false
  | Some _ =>
      seg (pmodify (fun h => set_deployments (remove_deployment uuid (deployments h)) h));;
      seg (emit "deploy_stopped" uuid "devops_release" []);;
      tret true
  end.

Definition stop_prior_task (uuid : string) : coroutine unit :=
  prior <- seg (pgets (fun h => dict_has uuid (deployments h)));;
  if prior : bool then stop_deployment_task uuid;; tret tt else tret tt.

(** From the port on: the process is awaited, registered, given three seconds. *)
Definition serve_on_task (p : project) (w : workspace) (operate : bool) (cmds : list string) (port : Z)
    : coroutine unit :=
  let cmd := server_command w cmds port in
  spawned <- seg (spawn_server D p cmd port);;
  match spawned with
  | Raise err => seg (emit "role_failed" (p_uuid p) "devops_release" [("error", VStr err)])
  | Ok (pr, started) =>
      seg sleep3;;
      if operate then traise NameError
      else
        seg (persist_metadata_patch (p_uuid p) (server_patch port started pr));;
        seg (announce_server E p port cmd pr)
  end.

Definition serve_task (p : project) (w : workspace) (operate : bool) (cmds : list string) : coroutine unit :=
  port <- seg (pick_port D);;
  match port with
  | None => seg (no_port_left E p)
  | Some port => serve_on_task p w operate cmds port
  end.

(** A one-shot run: after the prior one is stopped, the command is awaited. *)
Definition cli_task (p : project) (path cmd : string) : coroutine unit :=
  stop_prior_task (p_uuid p);;
  ran <- seg (cli_register D p cmd);;
  let '(started, log, rc) := ran in
  seg (persist_metadata_patch (p_uuid p) (cli_patch started log rc));;
  seg (cli_report E p path cmd log rc).

Definition dispatch_local_deploy_task (p : project) : coroutine unit :=
  seg (emit "role_started" (p_uuid p) "devops_release" [("message", VStr "standing up local deployment…")]);;
  let w := de_workspace D (p_uuid p) (p_meta p) in
  if negb (w_exists w) then tret tt else
  cmds <- seg (lift (l ← list_of (get "devops_start_cmds" (p_meta p)); all_strings l));;
  let operate := String.eqb (p_phase p) "operate" in
  let cmds := package_commands w operate cmds in
  match cmds with
  | _ :: _ => stop_prior_task (p_uuid p);; serve_task p w operate cmds
  | [] =>
      if w_file w "app.py" || w_file w "main.py" then
        stop_prior_task (p_uuid p);;
        serve_task p w operate [if w_file w "app.py" then "python app.py" else "python main.py"]
      else
        cli <- seg (lift (detect_cli_container_cmd w (p_meta p)));;
        match cli with
        | Some cmd => cli_task p (w_path w) cmd
        | None =>
            seg (deploy_failed E p "no start command in metadata or detectable entry point"
              ("Couldn't find a start command. Engineer didn't emit one and " +:+
               "no `package.json` / `app.py` / `main.py` / CLI smoke script in workspace."))
        end
  end.

(** * Alone it is the handler *)
Lemma runs_stop u : runs (stop_deployment_task u) (stop_deployment u).
Proof. unfold stop_deployment_task, stop_deployment. runs_steps. Qed.
#[local] Hint Resolve runs_stop : runsdb.

Lemma runs_prior u : runs (stop_prior_task u) (stop_prior u).
Proof. unfold stop_prior_task, stop_prior. runs_steps. Qed.
#[local] Hint Resolve runs_prior : runsdb.

Lemma runs_serve_on p w op cmds port : runs (serve_on_task p w op cmds port) (serve_on E D p w op cmds port).
Proof. unfold serve_on_task, serve_on. runs_steps. Qed.
#[local] Hint Resolve runs_serve_on : runsdb.

Lemma runs_serve p w op cmds : runs (serve_task p w op cmds) (serve E D p w op cmds).
Proof. unfold serve_task, serve. runs_steps. Qed.
#[local] Hint Resolve runs_serve : runsdb.

Lemma runs_cli p path cmd : runs (cli_task p path cmd) (dispatch_cli_container_run E D p path cmd).
Proof. unfold cli_task, dispatch_cli_container_run, cli_run. runs_steps. Qed.
#[local] Hint Resolve runs_cli : runsdb.

(** Left alone, a deployment cut at its awaits is [Deploy.dispatch_local_deploy]. *)
Theorem runs_deploy p : runs (dispatch_local_deploy_task p) (dispatch_local_deploy E D p).
Proof. unfold dispatch_local_deploy_task, dispatch_local_deploy. runs_steps. Qed.

(** * What leaves the ports alone *)
Definition same_registry (h h' : hub) : Prop := deployments h' = deployments h.
#[local] Instance same_registry_preorder : PreOrder same_registry.
Proof. split; [by intros h|]. unfold same_registry. intros h1 h2 h3. congruence. Qed.

Create HintDb registrydb.
#[local] Hint Extern 1 (within same_registry (pret _)) => apply within_pret; typeclasses eauto : registrydb.
#[local] Hint Extern 1 (within same_registry (praise _)) => apply within_praise; typeclasses eauto : registrydb.
#[local] Hint Extern 1 (within same_registry (pgets _)) => apply within_pgets; typeclasses eauto : registrydb.
Ltac registry_steps :=
  repeat first
    [ progress intros
    | solve [auto with registrydb nocore]
    | apply within_pbind; [typeclasses eauto| |]
    | (apply within_pmodify; [typeclasses eauto|]; intros; reflexivity)
    | case_match ].

Lemma statement_registry : within same_registry statement.
Proof. unfold statement. registry_steps. Qed.
Lemma on_store_registry {A} (m : state Decisions.store A) : within same_registry (on_store m).
Proof. unfold on_store. registry_steps. Qed.
Lemma tick_registry : within same_registry tick.
Proof. unfold tick. registry_steps. Qed.
Lemma lift_registry {A} (o : outcome exn A) : within same_registry (lift o).
Proof. destruct o; cbn [lift]; registry_steps. Qed.
#[local] Hint Resolve statement_registry on_store_registry tick_registry lift_registry : registrydb.
Lemma persist_registry pid patch : within same_registry (persist_metadata_patch pid patch).
Proof. unfold persist_metadata_patch. registry_steps. Qed.
Lemma emit_registry e u r x : within same_registry (emit e u r x).
Proof. unfold emit, publish_project_pulse, publish_event, schedule_recovery_pulse, spawn. registry_steps. Qed.
Lemma enqueue_registry k : within same_registry (enqueue E k).
Proof. unfold enqueue. registry_steps. Qed.
Lemma sleep_registry : within same_registry sleep3.
Proof. unfold sleep3. registry_steps. Qed.
Lemma pick_registry : within same_registry (pick_port D).
Proof. unfold pick_port. registry_steps. Qed.
#[local] Hint Resolve persist_registry emit_registry enqueue_registry sleep_registry pick_registry : registrydb.
Lemma failed_registry p e t : within same_registry (deploy_failed E p e t).
Proof. unfold deploy_failed. registry_steps. Qed.
#[local] Hint Resolve failed_registry : registrydb.
Lemma no_port_registry p : within same_registry (no_port_left E p).
Proof. unfold no_port_left. registry_steps. Qed.
Lemma announce_registry p port cmd pr : within same_registry (announce_server E p port cmd pr).
Proof. unfold announce_server. registry_steps. Qed.
Lemma report_registry p path cmd log rc : within same_registry (cli_report E p path cmd log rc).
Proof. unfold cli_report. registry_steps. Qed.
#[local] Hint Resolve no_port_registry announce_registry report_registry : registrydb.

(** The registry stays in order and takes no new port. *)
Definition no_new_port (h h' : hub) : Prop :=
  ports_ok h → ports_ok h' ∧ taken_ports (deployments h') ⊆ taken_ports (deployments h).

Lemma no_new_port_same h h' : same_registry h h' → no_new_port h h'.
Proof. unfold same_registry, no_new_port, ports_ok. by intros ->. Qed.

Lemma remove_no_new_port u :
  within no_new_port (pmodify (fun h => set_deployments (remove_deployment u (deployments h)) h) : handler unit).
Proof.
  intros h Hok. rewrite exec_pmodify. cbn [deployments set_deployments].
  assert (Hs : sublist (remove_deployment u (deployments h)) (deployments h)) by apply filter_bool_sublist.
  split; [by apply ports_sublist|]. intros q Hq. eapply elem_of_sublist; [exact Hq|by apply taken_ports_sublist].
Qed.

Lemma register_portless_no_new u d : d_port d = None → within no_new_port (register u d).
Proof.
  intros Hd h Hok. split; [by apply register_portless|]. unfold register. rewrite exec_pmodify.
  destruct (dict_set_perm u d (deployments h) (proj1 Hok)) as (rest & Hp & Hs & _).
  cbn [deployments set_deployments]. intros q. unfold taken_ports. rewrite Hp. cbn. rewrite Hd.
  intros Hq. eapply elem_of_sublist; [exact Hq|by apply taken_ports_sublist].
Qed.

(** A coroutine all of whose actions do so. *)
Fixpoint quiet {A} (t : coroutine A) : Prop :=
  match t with
  | Done _ => True
  | Act f k => (∀ h, no_new_port h (f h).2) ∧ ∀ r, quiet (k r)
  end.

(** And one that may come to picking a port. *)
Definition picking (t : coroutine unit) : Prop := ∃ p w op cmds, t = serve_task p w op cmds.
Fixpoint calm (t : coroutine unit) : Prop :=
  match t with
  | Done _ => True
  | Act f k => picking t ∨ (∀ h, no_new_port h (f h).2) ∧ ∀ r, calm (k r)
  end.

Lemma quiet_seg {A} (m : handler A) : within no_new_port m → quiet (seg m).
Proof. intros Hm. split; [exact Hm|]. by intros. Qed.

Lemma quiet_same {A} (m : handler A) : within same_registry m → quiet (seg m).
Proof. intros Hm. apply quiet_seg. intros h. apply no_new_port_same, Hm. Qed.

Lemma quiet_bind {A B} (t : coroutine A) (f : A → coroutine B) :
  quiet t → (∀ a, quiet (f a)) → quiet (tbind t f).
Proof.
  intros Ht Hf. unfold tbind. induction t as [[a|e]|R g k IH]; cbn; [by apply Hf|done|].
  destruct Ht as [H1 H2]. split; [done|]. intros r. by apply IH.
Qed.

Lemma calm_quiet t : quiet t → calm t.
Proof. induction t as [r|R g k IH]; cbn; [done|]. intros [H1 H2]. right. split; [done|]. intros r. by apply IH. Qed.

Lemma calm_bind {A} (t : coroutine A) (f : A → coroutine unit) :
  quiet t → (∀ a, calm (f a)) → calm (tbind t f).
Proof.
  intros Ht Hf. unfold tbind. induction t as [[a|e]|R g k IH]; cbn [handle]; [by apply Hf|done|].
  destruct Ht as [H1 H2]. right. split; [done|]. intros r. by apply IH.
Qed.

Create HintDb calmdb.
#[local] Hint Extern 1 (quiet (tret _)) => exact I : calmdb.
#[local] Hint Extern 1 (quiet (traise _)) => exact I : calmdb.
#[local] Hint Extern 2 (quiet (seg _)) => (apply quiet_same; registry_steps) : calmdb.
Ltac calm_steps :=
  repeat first
    [ progress intros
    | solve [auto with calmdb nocore]
    | apply quiet_bind
    | apply calm_bind
    | case_match ].

Lemma stop_quiet u : quiet (stop_deployment_task u).
Proof. unfold stop_deployment_task. calm_steps. apply quiet_seg, remove_no_new_port. Qed.
#[local] Hint Resolve stop_quiet : calmdb.
Lemma stop_prior_quiet u : quiet (stop_prior_task u).
Proof. unfold stop_prior_task. calm_steps. Qed.
#[local] Hint Resolve stop_prior_quiet : calmdb.
Lemma cli_register_quiet p cmd : quiet (seg (cli_register D p cmd)).
Proof.
  apply quiet_seg. intros h. unfold cli_register, tick. run_state. destruct (de_run D (ticks h) cmd) as [log rc].
  run_state. rewrite eval_register. run_state. refine (register_portless_no_new _ _ _ (set_ticks (S (ticks h)) h)). done.
Qed.
#[local] Hint Resolve cli_register_quiet : calmdb.
Lemma cli_quiet p path cmd : quiet (cli_task p path cmd).
Proof. unfold cli_task. calm_steps. Qed.
#[local] Hint Resolve cli_quiet : calmdb.
#[local] Hint Extern 3 (calm (serve_task _ _ _ _)) => (left; do 4 eexists; reflexivity) : calmdb.
#[local] Hint Extern 4 (calm _) => (apply calm_quiet; auto with calmdb nocore) : calmdb.
Lemma deploy_calm p : calm (dispatch_local_deploy_task p).
Proof. unfold dispatch_local_deploy_task. calm_steps. Qed.

(** * Every interleaving *)

(** A deployment that has picked [port] and waits for its process. *)
Definition spawning (port : Z) (t : coroutine unit) : Prop :=
  ∃ p w op cmds, t = serve_on_task p w op cmds port.

(** No two of the coroutines do so at the same time. *)
Definition exclusive (l : list (coroutine unit)) : Prop :=
  ∀ l1 t l2 t' l3 q q', l = l1 ++ t :: l2 ++ t' :: l3 → spawning q t → spawning q' t' → False.

(** Projects are deployed and deployments stopped, by the ack of a card or by a route. *)
Inductive deploying : coroutine unit → Prop :=
| deploying_deploy p : deploying (dispatch_local_deploy_task p)
| deploying_stop u : deploying (stop_deployment_task u;; tret tt).

(** One step of any of them, the beginning or the end of one, or anything else the hub
    does, in which no two come to wait for their processes together. *)
Definition deploy_step (x y : Tasks.pool (W := hub) (E := exn)) : Prop :=
  pool_step deploying same_registry x y ∧ exclusive y.2.

(** Every coroutine is before its port or after its registration, or it holds a port that
    nobody has. *)
Definition placed (h : hub) (t : coroutine unit) : Prop :=
  calm t ∨ ∃ q, spawning q t ∧ q ∉ taken_ports (deployments h) ∧ DEPLOY_PORT_MIN <= q <= DEPLOY_PORT_MAX.
Definition placed_pool (x : Tasks.pool (W := hub) (E := exn)) : Prop :=
  ports_ok x.1 ∧ Forall (placed x.1) x.2 ∧ exclusive x.2.

Lemma placed_later h h' t :
  taken_ports (deployments h') ⊆ taken_ports (deployments h) → placed h t → placed h' t.
Proof. intros Hs [Hc|(q & Hq & Hf & Hr)]; [by left|right]. exists q. split_and!; [done| |lia..]. intros Hin. by apply Hf, Hs. Qed.

(** One action of a coroutine. *)
Definition advance (t : coroutine unit) (h : hub) : coroutine unit * hub :=
  match t with Done r => (Done r, h) | Act f k => (k (f h).1, (f h).2) end.

Lemma advance_pick t h :
  picking t → ports_ok h → placed (advance t h).2 (advance t h).1 ∧ deployments (advance t h).2 = deployments h.
Proof.
  intros (p & w & op & cmds & ->) Hok. unfold serve_task, seg, attempt, tbind. cbn [handle advance].
  pose proof (pick_registry h) as Hs. unfold same_registry, exec in Hs. split; [|exact Hs].
  destruct (pick_port D h) as [[[port|]|e] h'] eqn:Hp; cbn [fst snd handle].
  - right. exists port. destruct (pick_port_found _ _ _ _ Hp) as (Hf & Hr & _). split_and!; [by do 4 eexists|done|lia|lia].
  - left. apply calm_quiet, quiet_same, no_port_registry.
  - by left.
Qed.

Lemma serve_on_calm p w op cmds port h :
  calm (advance (serve_on_task p w op cmds port) h).1.
Proof.
  assert (Hrest : ∀ cmd pr started, quiet
    (seg sleep3;;
     if op then traise NameError
     else seg (persist_metadata_patch (p_uuid p) (server_patch port started pr));;
          seg (announce_server E p port cmd pr))) by calm_steps.
  assert (Hfail : ∀ err, quiet (seg (emit "role_failed" (p_uuid p) "devops_release" [("error", VStr err)]))) by calm_steps.
  unfold serve_on_task. change (seg (spawn_server ?D ?p ?c ?q)) with (Act (spawn_server D p c q) (@Done hub exn _)).
  unfold tbind at 1. cbn [handle advance].
  destruct (spawn_server D p (server_command w cmds port) port h) as [[[[pr started]|err]|e] h']; cbn [fst handle];
    [apply calm_quiet, Hrest|apply calm_quiet, Hfail|done].
Qed.

(** Registering the port that was picked. *)
Lemma advance_spawning t q h :
  spawning q t → q ∉ taken_ports (deployments h) → DEPLOY_PORT_MIN <= q <= DEPLOY_PORT_MAX → ports_ok h →
  ports_ok (advance t h).2 ∧ calm (advance t h).1.
Proof.
  intros (p & w & op & cmds & ->) Hf Hr Hok. split; [|apply serve_on_calm].
  exact (spawn_server_ports D p (server_command w cmds q) q h Hf Hr Hok).
Qed.

(** A step of one coroutine: the others keep their places. *)
Lemma advance_placed t h l1 l2 :
  ports_ok h → Forall (placed h) (l1 ++ t :: l2) → exclusive (l1 ++ t :: l2) →
  let '(t', h') := advance t h in ports_ok h' ∧ Forall (placed h') (l1 ++ t' :: l2).
Proof.
  intros Hok Hall Hex. destruct (advance t h) as [t' h'] eqn:Ha.
  assert (Ht' : t' = (advance t h).1 ∧ h' = (advance t h).2) by (by rewrite Ha). destruct Ht' as [Ht' Hh'].
  apply Forall_app in Hall as [H1 H2]. apply Forall_cons in H2 as [Ht H2].
  assert (Hmove : ports_ok h' → taken_ports (deployments h') ⊆ taken_ports (deployments h) → placed h' t' →
                  ports_ok h' ∧ Forall (placed h') (l1 ++ t' :: l2)).
  { intros Hok' Hsub Hp. split; [done|]. apply Forall_app. split; [|apply Forall_cons; split; [done|]];
      (eapply Forall_impl; [eassumption|]); intros x; by apply placed_later. }
  destruct Ht as [Hc|(q & Hq & Hf & Hr)].
  - destruct t as [r|R f k]; [cbn in Ha; injection Ha as <- <-; apply Hmove; [done|done|by left]|].
    destruct Hc as [Hp|[Hs Hk]].
    + destruct (advance_pick _ h Hp Hok) as [Hpl Hd]. rewrite <-Ht', <-Hh' in Hpl. rewrite <-Hh' in Hd.
      apply Hmove; [|by rewrite Hd|done]. revert Hok. unfold ports_ok. by rewrite Hd.
    + cbn in Ht', Hh'. destruct (Hs h Hok) as [Ho Hsub]. subst t' h'. apply Hmove; [done|done|left; apply Hk].
  - destruct (advance_spawning t q h Hq Hf Hr Hok) as [Ho Hcalm]. rewrite <-Ht' in Hcalm. rewrite <-Hh' in Ho.
    assert (Hothers : Forall calm (l1 ++ l2)).
    { apply Forall_app. split; apply list.Forall_forall; intros x Hx.
      - destruct (proj1 (list.Forall_forall _ _) H1 x Hx) as [|(q' & Hq' & _)]; [done|].
        apply list_elem_of_split in Hx as (la & lb & ->). exfalso.
        eapply (Hex la x lb t l2); [by rewrite <-app_assoc|exact Hq'|exact Hq].
      - destruct (proj1 (list.Forall_forall _ _) H2 x Hx) as [|(q' & Hq' & _)]; [done|].
        apply list_elem_of_split in Hx as (la & lb & ->). exfalso.
        eapply (Hex l1 t la x lb); [done|exact Hq|exact Hq']. }
    split; [done|]. apply Forall_app in Hothers as [Hc1 Hc2].
    apply Forall_app. split; [|apply Forall_cons; split; [by left|]]; (eapply Forall_impl; [eassumption|]); by left.
Qed.

Lemma deploy_step_placed x y : deploy_step x y → placed_pool x → placed_pool y.
Proof.
  intros [Hs Hex'] (Hok & Hall & Hex). unfold placed_pool.
  destruct Hs as [R w f k l1 l2|w l t Hb|w l1 t l2|w w' l Hw]; cbn [fst snd] in *.
  - pose proof (advance_placed (Act f k) w l1 l2 Hok Hall Hex) as Ha. cbn [advance] in Ha. by destruct Ha.
  - split_and!; [done| |done]. apply Forall_app. split; [done|]. apply Forall_singleton. left.
    destruct Hb as [p|u]; [apply deploy_calm|]. apply calm_bind; [apply stop_quiet|done].
  - split_and!; [done| |done]. apply Forall_app in Hall as [H1 H2]. apply Forall_cons in H2 as [_ H2].
    apply Forall_app. by split.
  - unfold same_registry in Hw. split_and!; [|eapply Forall_impl; [exact Hall|]; intros t; apply placed_later; by rewrite Hw|done].
    revert Hok. unfold ports_ok. by rewrite Hw.
Qed.

(** C9: deployments do not share a port unless two of them wait for their processes at the
    same time.  From a hub without deployments, in every interleaving of any number of
    deployments and stops, failing, dying or cancelled ones included, in which at most one
    deployment at a time is between picking its port and registering its process: every
    project has at most one entry in the registry, the ports of the entries are pairwise
    different and lie in 18000-18019, and at most twenty servers are registered.  The code
    does not see to the condition, and without it a port is given twice ([port_given_twice]). *)
Theorem ports_never_shared h h' l :
  deployments h = [] → rtc deploy_step (h, []) (h', l) →
  NoDup (deployments h').*1 ∧ NoDup (taken_ports (deployments h')) ∧
  (∀ q, q ∈ taken_ports (deployments h') → 18000 <= q <= 18019) ∧
  (length (taken_ports (deployments h')) <= 20)%nat.
Proof.
  intros H0 Hr. assert (Hp : placed_pool (h', l)).
  { refine (rtc_invariant _ _ deploy_step_placed _ _ Hr _). split_and!; cbn [fst snd].
    - unfold ports_ok. rewrite H0. cbn. split_and!; [apply NoDup_nil_2..|]. intros q Hq. by apply elem_of_nil in Hq.
    - constructor.
    - intros l1 t l2 t' l3 q q' Hl. by destruct l1. }
  destruct Hp as [(H1 & H2 & H3) _]. cbn [fst] in *. split_and!; [done|done|exact H3|by apply ports_count].
Qed.

(** A coroutine that is alone for a while. *)
Fixpoint advances (n : nat) (t : coroutine unit) (h : hub) : coroutine unit * hub :=
  match n with O => (t, h) | S n' => let '(t', h') := advance t h in advances n' t' h' end.

Lemma exclusive_alone l : (length l <= 1)%nat → exclusive l.
Proof.
  intros Hl l1 t l2 t' l3 q q' ->. exfalso. rewrite length_app in Hl. cbn in Hl. rewrite length_app in Hl. cbn in Hl. lia.
Qed.

Lemma advances_steps n t h :
  rtc deploy_step (h, [t]) (let '(t', h') := advances n t h in (h', [t'])).
Proof.
  revert t h. induction n as [|n IH]; intros t h; cbn [advances]; [done|].
  destruct (advance t h) as [t' h'] eqn:Ha. etransitivity; [|apply IH].
  destruct t as [r|R f k]; cbn in Ha; injection Ha as <- <-; [done|].
  apply rtc_once. split; [apply (step_act _ _ R h f k [] [])|]. by apply exclusive_alone.
Qed.
End WithEnv.

(** The ports 18001 and 18002 are free, and two projects are deployed.  Both pick before
    either has its process: both are registered on 18001. *)
Example port_given_twice :
  let '(h, l) := interleave ([0; 0; 0; 0; 1; 1; 1; 1] ++ repeat 0 9 ++ repeat 1 9)%nat
    (gate_hub, [dispatch_local_deploy_task refusing_env demo_deploy_env (served "a");
                dispatch_local_deploy_task refusing_env demo_deploy_env (served "b")]) in
  l = [tret tt; tret tt] ∧ (deployments h).*1 = ["a"; "b"] ∧ taken_ports (deployments h) = [18001; 18001].
Proof. vm_compute. done. Qed.

(** One after the other, they get a port each. *)
Lemma ports_never_shared_witness :
  let p1 := advances 20 (dispatch_local_deploy_task refusing_env demo_deploy_env (served "a")) gate_hub in
  let p2 := advances 20 (dispatch_local_deploy_task refusing_env demo_deploy_env (served "b")) p1.2 in
  taken_ports (deployments p2.2) = [18001; 18002] ∧ NoDup (taken_ports (deployments p2.2)).
Proof.
  cbv zeta. split; [vm_compute; reflexivity|].
  set (a := dispatch_local_deploy_task refusing_env demo_deploy_env (served "a")).
  set (b := dispatch_local_deploy_task refusing_env demo_deploy_env (served "b")).
  destruct (ports_never_shared refusing_env demo_deploy_env gate_hub
              (advances 20 b (advances 20 a gate_hub).2).2
              [(advances 20 b (advances 20 a gate_hub).2).1] eq_refl) as (_ & H & _); [|exact H].
  pose proof (advances_steps refusing_env demo_deploy_env 20 a gate_hub) as Ha.
  pose proof (advances_steps refusing_env demo_deploy_env 20 b (advances 20 a gate_hub).2) as Hb.
  destruct (advances 20 a gate_hub) as [a' h1]. cbn [fst snd] in *.
  destruct (advances 20 b h1) as [b' h2]. cbn [fst snd] in *.
  etransitivity; [apply rtc_once; split; [apply (step_begin _ _ _ [] _ (deploying_deploy _ _ (served "a")))|apply exclusive_alone; cbn; lia]|].
  etransitivity; [exact Ha|].
  etransitivity; [apply rtc_once; split; [apply (step_die _ _ _ [] a' [])|apply exclusive_alone; cbn; lia]|].
  etransitivity; [apply rtc_once; split; [apply (step_begin _ _ _ [] _ (deploying_deploy _ _ (served "b")))|apply exclusive_alone; cbn; lia]|].
  exact Hb.
Defined.

End DeployTasks.
