(* ===== verification/PostAck.v ===== *)
(** What a decision sets off: [on_decision_acked] and [on_decision_rejected] of
    [shared/api/routes/_post_ack.py], and the ack and reject handlers of
    [shared/api/routes/decisions.py] that schedule them. *)

From S2P Require Import Prelude PyValue Datetime Decisions Hub FixLoop Orchestrate Recovery Deploy.
From Stdlib Require Import Ascii.
Local Open Scope Z_scope.

Module PostAck.
Import Hub FixLoop Orchestrate Recovery Deploy.
Local Open Scope proc_scope.

(** * Deciding a card *)

(** [ack_decision_internal] and [reject_decision]: the transition, then the hook as a
    task of its own.  [None] is the route's 404. *)
Definition ack_decision_internal (did actor : string)
    : handler (option (Decisions.DecisionCard * Decisions.audit_event)) :=
  updated <- on_store (Decisions.atransition did Decisions.Acked (Some actor));;
  match updated with
  | None => pret None
  | Some c =>
      spawn (TAcked c actor);;
      pret (Some (c, Decisions.audit_decision_event "decision_acked" did actor (Decisions.project_id c)))
  end.

Definition reject_decision (did actor : string)
    : handler (option (Decisions.DecisionCard * Decisions.audit_event)) :=
  updated <- on_store (Decisions.atransition did Decisions.Rejected (Some actor));;
  match updated with
  | None => pret None
  | Some c =>
      spawn (TRejected c actor);;
      pret (Some (c, Decisions.audit_decision_event "decision_rejected" did actor (Decisions.project_id c)))
  end.

(** * Acks *)
Definition ROLE_OUTPUT_TO_DISPATCH_KIND : list (string * string) :=
  [("planner_approval", "prd_approval"); ("architect_approval", "roadmap_approval");
   ("conductor_approval", "trd_approval"); ("engineer_approval", "sprint_plan_approval");
   ("verify_approval", "code_approval"); ("devops_release_approval", "local_deploy_prompt");
   ("release_manager_approval", "qa_approval"); ("auditor_approval", "qa_approval")].

(** The kind the handlers see; a kind that is not a string matches none of them. *)
Definition ack_kind (md : dict) : string :=
  match get "kind" md with
  | VStr k => match dict_lookup k ROLE_OUTPUT_TO_DISPATCH_KIND with Some k' => k' | None => k end
  | _ => ""
  end.

(** [card.project_id or md.get("project_uuid")]. *)
Definition card_project (c : Decisions.DecisionCard) : value :=
  py_or (opt_value (Decisions.project_id c)) (get "project_uuid" (Decisions.metadata c)).

(** The next step of the kinds that only dispatch a role: card kind, next phase and
    the role named on a gap card. *)
Record role_step := { st_card : option string; st_next : option string; st_role : string }.

Definition ack_args (kind actor : string) (p : project) (st : role_step) (extra : option string)
    : orchestrate_args :=
  {| oa_kind := kind; oa_project := p; oa_actor := actor; oa_card := st_card st;
     oa_next_phase := st_next st; oa_extra := extra |}.

Definition plan_bucket : string := phase_bucket PHASE_PLAN_IN_PROGRESS.
Definition verify_bucket : string := phase_bucket PHASE_VERIFY_IN_PROGRESS.

Definition role_steps : list (string * role_step) :=
  [("prd_approval", {| st_card := Some "roadmap_approval"; st_next := Some plan_bucket; st_role := "planner" |});
   ("roadmap_approval", {| st_card := Some "trd_approval"; st_next := Some plan_bucket; st_role := "architect" |});
   ("trd_approval", {| st_card := Some "sprint_plan_approval"; st_next := Some plan_bucket; st_role := "conductor" |});
   ("sprint_plan_approval", {| st_card := Some "code_approval"; st_next := Some PHASE_VERIFY_IN_PROGRESS; st_role := "engineer" |});
   ("code_approval", {| st_card := None; st_next := None; st_role := "verify" |});
   ("code_review_pass", {| st_card := Some "devops_approval"; st_next := Some PHASE_VERIFY_IN_PROGRESS; st_role := "devops" |});
   ("code_review_blocked", {| st_card := Some "code_approval"; st_next := Some PHASE_VERIFY_IN_PROGRESS; st_role := "engineer" |});
   ("security_review_blocked", {| st_card := Some "code_approval"; st_next := Some PHASE_VERIFY_IN_PROGRESS; st_role := "engineer" |});
   ("devops_approval", {| st_card := Some "qa_approval"; st_next := Some verify_bucket; st_role := "qa" |});
   ("qa_approval", {| st_card := Some "release_gate_approval"; st_next := Some (phase_bucket PHASE_RELEASED); st_role := "release_manager" |});
   ("local_deploy_prompt", {| st_card := None; st_next := None; st_role := "devops_release" |})].

(** The phases a kind advances the project through before its role is dispatched. *)
Definition phase_steps (kind : string) : list (string * bool) :=
  if String.eqb kind "prd_approval" then [(PHASE_PLAN_IN_PROGRESS, false)]
  else if String.eqb kind "sprint_plan_approval"
  then [(PHASE_PLAN_APPROVED, true); (PHASE_BUILD_IN_PROGRESS, false)]
  else if String.eqb kind "devops_approval"
  then [(PHASE_BUILD_COMPLETE, false); (PHASE_VERIFY_IN_PROGRESS, false)]
  else if String.eqb kind "qa_approval" then [(PHASE_VERIFY_APPROVED, true)]
  else [].

(** [project.metadata.get("code_review_md", "")] fitted under a heading. *)
Definition review_feedback (kind : string) (p : project) : outcome exn (option string) :=
  let heading := if String.eqb kind "code_review_blocked" then Some "## Code review found CRITICAL/HIGH issues"
                 else if String.eqb kind "security_review_blocked"
                 then Some "## Security review found CRITICAL/HIGH issues" else None in
  match heading with
  | None => Ok None
  | Some h => match get_default "code_review_md" (VStr "") (p_meta p) with
              | VStr md => Ok (Some (h +:+ nl2 +:+ fit_card_body 8000 md))
              | _ => Raise TypeError
              end
  end.

Definition start_block (p : project) (none_text : string) : outcome exn string :=
  l ← list_of (get "devops_start_cmds" (p_meta p));
  cmds ← all_strings l;
  Ok (match cmds with [] => none_text | _ => join newline cmds end).

Section WithEnv.
Context (E : env) (D : deploy_env).

Definition reload_or (pid : string) (p : project) : handler project :=
  q <- load_project_full pid;; pret (match q with Some q => q | None => p end).

(** The kinds of [role_steps]: advance, reload when something was advanced, dispatch. *)
Definition ack_role_step (kind pid actor : string) (p : project) (st : role_step) : handler unit :=
  p' <- (match phase_steps kind with
         | [] => pret p
         | steps => advance_sequence E pid steps actor;; reload_or pid p
         end);;
  extra <- lift (review_feedback kind p');;
  require_orchestrate_hub_role E (ack_args kind actor p' st extra) (Some (st_role st));;
  pret tt.

(** [devops_approval] while a feature of the operate phase is being built. *)
Definition operate_iteration (p : project) : bool :=
  String.eqb (p_phase p) "operate" && truthy (get "feature_iteration_active" (p_meta p))
  && negb (is_False (get "devops_install_ok" (p_meta p))).

Definition ack_operate_devops (pid actor : string) (p : project) : handler unit :=
  t <- pgets now;;
  patch <- lift (operate_devops_ack_metadata_patch t (p_meta p));;
  persist_metadata_patch pid patch;;
  let merged := dict_update (p_meta p) patch in
  dispatch_local_deploy E D (with_meta merged p);;
  dispatch_next_operate_feature E pid merged actor;;
  pret tt.

Definition host_instructions (pid : string) (p : project) : handler unit :=
  block <- lift (start_block p "# (no explicit start command)");;
  let zip := "/api/v2/projects/" +:+ pid +:+ "/workspace/zip" in
  enqueue E {| k_class := "briefing"; k_project := pid;
    k_title := "Host run instructions — " +:+ p_name p;
    k_body := "**Step 1.** Download the project zip:" +:+ nl2 +:+ "  → [" +:+ zip +:+ "](" +:+ zip +:+ ")"
      +:+ nl2 +:+ "**Step 2.** Unzip it and `cd` into the directory." +:+ nl2 +:+
      "**Step 3.** Run these commands (the engineer's start block):" +:+ nl2 +:+ "```bash" +:+ newline
      +:+ block +:+ newline +:+ "```" +:+ nl2 +:+
      "**Step 4.** Open the project URL it prints (usually `http://localhost:3000` for Node, `http://localhost:5173` for Vite, `http://localhost:8000` for Python)."
      +:+ nl2 +:+ "Need to iterate? Reject any prior decision card with feedback — engineer re-codes on rejection.";
    k_severity := Decisions.Info; k_actions := approval_actions;
    k_meta := [("kind", VStr "host_deploy_instructions"); ("project_uuid", VStr pid);
               ("project_name", VStr (p_name p))] |}.

Definition ack_deploy_status (md : dict) (pid actor : string) : handler unit :=
  persist_metadata_patch pid
    [("deploy_result",
      VDict [("ok", VBool (truthy (get_default "deploy_ok" (VBool true) md)));
             ("mode", VStr (if truthy (get "deploy_cli_mode" md) then "cli" else "local"));
             ("acknowledged_by", VStr actor)])];;
  p <- load_project_full pid;;
  match p with
  | Some p =>
      if String.eqb (p_phase p) PHASE_RELEASED then
        require_orchestrate_hub_role E
          {| oa_kind := "operate_kickoff"; oa_project := p; oa_actor := actor; oa_card := None;
             oa_next_phase := None; oa_extra := None |} None;;
        pret tt
      else pret tt
  | None => pret tt
  end.

(** The three cards of a signed-off release. *)
Definition prompt_meta (kind target pid : string) (p : project) : dict :=
  [("kind", VStr kind); ("project_uuid", VStr pid); ("project_name", VStr (p_name p));
   ("deploy_target", VStr target)].

Definition container_card (pid : string) (p : project) : card_kwargs :=
  {| k_class := "approval"; k_project := pid; k_title := "Deploy IN HUB CONTAINER — " +:+ p_name p;
     k_body := "Approve to stand the project up **inside this Hub's container**. Devops runs the engineer's commands, binds to a free port in 18000-18019, and gives you a clickable `http://localhost:NNNNN`.

Good when:
  - You want to click and see it work immediately
  - You don't have the project's stack installed on your machine (node / python / etc.)
  - Hub container already has node/npm/python/git

Less good when:
  - You want to edit + iterate on the code locally
  - The project needs hardware Hub can't see (GPU / Bluetooth / etc.)

Reject this card if you prefer the **Run on your machine** option below.";
     k_severity := Decisions.Info; k_actions := approval_actions;
     k_meta := prompt_meta "local_deploy_prompt" "container" pid p |}.

Definition machine_card (pid block : string) (p : project) : card_kwargs :=
  {| k_class := "approval"; k_project := pid; k_title := "Run ON YOUR MACHINE — " +:+ p_name p;
     k_body := "Approve to get the **download-and-run script** for your laptop. The Hub will hand you:

  1. A zip of the project workspace (link in the artifacts panel above)
  2. The exact commands to run after you unzip:

```bash
" +:+ block +:+ "
```

Good when:
  - You want the code in your editor + run it under your dev tooling
  - You need real localhost (Hub-bound ports are isolated)
  - You'll iterate + push to your own git remote

Reject this card if you want the **Run in Hub container** option above instead. Cloud-target deploy commands are in the `release_gate_md` artifact (run them yourself for now; automated cloud-deploy lands when we wire vault-stored provider creds — coming next).";
     k_severity := Decisions.Info; k_actions := approval_actions;
     k_meta := prompt_meta "host_deploy_prompt" "host" pid p |}.

Definition complete_card (pid : string) (p : project) : card_kwargs :=
  {| k_class := "briefing"; k_project := pid; k_title := "Project ready to ship — " +:+ p_name p;
     k_body := "All seven roles signed off on **" +:+ p_name p +:+ "**.

- Artifacts in `metadata`: prd_md, roadmap_md, trd_md, sprint_plan_md, code_intro_md, qa_md, release_gate_md.
- Generated code lives at `" +:+ e_host_path E pid [] +:+ "`.
- Next: a human pushes the code to git, runs the approved test plan, then executes the deploy plan from the release gate.
";
     k_severity := Decisions.Info; k_actions := approval_actions;
     k_meta := [("kind", VStr "project_complete"); ("project_name", VStr (p_name p));
                ("project_uuid", VStr pid)] |}.

Definition ack_release_gate (pid actor : string) (p : project) : handler unit :=
  advance_sequence E pid [(PHASE_ACCEPTANCE, true); (PHASE_RELEASED, true)] actor;;
  block <- lift (start_block p "# (no explicit start command; check engineer intro)");;
  enqueue E (container_card pid p);;
  enqueue E (machine_card pid block p);;
  enqueue E (complete_card pid p).

(** The kinds that need the project row. *)
Definition ack_with_project (md : dict) (kind pid actor : string) (p : project) : handler unit :=
  if String.eqb kind "devops_approval" && operate_iteration p then ack_operate_devops pid actor p
  else match dict_lookup kind role_steps with
       | Some st => ack_role_step kind pid actor p st
       | None =>
           if String.eqb kind "host_deploy_prompt" then host_instructions pid p
           else if String.eqb kind "deploy_status" then ack_deploy_status md pid actor
           else if String.eqb kind "release_gate_approval" then ack_release_gate pid actor p
           else pret tt
       end.

Definition on_decision_acked (card : Decisions.DecisionCard) (actor : string) : handler unit :=
  let md := Decisions.metadata card in
  let kind := ack_kind md in
  if negb (truthy (card_project card)) then pret tt
  else if String.eqb kind "intake_briefing" || String.eqb kind "orchestrator_gap" then pret tt
  else match card_project card with
  | VStr pid =>
      if String.eqb kind "role_failure" then
        match get "retry_action" md with
        | VStr a => if String.eqb a "" then pret tt
                    else recovery_dispatch E pid a actor None false;; pret tt
        | v => if truthy v then praise TypeError else pret tt
        end
      else
        p <- load_project_full pid;;
        match p with
        | None => pret tt
        | Some p => ack_with_project md kind pid actor p
        end
  | _ => praise TypeError
  end.

(** * Rejections *)

(** The engineer's second pass: the model called with the feedback, its output parsed
    and written to the workspace, all outside the model. *)
Record codegen := {
  cg_intro : string; cg_files : list (string * Z); cg_run_block : string; cg_written : Z;
  cg_workspace : string
}.
Context (codegen_call : nat → project → string → outcome string codegen).

Definition code_rejection_round (md : dict) : outcome exn Z :=
  match get_default "code_rejection_round" (VInt 0) md with
  | VStr s => match int_of_str 10 s with Some n => Ok (n + 1) | None => Raise ValueError end
  | v => match py_int v with Some n => Ok (n + 1) | None => Raise TypeError end
  end.

Definition revision_card (p : project) (cg : codegen) (round : Z) : card_kwargs :=
  let tree := match cg_files cg with
              | [] => "  _(no files parsed)_"
              | fs => join newline (map (fun f => "  - `" +:+ f.1 +:+ "` (" +:+ thousands f.2 +:+ " bytes)") fs)
              end in
  {| k_class := "approval"; k_project := p_uuid p;
     k_title := "Approve CODE output (revision #" +:+ str_of_Z round +:+ ") — " +:+ p_name p;
     k_body := "Engineer re-generated **" +:+ str_of_Z (cg_written cg) +:+ "** files (revision #" +:+
       str_of_Z round +:+ "). Approve to advance; reject again to send back with another round of feedback."
       +:+ nl2 +:+ "---" +:+ nl2 +:+ cg_intro cg +:+ nl2 +:+ "## Generated files" +:+ nl2 +:+ tree +:+ nl2
       +:+ "## Local run" +:+ nl2 +:+ "```bash" +:+ newline +:+
       Decisions.str_or (cg_run_block cg) "# (no RUN block produced)" +:+ newline +:+ "```";
     k_severity := Decisions.Info; k_actions := approval_actions;
     k_meta := [("kind", VStr "code_approval"); ("project_name", VStr (p_name p));
                ("project_uuid", VStr (p_uuid p)); ("files_written", VInt (cg_written cg));
                ("fix_iteration", VInt round); ("advances_phase_to", VStr PHASE_VERIFY_IN_PROGRESS);
                ("produced_by", VStr "engineer")] |}.

Definition dispatch_engineer_codegen_with_feedback (p : project) (feedback : string) : handler unit :=
  emit "role_started" (p_uuid p) "engineer" [("note", VStr "re-generating code with review feedback")];;
  n <- tick;;
  match codegen_call n p feedback with
  | Raise err => emit "role_failed" (p_uuid p) "engineer" [("error", VStr err)]
  | Ok cg =>
      emit "role_finished" (p_uuid p) "engineer" [("files_written", VInt (cg_written cg))];;
      round <- lift (code_rejection_round (p_meta p));;
      persist_metadata_patch (p_uuid p)
        [("code_intro_md", VStr (cg_intro cg));
         ("code_files", VList (map (fun f => VDict [("path", VStr f.1); ("bytes", VInt f.2)]) (cg_files cg)));
         ("code_run_block", VStr (cg_run_block cg)); ("code_workspace", VStr (cg_workspace cg));
         ("code_workspace_host", VStr (e_host_path E (p_uuid p) (p_meta p)));
         ("code_rejection_round", VInt round)];;
      enqueue E (revision_card p cg round)
  end.

(** The feedback blocks of a rejection, joined for the engineer. *)
Definition reject_feedback (md : dict) (kind actor : string) (p : project) : outcome exn string :=
  let prior := p_meta p in
  log ← (if String.eqb kind "devops_approval" && truthy (get "devops_install_log" prior) then
           match get "devops_install_log" prior with
           | VStr l => Ok ["## Prior install log (the issue is in here)" +:+ nl2 +:+ "```" +:+ newline
                           +:+ take_text 6000 l +:+ newline +:+ "```"]
           | _ => Raise TypeError
           end
         else Ok []);
  intro ← (if truthy (get "code_intro_md" prior) then
             t ← concat_str ("## Prior engineer intro" +:+ nl2) (get "code_intro_md" prior); Ok [t]
           else Ok []);
  Ok (join (nl2 +:+ "---" +:+ nl2)
       (["## Rejection feedback" +:+ nl2 +:+ "The " +:+ py_str (get_default "produced_by" (VStr "prior") md)
         +:+ " role's output was REJECTED by `" +:+ actor +:+
         "`. The previous output below has issues you must address in this revision."] ++ log ++ intro)).

Definition on_decision_rejected (card : Decisions.DecisionCard) (actor : string) : handler unit :=
  let md := Decisions.metadata card in
  let kind := match get "kind" md with VStr k => k | _ => "" end in
  if negb (truthy (card_project card)) then pret tt
  else if String.eqb kind "deploy_status" then
    match py_or (get "project_uuid" md) (opt_value (Decisions.project_id card)) with
    | VStr uuid => if String.eqb uuid "" then pret tt else stop_deployment uuid;; pret tt
    | _ => pret tt
    end
  else if negb (in_strs kind ["code_approval"; "devops_approval"; "qa_approval"]) then pret tt
  else match card_project card with
  | VStr pid =>
      p <- load_project_full pid;;
      match p with
      | None => pret tt
      | Some p =>
          feedback <- lift (reject_feedback md kind actor p);;
          dispatch_engineer_codegen_with_feedback p feedback
      end
  | _ => praise TypeError
  end.

(** * Running the queue *)

(** A task's exception ends the task; the loop goes on. *)
Definition run_task (t : task) : handler unit :=
  match t with
  | TAutoRemediate pid actor attempt => run_auto_remediate E pid actor attempt
  | TAutoReview pid actor => run_auto_review E pid actor
  | TRecovery p d actor => run_recovery_orchestration E p d actor
  | TPulse pid => publish_recovery_pulse E pid []
  | TAcked c actor => on_decision_acked c actor
  | TRejected c actor => on_decision_rejected c actor
  end.

(** The loop takes the oldest task. *)
Definition run_next (h : hub) : option hub :=
  match tasks h with
  | [] => None
  | t :: ts => Some (exec (run_task t) (set_tasks ts h))
  end.

Fixpoint run_queue (fuel : nat) (h : hub) : hub :=
  match fuel with
  | O => h
  | S fuel' => match run_next h with None => h | Some h' => run_queue fuel' h' end
  end.

End WithEnv.
End PostAck.
