(* ===== verification/AutoLoop.v ===== *)
(** The automatic fix loop is bounded.

    A blocked security review schedules an engineer remediation, whose end runs the
    review again.  The theorems follow the chain of tasks this makes: every pass that
    schedules another one has raised the counter, so at most three passes run and the
    queue drains. *)

From S2P Require Import Prelude PyValue Datetime Decisions Hub FixLoop Orchestrate Recovery Deploy PostAck.
From Stdlib Require Import Ascii.
Local Open Scope Z_scope.

Create HintDb quietdb.

Module AutoLoop.
Import Hub FixLoop Orchestrate Recovery Deploy PostAck.

(** * Rows *)
Lemma row_matches_meta pid m p : row_matches pid (with_meta m p) = row_matches pid p.
Proof. done. Qed.
Lemma row_matches_phase pid ph p : row_matches pid (with_phase ph p) = row_matches pid p.
Proof. done. Qed.

Lemma find_project_uuid u ps p :
  isdigit u = false → find_project u ps = Some p → p_uuid p = u.
Proof.
  intros Hu Hf. apply find_some in Hf as [_ Hf]. unfold row_matches in Hf. rewrite Hu in Hf.
  by apply String.eqb_eq in Hf.
Qed.

Section Project.
Context (u : string).

(** What the loop reads of the project [u]. *)
Definition core_of (p : project) : option value * value * value :=
  (dict_lookup "code_fix_iteration" (p_meta p), get "code_review_blocked" (p_meta p),
   get "code_review_md" (p_meta p)).
Definition core (h : hub) : option (option value * value * value) :=
  core_of <$> find_project u (projects h).

Definition counter (h : hub) : Z :=
  match find_project u (projects h) with Some p => code_fix_iteration_count (p_meta p) | None => 0 end.

(** Remediation calls of the engineer made so far. *)
Definition is_remediation (d : string * string) : bool :=
  String.eqb d.1 u && String.eqb d.2 "code_review_blocked".
Definition remediations (h : hub) : nat := length (List.filter is_remediation (dispatched h)).

Definition is_pulse (t : task) : Prop := match t with TPulse _ => True | _ => False end.

(** [h'] adds at most [k] pulses to the tasks of [h]. *)
Definition adds_pulses (k : nat) (h h' : hub) : Prop :=
  ∃ new, tasks h' = tasks h ++ new ∧ (length new <= k)%nat ∧ Forall is_pulse new.

(** Nothing the loop reads changes, and at most [k] pulses are scheduled. *)
Definition quiet (k : nat) (h h' : hub) : Prop :=
  core h' = core h ∧ dispatched h' = dispatched h ∧ adds_pulses k h h'.

(** The counter stays; at most [r] remediation calls and [k] pulses are added. *)
Definition counted (k r : nat) (h h' : hub) : Prop :=
  counter h' = counter h ∧ (remediations h' <= remediations h + r)%nat ∧ adds_pulses k h h'.

Lemma adds_pulses_refl k h : adds_pulses k h h.
Proof. exists []. rewrite app_nil_r. split; [done|]. split; [cbn; lia|constructor]. Qed.

Lemma adds_none k h h' : tasks h' = tasks h → adds_pulses k h h'.
Proof. intros E. exists []. rewrite E, app_nil_r. repeat split; [cbn; lia|constructor]. Qed.

Lemma adds_pulses_trans k1 k2 h1 h2 h3 :
  adds_pulses k1 h1 h2 → adds_pulses k2 h2 h3 → adds_pulses (k1 + k2) h1 h3.
Proof.
  intros (n1 & E1 & L1 & F1) (n2 & E2 & L2 & F2). exists (n1 ++ n2).
  rewrite E2, E1, app_assoc, length_app. repeat split; [lia|by apply Forall_app].
Qed.

Lemma quiet_trans k1 k2 h1 h2 h3 : quiet k1 h1 h2 → quiet k2 h2 h3 → quiet (k1 + k2) h1 h3.
Proof.
  intros (C1 & D1 & A1) (C2 & D2 & A2). unfold quiet. rewrite C2, C1, D2, D1.
  split; [done|]. split; [done|]. by eapply adds_pulses_trans.
Qed.

Lemma counted_trans k1 r1 k2 r2 h1 h2 h3 :
  counted k1 r1 h1 h2 → counted k2 r2 h2 h3 → counted (k1 + k2) (r1 + r2) h1 h3.
Proof.
  intros (C1 & D1 & A1) (C2 & D2 & A2). unfold counted. rewrite C2, C1.
  split; [done|]. split; [lia|]. by eapply adds_pulses_trans.
Qed.

Lemma core_counter h h' : core h' = core h → counter h' = counter h.
Proof.
  unfold core, counter, code_fix_iteration_count.
  destruct (find_project u (projects h')) as [p'|], (find_project u (projects h)) as [p|]; cbn; try done.
  intros [= -> _ _]. done.
Qed.

Lemma quiet_counted k h h' : quiet k h h' → counted k 0 h h'.
Proof.
  intros (C & D & A). split; [by apply core_counter|]. split; [|done].
  unfold remediations. rewrite D. lia.
Qed.

(** * Handlers that are quiet, whether they return or raise *)
Definition makes {A} (R : hub → hub → Prop) (m : handler A) : Prop := ∀ h, R h (exec m h).

Lemma quiet_frame h h' :
  projects h' = projects h → dispatched h' = dispatched h → tasks h' = tasks h → quiet 0 h h'.
Proof.
  intros P D T. unfold quiet, core. rewrite P, D. split; [done|]. split; [done|].
  exists []. rewrite T, app_nil_r. repeat split; [cbn; lia|constructor].
Qed.

Lemma makes_le {A} k k' (m : handler A) : (k <= k')%nat → makes (quiet k) m → makes (quiet k') m.
Proof.
  intros Hk Hm h. destruct (Hm h) as (C & D & n & E & L & F).
  split; [done|]. split; [done|]. exists n. repeat split; [done|lia|done].
Qed.

Lemma makes_bind {A B} k1 k2 (m : handler A) (f : A → handler B) :
  makes (quiet k1) m → (∀ a, makes (quiet k2) (f a)) → makes (quiet (k1 + k2)) (pbind m f).
Proof.
  intros Hm Hf h. rewrite exec_pbind. destruct (eval m h) as [a|e].
  - eapply quiet_trans; [apply Hm|apply Hf].
  - apply (makes_le k1 (k1 + k2) m); [lia|done].
Qed.

(** The common case, where only the continuation schedules. *)
Lemma makes_bind0 {A B} k (m : handler A) (f : A → handler B) :
  makes (quiet 0) m → (∀ a, makes (quiet k) (f a)) → makes (quiet k) (pbind m f).
Proof. apply (makes_bind 0 k). Qed.

Lemma makes_try_except {A} k (m : handler A) (f : exn → handler A) :
  makes (quiet k) m → (∀ e, makes (quiet 0) (f e)) → makes (quiet k) (try_except m f).
Proof.
  intros Hm Hf h. unfold try_except. rewrite exec_bind. destruct (eval m h) as [a|e]; [apply Hm|].
  rewrite <- (Nat.add_0_r k). eapply quiet_trans; [apply Hm|apply Hf].
Qed.

Lemma makes_pret {A} k (a : A) : makes (quiet k) (pret a).
Proof. intros h. split; [done|]. split; [done|]. apply adds_pulses_refl. Qed.
Lemma makes_praise {A} k e : makes (quiet k) (praise e : handler A).
Proof. intros h. split; [done|]. split; [done|]. apply adds_pulses_refl. Qed.
Lemma makes_pgets {A} k (f : hub → A) : makes (quiet k) (pgets f : handler A).
Proof. intros h. split; [done|]. split; [done|]. apply adds_pulses_refl. Qed.
Lemma makes_lift {A} k (o : outcome exn A) : makes (quiet k) (lift o).
Proof. destruct o; [apply makes_pret|apply makes_praise]. Qed.
Lemma makes_frame k f :
  (∀ h, projects (f h) = projects h ∧ dispatched (f h) = dispatched h ∧ tasks (f h) = tasks h) →
  makes (quiet k) (pmodify f : handler unit).
Proof.
  intros Hf. apply (makes_le 0); [lia|]. intros h. rewrite exec_pmodify.
  destruct (Hf h) as (? & ? & ?). by apply quiet_frame.
Qed.

Hint Resolve makes_pret makes_praise makes_pgets makes_lift : quietdb.

(** Walk through a handler whose steps schedule nothing. *)
Ltac quiet_steps :=
  repeat first
    [ progress intros
    | solve [auto with quietdb nocore]
    | apply makes_bind0
    | apply makes_try_except
    | (apply makes_frame; done)
    | case_match ].

Lemma tick_quiet : makes (quiet 0) tick.
Proof. unfold tick. quiet_steps. Qed.
Lemma statement_quiet : makes (quiet 0) statement.
Proof. unfold statement. quiet_steps. Qed.
Lemma on_store_quiet {A} (m : state Decisions.store A) : makes (quiet 0) (on_store m).
Proof. unfold on_store. quiet_steps. Qed.
Hint Resolve tick_quiet statement_quiet on_store_quiet : quietdb.

Lemma load_quiet pid : makes (quiet 0) (load_project_full pid).
Proof. unfold load_project_full. quiet_steps. Qed.
Lemma event_quiet fields : makes (quiet 0) (publish_event fields).
Proof. unfold publish_event. quiet_steps. Qed.
Hint Resolve load_quiet event_quiet : quietdb.
Lemma project_pulse_quiet uuid fields : makes (quiet 0) (publish_project_pulse uuid fields).
Proof. unfold publish_project_pulse. quiet_steps. Qed.
Lemma index_quiet : makes (quiet 0) build_pending_decision_index.
Proof. unfold build_pending_decision_index. quiet_steps. Qed.
Hint Resolve project_pulse_quiet index_quiet : quietdb.

Lemma enqueue_quiet E k : makes (quiet 0) (enqueue E k).
Proof. unfold enqueue. quiet_steps. Qed.
Hint Resolve enqueue_quiet : quietdb.

Lemma spawn_pulse_quiet pid : makes (quiet 1) (spawn (TPulse pid)).
Proof.
  intros h. unfold spawn. rewrite exec_pmodify. split; [done|]. split; [done|].
  exists [TPulse pid]. repeat split; [cbn; lia|]. repeat constructor.
Qed.

Lemma emit_quiet ty uuid r extra : makes (quiet 1) (emit ty uuid r extra).
Proof.
  unfold emit, schedule_recovery_pulse. apply makes_bind0; [quiet_steps|]. intros.
  apply makes_bind0; [quiet_steps|]. intros. apply makes_bind0; [quiet_steps|]. intros.
  case_match; [apply spawn_pulse_quiet|quiet_steps].
Qed.

(** A patch that leaves the three keys alone. *)
Definition core_keys : list string := ["code_fix_iteration"; "code_review_blocked"; "code_review_md"].

Lemma core_merge patch p : (∀ k, k ∈ core_keys → k ∉ patch.*1) → core_of (merge_meta patch p) = core_of p.
Proof.
  intros H. unfold core_of, merge_meta. cbn [p_meta with_meta].
  rewrite dict_lookup_update_ne, !get_update_ne; [done|apply H; set_solver..].
Qed.

Lemma patch_rows_core pid patch h :
  (∀ k, k ∈ core_keys → k ∉ patch.*1) →
  core (set_projects (update_rows pid (merge_meta patch) (projects h)) h) = core h.
Proof.
  intros H. unfold core. cbn [projects set_projects]. rewrite find_update by done.
  destruct (find_project u (projects h)) as [p|]; [|done]. cbn.
  case_match; [|done]. by rewrite core_merge.
Qed.

Lemma patch_quiet pid patch :
  (∀ k, k ∈ core_keys → k ∉ patch.*1) → makes (quiet 0) (persist_metadata_patch pid patch).
Proof.
  intros H. unfold persist_metadata_patch. quiet_steps.
  intros h. rewrite exec_pmodify. split; [by apply patch_rows_core|]. split; [done|].
  by apply adds_none.
Qed.

Lemma clear_quiet uuid : makes (quiet 0) (clear_in_flight uuid).
Proof. apply patch_quiet. cbn. set_solver. Qed.
Hint Resolve clear_quiet : quietdb.

Lemma status_with_quiet E reap pid :
  (∀ p, makes (quiet 0) (reap p)) → makes (quiet 0) (recovery_status_with E reap pid).
Proof. intros Hr. unfold recovery_status_with. quiet_steps. Qed.

Lemma pulse_with_quiet E reap pid extra :
  (∀ p, makes (quiet 0) (reap p)) → makes (quiet 0) (publish_pulse_with E reap pid extra).
Proof.
  intros Hr. unfold publish_pulse_with. apply makes_try_except; [|quiet_steps].
  apply makes_bind0; [by apply status_with_quiet|]. quiet_steps.
Qed.

Lemma reap_quiet E depth p : makes (quiet 0) (reap_stale E depth p).
Proof.
  revert p. induction depth as [|d IH]; intros p; cbn [reap_stale]; quiet_steps.
Qed.

Lemma recovery_pulse_quiet E pid extra : makes (quiet 0) (publish_recovery_pulse E pid extra).
Proof. apply pulse_with_quiet. intros; apply reap_quiet. Qed.
Hint Resolve recovery_pulse_quiet : quietdb.

Lemma finally_quiet E uuid : makes (quiet 0) (recovery_finally E uuid).
Proof. unfold recovery_finally. quiet_steps. Qed.

Lemma version_quiet E pid : makes (quiet 0) (load_pipeline_version E pid).
Proof. unfold load_pipeline_version. quiet_steps. Qed.
Lemma route_quiet pid r : makes (quiet 0) (record_route_history pid r).
Proof. unfold record_route_history. quiet_steps. Qed.
Hint Resolve version_quiet route_quiet finally_quiet : quietdb.

(** * What a load and a patch do *)
Lemma load_some pid q h :
  eval (load_project_full pid) h = Ok (Some q) →
  pool h = true ∧ find_project pid (projects h) = Some q.
Proof.
  unfold load_project_full, statement. run_state. destruct (pool h); cbn; [|done].
  run_state. destruct (hd false (pool_faults h)); run_state; [done|]. cbn. naive_solver.
Qed.

Lemma load_frame pid h :
  projects (exec (load_project_full pid) h) = projects h ∧
  pool (exec (load_project_full pid) h) = pool h ∧
  auto_scheduled (exec (load_project_full pid) h) = auto_scheduled h.
Proof.
  unfold load_project_full, statement. run_state. destruct (pool h) eqn:Hp; cbn; [|by run_state].
  run_state. destruct (hd false (pool_faults h)); run_state; by rewrite ?Hp.
Qed.

Lemma persist_run pid patch h :
  pool (exec (persist_metadata_patch pid patch) h) = pool h ∧
  tasks (exec (persist_metadata_patch pid patch) h) = tasks h ∧
  dispatched (exec (persist_metadata_patch pid patch) h) = dispatched h ∧
  (eval (persist_metadata_patch pid patch) h = Ok tt → pool h = true →
   projects (exec (persist_metadata_patch pid patch) h) = update_rows pid (merge_meta patch) (projects h)) ∧
  (eval (persist_metadata_patch pid patch) h ≠ Ok tt ∨ pool h = false →
   projects (exec (persist_metadata_patch pid patch) h) = projects h).
Proof.
  unfold persist_metadata_patch, statement. run_state.
  destruct (pool h) eqn:Hp; cbn [negb]; [|run_state; naive_solver].
  run_state. destruct (hd false (pool_faults h)); run_state; cbn; naive_solver.
Qed.

(** * The roles *)

(** The roles report through the metadata, and the counter is the hub's own: no role
    writes it. *)
Definition roles_keep_counter (E : env) : Prop :=
  ∀ n tool payload raw patch, e_role E n tool payload = RoleReturns raw patch →
    "code_fix_iteration" ∉ patch.*1.

Lemma counter_rows pid patch h :
  "code_fix_iteration" ∉ patch.*1 →
  counter (set_projects (update_rows pid (merge_meta patch) (projects h)) h) = counter h.
Proof.
  intros H. unfold counter. cbn [projects set_projects]. rewrite find_update by done.
  destruct (find_project u (projects h)) as [p|]; [|done]. cbn. case_match; [|done].
  unfold code_fix_iteration_count, merge_meta. cbn. by rewrite dict_lookup_update_ne.
Qed.

(** How many remediation calls a dispatch of [kind] for [pid] counts as. *)
Definition weight (pid kind : string) : nat := if is_remediation (pid, kind) then 1 else 0.

Lemma counted_bind {A B} k1 r1 k2 r2 (m : handler A) (f : A → handler B) :
  makes (counted k1 r1) m → (∀ a, makes (counted k2 r2) (f a)) →
  makes (counted (k1 + k2) (r1 + r2)) (pbind m f).
Proof.
  intros Hm Hf h. rewrite exec_pbind. destruct (eval m h) as [a|e].
  - eapply counted_trans; [apply Hm|apply Hf].
  - eapply counted_trans; [apply Hm|]. split; [done|]. split; [lia|apply adds_pulses_refl].
Qed.

Lemma makes_counted {A} k (m : handler A) : makes (quiet k) m → makes (counted k 0) m.
Proof. intros H h. by apply quiet_counted. Qed.

Lemma counted_le {A} k r k' r' (m : handler A) :
  (k <= k')%nat → (r <= r')%nat → makes (counted k r) m → makes (counted k' r') m.
Proof.
  intros Hk Hr Hm h. destruct (Hm h) as (C & D & n & E & L & F).
  split; [done|]. split; [lia|]. exists n. repeat split; [done|lia|done].
Qed.

Lemma call_role_counted E pid kind tool payload :
  roles_keep_counter E → makes (counted 0 (weight pid kind)) (call_role E pid kind tool payload).
Proof.
  intros HE h. unfold call_role. rewrite exec_pbind.
  assert (∃ n, eval tick h = Ok n) as [n ->] by (unfold tick; run_state; eauto).
  set (h1 := exec tick h) in *.
  assert (Hd : counted 0 (weight pid kind) h1 (set_dispatched (dispatched h1 ++ [(pid, kind)]) h1)).
  { split; [done|]. split; [|by apply adds_none]. unfold remediations, weight. cbn [dispatched set_dispatched].
    rewrite List.filter_app, length_app. cbn. destruct (is_remediation (pid, kind)); cbn; lia. }
  rewrite exec_pbind, eval_pmodify, exec_pmodify.
  change 0%nat with (0 + 0)%nat at 1. rewrite <- (Nat.add_0_l (weight pid kind)).
  eapply counted_trans; [apply quiet_counted, (tick_quiet h)|].
  destruct (e_role E n tool payload) as [m|raw patch] eqn:Er; [by run_state|].
  rewrite exec_pbind, eval_pmodify, exec_pmodify, exec_pret.
  change 0%nat with (0 + 0)%nat at 1. rewrite <- (Nat.add_0_r (weight pid kind)).
  eapply counted_trans; [exact Hd|]. split; [by eapply counter_rows, HE|].
  split; [unfold remediations; cbn; lia|by apply adds_none].
Qed.

Lemma dispatch_counted E kind pid actor extra :
  roles_keep_counter E →
  makes (counted 0 (weight pid kind)) (dispatch_role_for_kind E kind pid actor extra).
Proof.
  intros HE. unfold dispatch_role_for_kind.
  destruct (dict_lookup kind KIND_ROLE_DISPATCH) as [spec|];
    [|apply (counted_le 0 0); [lia|lia|apply makes_counted; quiet_steps]].
  destruct (dict_lookup (subsystem spec) SUBSYSTEM_TOOLS) as [tool|];
    [|apply (counted_le 0 0); [lia|lia|apply makes_counted; quiet_steps]].
  apply (counted_bind 0 0 0 (weight pid kind)); [apply makes_counted; quiet_steps|intros version].
  apply (counted_bind 0 0 0 (weight pid kind)); [apply makes_counted; quiet_steps|intros n].
  rewrite <- (Nat.add_0_r (weight pid kind)).
  apply (counted_bind 0 (weight pid kind) 0 0); [by apply call_role_counted|intros raw].
  apply makes_counted. quiet_steps.
Qed.

(** * The remediation chain *)
Definition armed_core (x : option value * value * value) : Prop :=
  truthy x.1.2 = true ∧
  match x.1.1 with Some v => match py_int v with Some n => Z.max 0 n | None => 0 end | None => 0 end
    < MAX_CODE_FIX_ITERATIONS ∧
  strip (py_str (py_or x.2 (VStr ""))) ≠ "".

(** The project's review is blocked, has a report, and a pass is left. *)
Definition armed (h : hub) : Prop := ∃ x, core h = Some x ∧ armed_core x.

Lemma armed_quiet k h h' : quiet k h h' → armed h → armed h'.
Proof. intros (C & _) (x & Hx & Ha). exists x. by rewrite C. Qed.

(** One scheduler of [u] among at most [k] pulses is added. *)
Definition adds_chain (k : nat) (h h' : hub) : Prop :=
  ∃ n1 actor n2, tasks h' = tasks h ++ n1 ++ TAutoRemediate u actor 1 :: n2 ∧
    (length n1 + length n2 <= k)%nat ∧ Forall is_pulse n1 ∧ Forall is_pulse n2.

(** The result of a review: the counter stays, and if a pass is scheduled the project
    is armed. *)
Definition reviewed (k : nat) (h h' : hub) : Prop :=
  counter h' = counter h ∧ (remediations h' <= remediations h)%nat ∧
  (adds_pulses k h h' ∨ (adds_chain k h h' ∧ armed h')).

Lemma reviewed_before k1 k2 h1 h2 h3 : counted k1 0 h1 h2 → reviewed k2 h2 h3 → reviewed (k1 + k2) h1 h3.
Proof.
  intros (C1 & D1 & n1 & E1 & L1 & F1) (C2 & D2 & A2). split; [congruence|]. split; [lia|].
  destruct A2 as [A2|[(m1 & a & m2 & E2 & L2 & F2 & F2') Ha]].
  - left. eapply adds_pulses_trans; [|exact A2]. by exists n1.
  - right. split; [|done]. exists (n1 ++ m1), a, m2. rewrite E2, E1, <- !app_assoc, length_app.
    repeat split; [lia|by apply Forall_app|done].
Qed.

Lemma reviewed_after k1 k2 h1 h2 h3 : reviewed k1 h1 h2 → quiet k2 h2 h3 → reviewed (k1 + k2) h1 h3.
Proof.
  intros (C1 & D1 & A1) Hq. pose proof (quiet_counted _ _ _ Hq) as (C2 & D2 & n2 & E2 & L2 & F2).
  split; [congruence|]. split; [lia|]. destruct A1 as [A1|[(m1 & a & m2 & E1 & L1 & F1 & F1') Ha]].
  - left. eapply adds_pulses_trans; [exact A1|]. by exists n2.
  - right. split; [|by eapply armed_quiet]. exists m1, a, (m2 ++ n2).
    rewrite E2, E1, <- !app_assoc, length_app. cbn. repeat split; [lia|done|by apply Forall_app].
Qed.

Lemma counted_reviewed k h h' : counted k 0 h h' → reviewed k h h'.
Proof. intros (C & D & A). split; [done|]. split; [lia|by left]. Qed.

Lemma reviewed_bind_before {A B} k1 k2 (m : handler A) (f : A → handler B) h :
  counted k1 0 h (exec m h) →
  (∀ a, eval m h = Ok a → reviewed k2 (exec m h) (exec (f a) (exec m h))) →
  reviewed (k1 + k2) h (exec (pbind m f) h).
Proof.
  intros Hm Hf. rewrite exec_pbind. destruct (eval m h) as [a|e].
  - eapply reviewed_before; [done|]. by apply Hf.
  - eapply reviewed_before; [exact Hm|]. apply counted_reviewed. split; [done|].
    split; [lia|apply adds_pulses_refl].
Qed.

Lemma reviewed_bind_after {A B} k1 k2 (m : handler A) (f : A → handler B) h :
  reviewed k1 h (exec m h) → (∀ a, makes (quiet k2) (f a)) →
  reviewed (k1 + k2) h (exec (pbind m f) h).
Proof.
  intros Hm Hf. rewrite exec_pbind. destruct (eval m h) as [a|e].
  - eapply reviewed_after; [done|]. apply Hf.
  - eapply reviewed_after; [exact Hm|]. apply makes_pret with (a := tt).
Qed.

Lemma persist_counted pid patch :
  "code_fix_iteration" ∉ patch.*1 → makes (counted 0 0) (persist_metadata_patch pid patch).
Proof.
  intros H h. destruct (persist_run pid patch h) as (_ & Ht & Hd & Hok & Hno).
  split; [|split; [unfold remediations; rewrite Hd; lia|by apply adds_none]].
  destruct (eval (persist_metadata_patch pid patch) h) as [[]|e] eqn:Ev, (pool h) eqn:Hp.
  - unfold counter. rewrite Hok by done. by apply (counter_rows pid patch h).
  - unfold counter. by rewrite Hno by auto.
  - unfold counter. by rewrite Hno by auto.
  - unfold counter. by rewrite Hno by auto.
Qed.

Lemma schedule_run actor h :
  core (exec (schedule_auto_engineer_remediate u actor) h) = core h ∧
  dispatched (exec (schedule_auto_engineer_remediate u actor) h) = dispatched h ∧
  (tasks (exec (schedule_auto_engineer_remediate u actor) h) = tasks h ∨
   tasks (exec (schedule_auto_engineer_remediate u actor) h) = tasks h ++ [TAutoRemediate u actor 1]).
Proof.
  unfold schedule_auto_engineer_remediate, spawn. run_state.
  destruct (in_strs u (auto_scheduled h)); run_state; auto.
Qed.

(** What a report must contain for the next pass to have something to work on. *)
Definition has_report (result : RoleDispatchResult) : Prop :=
  strip (py_str (py_or (artifact_of (rd_data result)) (VStr ""))) ≠ "".

(** Scheduling after a blocked review that was just recorded. *)
Lemma schedule_reviewed artifact actor h q :
  isdigit u = false → pool h = true →
  eval (persist_metadata_patch u [("code_review_md", artifact); ("code_review_blocked", VBool true)]) h = Ok tt →
  strip (py_str (py_or artifact (VStr ""))) ≠ "" →
  let h1 := exec (persist_metadata_patch u [("code_review_md", artifact); ("code_review_blocked", VBool true)]) h in
  let h2 := exec (load_project_full u) h1 in
  eval (load_project_full u) h1 = Ok (Some q) → fix_loop_exhausted q = false →
  reviewed 0 h2 (exec (schedule_auto_engineer_remediate u actor) h2).
Proof.
  intros Hu Hp Hev Hrep h1 h2 Hload Hex.
  destruct (persist_run u [("code_review_md", artifact); ("code_review_blocked", VBool true)] h)
    as (_ & _ & _ & Hok & _). specialize (Hok Hev Hp). fold h1 in Hok.
  apply load_some in Hload as [_ Hq]. destruct (load_frame u h1) as (Hproj & _ & _). fold h2 in Hproj.
  pose proof Hq as Hq0. rewrite Hok, find_update in Hq0 by done.
  destruct (find_project u (projects h)) as [p0|] eqn:Ep0; [|done]. cbn in Hq0.
  assert (row_matches u p0 = true) as Hm by (apply find_some in Ep0; apply Ep0).
  rewrite Hm in Hq0. injection Hq0 as <-. 
  destruct (schedule_run actor h2) as (Hc & Hd & Ht).
  split; [by apply core_counter|]. split; [unfold remediations; rewrite Hd; lia|].
  destruct Ht as [Ht|Ht]; [left; by apply adds_none|right].
  split; [exists [], actor, []; rewrite Ht; repeat split; [cbn; lia|constructor..]|].
  exists (core_of (merge_meta [("code_review_md", artifact); ("code_review_blocked", VBool true)] p0)).
  rewrite Hc. unfold core. rewrite Hproj, Hq. split; [done|].
  unfold fix_loop_exhausted, code_fix_iteration_count in Hex. unfold armed_core, core_of, merge_meta in *.
  cbn [fst snd p_meta with_meta dict_update] in *.
  rewrite !get_set, !dict_lookup_set in *. cbn -[strip py_str py_or MAX_CODE_FIX_ITERATIONS Z.max] in *.
  split; [done|]. split; [by apply Z.leb_gt in Hex|done].
Qed.

Lemma reviewed_le k k' h h' : (k <= k')%nat → reviewed k h h' → reviewed k' h h'.
Proof.
  intros Hk (C & D & A). split; [done|]. split; [done|].
  destruct A as [(n & E & L & F)|[(n1 & a & n2 & E & L & F & F') Ha]].
  - left. exists n. repeat split; [done|lia|done].
  - right. split; [|done]. exists n1, a, n2. repeat split; [done|lia|done|done].
Qed.

Lemma orchestrate_review_reviewed E p r actor blocked result h :
  isdigit u = false → p_uuid p = u → (blocked = true → has_report result) →
  reviewed 1 h (exec (orchestrate_review E p r actor blocked result) h).
Proof.
  intros Hu Hp Hrep. unfold orchestrate_review. rewrite Hp.
  apply (reviewed_bind_before 0 1); [apply quiet_counted, makes_lift|intros n _].
  apply (reviewed_bind_before 1 0); [apply quiet_counted, emit_quiet|intros _ _].
  set (h0 := exec (emit _ _ _ _) _). clearbody h0. set (artifact := artifact_of (rd_data result)) in *.
  apply (reviewed_bind_before 0 0); [apply persist_counted; cbn; set_solver|intros [] Hev].
  destruct blocked.
  2: { apply counted_reviewed, quiet_counted. revert h0 Hev. intros h0 _.
       apply (makes_bind0 0); [quiet_steps|intros auto]. cbn [andb]. apply enqueue_quiet. }
  specialize (Hrep eq_refl). set (h1 := exec (persist_metadata_patch _ _) h0).
  apply (reviewed_bind_after 0 0).
  2: { intros auto. cbn [andb]. destruct auto; quiet_steps. }
  apply (reviewed_bind_before 0 0); [apply quiet_counted, load_quiet|intros [q|] Hq].
  2: { apply counted_reviewed, quiet_counted. apply (makes_pret 0 false). }
  destruct (fix_loop_exhausted q) eqn:Hex.
  { apply counted_reviewed, quiet_counted. apply (makes_pret 0 false). }
  apply (reviewed_bind_after 0 0); [|quiet_steps].
  assert (pool h0 = true) as Hpool.
  { destruct (persist_run u [("code_review_md", artifact); ("code_review_blocked", VBool true)] h0)
      as (<- & _). by apply load_some in Hq as [Hq _]. }
  by apply (schedule_reviewed artifact actor h0 q).
Qed.

(** The branches of a success that post a card or end a deploy schedule only pulses. *)
Lemma emit_counted ty uuid r extra : makes (counted 1 0) (emit ty uuid r extra).
Proof. apply makes_counted, emit_quiet. Qed.

Lemma emit_artifact_quiet p r data : makes (quiet 1) (emit_artifact p r data).
Proof. unfold emit_artifact. apply makes_bind0; [quiet_steps|intros]. apply emit_quiet. Qed.

Lemma orchestrate_card_quiet E p r target ck result :
  makes (quiet 1) (orchestrate_card E p r target ck result).
Proof.
  unfold orchestrate_card. apply makes_bind0; [quiet_steps|intros].
  apply (makes_bind 1 0); [apply emit_artifact_quiet|quiet_steps].
Qed.

Lemma orchestrate_qa_quiet E p r target result :
  makes (quiet 1) (orchestrate_qa_execution E p r target result).
Proof.
  unfold orchestrate_qa_execution. apply makes_bind0; [quiet_steps|intros].
  apply (makes_bind 1 0); [apply emit_artifact_quiet|quiet_steps].
Qed.

Lemma orchestrate_deploy_quiet E p r kind actor data :
  kind ≠ "operate_kickoff" → makes (quiet 1) (orchestrate_deploy E p r kind actor data).
Proof.
  intros Hk. unfold orchestrate_deploy. destruct (String.eqb_spec kind "operate_kickoff"); [done|].
  apply emit_quiet.
Qed.

Lemma orchestrate_failure_quiet E p spec kind err :
  makes (quiet 1) (orchestrate_failure E p spec kind err).
Proof.
  unfold orchestrate_failure. apply (makes_bind 1 0); [apply emit_quiet|intros].
  apply makes_bind0; [apply patch_quiet; cbn; set_solver|quiet_steps].
Qed.

(** A blocked review comes with a report: what the loop relies on to make progress. *)
Definition reports_have_text (E : env) : Prop :=
  ∀ n tool payload raw patch, e_role E n tool payload = RoleReturns raw patch →
    is_str (get "result_kind" (dict_of (get "data" raw))) "code_review_blocked" = true →
    strip (py_str (py_or (artifact_of (dict_of (get "data" raw))) (VStr ""))) ≠ "".

Lemma dispatch_report E kind pid actor extra h result :
  reports_have_text E →
  eval (dispatch_role_for_kind E kind pid actor extra) h = Ok (Some result) → rd_ok result = true →
  is_str (get "result_kind" (rd_data result)) "code_review_blocked" = true → has_report result.
Proof.
  intros HE. unfold dispatch_role_for_kind.
  destruct (dict_lookup kind _) as [spec|]; [|by run_state].
  destruct (dict_lookup (subsystem spec) _) as [tool|]; [|rewrite eval_pbind; destruct (eval tick h); [rewrite eval_pret; by intros [= <-]|done]].
  rewrite eval_pbind. destruct (eval (load_pipeline_version _ _) h) as [v|]; [|done].
  rewrite eval_pbind. destruct (eval tick _) as [n|]; [|done]. rewrite eval_pbind.
  set (h1 := exec tick _). clearbody h1.
  destruct (eval (call_role _ _ _ _ _) h1) as [raw|] eqn:Ec; [|done].
  assert (∃ n payload patch, e_role E n tool payload = RoleReturns raw patch) as (m & pl & patch & Er).
  { revert Ec. unfold call_role. rewrite eval_pbind. destruct (eval tick h1) as [m|]; [|done].
    rewrite eval_pbind, eval_pmodify. destruct (e_role E m tool _) as [|raw' patch'] eqn:Er; run_state; [done|].
    intros [= ->]. eauto. }
  rewrite eval_pbind. destruct (eval tick _) as [m'|]; [|done]. 
  destruct (is_str (get "status" raw) "ok").
  - rewrite eval_pbind. destruct (eval (record_route_history _ _) _); [|done]. rewrite eval_pret.
    intros [= <-] _ Hk. by apply (HE _ _ _ _ _ Er).
  - rewrite eval_pret. by intros [= <-].
Qed.

(** ** The review after a pass *)
Lemma review_card_kind actor q data :
  is_str (card_kind_of (review_args actor q) "auditor" data) "code_review_blocked" = true →
  is_str (get "result_kind" data) "code_review_blocked" = true.
Proof.
  unfold card_kind_of, py_or. cbn [oa_card review_args opt_value truthy].
  destruct (truthy (get "result_kind" data)) eqn:Et; [by rewrite Et|]. cbn. done.
Qed.

Lemma review_success E actor q result rerun h :
  isdigit u = false → p_uuid q = u →
  (is_str (get "result_kind" (rd_data result)) "code_review_blocked" = true → has_report result) →
  reviewed 1 h (exec (orchestrate_success E rerun (review_args actor q) "auditor" result) h).
Proof.
  intros Hu Hq Hrep. unfold orchestrate_success. cbv zeta.
  change (oa_kind (review_args actor q)) with "code_approval".
  destruct (is_str _ "deploy" || _) eqn:Hd.
  { apply counted_reviewed, quiet_counted, orchestrate_deploy_quiet. done. }
  replace (is_str (card_kind_of (review_args actor q) "auditor" (rd_data result)) "code_approval"
           && ("code_approval" =? "code_review_blocked")%string) with false by (by rewrite andb_false_r).
  destruct (is_str _ "code_review_pass") eqn:Hpass.
  { apply orchestrate_review_reviewed; done. }
  destruct (is_str (card_kind_of _ _ _) "code_review_blocked") eqn:Hblk.
  { apply orchestrate_review_reviewed; [done|done|]. intros _. apply Hrep. by eapply review_card_kind. }
  apply counted_reviewed, quiet_counted.
  destruct (is_str _ "qa_approval" && _); [apply orchestrate_qa_quiet|apply orchestrate_card_quiet].
Qed.

Lemma gap_quiet E kind p role : makes (quiet 1) (enqueue_orchestrator_gap E kind p role).
Proof.
  unfold enqueue_orchestrator_gap. apply (makes_bind 1 0); [apply emit_quiet|quiet_steps].
Qed.

Lemma weight_review : weight u "code_approval" = 0%nat.
Proof. unfold weight, is_remediation. cbn. by rewrite andb_false_r. Qed.

Lemma review_reviewed E rerun actor q h :
  roles_keep_counter E → reports_have_text E → isdigit u = false → p_uuid q = u →
  reviewed 2 h (exec (orchestrate_with E rerun (review_args actor q)) h).
Proof.
  intros HE HR Hu Hq. unfold orchestrate_with. cbn [oa_kind oa_project oa_actor oa_extra review_args].
  change (dict_lookup "code_approval" KIND_ROLE_DISPATCH)
    with (Some (spec_of "verify" "auditor" "CODE_REVIEW")). cbv iota. rewrite Hq.
  apply (reviewed_bind_before 1 1); [apply emit_counted|intros _ _].
  set (h1 := exec (emit _ _ _ _) _). clearbody h1.
  apply (reviewed_bind_before 0 1).
  { pose proof (dispatch_counted E "code_approval" u actor None HE h1) as H.
    by rewrite weight_review in H. }
  intros [result|] Hres; [|apply counted_reviewed, quiet_counted, (makes_pret 1 false)].
  apply (reviewed_bind_after 1 0); [|quiet_steps].
  destruct (rd_ok result) eqn:Hok.
  - apply review_success; [done|done|]. intros Hk. by eapply dispatch_report.
  - apply counted_reviewed, quiet_counted, orchestrate_failure_quiet.
Qed.

Lemma rerun_reviewed E actor q h :
  roles_keep_counter E → reports_have_text E → isdigit u = false → p_uuid q = u →
  reviewed 3 h (exec (rerun_review E actor q) h).
Proof.
  intros HE HR Hu Hq. unfold rerun_review, require_with.
  apply (reviewed_bind_after 3 0); [|quiet_steps].
  apply (reviewed_bind_after 2 1); [by apply review_reviewed|]. intros handled.
  apply (makes_bind 1 0); [|quiet_steps]. destruct handled; [quiet_steps|apply gap_quiet].
Qed.

(** ** One remediation pass *)

(** At most [r] remediation calls; and if a next pass is scheduled, the project is
    armed and its counter went up by [dc]. *)
Definition passed (k r : nat) (dc : Z) (h h' : hub) : Prop :=
  (remediations h' <= remediations h + r)%nat ∧
  (adds_pulses k h h' ∨ (adds_chain k h h' ∧ armed h' ∧ counter h' = counter h + dc)).

Lemma counted_passed k r dc h h' : counted k r h h' → passed k r dc h h'.
Proof. intros (_ & D & A). split; [done|]. by left. Qed.

Lemma adds_chain_before k1 k2 h1 h2 h3 : adds_pulses k1 h1 h2 → adds_chain k2 h2 h3 → adds_chain (k1 + k2) h1 h3.
Proof.
  intros (n1 & E1 & L1 & F1) (m1 & a & m2 & E2 & L2 & F2 & F2'). exists (n1 ++ m1), a, m2.
  rewrite E2, E1, <- !app_assoc, length_app. repeat split; [lia|by apply Forall_app|done].
Qed.
Lemma adds_chain_after k1 k2 h1 h2 h3 : adds_chain k1 h1 h2 → adds_pulses k2 h2 h3 → adds_chain (k1 + k2) h1 h3.
Proof.
  intros (m1 & a & m2 & E1 & L1 & F1 & F1') (n2 & E2 & L2 & F2). exists m1, a, (m2 ++ n2).
  rewrite E2, E1, <- !app_assoc, length_app. cbn. repeat split; [lia|done|by apply Forall_app].
Qed.

Lemma passed_before k1 r1 k2 r2 dc h1 h2 h3 :
  counted k1 r1 h1 h2 → passed k2 r2 dc h2 h3 → passed (k1 + k2) (r1 + r2) dc h1 h3.
Proof.
  intros (C1 & D1 & A1) (D2 & A2). split; [lia|]. destruct A2 as [A2|(A2 & Ha & C2)].
  - left. by eapply adds_pulses_trans.
  - right. split; [by eapply adds_chain_before|]. split; [done|lia].
Qed.

Lemma passed_after k1 r dc k2 h1 h2 h3 :
  passed k1 r dc h1 h2 → quiet k2 h2 h3 → passed (k1 + k2) r dc h1 h3.
Proof.
  intros (D1 & A1) Hq. pose proof (quiet_counted _ _ _ Hq) as (C2 & D2 & A2). split; [lia|].
  destruct A1 as [A1|(A1 & Ha & C1)].
  - left. by eapply adds_pulses_trans.
  - right. split; [by eapply adds_chain_after|]. split; [by eapply armed_quiet|lia].
Qed.

Lemma passed_bind_before {A B} k1 r1 k2 r2 dc (m : handler A) (f : A → handler B) h :
  counted k1 r1 h (exec m h) →
  (∀ a, eval m h = Ok a → passed k2 r2 dc (exec m h) (exec (f a) (exec m h))) →
  passed (k1 + k2) (r1 + r2) dc h (exec (pbind m f) h).
Proof.
  intros Hm Hf. rewrite exec_pbind. destruct (eval m h) as [a|e].
  - eapply passed_before; [done|]. by apply Hf.
  - eapply passed_before; [exact Hm|]. apply counted_passed. split; [done|].
    split; [lia|apply adds_pulses_refl].
Qed.

Lemma passed_bind_after {A B} k1 r dc k2 (m : handler A) (f : A → handler B) h :
  passed k1 r dc h (exec m h) → (∀ a, makes (quiet k2) (f a)) →
  passed (k1 + k2) r dc h (exec (pbind m f) h).
Proof.
  intros Hm Hf. rewrite exec_pbind. destruct (eval m h) as [a|e].
  - eapply passed_after; [done|]. apply Hf.
  - eapply passed_after; [exact Hm|]. apply makes_pret with (a := tt).
Qed.

Lemma reviewed_passed k dc h1 h2 h3 :
  tasks h2 = tasks h1 → dispatched h2 = dispatched h1 → counter h2 = counter h1 + dc →
  reviewed k h2 h3 → passed k 0 dc h1 h3.
Proof.
  intros Ht Hd Hc (C & D & A). unfold remediations in *. rewrite Hd in D.
  split; [unfold remediations; lia|]. unfold adds_pulses, adds_chain in *. rewrite Ht in A.
  destruct A as [A|[A Ha]]; [by left|right]. split; [done|]. split; [done|lia].
Qed.

Lemma emit_pool ty uuid r extra h : pool (exec (emit ty uuid r extra) h) = pool h.
Proof.
  unfold emit, publish_project_pulse, publish_event, schedule_recovery_pulse, spawn, on_store.
  run_state. destruct (in_strs ty _), (in_strs ty _); run_state; done.
Qed.

Lemma increment_run h :
  makes (quiet 0) (load_project_full u) →
  tasks (exec (increment_code_fix_iteration u) h) = tasks h ∧
  dispatched (exec (increment_code_fix_iteration u) h) = dispatched h ∧
  pool (exec (increment_code_fix_iteration u) h) = pool h ∧
  ∀ n, eval (increment_code_fix_iteration u) h = Ok n →
    (pool h = true → find_project u (projects h) ≠ None →
     counter (exec (increment_code_fix_iteration u) h) = counter h + 1) ∧
    (find_project u (projects h) = None → find_project u (projects (exec (increment_code_fix_iteration u) h)) = None).
Proof.
  intros Hl. unfold increment_code_fix_iteration. rewrite exec_pbind, eval_pbind.
  destruct (load_frame u h) as (Hproj & Hpool & _).
  assert (Ht : tasks (exec (load_project_full u) h) = tasks h ∧ dispatched (exec (load_project_full u) h) = dispatched h).
  { unfold load_project_full, statement. run_state. destruct (pool h); cbn; [|by run_state].
    run_state. destruct (hd false (pool_faults h)); by run_state. }
  destruct Ht as [Ht Hd].
  set (h1 := exec (load_project_full u) h) in *.
  destruct (eval (load_project_full u) h) as [[p|]|e] eqn:El; [| |done].
  2: { rewrite exec_pret. repeat split; [done..| |by rewrite Hproj]. intros Hp Hf.
       exfalso. revert El. unfold load_project_full, statement. run_state. rewrite Hp. cbn. run_state.
       destruct (hd false (pool_faults h)); run_state; [done|]. cbn. by intros [= ?]. }
  apply load_some in El as [Hp Hf]. rewrite exec_pbind, eval_pbind.
  destruct (persist_run u [("code_fix_iteration", VInt (code_fix_iteration_count (p_meta p) + 1))] h1)
    as (Hpool2 & Ht2 & Hd2 & Hok & _).
  destruct (eval (persist_metadata_patch _ _) h1) as [[]|e]; [|by rewrite Ht2, Hd2, Hpool2, Ht, Hd, Hpool].
  rewrite exec_pret. rewrite Ht2, Hd2, Hpool2, Ht, Hd, Hpool. repeat split; [|by rewrite Hf].
  intros _ _. unfold counter. rewrite Hok, Hproj by (by rewrite ?Hpool). rewrite find_update, Hf by done. cbn.
  assert (row_matches u p = true) as -> by (apply find_some in Hf; apply Hf).
  unfold merge_meta, code_fix_iteration_count at 1. cbn [p_meta with_meta dict_update].
  rewrite dict_lookup_set. cbn -[Z.max Z.add]. unfold code_fix_iteration_count.
  destruct (dict_lookup _ _) as [v|]; [destruct (py_int v)|]; lia.
Qed.

(** The engineer's pass on a project with a report. *)
Definition remediate_args (p : project) (d : dispatch_params) (actor : string) : orchestrate_args :=
  orchestrate_args_of p d actor.

Lemma remediate_success E p d actor result h :
  roles_keep_counter E → reports_have_text E → isdigit u = false → p_uuid p = u →
  dp_kind d = "code_review_blocked" → dp_card d = Some "code_approval" →
  passed 4 0 1 h (exec (orchestrate_success E (rerun_review E actor) (orchestrate_args_of p d actor)
                          "engineer" result) h).
Proof.
  intros HE HR Hu Hp Hk Hc. unfold orchestrate_success. cbv zeta. cbn [oa_kind oa_project oa_actor orchestrate_args_of].
  rewrite Hk, Hp. destruct (is_str _ "deploy" || _).
  { apply counted_passed, quiet_counted. apply (makes_le 1); [lia|]. by apply orchestrate_deploy_quiet. }
  replace (is_str (card_kind_of _ _ _) "code_approval" && _) with true
    by (unfold card_kind_of; cbn [oa_card orchestrate_args_of]; by rewrite Hc).
  destruct (increment_run h (load_quiet u)) as (Ht & Hd & Hpl & Hn). rewrite exec_pbind.
  set (h1 := exec (increment_code_fix_iteration u) h) in *.
  destruct (eval (increment_code_fix_iteration u) h) as [n|e] eqn:Ei.
  2: { split; [unfold remediations; rewrite Hd; lia|left; by apply adds_none]. }
  specialize (Hn n eq_refl) as [Hinc Hnone]. rewrite exec_pbind.
  pose proof (emit_quiet "role_finished" u "engineer"
    [("message", VStr "remediation complete — re-running security review")] h1) as He.
  pose proof (emit_pool "role_finished" u "engineer"
    [("message", VStr "remediation complete — re-running security review")] h1) as Hpe.
  set (h2 := exec (emit _ _ _ _) h1) in *.
  assert (Hstart : passed 1 0 1 h h2).
  { split; [unfold remediations; rewrite (proj1 (proj2 He)), Hd; lia|].
    left. destruct He as (_ & _ & n1 & E1 & F1). exists n1. by rewrite E1, Ht. }
  destruct (eval (emit _ _ _ _) h1) as [[]|e]; [|apply (passed_after 1 0 1 3 h h2 h2); [done|apply (makes_pret 3 tt)]].
  rewrite exec_pbind. destruct (eval (load_project_full u) h2) as [[q|]|e] eqn:El.
  2: { apply (passed_after 1 0 1 3 h h2); [done|]. rewrite exec_pret. apply (makes_le 0); [lia|apply load_quiet]. }
  2: { apply (passed_after 1 0 1 3 h h2); [done|]. apply (makes_le 0); [lia|apply load_quiet]. }
  apply load_some in El as [Hp2 Hq].
  assert (Hcount : counter h1 = counter h + 1).
  { apply Hinc; [congruence|]. intros Hf. apply Hnone in Hf. destruct He as (Hcore & _).
    unfold core in Hcore. rewrite Hf, Hq in Hcore. done. }
  apply (reviewed_passed 4 1 h h1); [done|done|done|].
  apply (reviewed_before 1 3 h1 h2); [by apply quiet_counted|].
  apply (reviewed_before 0 3 h2 (exec (load_project_full u) h2)); [apply quiet_counted, load_quiet|].
  apply rerun_reviewed; [done|done|done|]. by eapply find_project_uuid.
Qed.

Lemma remediate_passed E p d actor h :
  roles_keep_counter E → reports_have_text E → isdigit u = false → p_uuid p = u →
  dp_kind d = "code_review_blocked" → dp_card d = Some "code_approval" →
  passed 5 1 1 h (exec (orchestrate_hub_role E (orchestrate_args_of p d actor)) h).
Proof.
  intros HE HR Hu Hp Hk Hc. unfold orchestrate_hub_role, orchestrate_with.
  cbn [oa_kind oa_project oa_actor oa_extra orchestrate_args_of]. rewrite Hk, Hp.
  change (dict_lookup "code_review_blocked" KIND_ROLE_DISPATCH)
    with (Some (spec_of "build" "engineer" "REMEDIATE_FROM_REVIEW")). cbv iota.
  apply (passed_bind_before 1 0 4 1); [apply emit_counted|intros _ _].
  set (h1 := exec (emit _ _ _ _) _). clearbody h1.
  apply (passed_bind_before 0 1 4 0).
  { pose proof (dispatch_counted E "code_review_blocked" u actor (dp_extra d) HE) as H.
    apply (counted_le 0 _ 0 1) in H; [apply H|lia|unfold weight; case_match; lia]. }
  intros [result|] _; [|apply counted_passed, quiet_counted, (makes_pret 4 false)].
  apply (passed_bind_after 4 0 1 0); [|quiet_steps].
  destruct (rd_ok result).
  - rewrite <- Hk. by apply remediate_success.
  - apply counted_passed, quiet_counted. apply (makes_le 1); [lia|]. apply orchestrate_failure_quiet.
Qed.

(** The worker of a remediation dispatch: one pass. *)
Lemma worker_passed E p d actor h :
  roles_keep_counter E → reports_have_text E → isdigit u = false → p_uuid p = u →
  dp_kind d = "code_review_blocked" → dp_card d = Some "code_approval" → review_text p ≠ "" →
  passed 6 1 1 h (exec (run_recovery_orchestration E p d actor) h).
Proof.
  intros HE HR Hu Hp Hk Hc Hrev. unfold run_recovery_orchestration, try_finally.
  assert (Hbody : passed 6 1 1 h (exec (recovery_body E p d actor) h)).
  { unfold recovery_body, scan_first. rewrite Hk.
    destruct (String.eqb_spec (review_text p) ""); [done|]. rewrite andb_false_r.
    rewrite exec_pbind, eval_pret, exec_pret. cbv iota beta.
    apply (passed_bind_after 5 1 1 1); [by apply remediate_passed|].
    intros handled. destruct handled; [quiet_steps|apply gap_quiet]. }
  rewrite exec_bind. apply (passed_after 6 1 1 0 h (exec (recovery_body E p d actor) h)); [done|].
  rewrite exec_pbind. destruct (eval (recovery_finally _ _) _).
  - apply (quiet_trans 0 0 _ (exec (recovery_finally E (p_uuid p)) (exec (recovery_body E p d actor) h)));
      [apply finally_quiet|]. destruct (eval (recovery_body _ _ _ _) h); [apply (makes_pret 0 a0)|apply (makes_praise 0 e)].
  - apply finally_quiet.
Qed.

(** ** The scheduler *)

(** A worker the chain starts: a remediation of [u] with a report to work from. *)
Definition good_worker (p : project) (d : dispatch_params) : Prop :=
  p_uuid p = u ∧ dp_kind d = "code_review_blocked" ∧ dp_card d = Some "code_approval" ∧
  review_text p ≠ "".

(** What [start_dispatch] adds. *)
Definition adds_worker (h h' : hub) : Prop :=
  ∃ p d actor, tasks h' = tasks h ++ [TPulse u; TRecovery p d actor] ∧ good_worker p d.

Definition same_core (h h' : hub) : Prop := core h' = core h ∧ dispatched h' = dispatched h.

Lemma quiet0_tasks h h' : quiet 0 h h' → same_core h h' ∧ tasks h' = tasks h.
Proof.
  intros (C & D & n & E & L & _). split; [done|]. destruct n; [by rewrite E, app_nil_r|cbn in L; lia].
Qed.

Lemma same_core_trans h1 h2 h3 : same_core h1 h2 → same_core h2 h3 → same_core h1 h3.
Proof. intros [C1 D1] [C2 D2]. split; congruence. Qed.

Definition is_started (r : outcome exn dispatch_response) : bool :=
  match r with Ok (Started _ _) => true | _ => false end.

(** A dispatch either starts its worker and says so, or leaves the queue alone. *)
Definition starts (m : handler dispatch_response) (h : hub) : Prop :=
  same_core h (exec m h) ∧
  (if is_started (eval m h) then adds_worker h (exec m h) else tasks (exec m h) = tasks h).

Lemma starts_not (m : handler dispatch_response) h :
  same_core h (exec m h) → tasks (exec m h) = tasks h → is_started (eval m h) = false → starts m h.
Proof. intros Hc Ht Hs. split; [done|]. by rewrite Hs. Qed.

Lemma starts_bind {A} (m : handler A) (f : A → handler dispatch_response) h :
  makes (quiet 0) m → (∀ a, eval m h = Ok a → starts (f a) (exec m h)) → starts (pbind m f) h.
Proof.
  intros Hm Hf. pose proof (quiet0_tasks _ _ (Hm h)) as [Hc Ht]. unfold starts.
  rewrite exec_pbind, eval_pbind. destruct (eval m h) as [a|e]; [|by split].
  destruct (Hf a eq_refl) as [Hc2 Ht2]. split; [by eapply same_core_trans|].
  destruct (is_started _); [|by rewrite Ht2]. destruct Ht2 as (p & d & a' & E & G).
  exists p, d, a'. by rewrite E, Ht.
Qed.

Lemma starts_pret r h : is_started (Ok r) = false → starts (pret r) h.
Proof. intros Hr. by apply starts_not. Qed.

Lemma remediate_params p note d :
  dispatch_params_of "retry_engineer_remediate" p note = Ok d →
  dp_kind d = "code_review_blocked" ∧ dp_card d = Some "code_approval".
Proof.
  unfold dispatch_params_of. cbn. destruct (concat_str _ _); [|done]. by intros [= <-].
Qed.

Lemma start_remediate p actor note h :
  p_uuid p = u → review_text p ≠ "" → starts (start_dispatch p "retry_engineer_remediate" actor note) h.
Proof.
  intros Hp Hr. unfold start_dispatch. apply starts_bind; [apply makes_lift|intros d Ed].
  assert (dispatch_params_of "retry_engineer_remediate" p note = Ok d) as Hd.
  { by destruct (dispatch_params_of _ _ _). }
  apply remediate_params in Hd as [Hk Hc].
  apply starts_bind; [apply makes_pgets|intros t _].
  apply starts_bind; [apply makes_lift|intros feature Hfeat]. injection Hfeat as <-.
  apply starts_bind; [apply patch_quiet; cbn; set_solver|intros _ _].
  apply starts_bind; [apply project_pulse_quiet|intros _ _].
  set (h1 := exec (publish_project_pulse _ _) _). clearbody h1.
  unfold schedule_recovery_pulse, spawn, starts. run_state. split; [done|].
  exists p, d, actor. cbn. rewrite <- app_assoc, Hp. done.
Qed.

Lemma resolved_remediate E p actor h :
  p_uuid p = u → review_text p ≠ "" →
  starts (dispatch_resolved E p "retry_engineer_remediate" actor None true) h.
Proof.
  intros Hp Hr. unfold dispatch_resolved. apply starts_bind; [apply makes_pgets|intros t _].
  destruct (in_flight _ _); [case_match; by apply starts_pret|].
  cbn [String.eqb Ascii.eqb Bool.eqb]. unfold remediate_guard, fix_loop_guard.
  apply starts_bind; [quiet_steps|intros guard _].
  destruct guard; [by apply starts_pret|].
  destruct (in_strs _ (allowed p)); cbn [negb]; [|by apply starts_pret]. by apply start_remediate.
Qed.

Lemma dispatch_remediate E actor h :
  isdigit u = false → armed h →
  starts (recovery_dispatch E u "retry_engineer_remediate" actor None true) h.
Proof.
  intros Hu (x & Hx & Hb & Hcnt & Hrep). unfold recovery_dispatch.
  apply starts_bind; [apply load_quiet|intros [p|] El; [|by apply starts_pret]].
  apply load_some in El as [_ Hf]. pose proof (find_project_uuid _ _ _ Hu Hf) as Hp.
  unfold core in Hx. rewrite Hf in Hx. cbn in Hx. injection Hx as <-.
  set (h1 := exec (load_project_full u) h). clearbody h1.
  cbn [String.eqb Ascii.eqb Bool.eqb]. apply starts_bind; [apply reap_quiet|intros reaped _].
  apply resolved_remediate; destruct reaped; try done.
  unfold review_text. cbn [p_meta with_meta]. rewrite get_set. cbn -[strip py_str py_or]. done.
Qed.

(** One run of the scheduler task. *)
Definition scheduled (attempt : nat) (h h' : hub) : Prop :=
  same_core h h' ∧
  (tasks h' = tasks h ∨ adds_worker h h' ∨
   (∃ actor, tasks h' = tasks h ++ [TAutoRemediate u actor (S attempt)] ∧
             (attempt < AUTO_REMEDIATE_MAX_ATTEMPTS)%nat)).

Lemma auto_scheduled_run E actor attempt h :
  isdigit u = false → armed h → scheduled attempt h (exec (run_auto_remediate E u actor attempt) h).
Proof.
  intros Hu Ha. unfold run_auto_remediate. rewrite exec_bind.
  unfold auto_remediate_attempt at 1 2. rewrite exec_pbind, eval_pbind.
  pose proof (dispatch_remediate E actor h Hu Ha) as [Hc Ht].
  set (m := recovery_dispatch _ _ _ _ _ _) in *. set (h1 := exec m h) in *.
  assert (Hstop : scheduled attempt h (exec (discard_schedule u) h1)).
  { unfold discard_schedule. run_state. split; [done|]. destruct (is_started _); auto. }
  destruct (eval m h) as [r|e]; [|by unfold discard_schedule in *; run_state].
  rewrite eval_pret, exec_pret.
  destruct (match r with DispatchInFlight => _ | _ => false end) eqn:Eb; [|exact Hstop].
  destruct r; try done. apply Nat.ltb_lt in Eb. cbn in Ht.
  unfold spawn. run_state. split; [done|]. right; right. exists actor. cbn. by rewrite Ht.
Qed.

(** ** The queue *)

(** The queue holds pulses and at most one link of the chain: the scheduler or its
    worker.  [b] passes remain at most, and [n] bounds the tasks still to run. *)
Inductive chained (n b : nat) (h : hub) : Prop :=
| chain_idle : Forall is_pulse (tasks h) → (length (tasks h) <= n)%nat → chained n b h
| chain_waiting pre actor attempt post :
    tasks h = pre ++ TAutoRemediate u actor attempt :: post →
    Forall is_pulse pre → Forall is_pulse post → armed h → counter h + Z.of_nat b = MAX_CODE_FIX_ITERATIONS →
    (attempt <= AUTO_REMEDIATE_MAX_ATTEMPTS)%nat →
    (length (tasks h) + (AUTO_REMEDIATE_MAX_ATTEMPTS - attempt) + 30 * b <= n)%nat → chained n b h
| chain_working pre p d actor post :
    tasks h = pre ++ TRecovery p d actor :: post →
    Forall is_pulse pre → Forall is_pulse post → armed h → counter h + Z.of_nat b = MAX_CODE_FIX_ITERATIONS →
    good_worker p d → (length (tasks h) + 30 * b <= n + 3)%nat → chained n b h.

Lemma armed_counter h : armed h → counter h < MAX_CODE_FIX_ITERATIONS.
Proof.
  intros (x & Hx & _ & Hc & _). unfold core, counter in *.
  destruct (find_project u (projects h)) as [p|]; [|done]. cbn in Hx. by injection Hx as <-.
Qed.

Context (E : env) (D : deploy_env) (cg : nat → project → string → outcome string codegen).
Hypothesis keep_counter : roles_keep_counter E.
Hypothesis have_text : reports_have_text E.
Hypothesis not_numeric : isdigit u = false.

Lemma step_pulse n b h pid ts :
  chained n b h → tasks h = TPulse pid :: ts →
  let h' := exec (run_task E D cg (TPulse pid)) (set_tasks ts h) in
  ∃ n', (n' < n)%nat ∧ chained n' b h' ∧ remediations h' = remediations h.
Proof.
  intros Hch Ht h'.
  assert (quiet 0 (set_tasks ts h) h') as Hq by apply recovery_pulse_quiet.
  pose proof (quiet0_tasks _ _ Hq) as [[Hc Hd] Ht']. cbn in Ht'. change (core (set_tasks ts h)) with (core h) in Hc.
  change (dispatched (set_tasks ts h)) with (dispatched h) in Hd.
  assert (counter h' = counter h) as Hn by (by apply core_counter).
  assert (armed h → armed h') as Harm by (intros (x & Hx & Ha); exists x; by rewrite Hc).
  assert (remediations h' = remediations h) as Hrem by (unfold remediations; by rewrite Hd).
  assert (length (tasks h) = S (length (tasks h'))) as Hlen by (by rewrite Ht, Ht').
  destruct Hch as [F L|pre a att post Et F F' Ha Hcb Hat L|pre p d a post Et F F' Ha Hcb Hg L].
  - exists (n - 1)%nat. split; [lia|]. split; [|done]. apply chain_idle; [|lia].
    rewrite Ht in F. rewrite Ht'. by inversion F.
  - destruct pre as [|x pre]; rewrite Ht in Et; cbn in Et; injection Et as Ex Et; [done|subst x].
    exists (n - 1)%nat. split; [lia|]. split; [|done]. inversion F; subst.
    eapply (chain_waiting _ _ _ pre a att post); auto; [lia|lia].
  - destruct pre as [|x pre]; rewrite Ht in Et; cbn in Et; injection Et as Ex Et; [done|subst x].
    apply armed_counter in Ha as Hlt.
    exists (n - 1)%nat. split; [lia|]. split; [|done]. inversion F; subst.
    eapply (chain_working _ _ _ pre p d a post); auto; lia.
Qed.

Lemma step_scheduler n b h actor attempt ts :
  tasks h = TAutoRemediate u actor attempt :: ts → Forall is_pulse ts → armed h →
  counter h + Z.of_nat b = MAX_CODE_FIX_ITERATIONS → (attempt <= AUTO_REMEDIATE_MAX_ATTEMPTS)%nat →
  (length (tasks h) + (AUTO_REMEDIATE_MAX_ATTEMPTS - attempt) + 30 * b <= n)%nat →
  let h' := exec (run_task E D cg (TAutoRemediate u actor attempt)) (set_tasks ts h) in
  ∃ n', (n' < n)%nat ∧ chained n' b h' ∧ remediations h' = remediations h.
Proof.
  intros Ht F Ha Hb Hat L h'.
  assert (scheduled attempt (set_tasks ts h) h') as [[Hc Hd] Hs] by (by apply auto_scheduled_run).
  change (core (set_tasks ts h)) with (core h) in Hc.
  change (dispatched (set_tasks ts h)) with (dispatched h) in Hd. cbn [tasks set_tasks] in Hs.
  assert (counter h' = counter h) as Hn by (by apply core_counter).
  assert (armed h') as Harm by (destruct Ha as (x & Hx & Ha); exists x; by rewrite Hc).
  assert (remediations h' = remediations h) as Hrem by (unfold remediations; by rewrite Hd).
  assert (length (tasks h) = S (length ts)) as Hlen by (by rewrite Ht).
  exists (n - 1)%nat. apply armed_counter in Ha as Hlt. split; [lia|]. split; [|done].
  destruct Hs as [Et|[(p & d & a & Et & G)|(a & Et & Hlt')]].
  - apply chain_idle; rewrite Et; [done|lia].
  - apply (chain_working _ _ _ (ts ++ [TPulse u]) p d a []); auto; rewrite ?Et, <- ?app_assoc; auto.
    + by apply Forall_app; repeat constructor.
    + lia.
    + rewrite length_app. cbn [length app tasks set_tasks]. lia.
  - apply (chain_waiting _ _ _ ts a (S attempt) []); auto; [lia|]. rewrite Et, length_app. cbn [length]. lia.
Qed.

Lemma step_worker n b h p d actor ts :
  tasks h = TRecovery p d actor :: ts → Forall is_pulse ts → armed h →
  counter h + Z.of_nat b = MAX_CODE_FIX_ITERATIONS → good_worker p d →
  (length (tasks h) + 30 * b <= n + 3)%nat →
  let h' := exec (run_task E D cg (TRecovery p d actor)) (set_tasks ts h) in
  ∃ n' b', (n' < n)%nat ∧ chained n' b' h' ∧ (remediations h' + b' <= remediations h + b)%nat.
Proof.
  intros Ht F Ha Hb (Hp & Hk & Hcard & Hrev) L h'. apply armed_counter in Ha as Hlt.
  assert (passed 6 1 1 (set_tasks ts h) h') as [Hr Hq] by (by apply worker_passed).
  change (remediations (set_tasks ts h)) with (remediations h) in Hr.
  change (counter (set_tasks ts h)) with (counter h) in Hq.
  assert (length (tasks h) = S (length ts)) as Hlen by (by rewrite Ht).
  exists (n - 1)%nat, (b - 1)%nat. split; [lia|].
  destruct Hq as [(new & Et & Ln & Fn)|((n1 & a & n2 & Et & Ln & F1 & F2) & Harm & Hc)]; cbn in Et.
  - split; [|lia]. apply chain_idle; rewrite Et; [by apply Forall_app|rewrite length_app; lia].
  - split; [|lia]. apply (chain_waiting _ _ _ (ts ++ n1) a 1 n2); auto.
    + by rewrite Et, app_assoc.
    + by apply Forall_app.
    + lia.
    + unfold AUTO_REMEDIATE_MAX_ATTEMPTS. lia.
    + rewrite Et, !length_app. cbn [length]. unfold AUTO_REMEDIATE_MAX_ATTEMPTS. lia.
Qed.

Lemma step_chained n b h h' :
  chained n b h → run_next E D cg h = Some h' →
  ∃ n' b', (n' < n)%nat ∧ chained n' b' h' ∧ (remediations h' + b' <= remediations h + b)%nat.
Proof.
  intros Hch Hs. unfold run_next in Hs. destruct (tasks h) as [|t ts] eqn:Et; [done|].
  injection Hs as <-.
  assert (Hpulse : is_pulse t → ∃ n' b', (n' < n)%nat ∧ chained n' b' (exec (run_task E D cg t) (set_tasks ts h)) ∧
            (remediations (exec (run_task E D cg t) (set_tasks ts h)) + b' <= remediations h + b)%nat).
  { destruct t as [| | |pid| |]; try done. intros _.
    destruct (step_pulse n b h pid ts Hch Et) as (n' & ? & ? & ?). exists n', b. auto with lia. }
  destruct Hch as [F L|pre a att post E' F F' Ha Hcb Hat L|pre p d a post E' F F' Ha Hcb Hg L].
  - apply Hpulse. rewrite Et in F. by inversion F.
  - rewrite Et in E'. destruct pre as [|x pre]; cbn in E'; injection E' as -> ->.
    + destruct (step_scheduler n b h a att post Et F' Ha Hcb Hat L) as (n' & ? & ? & ?).
      exists n', b. auto with lia.
    + apply Hpulse. by inversion F.
  - rewrite Et in E'. destruct pre as [|x pre]; cbn in E'; injection E' as -> ->.
    + by apply (step_worker n b h p d a post Et F' Ha Hcb Hg L).
    + apply Hpulse. by inversion F.
Qed.

Lemma run_chained fuel : ∀ n b h, chained n b h →
  (remediations (run_queue E D cg fuel h) <= remediations h + b)%nat ∧
  ((n <= fuel)%nat → tasks (run_queue E D cg fuel h) = []).
Proof.
  induction fuel as [|fuel IH]; intros n b h Hch; cbn [run_queue].
  - split; [lia|]. intros Hn. destruct Hch as [F L|pre a att post Et F F' Ha Hcb Hat L|pre p d a post Et F F' Ha Hcb Hg L].
    + destruct (tasks h); [done|cbn in L; lia].
    + rewrite Et, length_app in L. cbn in L. lia.
    + apply armed_counter in Ha. rewrite Et, length_app in L. cbn in L. lia.
  - destruct (run_next E D cg h) as [h'|] eqn:Hs.
    + destruct (step_chained n b h h' Hch Hs) as (n' & b' & Hn & Hch' & Hrem).
      destruct (IH n' b' h' Hch') as [H1 H2]. split; [lia|]. intros. apply H2. lia.
    + unfold run_next in Hs. destruct (tasks h) eqn:Et; [|done]. split; [lia|done].
Qed.

(** C1: the automatic fix loop is bounded and ends.  Start the scheduler for a project
    whose security review is blocked with a report, while the queue holds only
    pulses.  Then, whatever the roles answer and whatever database statements fail,
    the loop dispatches the engineer at most [3 - code_fix_iteration] times, and the
    event loop is idle after a bounded number of tasks.  The roles are assumed to
    leave the counter to the hub and to give a blocked review a report. *)
Theorem auto_fix_loop_bounded h actor :
  Forall is_pulse (tasks h) → armed h → u ∉ auto_scheduled h →
  let h0 := exec (schedule_auto_engineer_remediate u actor) h in
  (∀ fuel, (remediations (run_queue E D cg fuel h0)
            <= remediations h + Z.to_nat (MAX_CODE_FIX_ITERATIONS - counter h))%nat) ∧
  tasks (run_queue E D cg (length (tasks h) + 102) h0) = [].
Proof.
  intros F Ha Hu h0. apply armed_counter in Ha as Hlt.
  assert (H0 : h0 = set_tasks (tasks h ++ [TAutoRemediate u actor 1]) (set_auto_scheduled (u :: auto_scheduled h) h)).
  { unfold h0, schedule_auto_engineer_remediate, spawn. run_state.
    assert (in_strs u (auto_scheduled h) = false) as -> by (by apply in_strs_false). by run_state. }
  assert (Hcount : 0 <= counter h).
  { unfold counter, code_fix_iteration_count. destruct (find_project _ _); [|lia].
    destruct (dict_lookup _ _); [|lia]. destruct (py_int _); lia. }
  assert (Hch : chained (length (tasks h) + 102) (Z.to_nat (MAX_CODE_FIX_ITERATIONS - counter h)) h0).
  { apply (chain_waiting _ _ _ (tasks h) actor 1 []); rewrite ?H0; auto.
    - change (counter h + Z.of_nat (Z.to_nat (MAX_CODE_FIX_ITERATIONS - counter h)) = MAX_CODE_FIX_ITERATIONS). lia.
    - unfold AUTO_REMEDIATE_MAX_ATTEMPTS. lia.
    - cbn [tasks set_tasks]. rewrite length_app. cbn [length]. unfold MAX_CODE_FIX_ITERATIONS in *.
      unfold AUTO_REMEDIATE_MAX_ATTEMPTS. lia. }
  split.
  - intros fuel. pose proof (proj1 (run_chained fuel _ _ _ Hch)) as H.
    assert (remediations h0 = remediations h) as Hr by exact (f_equal remediations H0).
    rewrite <- Hr. exact H.
  - by apply (proj2 (run_chained _ _ _ _ Hch)).
Qed.

End Project.

(** * A run *)

(** Roles whose remediation always succeeds and whose review always blocks. *)
Definition stubborn_role (tool : string) : role_answer :=
  if String.eqb tool "verify_hub_review" then
    RoleReturns [("status", VStr "ok");
                 ("data", VDict [("result_kind", VStr "code_review_blocked");
                                 ("artifact_md", VStr "# SQL injection in login")])] []
  else RoleReturns [("status", VStr "ok"); ("data", VDict [("result_kind", VStr "code_approval")])]
         [("code_intro_md", VStr "patched")].

Definition stubborn_env : env :=
  {| e_uuid := fun n => "card-" +:+ str_of_Z (Z.of_nat n); e_role := fun _ tool _ => stubborn_role tool;
     e_kg := fun _ _ => None; e_grant := fun _ _ _ => ToolRaises; e_advance := fun _ _ _ _ => ToolRaises;
     e_files := fun _ _ => 4; e_host_path := fun _ _ => "/work"; e_pipeline_version := "1" |}.

Definition no_deploys : deploy_env :=
  {| de_workspace := fun _ _ => {| w_path := ""; w_exists := false; w_file := fun _ => false; w_scripts := [] |};
     de_port_free := fun _ _ => false; de_spawn := fun _ _ => Raise "no"; de_run := fun _ _ => ("", None) |}.
Definition no_codegen (n : nat) (p : project) (feedback : string) : outcome string codegen := Raise "no".

Definition blocked_project : project :=
  {| p_id := 7; p_uuid := "todo-1"; p_name := "Todo"; p_type := "feature"; p_phase := "build_in_progress";
     p_status := "active"; p_pipeline := None;
     p_meta := [("code_intro_md", VStr "app"); ("code_review_md", VStr "# XSS"); ("code_review_blocked", VBool true)] |}.

Definition sample_hub (p : project) : hub :=
  {| projects := [p]; pool := true; pool_faults := []; store := Decisions.empty_store; phase_history := [];
     route_history := []; tasks := []; auto_scheduled := []; dispatched := []; deployments := [];
     now := 1700000000000000; ticks := 0 |}.

Definition after_loop : hub :=
  run_queue stubborn_env no_deploys no_codegen 102
    (exec (schedule_auto_engineer_remediate "todo-1" "hub") (sample_hub blocked_project)).

(** Three passes run, then the loop stops with a card for a person. *)
Example stubborn_loop :
  (remediations "todo-1" after_loop, counter "todo-1" after_loop, length (tasks after_loop),
   fix_loop_exhausted <$> find_project "todo-1" (projects after_loop),
   (fun c => get "kind" (Decisions.metadata c)) <$> (Decisions.cards (store after_loop)).*2)
  = (3%nat, 3, 0%nat, Some true,
     [VStr "security_review_blocked"; VStr "security_review_blocked"; VStr "code_review_blocked"]).
Proof. vm_compute. reflexivity. Qed.

Lemma stubborn_keeps_counter : roles_keep_counter stubborn_env.
Proof.
  intros n tool payload raw patch. cbn. unfold stubborn_role.
  destruct (String.eqb tool _); intros [= <- <-]; cbn; set_solver.
Qed.
Lemma stubborn_reports : reports_have_text stubborn_env.
Proof.
  intros n tool payload raw patch. cbn. unfold stubborn_role.
  destruct (String.eqb tool _); intros [= <- <-]; vm_compute; congruence.
Qed.

Lemma auto_fix_loop_bounded_witness :
  (∀ fuel, (remediations "todo-1" (run_queue stubborn_env no_deploys no_codegen fuel
      (exec (schedule_auto_engineer_remediate "todo-1" "hub") (sample_hub blocked_project))) <= 3)%nat) ∧
  tasks after_loop = [].
Proof.
  apply (auto_fix_loop_bounded "todo-1" stubborn_env no_deploys no_codegen stubborn_keeps_counter
           stubborn_reports eq_refl (sample_hub blocked_project) "hub").
  - constructor.
  - eexists. split; [reflexivity|]. split; [reflexivity|]. split; [reflexivity|]. vm_compute. discriminate.
  - apply not_elem_of_nil.
Defined.

End AutoLoop.
