(* ===== verification/Runner.v ===== *)
(** The background loops of the hub.

    [shared/runtime/pipeline_runner.py] acks the cards a project's gate policy
    allows and unblocks operate-phase projects; [shared/runtime/phase_watcher.py]
    dispatches roles whose inputs are ready. *)

From S2P Require Import Prelude PyValue Datetime GatePolicy Decisions Hub FixLoop Orchestrate Recovery.
From S2P Require Import Deploy PostAck.
From Stdlib Require Import Ascii.
Local Open Scope Z_scope.

Module Runner.
Import Hub FixLoop Orchestrate Recovery Deploy PostAck.
Local Open Scope proc_scope.

Definition ACTOR : string := "pipeline_runner".
(** The default of [SPINE_PIPELINE_DISMISS_GLOBAL]. *)
Definition GLOBAL_DISMISS_KINDS : list string := ["master_daily_briefing"; "host_deploy_instructions"].
Definition STOP_KINDS : list string := ["orchestrator_gap"; "role_failure"].

(** Postgres [metadata->>key]: the text of a scalar; the text of a list or an object
    is none of the texts the queries compare with. *)
Definition json_text (v : value) : option string :=
  match v with
  | VNone => None
  | VBool b => Some (if b then "true" else "false")
  | VInt n => Some (str_of_Z n)
  | VStr s => Some s
  | VList _ | VDict _ => Some "[...]"
  end.

(** The [WHERE] clause of [_list_autonomous_projects]. *)
Definition is_autonomous (p : project) : bool :=
  String.eqb (p_status p) "active"
  && bool_decide (json_text (get "pipeline_mode" (p_meta p)) = Some "autonomous")
  && negb (in_strs (default "false" (json_text (get "pipeline_paused" (p_meta p)))) ["true"; "1"]).

(** [_card_belongs]. *)
Definition card_belongs (c : Decisions.DecisionCard) (uuid : string) : bool :=
  is_str (get "project_uuid" (Decisions.metadata c)) uuid
  || bool_decide (Decisions.project_id c = Some uuid).

(** What the runner does with one pending card of the project. *)
Inductive verdict := Skip | AckIt | PauseOn (kind : string).

Definition card_kind (c : Decisions.DecisionCard) : string :=
  py_str (py_or (get "kind" (Decisions.metadata c)) (VStr "")).

Definition judge (p : project) (c : Decisions.DecisionCard) : verdict :=
  let md := p_meta p in
  let kind := card_kind c in
  let has_id := negb (String.eqb (Decisions.decision_id c) "") in
  if negb (card_belongs c (p_uuid p)) then Skip
  else if in_strs kind STOP_KINDS then
    if String.eqb kind "role_failure" && truthy (get "operate_started_at" md)
    then if has_id then AckIt else Skip
    else PauseOn kind
  else if negb (GatePolicy.can_auto_ack kind (GatePolicy.resolve_pipeline_mode md)
                  (GatePolicy.resolve_gate_policy md)) then Skip
  else if has_id then AckIt else Skip.

(** [_dismiss_global_cards]: the portfolio cards it acks. *)
Definition dismissable (c : Decisions.DecisionCard) : bool :=
  match get "kind" (Decisions.metadata c) with
  | VStr k => in_strs k GLOBAL_DISMISS_KINDS
  | _ => false
  end
  && negb (truthy (card_project c)) && negb (String.eqb (Decisions.decision_id c) "").

Section WithEnv.
Context (E : env).
(** One intake turn, [execute_intake_turn] of [shared/api/routes/intake.py], is a
    conversation with a model: a parameter. *)
Context (intake_turn : project → handler unit).
(** [ORDER BY updated_at DESC NULLS LAST]: the order of the rows. *)
Context (by_update : list project → list project).

Definition list_autonomous_projects : handler (list project) :=
  up <- pgets pool;;
  if negb up then pret [] else
  statement;;
  pgets (fun h => take 20 (by_update (List.filter is_autonomous (projects h)))).

Definition persist_pipeline_pause (uuid reason kind title : string) : handler unit :=
  up <- pgets pool;;
  if negb up then pret tt else
  statement;;
  pmodify (fun h => set_projects (update_rows uuid (merge_meta
    [("pipeline_paused", VBool true); ("pipeline_pause_reason", VStr reason);
     ("pipeline_pause_kind", VStr kind); ("pipeline_pause_title", VStr (take_text 500 title))])
    (projects h)) h).

Fixpoint dismiss_global_cards (cards : list Decisions.DecisionCard) : handler nat :=
  match cards with
  | [] => pret 0%nat
  | c :: rest =>
      n <- (if dismissable c then ack_decision_internal (Decisions.decision_id c) ACTOR;; pret 1%nat
            else pret 0%nat);;
      m <- dismiss_global_cards rest;;
      pret (n + m)%nat
  end.

(** [type(exc).__name__]. *)
Definition exn_name (e : exn) : string :=
  match e with
  | DbError => "PostgresError" | RoleError _ => "RuntimeError" | TypeError => "TypeError"
  | NameError => "NameError" | ValueError => "ValueError"
  end.

(** [_run_intake_tick]: did intake work run? *)
Definition run_intake_tick (p : project) : handler bool :=
  if truthy (get "intake_done" (p_meta p)) then pret false
  else
    try_except (intake_turn p;; pret true)
      (fun e => persist_pipeline_pause (p_uuid p) ("intake_failed: " +:+ exn_name e) "intake"
                  "Intake LLM turn failed";;
                pret true).

(** The guards the two operate-phase helpers share. *)
Definition operate_idle (p : project) (pending : list Decisions.DecisionCard) : bool :=
  String.eqb (p_phase p) "operate"
  && negb (truthy (get "recovery_dispatch_in_flight" (p_meta p)))
  && negb (existsb (fun c => card_belongs c (p_uuid p)) pending).

Definition maybe_auto_unstick_recovery (p : project) (pending : list Decisions.DecisionCard)
    : handler bool :=
  let worn := fix_loop_exhausted p || (0 <? code_fix_iteration_count (p_meta p)) in
  if negb (operate_idle p pending && truthy (get "code_review_blocked" (p_meta p)) && worn)
  then pret false
  else
    recovery_dispatch E (p_uuid p) "reset_fix_loop" ACTOR None true;;
    review <- recovery_dispatch E (p_uuid p) "retry_code_review" ACTOR None true;;
    pret (response_ok review).

Definition maybe_dispatch_feature_request (p : project) (pending : list Decisions.DecisionCard)
    : handler bool :=
  if negb (operate_idle p pending && feature_waiting p
           && negb (truthy (get "code_review_blocked" (p_meta p)))) then pret false
  else
    r <- recovery_dispatch E (p_uuid p) "retry_feature" ACTOR None true;;
    pret (response_ok r).

(** The loop over the pending cards; a pause ends it. *)
Fixpoint process_cards (p : project) (cards : list Decisions.DecisionCard) : handler nat :=
  match cards with
  | [] => pret 0%nat
  | c :: rest =>
      match judge p c with
      | Skip => process_cards p rest
      | PauseOn kind =>
          persist_pipeline_pause (p_uuid p) kind kind
            (Decisions.str_or (Decisions.title c) kind);;
          pret 0%nat
      | AckIt =>
          ack_decision_internal (Decisions.decision_id c) ACTOR;;
          n <- process_cards p rest;;
          pret (S n)
      end
  end.

Definition process_project (p : project) (pending : list Decisions.DecisionCard) : handler nat :=
  intake <- run_intake_tick p;;
  if intake : bool then pret 0%nat else
  unstuck <- maybe_auto_unstick_recovery p pending;;
  if unstuck : bool then pret 0%nat else
  feature <- maybe_dispatch_feature_request p pending;;
  if feature : bool then pret 0%nat else process_cards p pending.

Fixpoint process_projects (ps : list project) (pending : list Decisions.DecisionCard) : handler nat :=
  match ps with
  | [] => pret 0%nat
  | p :: rest =>
      n <- process_project p pending;;
      m <- process_projects rest pending;;
      pret (n + m)%nat
  end.

Definition pipeline_runner_tick : handler nat :=
  ps <- list_autonomous_projects;;
  match ps with
  | [] => pret 0%nat
  | _ =>
      pending <- on_store (Decisions.alist (Some Decisions.Pending));;
      dismiss_global_cards pending;;
      process_projects ps pending
  end.

(** * The phase watcher *)

(** [metadata ? key]: the key is present, with any value, [null] included. *)
Definition has_key (k : string) (p : project) : bool := dict_has k (p_meta p).

Definition is_requested (v : value) : bool :=
  match v with VDict d => bool_decide (json_text (get "status" d) = Some "requested") | _ => false end.

(** [EXISTS (SELECT 1 FROM jsonb_array_elements(...))]; Postgres raises on a value
    that is not an array. *)
Definition any_requested (p : project) : outcome exn bool :=
  match get "feature_requests" (p_meta p) with
  | VList l => Ok (existsb is_requested l)
  | _ => Raise DbError
  end.

Definition json_is_true (k : string) (p : project) : bool :=
  bool_decide (json_text (get k (p_meta p)) = Some "true").

Record watch_rule := { wr_phase : string; wr_pred : project → outcome exn bool; wr_kind : string }.

Definition rule (ph : string) (pred : project → bool) (kind : string) : watch_rule :=
  {| wr_phase := ph; wr_pred := fun p => Ok (pred p); wr_kind := kind |}.
Definition have_not (a b : string) (p : project) : bool := has_key a p && negb (has_key b p).

Definition WATCH_RULES : list watch_rule :=
  [rule "plan_in_progress" (have_not "prd_md" "roadmap_md") "prd_approval";
   rule "plan_in_progress" (have_not "roadmap_md" "trd_md") "roadmap_approval";
   rule "plan_in_progress" (have_not "trd_md" "sprint_plan_md") "trd_approval";
   rule "build_in_progress" (have_not "sprint_plan_md" "code_intro_md") "sprint_plan_approval";
   rule "build_in_progress" (have_not "code_intro_md" "code_review_md") "code_approval";
   rule "verify_in_progress" (have_not "devops_install_ok" "qa_md") "devops_approval";
   rule "verify_approved" (have_not "qa_md" "audit_md") "auditor_approval";
   rule "acceptance" (have_not "audit_md" "release_gate_md") "release_approval";
   rule "released" (have_not "deploy_result" "operate_started_at") "operate_kickoff";
   {| wr_phase := "operate";
      wr_pred := fun p =>
        if has_key "feature_requests" p && negb (json_is_true "feature_iteration_active" p)
           && negb (json_is_true "code_review_blocked" p)
           && negb (has_key "recovery_dispatch_in_flight" p)
        then any_requested p else Ok false;
      wr_kind := "feature_request" |};
   rule "operate"
     (fun p => have_not "code_intro_md" "code_review_md" p && json_is_true "feature_iteration_active" p)
     "code_approval"].

(** No role was dispatched for the project in the last fifteen minutes. *)
Definition no_recent_route (t : datetime) (hist : list (Z * string * string * datetime)) (p : project) : bool :=
  negb (existsb (fun r => (r.1.1.1 =? p_id p) && (t - 15 * 60 * usec_per_sec <? r.2)) hist).

Fixpoint select_rows (pred : project → outcome exn bool) (ps : list project) : outcome exn (list project) :=
  match ps with
  | [] => Ok []
  | p :: rest =>
      match pred p, select_rows pred rest with
      | Ok true, Ok l => Ok (p :: l)
      | Ok false, Ok l => Ok l
      | Raise e, _ | _, Raise e => Raise e
      end
  end.

Definition rule_rows (r : watch_rule) (t : datetime) (hist : list (Z * string * string * datetime))
    (ps : list project) : outcome exn (list project) :=
  l ← (select_rows (wr_pred r)
        (List.filter (fun p => String.eqb (p_status p) "active" && String.eqb (p_phase p) (wr_phase r)
                               && no_recent_route t hist p) ps));
  Ok (take 3 l).

Fixpoint find_pending_work (rules : list watch_rule) : handler (list (project * string)) :=
  match rules with
  | [] => pret []
  | r :: rest =>
      statement;;
      rows <- pgets (fun h => rule_rows r (now h) (route_history h) (projects h));;
      rows <- lift rows;;
      more <- find_pending_work rest;;
      pret (map (fun p => (p, wr_kind r)) rows ++ more)
  end.

Fixpoint watch_dispatch (rows : list (project * string)) (i : index) : handler nat :=
  match rows with
  | [] => pret 0%nat
  | (row, kind) :: rest =>
      p <- load_project_full (p_uuid row);;
      n <- match p with
           | None => pret 0%nat
           | Some p =>
               if Nat.ltb 0 (pending_count_for_project p i) then pret 0%nat
               else
                 ok <- require_orchestrate_hub_role E
                         {| oa_kind := kind; oa_project := p; oa_actor := "phase_watcher"; oa_card := None;
                            oa_next_phase := None; oa_extra := None |} None;;
                 pret (if ok : bool then 1%nat else 0%nat)
           end;;
      m <- watch_dispatch rest i;;
      pret (n + m)%nat
  end.

Definition phase_watcher_tick : handler nat :=
  up <- pgets pool;;
  if negb up then pret 0%nat else
  rows <- find_pending_work WATCH_RULES;;
  match rows with
  | [] => pret 0%nat
  | _ => i <- build_pending_decision_index;; watch_dispatch rows i
  end.

(** * What the runner may change on the queue *)

(** Rows stay under their ids, and no card of the cache outside [S] changes. *)
Definition touches (S : string → Prop) (h h' : hub) : Prop :=
  Decisions.table_wf (store h) →
  Decisions.table_wf (store h') ∧
  ∀ k c, ¬ S k → dict_lookup k (Decisions.cards (store h)) = Some c →
    dict_lookup k (Decisions.cards (store h')) = Some c.

#[local] Instance touches_preorder S : PreOrder (touches S).
Proof.
  split; [by intros h Hw|]. intros h1 h2 h3 A B Hw. destruct (A Hw) as [Hw2 A2].
  destruct (B Hw2) as [Hw3 B3]. split; [done|]. intros k c Hk Hc. auto.
Qed.

Create HintDb touchdb.
#[local] Hint Extern 1 (within (touches _) (pret _)) => apply within_pret; typeclasses eauto : touchdb.
#[local] Hint Extern 1 (within (touches _) (praise _)) => apply within_praise; typeclasses eauto : touchdb.
#[local] Hint Extern 1 (within (touches _) (pgets _)) => apply within_pgets; typeclasses eauto : touchdb.

Ltac touch_steps :=
  repeat first
    [ progress intros
    | solve [auto with touchdb nocore]
    | apply within_pbind; [typeclasses eauto| |]
    | apply within_try_except; [typeclasses eauto| |]
    | (apply within_pmodify; [typeclasses eauto|]; intros; solve [intros Hw; by split])
    | case_match ].

Section Touches.
Context (S : string → Prop).

Lemma statement_touches : within (touches S) statement.
Proof. unfold statement. touch_steps. Qed.
Lemma lift_touches {A} (o : outcome exn A) : within (touches S) (lift o).
Proof. destruct o; cbn [lift]; touch_steps. Qed.
#[local] Hint Resolve statement_touches lift_touches : touchdb.
Lemma load_touches pid : within (touches S) (load_project_full pid).
Proof. unfold load_project_full. touch_steps. Qed.
Lemma persist_touches pid patch : within (touches S) (persist_metadata_patch pid patch).
Proof. unfold persist_metadata_patch. touch_steps. Qed.
Lemma pause_touches u r k t : within (touches S) (persist_pipeline_pause u r k t).
Proof. unfold persist_pipeline_pause. touch_steps. Qed.
Lemma spawn_touches t : within (touches S) (spawn t).
Proof. unfold spawn. touch_steps. Qed.

Lemma on_store_touches {A} (m : state Decisions.store A) :
  (∀ s, Decisions.table_wf s → Decisions.table_wf (exec m s) ∧
     ∀ k, ¬ S k → dict_lookup k (Decisions.cards (exec m s)) = dict_lookup k (Decisions.cards s)) →
  within (touches S) (on_store m).
Proof.
  intros Hm h Hw. unfold on_store. run_state. cbn. destruct (Hm _ Hw) as [Hw' Hk].
  split; [done|]. intros k c Hn Hc. by rewrite Hk.
Qed.

Lemma event_touches f : within (touches S) (publish_event f).
Proof.
  unfold publish_event. apply on_store_touches. intros s Hw.
  unfold Decisions.publish_event, Decisions.publish. run_state. by split.
Qed.
Lemma index_alist_touches : within (touches S) (on_store (Decisions.alist (Some Decisions.Pending))).
Proof.
  apply on_store_touches. intros s Hw. 
  unfold Decisions.alist. run_state. destruct (Decisions.list_from_db_run (Some Decisions.Pending) s) as [_ Hc].
  split; [|by rewrite Hc]. eapply Decisions.table_wf_same; [|exact Hw].
  unfold Decisions.list_from_db. run_state. destruct (Decisions.db s); cbn [negb]; [|by run_state].
  run_state. destruct (Decisions.statement_raises_run s) as [-> ->].
  by destruct (hd false (Decisions.faults s)); run_state.
Qed.
Lemma index_touches : within (touches S) build_pending_decision_index.
Proof.
  unfold build_pending_decision_index.
  apply within_pbind; [typeclasses eauto|apply index_alist_touches|touch_steps].
Qed.
#[local] Hint Resolve load_touches persist_touches pause_touches spawn_touches event_touches index_touches : touchdb.
Lemma ppulse_touches u f : within (touches S) (publish_project_pulse u f).
Proof. unfold publish_project_pulse. touch_steps. Qed.
#[local] Hint Resolve ppulse_touches : touchdb.
Lemma pulse_with_touches reap pid x :
  (∀ p, within (touches S) (reap p)) → within (touches S) (publish_pulse_with E reap pid x).
Proof. intros H. unfold publish_pulse_with, recovery_status_with. touch_steps. Qed.
Lemma reap_touches n p : within (touches S) (reap_stale E n p).
Proof.
  revert p. induction n as [|n IH]; intros p; cbn [reap_stale]; unfold clear_in_flight;
    touch_steps; by apply pulse_with_touches.
Qed.
Lemma recovery_pulse_touches pid x : within (touches S) (publish_recovery_pulse E pid x).
Proof. apply pulse_with_touches. intros; apply reap_touches. Qed.
#[local] Hint Resolve reap_touches recovery_pulse_touches : touchdb.

Lemma guard_touches p auto : within (touches S) (remediate_guard p auto).
Proof. unfold remediate_guard, fix_loop_guard, count_pending_for_project. touch_steps. Qed.
Lemma reset_touches p : within (touches S) (reset_fix_loop E p).
Proof. unfold reset_fix_loop. destruct (reset_allowed p); cbn [negb]; touch_steps. Qed.
Lemma start_touches p a actor note : within (touches S) (start_dispatch p a actor note).
Proof. unfold start_dispatch, schedule_recovery_pulse. cbv zeta. touch_steps. Qed.
#[local] Hint Resolve guard_touches reset_touches start_touches : touchdb.

Lemma resolved_touches p a actor note auto :
  within (touches S) (dispatch_resolved E p a actor note auto).
Proof.
  unfold dispatch_resolved. apply within_pbind; [typeclasses eauto|touch_steps|intros t].
  destruct (in_flight _ _).
  { cbv zeta. destruct (auto && _ && _); touch_steps. }
  destruct (String.eqb a "reset_fix_loop"); [touch_steps|].
  apply within_pbind; [typeclasses eauto|destruct (String.eqb a _); touch_steps|intros [g|]]; [touch_steps|].
  destruct (in_strs a (allowed p)); cbn [negb]; touch_steps.
Qed.
#[local] Hint Resolve resolved_touches : touchdb.

Lemma recovery_dispatch_touches pid a actor note auto :
  within (touches S) (recovery_dispatch E pid a actor note auto).
Proof.
  unfold recovery_dispatch, reap_stale_dispatch_inflight.
  apply within_pbind; [typeclasses eauto|touch_steps|intros [p|]]; [|touch_steps].
  destruct (if String.eqb a "resume" then _ else _); touch_steps.
Qed.
#[local] Hint Resolve recovery_dispatch_touches : touchdb.

Lemma ack_touches did actor :
  S did → (∀ k, Decisions.to_uuid_str did = Some k → S k) → within (touches S) (ack_decision_internal did actor).
Proof.
  intros Hd Hu. unfold ack_decision_internal. apply within_pbind; [typeclasses eauto| |touch_steps].
  apply on_store_touches. intros s Hw. split; [by apply Decisions.atransition_table|].
  intros k Hk. apply Decisions.atransition_frame; [by intros ->|by intros ?%Hu|].
  by apply Decisions.persist_transition_table.
Qed.
#[local] Hint Resolve pause_touches recovery_dispatch_touches : touchdb.

Context (intake_keeps : ∀ p, within (touches S) (intake_turn p)).

Lemma process_cards_touches p cards :
  (∀ c, c ∈ cards → judge p c = AckIt → S (Decisions.decision_id c) ∧
     ∀ k, Decisions.to_uuid_str (Decisions.decision_id c) = Some k → S k) →
  within (touches S) (process_cards p cards).
Proof.
  induction cards as [|c cards IH]; intros Hc; cbn [process_cards]; [touch_steps|].
  specialize (IH (fun c' Hin => Hc c' (list_elem_of_further _ _ _ Hin))).
  destruct (judge p c) eqn:Hj; [done| |touch_steps].
  destruct (Hc c (list_elem_of_here _ _) Hj) as [H1 H2].
  apply within_pbind; [typeclasses eauto|by apply ack_touches|intros _].
  apply within_pbind; [typeclasses eauto|done|touch_steps].
Qed.

Lemma process_projects_touches ps pending :
  (∀ p c, p ∈ ps → c ∈ pending → judge p c = AckIt → S (Decisions.decision_id c) ∧
     ∀ k, Decisions.to_uuid_str (Decisions.decision_id c) = Some k → S k) →
  within (touches S) (process_projects ps pending).
Proof.
  induction ps as [|p ps IH]; intros Hc; cbn [process_projects]; [touch_steps|].
  apply within_pbind; [typeclasses eauto| |intros n].
  2: { apply within_pbind; [typeclasses eauto| |touch_steps]. apply IH. intros q c Hq. apply Hc. by right. }
  unfold process_project. apply within_pbind; [typeclasses eauto| |intros intake].
  { unfold run_intake_tick. destruct (truthy _); [touch_steps|].
    apply within_try_except; [typeclasses eauto| |touch_steps].
    apply within_pbind; [typeclasses eauto|apply intake_keeps|touch_steps]. }
  destruct intake; [touch_steps|]. apply within_pbind; [typeclasses eauto| |intros unstuck].
  { unfold maybe_auto_unstick_recovery. cbv zeta. destruct (negb _); touch_steps. }
  destruct unstuck; [touch_steps|]. apply within_pbind; [typeclasses eauto| |intros feature].
  { unfold maybe_dispatch_feature_request. destruct (negb _); touch_steps. }
  destruct feature; [touch_steps|]. apply process_cards_touches. intros c Hin. apply Hc; [by left|done].
Qed.

Lemma dismiss_touches cards :
  (∀ c, c ∈ cards → dismissable c = true → S (Decisions.decision_id c) ∧
     ∀ k, Decisions.to_uuid_str (Decisions.decision_id c) = Some k → S k) →
  within (touches S) (dismiss_global_cards cards).
Proof.
  induction cards as [|c cards IH]; intros Hc; cbn [dismiss_global_cards]; [touch_steps|].
  apply within_pbind; [typeclasses eauto| |intros n].
  - destruct (dismissable c) eqn:Hd; [|touch_steps].
    destruct (Hc c (list_elem_of_here _ _) Hd) as [H1 H2].
    apply within_pbind; [typeclasses eauto|by apply ack_touches|touch_steps].
  - apply within_pbind; [typeclasses eauto| |touch_steps]. apply IH. intros c' Hc'. apply Hc. by right.
Qed.
End Touches.

(** The cards a tick may ack: portfolio messages, and cards of an autonomous project
    that its gate policy lets the runner ack or, once the project operates, that
    report a failed role. *)
Definition allowed_ack (p : project) (c : Decisions.DecisionCard) : Prop :=
  card_belongs c (p_uuid p) = true ∧
  (GatePolicy.runner_may_ack (p_meta p) (card_kind c) = true ∨
   (card_kind c = "role_failure" ∧ truthy (get "operate_started_at" (p_meta p)) = true)).

Lemma judge_ack p c : judge p c = AckIt → allowed_ack p c.
Proof.
  unfold judge, allowed_ack, GatePolicy.runner_may_ack. cbv zeta.
  destruct (card_belongs c (p_uuid p)); cbn [negb]; [|done]. intros H. split; [done|]. revert H.
  destruct (in_strs (card_kind c) STOP_KINDS).
  - destruct (String.eqb_spec (card_kind c) "role_failure"); cbn [andb]; [|done].
    destruct (truthy (get "operate_started_at" (p_meta p))); [auto|done].
  - destruct (GatePolicy.can_auto_ack _ _ _); cbn [negb]; [auto|done].
Qed.

Definition may_ack (h : hub) (c : Decisions.DecisionCard) : Prop :=
  dismissable c = true ∨ ∃ p, p ∈ projects h ∧ is_autonomous p = true ∧ allowed_ack p c.

(** The keys an ack of [c] may change: its id and the canonical spelling of it. *)
Definition spells (c : Decisions.DecisionCard) (k : string) : Prop :=
  Decisions.decision_id c = k ∨ Decisions.to_uuid_str (Decisions.decision_id c) = Some k.

Definition pending_cards (h : hub) : list Decisions.DecisionCard :=
  eval (Decisions.alist (Some Decisions.Pending)) (store h).

Lemma autonomous_run h :
  (∀ ps p, p ∈ by_update ps → p ∈ ps) →
  store (exec list_autonomous_projects h) = store h ∧
  (∀ ps p, eval list_autonomous_projects h = Ok ps → p ∈ ps → p ∈ projects h ∧ is_autonomous p = true).
Proof.
  intros Hby. unfold list_autonomous_projects. run_state. destruct (pool h); cbn [negb].
  2: { run_state. split; [done|]. intros ps p [= <-] Hp. by apply elem_of_nil in Hp. }
  unfold statement. run_state. destruct (hd false (pool_faults h)); run_state; [by split|].
  split; [done|]. intros ps p [= <-] Hp.
  apply elem_of_take in Hp as (i & Hp & _). apply list_elem_of_lookup_2, Hby in Hp.
  by apply list_elem_of_In, filter_In in Hp as [?%list_elem_of_In ?].
Qed.

Lemma eval_on_store {A} (m : state Decisions.store A) h : eval (on_store m) h = Ok (eval m (store h)).
Proof. unfold on_store. by run_state. Qed.

(** C3: the autonomous runner decides only what it may.  A card of the cache keeps
    its value through a tick unless it is listed pending and the runner is allowed to
    ack it: it is a portfolio message, or a card of an autonomous project whose gate
    policy permits its kind (or a role failure of an operating project).  A release
    gate that the policy holds for a human is therefore never decided by a tick. *)
Theorem runner_acks_only_allowed h k c :
  (∀ S p, within (touches S) (intake_turn p)) → (∀ ps p, p ∈ by_update ps → p ∈ ps) →
  Decisions.table_wf (store h) →
  (∀ card, card ∈ pending_cards h → may_ack h card → ¬ spells card k) →
  dict_lookup k (Decisions.cards (store h)) = Some c →
  dict_lookup k (Decisions.cards (store (exec pipeline_runner_tick h))) = Some c.
Proof.
  intros Hin Hby Hw Hno Hk. unfold pipeline_runner_tick.
  destruct (autonomous_run h Hby) as [Hst Hps].
  set (S := fun k => ∃ card, card ∈ pending_cards h ∧ may_ack h card ∧ spells card k).
  assert (HS : ¬ S k) by (intros (card & ? & ? & ?); by eapply Hno).
  assert (Hok : ∀ card, card ∈ pending_cards h → may_ack h card → S (Decisions.decision_id card) ∧
     ∀ k, Decisions.to_uuid_str (Decisions.decision_id card) = Some k → S k).
  { intros card ? ?. split; [|intros u ?]; exists card; (split; [done|split; [done|]]); [by left|by right]. }
  rewrite exec_pbind. destruct (eval list_autonomous_projects h) as [[|p ps]|e] eqn:Hl; run_state; rewrite ?Hst; [done| |done].
  set (h1 := exec list_autonomous_projects h) in *.
  assert (Hw1 : Decisions.table_wf (store h1)) by by rewrite Hst.
  destruct (index_alist_touches S h1 Hw1) as [Hw2 H2].
  assert (Hdis : within (touches S) (dismiss_global_cards (pending_cards h))).
  { apply dismiss_touches. intros card Hc Hd. apply Hok; [done|by left]. }
  assert (Hproj : within (touches S) (process_projects (p :: ps) (pending_cards h))).
  { apply process_projects_touches; [done|]. intros q card Hq Hc Hj. apply Hok; [done|]. right. exists q.
    destruct (Hps _ q eq_refl Hq). split; [done|]. split; [done|]. by apply judge_ack. }
  rewrite eval_on_store, Hst. fold (pending_cards h). run_state.
  set (h2 := exec (on_store (Decisions.alist (Some Decisions.Pending))) h1) in *.
  destruct (Hdis h2 Hw2) as [Hw3 H3].
  destruct (eval (dismiss_global_cards (pending_cards h)) h2); run_state.
  - eapply Hproj; [done|done|]. apply H3; [done|]. apply H2; [done|]. by rewrite Hst.
  - apply H3; [done|]. apply H2; [done|]. by rewrite Hst.
Qed.

End WithEnv.

(** An autonomous project in build with two pending cards: the tick acks the PRD card
    and leaves the release gate. *)
Definition tick_env : env :=
  {| e_uuid := fun n => str_of_Z (Z.of_nat n); e_role := fun _ _ _ => RoleRaises "down";
     e_kg := fun _ _ => None; e_grant := fun _ _ _ => ToolRaises; e_advance := fun _ _ _ _ => ToolRaises;
     e_files := fun _ _ => 4; e_host_path := fun _ _ => "/work"; e_pipeline_version := "1" |}.

Definition tick_card (did kind : string) : Decisions.DecisionCard :=
  Decisions.with_body_meta "" [("project_uuid", VStr "u"); ("kind", VStr kind)]
    (Decisions.with_id did Decisions.sample_card).

Definition tick_hub : hub :=
  {| projects := [sample "build_in_progress" [("pipeline_mode", VStr "autonomous"); ("intake_done", VBool true)]];
     pool := true; pool_faults := [];
     store := exec (Decisions.aput (tick_card "gate" "release_gate_approval");;
                    Decisions.aput (tick_card "prd" "prd_approval"))%state Decisions.empty_store;
     phase_history := []; route_history := []; tasks := []; auto_scheduled := []; dispatched := [];
     deployments := []; now := 1700000000000000; ticks := 0 |}.

Definition demo_tick : handler nat := pipeline_runner_tick tick_env (fun _ => pret tt) id.

Lemma tick_pending : pending_cards tick_hub =
  [tick_card "gate" "release_gate_approval"; tick_card "prd" "prd_approval"].
Proof. vm_compute. reflexivity. Qed.

Lemma tick_gate_held : ¬ may_ack tick_hub (tick_card "gate" "release_gate_approval").
Proof.
  intros [Hm|(p & Hp & _ & _ & Hm)].
  - assert (dismissable (tick_card "gate" "release_gate_approval") = false) by (vm_compute; reflexivity). congruence.
  - apply list_elem_of_singleton in Hp as ->.
    destruct Hm as [Hm|[Hm _]]; revert Hm; vm_compute; discriminate.
Qed.

Lemma runner_acks_only_allowed_witness :
  let h' := exec demo_tick tick_hub in
  dict_lookup "gate" (Decisions.cards (store h')) = Some (tick_card "gate" "release_gate_approval") ∧
  Decisions.status <$> dict_lookup "prd" (Decisions.cards (store h')) = Some Decisions.Acked.
Proof.
  cbv zeta. split; [|vm_compute; reflexivity].
  apply (runner_acks_only_allowed tick_env (fun _ => pret tt) id tick_hub "gate").
  - intros S p. apply within_pret, touches_preorder.
  - intros ps p Hp. exact Hp.
  - intros u r. assert (Decisions.table (store tick_hub) = []) as -> by (vm_compute; reflexivity). done.
  - intros card. rewrite tick_pending, !elem_of_cons, elem_of_nil.
    intros [->|[->|[]]] Hm [Hs|Hs]; [by apply tick_gate_held| |revert Hs|revert Hs];
      vm_compute; discriminate.
  - vm_compute. reflexivity.
Defined.

End Runner.
