(* ===== verification/Golden.v ===== *)
(** The approval chain: what acking a stage's card does.

    Acking the card of a stage advances the project, runs the stage's role once and
    posts the card of the next stage; a kind without a role posts a gap card. *)

From S2P Require Import Prelude PyValue Datetime Decisions Hub FixLoop Orchestrate Recovery.
From S2P Require Import Deploy PostAck.
From Stdlib Require Import Ascii.
Local Open Scope Z_scope.

Module Golden.
Import Hub FixLoop Orchestrate Recovery Deploy PostAck.
Local Open Scope proc_scope.

(** * Calm computations: they succeed and leave the queue and the role calls alone *)
Definition ready (h : hub) : Prop := pool h = true ∧ pool_faults h = [].

Definition same_row (p p' : project) : Prop :=
  p_uuid p' = p_uuid p ∧ p_name p' = p_name p ∧ p_id p' = p_id p ∧ p_meta p' = p_meta p.

Record calm (h h' : hub) : Prop := {
  calm_ready : ready h → ready h';
  calm_calls : dispatched h' = dispatched h;
  calm_cards : Decisions.cards (store h') = Decisions.cards (store h);
  calm_rows : ∀ pid p, find_project pid (projects h) = Some p →
    ∃ p', find_project pid (projects h') = Some p' ∧ same_row p p'
}.

#[local] Instance calm_preorder : PreOrder calm.
Proof.
  split.
  - intros h. split; try done. intros pid p Hp. exists p. by split.
  - intros h1 h2 h3 A B. split.
    + intros H. by apply B, A.
    + by rewrite (calm_calls _ _ B), (calm_calls _ _ A).
    + by rewrite (calm_cards _ _ B), (calm_cards _ _ A).
    + intros pid p Hp. destruct (calm_rows _ _ A pid p Hp) as (q & Hq & ? & ? & ? & ?).
      destruct (calm_rows _ _ B pid q Hq) as (r & Hr & ? & ? & ? & ?).
      exists r. split; [done|]. unfold same_row. by split_and!; etransitivity.
Qed.

Definition calmly {A} (m : handler A) : Prop :=
  ∀ h, ready h → (∃ a, eval m h = Ok a) ∧ calm h (exec m h).

Lemma calmly_bind {A B} (m : handler A) (f : A → handler B) :
  calmly m → (∀ a, calmly (f a)) → calmly (pbind m f).
Proof.
  intros Hm Hf h Hr. destruct (Hm h Hr) as [[a Ha] Hc]. run_state. rewrite Ha.
  destruct (Hf a (exec m h)) as [? Hc']; [by apply (calm_ready _ _ Hc)|].
  split; [done|]. by etransitivity.
Qed.
Lemma calmly_pret {A} (a : A) : calmly (pret a).
Proof. intros h _. split; [by exists a|]. reflexivity. Qed.
Lemma calmly_pgets {A} (f : hub → A) : calmly (pgets f).
Proof. intros h _. split; [by exists (f h)|]. reflexivity. Qed.
Lemma calmly_pmodify f : (∀ h, calm h (f h)) → calmly (pmodify f).
Proof. intros Hf h _. split; [by exists tt|]. apply Hf. Qed.
Lemma calmly_try {A} (m : handler A) k : calmly m → calmly (try_except m k).
Proof.
  intros Hm h Hr. destruct (Hm h Hr) as [[a Ha] Hc]. unfold try_except. run_state. rewrite Ha.
  run_state. split; [by exists a|done].
Qed.

Create HintDb calmdb.
#[local] Hint Resolve calmly_pret calmly_pgets : calmdb.

Ltac calm_steps :=
  repeat first
    [ progress intros
    | solve [auto with calmdb nocore]
    | apply calmly_bind
    | apply calmly_try
    | (apply calmly_pmodify; intros; split; try done; intros; eexists; split; [eassumption|by split])
    | case_match ].

Lemma statement_calm : calmly statement.
Proof.
  intros h [Hp Hf]. unfold statement. run_state. rewrite Hf. cbn. split; [by exists tt|].
  split; try done. intros pid p Hx. exists p. by split.
Qed.
Lemma tick_calm : calmly tick.
Proof. unfold tick. calm_steps. Qed.
Lemma spawn_calm t : calmly (spawn t).
Proof. unfold spawn. calm_steps. Qed.
Lemma publish_calm x : calmly (publish_event x).
Proof.
  intros h _. unfold publish_event, on_store, Decisions.publish_event, Decisions.publish. run_state.
  split; [by eexists|]. split; try done. intros pid p Hx. exists p. by split.
Qed.
#[local] Hint Resolve statement_calm tick_calm spawn_calm publish_calm : calmdb.
Lemma ppulse_calm u x : calmly (publish_project_pulse u x).
Proof. unfold publish_project_pulse. calm_steps. Qed.
#[local] Hint Resolve ppulse_calm : calmdb.
Lemma emit_calm e u r x : calmly (emit e u r x).
Proof. unfold emit, schedule_recovery_pulse. calm_steps. Qed.
Lemma load_calm pid : calmly (load_project_full pid).
Proof. unfold load_project_full. calm_steps. Qed.
#[local] Hint Resolve emit_calm load_calm : calmdb.

Lemma find_phase pid pid' target ps p :
  find_project pid ps = Some p →
  ∃ p', find_project pid (update_rows pid' (with_phase target) ps) = Some p' ∧ same_row p p'.
Proof.
  intros Hp. rewrite find_update by done. rewrite Hp. cbn. eexists. split; [done|].
  by destruct (row_matches pid' p).
Qed.

Lemma advance_row_calm pid target : calmly (advance_row pid target).
Proof.
  unfold advance_row. calm_steps. apply calmly_pmodify. intros h. split; try done.
  intros pid' q Hq. by apply find_phase.
Qed.
#[local] Hint Resolve advance_row_calm : calmdb.
Lemma fallback_calm pid target : calmly (fallback_advance pid target).
Proof. unfold fallback_advance. calm_steps. Qed.
#[local] Hint Resolve fallback_calm : calmdb.

Section WithEnv.
Context (E : env) (D : deploy_env).

Lemma advance_token_calm pid target tok : calmly (advance_with_token E pid target tok).
Proof. unfold advance_with_token. calm_steps. Qed.
#[local] Hint Resolve advance_token_calm : calmdb.
Lemma advance_calm pid target actor g : calmly (advance_lifecycle_phase E pid target actor g).
Proof. unfold advance_lifecycle_phase. calm_steps. Qed.
#[local] Hint Resolve advance_calm : calmdb.
Lemma advance_sequence_calm pid steps actor : calmly (advance_sequence E pid steps actor).
Proof. induction steps as [|[ph g] steps IH]; cbn [advance_sequence]; calm_steps. Qed.
Lemma version_calm pid : calmly (load_pipeline_version E pid).
Proof. unfold load_pipeline_version. calm_steps. Qed.
Lemma route_calm pid r : calmly (record_route_history pid r).
Proof. unfold record_route_history. calm_steps. Qed.
#[local] Hint Resolve advance_sequence_calm version_calm route_calm : calmdb.

(** * Posting a card *)
Definition posts (p : project) (kind : string) (h h' : hub) : Prop :=
  ∃ n c, Decisions.cards (store h') = dict_set (e_uuid E n) c (Decisions.cards (store h)) ∧
    Decisions.decision_id c = e_uuid E n ∧ Decisions.status c = Decisions.Pending ∧
    Decisions.project_id c = Some (p_uuid p) ∧ get "kind" (Decisions.metadata c) = VStr kind ∧
    Decisions.actions c = ["ack"; "reject"].

Lemma enqueue_run k h :
  valid_title (k_title k) = true →
  eval (enqueue E k) h = Ok tt ∧ dispatched (exec (enqueue E k) h) = dispatched h ∧
  Decisions.cards (store (exec (enqueue E k) h)) =
    dict_set (e_uuid E (ticks h)) (make_card (e_uuid E (ticks h)) (now h) k) (Decisions.cards (store h)).
Proof.
  intros Ht. unfold enqueue, tick. run_state. rewrite Ht. unfold on_store. run_state.
  split; [done|]. cbn [store set_store dispatched set_ticks now].
  unfold Decisions.enqueue_decision, Decisions.assign_id. cbn [make_card Decisions.decision_id].
  assert (Hc : (if String.eqb (e_uuid E (ticks h)) ""
     then Decisions.with_id "" (make_card (e_uuid E (ticks h)) (now h) k)
     else make_card (e_uuid E (ticks h)) (now h) k) = make_card (e_uuid E (ticks h)) (now h) k).
  { by destruct (String.eqb_spec (e_uuid E (ticks h)) "") as [->|]. }
  unfold make_card in Hc |- *. rewrite Hc. clear Hc.
  unfold Decisions.put, Decisions.cache_set, Decisions.publish. run_state.
  split; [done|]. by destruct (_ && _); run_state.
Qed.

(** The role answers well: status ok, a text as artifact and a file tree of pairs. *)
Definition good_data (data : dict) : Prop :=
  (∃ s, artifact_of data = VStr s) ∧ is_str (get "result_kind" data) "deploy" = false ∧
  ∀ p, ∃ ex t, extra_of data = Ok ex ∧ code_card_text p ex = Ok t.

Definition cooperative : Prop :=
  ∀ n tool payload, ∃ raw patch, e_role E n tool payload = RoleReturns raw patch ∧
    is_str (get "status" raw) "ok" = true ∧ good_data (dict_of (get "data" raw)).

Lemma title_fits c a b :
  (text_length (String c a) <= 40)%nat → (text_length b <= 160)%nat → valid_title (String c a +:+ b) = true.
Proof.
  intros Ha Hb. unfold valid_title. rewrite text_length_app. apply andb_true_iff.
  split; [done|apply Nat.leb_le; lia].
Qed.

Lemma card_text_ok p r target kind data :
  good_data data → (text_length (p_name p) <= 100)%nat → (text_length (upper r) <= 20)%nat →
  ∃ t, card_text p r target (VStr kind) data = Ok t ∧ valid_title t.1 = true.
Proof.
  intros (_ & _ & Hd) Hn Hr. destruct (Hd p) as (ex & t & Hex & Ht). unfold card_text. cbn [is_str].
  assert (Hshort : ∀ s, Nat.leb (text_length s) 40 = true → (text_length s <= 40)%nat) by (intros; by apply Nat.leb_le).
  destruct (String.eqb kind "code_approval").
  { rewrite Hex. exists t. split; [exact Ht|]. revert Ht. unfold code_card_text.
    destruct (list_of _); [|done]. cbn. destruct (tree_lines _); [|done].
    intros [= <-]. cbn [fst]. apply title_fits; [by apply Hshort|lia]. }
  destruct (String.eqb kind "devops_approval").
  { rewrite Hex. eexists. split; [reflexivity|]. apply title_fits; [by apply Hshort|lia]. }
  eexists. split; [reflexivity|]. apply title_fits; [by apply Hshort|].
  rewrite !text_length_app. assert (Hx : (text_length " output — " <= 40)%nat) by by apply Hshort. lia.
Qed.

Lemma orchestrate_card_posts p r target next result h :
  ready h → good_data (rd_data result) → (text_length (p_name p) <= 100)%nat →
  (text_length (upper r) <= 20)%nat →
  let m := orchestrate_card E p r target (VStr next) result in
  eval m h = Ok tt ∧ dispatched (exec m h) = dispatched h ∧ posts p next h (exec m h).
Proof.
  intros Hh Hd Hn Hr. cbn zeta. unfold orchestrate_card. run_state.
  destruct (card_text_ok p r target next (rd_data result) Hd Hn Hr) as (t & Ht & Hv).
  rewrite Ht. cbn [lift]. run_state.
  assert (Hem : calmly (emit_artifact p r (rd_data result))).
  { unfold emit_artifact. destruct Hd as ((s & ->) & _). cbn [py_len lift]. auto with calmdb. 
    apply calmly_bind; [apply calmly_pret|intros]. apply emit_calm. }
  destruct (Hem h Hh) as [[[] ->] Hc]. set (h1 := exec (emit_artifact p r (rd_data result)) h) in *.
  match goal with |- context [enqueue E ?k] => destruct (enqueue_run k h1 Hv) as (He & Hdis & Hcards) end.
  split; [exact He|]. split; [rewrite Hdis; by apply calm_calls|].
  eexists (ticks h1), _. rewrite Hcards, (calm_cards _ _ Hc). split; [done|]. by split_and!.
Qed.

(** The roles' names are short. *)
Lemma role_names kind spec :
  dict_lookup kind KIND_ROLE_DISPATCH = Some spec → (text_length (upper (role spec)) <= 20)%nat.
Proof.
  intros H. apply Nat.leb_le. revert H. unfold KIND_ROLE_DISPATCH. cbn [dict_lookup].
  repeat (destruct (String.eqb kind _); [intros [= <-]; reflexivity|]). done.
Qed.
Lemma kind_has_tool kind spec :
  dict_lookup kind KIND_ROLE_DISPATCH = Some spec → ∃ tool, dict_lookup (subsystem spec) SUBSYSTEM_TOOLS = Some tool.
Proof.
  unfold KIND_ROLE_DISPATCH. cbn [dict_lookup].
  repeat (destruct (String.eqb kind _); [intros [= <-]; by eexists|]). done.
Qed.

(** One role call: it is recorded, its answer is read, and the queue stays as it is. *)
Lemma dispatch_runs kind spec pid actor extra h :
  cooperative → ready h → dict_lookup kind KIND_ROLE_DISPATCH = Some spec →
  let m := dispatch_role_for_kind E kind pid actor extra in
  ∃ r, eval m h = Ok (Some r) ∧ rd_ok r = true ∧ good_data (rd_data r) ∧ ready (exec m h) ∧
    dispatched (exec m h) = dispatched h ++ [(pid, kind)] ∧
    Decisions.cards (store (exec m h)) = Decisions.cards (store h).
Proof.
  intros Hco Hh Hk. cbn zeta. unfold dispatch_role_for_kind. rewrite Hk.
  destruct (kind_has_tool kind spec Hk) as [tool ->]. run_state.
  destruct (version_calm pid h Hh) as [[v ->] Hc1]. set (h1 := exec (load_pipeline_version E pid) h) in *.
  assert (Hr1 : ready h1) by by apply (calm_ready _ _ Hc1).
  unfold call_role, tick. run_state.
  destruct (Hco (ticks (set_ticks (S (ticks h1)) h1)) tool
    (build_payload tool pid (role spec) (directive spec) v actor (with_kg (e_kg E (ticks h1) pid) extra)))
    as (raw & patch & Hans & Hst & Hgood).
  cbn [ticks set_ticks set_dispatched] in *. rewrite Hans. run_state. rewrite Hst.
  match goal with |- context [record_route_history pid (role spec)] => idtac end.
  run_state. match goal with |- context [exec (record_route_history _ _) ?s] => set (h2 := s) end.
  assert (Hr2 : ready h2) by exact Hr1.
  destruct (route_calm pid (role spec) h2 Hr2) as [[[] ->] Hc2]. run_state.
  eexists. split; [reflexivity|]. split; [done|]. split; [exact Hgood|]. split; [by apply (calm_ready _ _ Hc2)|].
  split.
  - rewrite (calm_calls _ _ Hc2). cbn. by rewrite (calm_calls _ _ Hc1).
  - rewrite (calm_cards _ _ Hc2). cbn. apply (calm_cards _ _ Hc1).
Qed.

(** The kinds whose success posts a plain approval card. *)
Definition posts_next (kind next : string) : Prop :=
  kind ≠ "local_deploy_prompt" ∧ kind ≠ "code_review_blocked" ∧ kind ≠ "qa_execution" ∧
  next ∉ ["code_review_pass"; "code_review_blocked"; ""; "deploy"].

Lemma card_kind_given a r data next :
  oa_card a = Some next → next ≠ "" → card_kind_of a r data = VStr next.
Proof. intros Ha Hn. unfold card_kind_of. rewrite Ha. destruct next; done. Qed.

Lemma not_deploy data next :
  is_str (get "result_kind" data) "deploy" = false → next ≠ "" → next ≠ "deploy" →
  is_str (py_or (get "result_kind" data) (VStr next)) "deploy" = false.
Proof.
  intros Hd H1 H2. unfold py_or. destruct (truthy _); [done|]. cbn. by apply String.eqb_neq.
Qed.

Lemma require_posts a next expected h :
  cooperative → ready h → oa_card a = Some next → posts_next (oa_kind a) next →
  is_Some (dict_lookup (oa_kind a) KIND_ROLE_DISPATCH) →
  (text_length (p_name (oa_project a)) <= 100)%nat →
  let m := require_orchestrate_hub_role E a expected in
  eval m h = Ok true ∧
  dispatched (exec m h) = dispatched h ++ [(p_uuid (oa_project a), oa_kind a)] ∧
  posts (oa_project a) next h (exec m h).
Proof.
  intros Hco Hh Ha (Hk1 & Hk2 & Hk3 & Hnext) [spec Hspec] Hn. cbn zeta.
  rewrite !not_elem_of_cons in Hnext. destruct Hnext as (Hn1 & Hn2 & Hn3 & Hn4 & _).
  unfold require_orchestrate_hub_role, require_with, orchestrate_with. rewrite Hspec. run_state.
  match goal with |- context [eval (emit ?e ?u ?r ?x) h] =>
    destruct (emit_calm e u r x h Hh) as [[[] ->] Hc]; set (h1 := exec (emit e u r x) h) in * end.
  assert (Hr1 : ready h1) by by apply (calm_ready _ _ Hc).
  destruct (dispatch_runs (oa_kind a) spec (p_uuid (oa_project a)) (oa_actor a) (oa_extra a) h1 Hco Hr1 Hspec)
    as (r & He & Hok & Hgood & Hr2 & Hdis & Hcards).
  run_state. rewrite He. run_state. rewrite Hok.
  set (h2 := exec (dispatch_role_for_kind E (oa_kind a) (p_uuid (oa_project a)) (oa_actor a) (oa_extra a)) h1) in *.
  assert (Hs : ∀ rerun, orchestrate_success E rerun a (role spec) r =
    orchestrate_card E (oa_project a) (role spec) (target_phase_of a) (VStr next) r).
  { intros rerun. unfold orchestrate_success. rewrite (card_kind_given a _ _ next) by done.
    destruct Hgood as (_ & Hd & _). rewrite Ha. cbn [opt_value]. rewrite not_deploy by done.
    cbn [is_str]. rewrite (proj2 (String.eqb_neq _ _) Hk1), (proj2 (String.eqb_neq _ _) Hk2),
      (proj2 (String.eqb_neq _ _) Hk3), (proj2 (String.eqb_neq _ _) Hn1), (proj2 (String.eqb_neq _ _) Hn2).
    by rewrite !andb_false_r. }
  rewrite Hs. run_state.
  destruct (orchestrate_card_posts (oa_project a) (role spec) (target_phase_of a) next r h2 Hr2 Hgood Hn
              (role_names _ _ Hspec)) as (Hce & Hcd & n & c & Hcc & Hc').
  rewrite Hce. run_state. split; [done|]. split.
  - rewrite Hcd, Hdis. by rewrite (calm_calls _ _ Hc).
  - exists n, c. split; [|done]. by rewrite Hcc, Hcards, (calm_cards _ _ Hc).
Qed.

(** The stages with a role of their own: the card that is acked, the card that follows. *)
Definition stage_chain : list (string * string) :=
  [("prd_approval", "roadmap_approval"); ("roadmap_approval", "trd_approval");
   ("trd_approval", "sprint_plan_approval"); ("sprint_plan_approval", "code_approval");
   ("security_review_blocked", "code_approval"); ("code_review_pass", "devops_approval");
   ("devops_approval", "qa_approval"); ("qa_approval", "release_gate_approval")].
Definition next_of (kind : string) : option string := dict_lookup kind stage_chain.

Lemma next_of_posts kind next :
  next_of kind = Some next →
  posts_next kind next ∧ is_Some (dict_lookup kind KIND_ROLE_DISPATCH) ∧
  ∃ st, dict_lookup kind role_steps = Some st ∧ st_card st = Some next.
Proof.
  unfold next_of, stage_chain, posts_next. cbn [dict_lookup].
  repeat match goal with
  | |- context [String.eqb kind ?k] => destruct (String.eqb_spec kind k) as [->|?]
  end; intros [= <-]; (split; [split_and!; try done; by apply in_strs_false|]);
  (split; [by eexists|by eexists]).
Qed.

Lemma steps_calm kind pid actor p h :
  ready h → find_project pid (projects h) = Some p →
  let m := match phase_steps kind with
           | [] => pret p
           | steps => advance_sequence E pid steps actor;; reload_or pid p
           end in
  ∃ p', eval m h = Ok p' ∧ same_row p p' ∧ calm h (exec m h).
Proof.
  intros Hh Hp. cbn zeta. destruct (phase_steps kind) as [|x steps].
  { exists p. split_and!; [done..|reflexivity]. }
  destruct (advance_sequence_calm pid (x :: steps) actor h Hh) as [[b Hb] Hc].
  run_state. rewrite Hb. set (h1 := exec (advance_sequence E pid (x :: steps) actor) h) in *.
  assert (Hr1 : ready h1) by by apply (calm_ready _ _ Hc).
  destruct (calm_rows _ _ Hc pid p Hp) as (q & Hq & Hs).
  unfold reload_or. run_state. destruct (load_calm pid h1 Hr1) as [_ Hc1].
  assert (Hl : eval (load_project_full pid) h1 = Ok (Some q)).
  { destruct Hr1 as [Hr Hf]. unfold load_project_full, statement. run_state. rewrite Hr. cbn [negb]. run_state.
    rewrite Hf. cbn [hd]. run_state. cbn [projects set_pool_faults]. by rewrite Hq. }
  rewrite Hl. run_state. exists q. split; [done|]. split; [done|]. by etransitivity.
Qed.


(** A kind without a role stops the chain with a card, not with silence.  When no
    role is mapped to the kind, nothing is called, the answer is [False], and the queue
    gains exactly one pending card, of kind orchestrator_gap, that names the kind. *)
Theorem unmapped_kind_posts_gap a expected h :
  ready h → dict_lookup (oa_kind a) KIND_ROLE_DISPATCH = None →
  (text_length (p_name (oa_project a)) <= 100)%nat →
  let m := require_orchestrate_hub_role E a expected in
  eval m h = Ok false ∧ dispatched (exec m h) = dispatched h ∧
  posts (oa_project a) "orchestrator_gap" h (exec m h) ∧
  ∃ n c, dict_lookup (e_uuid E n) (Decisions.cards (store (exec m h))) = Some c ∧
    get "ack_kind" (Decisions.metadata c) = VStr (oa_kind a) ∧
    get "expected_role" (Decisions.metadata c) = VStr (default "unknown" expected).
Proof.
  intros Hh Hk Hn. cbn zeta. unfold require_orchestrate_hub_role, require_with, orchestrate_with.
  rewrite Hk. run_state. unfold enqueue_orchestrator_gap. rewrite Hk. run_state.
  match goal with |- context [eval (emit ?e ?u ?r ?x) h] =>
    destruct (emit_calm e u r x h Hh) as [[[] ->] Hc]; set (h1 := exec (emit e u r x) h) in * end.
  assert (Hv : valid_title ("Orchestrator gap — " +:+ p_name (oa_project a)) = true).
  { apply title_fits; [by apply Nat.leb_le|lia]. }
  match goal with |- context [enqueue E ?k] => destruct (enqueue_run k h1 Hv) as (He & Hdis & Hcards) end.
  rewrite He. run_state. split; [done|]. split; [by rewrite Hdis, (calm_calls _ _ Hc)|]. split.
  - eexists (ticks h1), _. rewrite Hcards, (calm_cards _ _ Hc). split; [done|]. by split_and!.
  - exists (ticks h1). eexists. rewrite Hcards, dict_lookup_set_eq. split; [done|].
    split; [done|]. by destruct expected.
Qed.

End WithEnv.

(** * A run of the chain *)
Definition good_raw : dict :=
  [("status", VStr "ok"); ("data", VDict [("artifact_md", VStr "text"); ("artifact_key", VStr "roadmap_md")])].
Definition helpful_env : env :=
  {| e_uuid := fun n => "card-" +:+ str_of_Z (Z.of_nat n);
     e_role := fun _ _ _ => RoleReturns good_raw [("roadmap_md", VStr "text")];
     e_kg := fun _ _ => None; e_grant := fun _ _ _ => ToolRaises; e_advance := fun _ _ _ _ => ToolRaises;
     e_files := fun _ _ => 0; e_host_path := fun _ _ => "/work"; e_pipeline_version := "1" |}.
Definition prd_hub : hub :=
  set_projects [sample "intake" [("prd_md", VStr "prd")]] gate_hub.

Lemma helpful_cooperative : cooperative helpful_env.
Proof.
  intros n tool payload. exists good_raw, [("roadmap_md", VStr "text")]. split; [done|]. split; [done|].
  split_and!; [by exists "text"|done|]. intros p. eexists _, _. split; reflexivity.
Qed.

Definition plan_card : Decisions.DecisionCard :=
  {| Decisions.decision_id := "prd"; Decisions.decision_class := "approval"; Decisions.project_id := Some "u";
     Decisions.title := "PRD"; Decisions.body := ""; Decisions.severity := Decisions.Info;
     Decisions.actions := []; Decisions.status := Decisions.Acked; Decisions.created_at := 0;
     Decisions.expires_at := None; Decisions.metadata := [("kind", VStr "prd_approval")];
     Decisions.citations := [] |}.


(** The kind the released phase starts with has no role. *)
Lemma unmapped_kind_posts_gap_witness :
  posts helpful_env (sample "released" []) "orchestrator_gap" prd_hub
    (exec (require_orchestrate_hub_role helpful_env
       {| oa_kind := "operate_kickoff"; oa_project := sample "released" []; oa_actor := "po"; oa_card := None;
          oa_next_phase := None; oa_extra := None |} None) prd_hub).
Proof.
  destruct (unmapped_kind_posts_gap helpful_env
    {| oa_kind := "operate_kickoff"; oa_project := sample "released" []; oa_actor := "po"; oa_card := None;
       oa_next_phase := None; oa_extra := None |} None prd_hub) as (_ & _ & Hp & _);
    [by split|reflexivity|apply Nat.leb_le; reflexivity|exact Hp].
Defined.

(** The kinds of the deploy acknowledgement and of the watcher's tail have none either. *)
Example kinds_without_role :
  List.filter (fun k => negb (dict_has k KIND_ROLE_DISPATCH))
    ["operate_kickoff"; "auditor_approval"; "release_approval"; "qa_execution"; "feature_request"]
  = ["operate_kickoff"; "auditor_approval"; "release_approval"; "qa_execution"].
Proof. reflexivity. Qed.

(** * Two dead ends

    A feature whose role failed stays [in_progress]: the failure card offers
    [retry_feature], and acking it is refused. *)
Definition failing_env : env :=
  {| e_uuid := fun n => "card-" +:+ str_of_Z (Z.of_nat n);
     e_role := fun _ _ _ => RoleReturns [("status", VStr "error")] [];
     e_kg := fun _ _ => None; e_grant := fun _ _ _ => ToolRaises; e_advance := fun _ _ _ _ => ToolRaises;
     e_files := fun _ _ => 0; e_host_path := fun _ _ => "/work"; e_pipeline_version := "1" |}.
Definition feature_hub : hub :=
  set_projects [sample "operate" [("feature_requests",
    VList [VDict [("feature", VStr "dark mode"); ("status", VStr "requested")]])]] gate_hub.
Definition no_codegen : nat → project → string → outcome string codegen := fun _ _ _ => Raise "".

Definition after_failed_feature : hub :=
  run_queue failing_env demo_deploy_env no_codegen 20
    (exec (recovery_dispatch failing_env "u" "retry_feature" "po" None false) feature_hub).

Definition failure_card : option Decisions.DecisionCard :=
  hd_error ((Decisions.cards (store after_failed_feature)).*2).

Example failed_feature_cannot_be_retried :
  (get "retry_action" ∘ Decisions.metadata) <$> failure_card = Some (VStr "retry_feature") ∧
  eval (recovery_dispatch failing_env "u" "retry_feature" "po" None false) after_failed_feature
    = Ok ActionNotAllowed.
Proof. split; vm_compute; reflexivity. Qed.

(** Acking the environment setup of a feature serves the project and then raises: the
    next feature of the backlog is not started. *)
Definition iteration_hub : hub :=
  set_projects [sample "operate" [("devops_start_cmds", VList [VStr "flask run"]);
    ("feature_iteration_active", VBool true);
    ("feature_requests", VList [VDict [("feature", VStr "a"); ("status", VStr "in_progress")];
                                VDict [("feature", VStr "b"); ("status", VStr "backlog")]])]] gate_hub.

Definition devops_card : Decisions.DecisionCard :=
  {| Decisions.decision_id := "d"; Decisions.decision_class := "approval"; Decisions.project_id := Some "u";
     Decisions.title := "DevOps"; Decisions.body := ""; Decisions.severity := Decisions.Info;
     Decisions.actions := []; Decisions.status := Decisions.Acked; Decisions.created_at := 0;
     Decisions.expires_at := None; Decisions.metadata := [("kind", VStr "devops_approval")];
     Decisions.citations := [] |}.

Example operate_deploy_raises :
  let m := on_decision_acked helpful_env demo_deploy_env devops_card "po" in
  eval m iteration_hub = Raise NameError ∧ dispatched (exec m iteration_hub) = [] ∧
  length (deployments (exec m iteration_hub)) = 1%nat.
Proof. vm_compute. done. Qed.

End Golden.
