(* ===== verification/Approval.v ===== *)
(** Phase-gate approval tokens: [orchestrator/lib/approval.py].

    A token is a Base64 payload and the Base64 HMAC of that text under the install's
    key, which only the vault holds.  [sign_token] and [verify_token] are the two sides;
    the commands around them keep the key and write the approval row.  The vault adapter
    and the database client are outside: what they answer is an argument. *)

From S2P Require Import Prelude PyValue Datetime Json Crypto.
From Stdlib Require Import Ascii.
Local Open Scope Z_scope.

Module Approval.
Import Json Crypto.

(** An exception: [ApprovalError] with its code, or any other one. *)
Inductive exn :=
| ApprovalError (code : string)
| OtherError.

(** * Keys *)

(** What the vault adapter does when a path is read or written. *)
Inductive vault_answer :=
| Value (v : string)
| SecretNotFound
| SecretAccessDenied
| SecretBackendError
| AdapterError.

Definition HMAC_KEY_VAULT_PATH : string := "spine/approval/hmac_key".
Definition PAYLOAD_FIELDS : list string := ["project_id"; "phase"; "approver"; "issued_at"; "expires_at"].
Definition KEY_BYTES : Z := 32.

(** [bytes.fromhex(s)]: pairs of digits, white space allowed between the pairs. *)
Fixpoint fromhex (s : string) : option string :=
  match s with
  | EmptyString => Some ""
  | String a s1 =>
      if is_c_space a then fromhex s1
      else match hex_value a, s1 with
           | Some x, String b s2 =>
               match hex_value b with
               | Some y => r ← fromhex s2; Some (String (chr (x * 16 + y)) r)
               | None => None
               end
           | _, _ => None
           end
  end.

Definition load_key (vault : string → vault_answer) (vault_path : string) : outcome exn string :=
  match vault vault_path with
  | SecretNotFound => Raise (ApprovalError "key_missing")
  | SecretAccessDenied => Raise (ApprovalError "key_access_denied")
  | SecretBackendError => Raise (ApprovalError "key_backend_error")
  | AdapterError => Raise (ApprovalError "key_no_adapter")
  | Value v => match fromhex (strip v) with
               | Some k => Ok k
               | None => Raise (ApprovalError "key_malformed")
               end
  end.

(** [cmd_genkey]: the hex of 32 fresh bytes goes to a free path; [put] is what writing
    answers.  The result is the secret written. *)
Definition cmd_genkey (vault : string → vault_answer) (put : option exn) (fresh : string)
    (vault_path : string) : outcome exn (string * string) :=
  match vault vault_path with
  | SecretNotFound =>
      match put with
      | None => Ok (vault_path, hex_of fresh)
      | Some e => Raise e
      end
  | SecretAccessDenied => Raise (ApprovalError "key_access_denied")
  | SecretBackendError => Raise (ApprovalError "key_backend_error")
  | AdapterError => Raise (ApprovalError "key_no_adapter")
  | Value _ => Raise (ApprovalError "key_exists")
  end.

(** * Tokens *)
Definition b64url (raw : string) : string := b64_encode (bytes_of raw).
Definition b64url_decode (s : string) : option string := b64_decode s.

(** [_now_iso]: the clock to the second, and its text with [Z]. *)
Definition iso_z (t : datetime) : string := str_replace (isoformat t) "+00:00" "Z".
Definition now_iso (clock : datetime) : datetime * string :=
  let now := clock / usec_per_sec * usec_per_sec in (now, iso_z now).

Definition representableb (t : datetime) : bool :=
  ((1 - epoch_ord) * usec_per_day <=? t) && (t <? (3652060 - epoch_ord) * usec_per_day).

Definition payload_json (project_id phase approver issued_at expires_at : string) : json :=
  JObj [("project_id", JStr project_id); ("phase", JStr phase); ("approver", JStr approver);
        ("issued_at", JStr issued_at); ("expires_at", JStr expires_at)].

(** A date past year 9999 raises [OverflowError]. *)
Definition sign_token (vault : string → vault_answer) (clock : datetime)
    (project_id phase approver : string) (ttl_hours : Z) (vault_path : string)
    : outcome exn (string * json) :=
  key ← load_key vault vault_path;
  let '(now, now_s) := now_iso clock in
  let exp := now + ttl_hours * (3600 * usec_per_sec) in
  if representableb exp then
    let payload := payload_json project_id phase approver now_s (iso_z exp) in
    let payload_b64 := b64url (canonical payload) in
    let sig := hmac_sha256 key payload_b64 in
    Ok (payload_b64 +:+ "." +:+ b64url sig, payload)
  else Raise OtherError.

(** [s.rsplit(".", 1)] of a text that holds a dot. *)
Fixpoint rsplit_dot (s : string) : option (string * string) :=
  match s with
  | EmptyString => None
  | String c s' =>
      match rsplit_dot s' with
      | Some (a, b) => Some (String c a, b)
      | None => if Ascii.eqb c "." then Some ("", s') else None
      end
  end.

(** [field in payload]; a number, a boolean or [None] is not a container. *)
Definition field_in (field : string) (payload : json) : outcome exn bool :=
  match payload with
  | JObj d => Ok (dict_has field d)
  | JList l => Ok (existsb (fun j => match j with JStr s => String.eqb s field | _ => false end) l)
  | JStr s => Ok (contains s field)
  | _ => Raise OtherError
  end.

Fixpoint missing_fields (fields : list string) (payload : json) : outcome exn (list string) :=
  match fields with
  | [] => Ok []
  | f :: fs =>
      b ← field_in f payload;
      rest ← missing_fields fs payload;
      Ok (if b : bool then rest else ("missing_field:" +:+ f) :: rest)
  end.

(** The text of an aware instant, [YYYY-MM-DD], any separator, [HH:MM:SS], an optional
    fraction and an offset [+HH:MM] or [-HH:MM]. *)
Definition take_frac (s : string) : option (Z * string) :=
  match s with
  | String c r =>
      if Ascii.eqb c "." || Ascii.eqb c "," then
        let '(ds, rest) := span_digits r in
        if String.eqb ds "" then None
        else us ← take_digits 6 0 (String.substring 0 6 (ds +:+ "000000")); Some (us.1, rest)
      else Some (0, s)
  | EmptyString => Some (0, s)
  end.

Definition take_offset (s : string) : option Z :=
  match s with
  | String c r =>
      sign ← (if Ascii.eqb c "+" then Some 1 else if Ascii.eqb c "-" then Some (-1) else None);
      '(h, r) ← take_digits 2 0 r; r ← expect ":" r;
      '(m, r) ← take_digits 2 0 r;
      if String.eqb r "" && (h <? 24) && (m <? 60) then Some (sign * ((h * 60 + m) * 60 * usec_per_sec)) else None
  | EmptyString => None
  end.

Definition take_any (s : string) : option string :=
  match s with String _ r => Some r | EmptyString => None end.

Definition parse_aware (s : string) : option datetime :=
  '(y, s) ← take_digits 4 0 s; s ← expect "-" s;
  '(mo, s) ← take_digits 2 0 s; s ← expect "-" s;
  '(d, s) ← take_digits 2 0 s; s ← take_any s;
  '(h, s) ← take_digits 2 0 s; s ← expect ":" s;
  '(mi, s) ← take_digits 2 0 s; s ← expect ":" s;
  '(sec, s) ← take_digits 2 0 s;
  '(us, s) ← take_frac s;
  off ← take_offset s;
  let f := {| f_year := y; f_month := mo; f_day := d; f_hour := h;
              f_minute := mi; f_second := sec; f_usec := us |} in
  if valid_fields f then Some (of_fields f - off) else None.

(** The check of [expires_at]; a text that does not parse, or parses to a naive instant,
    cannot be compared and is reported. *)
Definition expiry_errors (clock : datetime) (payload : json) : outcome exn (list string) :=
  b ← field_in "expires_at" payload;
  Ok (if negb b then []
      else match payload with
           | JObj d =>
               match dict_lookup "expires_at" d with
               | Some (JStr e) =>
                   match parse_aware (replace_Z e) with
                   | Some exp => if exp <=? clock then ["expired"] else []
                   | None => ["bad_expires_at"]
                   end
               | _ => ["bad_expires_at"]
               end
           | _ => ["bad_expires_at"]
           end).

Section Str.
(** [repr] of the float a literal denotes. *)
Context (float_repr : string → string).

Fixpoint repr_json (j : json) : string :=
  match j with
  | JNull => "None"
  | JBool true => "True"
  | JBool false => "False"
  | JInt n => str_of_Z n
  | JFloat t => float_repr t
  | JStr s => repr_str s
  | JList l => "[" +:+ join ", " (map repr_json l) +:+ "]"
  | JObj d => "{" +:+ join ", " (map (fun kv => repr_str kv.1 +:+ ": " +:+ repr_json kv.2) d) +:+ "}"
  end.

Definition str_json (j : json) : string :=
  match j with JStr s => s | _ => repr_json j end.

Definition get_json (k : string) (payload : json) : outcome exn json :=
  match payload with
  | JObj d => Ok (match dict_lookup k d with Some j => j | None => JNull end)
  | _ => Raise OtherError
  end.

Definition project_errors (expected : option string) (payload : json) : outcome exn (list string) :=
  match expected with
  | None => Ok []
  | Some p => j ← get_json "project_id" payload;
              Ok (if String.eqb (str_json j) p then [] else ["project_id_mismatch"])
  end.

Definition phase_errors (expected : option string) (payload : json) : outcome exn (list string) :=
  match expected with
  | None => Ok []
  | Some p => j ← get_json "phase" payload;
              Ok (match j with
                  | JStr s => if String.eqb s p then [] else ["phase_mismatch"]
                  | _ => ["phase_mismatch"]
                  end)
  end.

Record verdict := { valid_token : bool; payload : json; errors : list string }.

Definition refused (errs : list string) : verdict :=
  {| valid_token := false; payload := JObj []; errors := errs |}.

(** The signature part: the errors, or the verdict that ends the check. *)
Definition signature_errors (key payload_b64 sig_b64 : string) : option (list string) :=
  if is_ascii payload_b64 then
    sig ← b64url_decode sig_b64;
    Some (if String.eqb (hmac_sha256 key payload_b64) sig then [] else ["signature_mismatch"])
  else None.

Definition decode_payload (payload_b64 : string) : option json :=
  raw ← b64url_decode payload_b64;
  if is_textb raw then loads raw else None.

(** The checks of a decoded payload, in the order of the code. *)
Definition check_payload (clock : datetime) (expected_project_id expected_phase : option string)
    (errs : list string) (p : json) : outcome exn verdict :=
  missing ← missing_fields PAYLOAD_FIELDS p;
  expiry ← expiry_errors clock p;
  project ← project_errors expected_project_id p;
  ph ← phase_errors expected_phase p;
  let all := errs ++ missing ++ expiry ++ project ++ ph in
  Ok {| valid_token := bool_decide (all = []); payload := p; errors := all |}.

Definition verify_token (vault : string → vault_answer) (clock : datetime) (token vault_path : string)
    (expected_project_id expected_phase : option string) : outcome exn verdict :=
  match rsplit_dot token with
  | None => Ok (refused ["malformed_token"])
  | Some (payload_b64, sig_b64) =>
      match load_key vault vault_path with
      | Raise (ApprovalError c) => Ok (refused [c])
      | Raise OtherError => Raise OtherError
      | Ok key =>
          match signature_errors key payload_b64 sig_b64 with
          | None => Ok (refused ["malformed_signature"])
          | Some errs =>
              match decode_payload payload_b64 with
              | None => Ok (refused (errs ++ ["malformed_payload"]))
              | Some p => check_payload clock expected_project_id expected_phase errs p
              end
          end
      end
  end.
End Str.

(** [cmd_verify]'s exit status. *)
Definition cmd_verify float_repr vault clock token vault_path project_id phase : outcome exn (verdict * Z) :=
  r ← verify_token float_repr vault clock token vault_path project_id phase;
  Ok (r, if valid_token r then 0 else 2).

(** * Grants *)

(** [_esc]: quotes doubled. *)
Definition esc (v : string) : string := str_replace v "'" "''".

Definition sql_quoted (v : string) : string := "'" +:+ esc v +:+ "'".

(** The statement of [cmd_grant]. *)
Definition grant_sql (project_id : Z) (phase approver : string) (notes : option string)
    (token expires_at : string) : string :=
  "INSERT INTO spine_lifecycle.approval (project_id, phase, artifact_ref, approver, decision, notes, " +:+
  "token, expires_at) VALUES (" +:+ str_of_Z project_id +:+ ", " +:+ sql_quoted phase +:+ ", 'phase:" +:+ esc phase +:+
  "', " +:+ sql_quoted approver +:+ ", 'approved', " +:+
  match notes with Some n => if String.eqb n "" then "NULL" else sql_quoted n | None => "NULL" end +:+
  ", " +:+ sql_quoted token +:+ ", " +:+ sql_quoted expires_at +:+ "::timestamptz) RETURNING id;".

Definition expires_of (p : json) : string :=
  match p with
  | JObj d => match dict_lookup "expires_at" d with Some (JStr e) => e | _ => "" end
  | _ => ""
  end.

(** [cmd_grant]: sign, then insert; the id printed back is [None] when nothing is. *)
Definition cmd_grant (psql : string → outcome exn string) vault clock
    (project_id phase approver : string) (notes : option string) (ttl_hours : Z) (vault_path : string)
    : outcome exn (option Z * string * string) :=
  '(token, p) ← sign_token vault clock project_id phase approver ttl_hours vault_path;
  match int_of_str 10 project_id with
  | None => Raise OtherError
  | Some n =>
      out ← psql (grant_sql n phase approver notes token (expires_of p));
      if String.eqb out "" then Ok (None, token, expires_of p)
      else match int_of_str 10 out with
           | Some i => Ok (Some i, token, expires_of p)
           | None => Raise OtherError
           end
  end.

Definition cmd_revoke (psql : string → outcome exn string) (approval_id : string) : outcome exn Z :=
  match int_of_str 10 approval_id with
  | None => Raise OtherError
  | Some n =>
      rid ← psql ("UPDATE spine_lifecycle.approval SET expires_at = NOW() WHERE id = " +:+ str_of_Z n +:+
                  " RETURNING id;");
      if String.eqb rid "" then Raise (ApprovalError "approval_not_found")
      else match int_of_str 10 rid with Some i => Ok i | None => Raise OtherError end
  end.

(** * A signed token verifies until it expires *)
Lemma rsplit_no_dot b : has_char "." b = false → rsplit_dot b = None.
Proof.
  induction b as [|c b IH]; [done|]. cbn [has_char rsplit_dot]. intros [Hc Hb]%orb_false_iff.
  by rewrite IH, Ascii.eqb_sym, Hc.
Qed.

Lemma rsplit_last a b : has_char "." b = false → rsplit_dot (a +:+ "." +:+ b) = Some (a, b).
Proof.
  intros Hb. induction a as [|c a IH].
  - rewrite app_empty. change ("." +:+ b) with (String "." b). cbn [rsplit_dot]. by rewrite rsplit_no_dot.
  - rewrite app_cons. cbn [rsplit_dot]. by rewrite IH.
Qed.

Lemma iso_z_local t : iso_z t = iso_local t +:+ "Z".
Proof.
  unfold iso_z. rewrite isoformat_local. apply str_replace_suffix, iso_local_chars; [done|set_solver].
Qed.

Lemma iso_z_text t : is_textb (iso_z t) = true.
Proof. apply ascii_text. by rewrite iso_z_local, all_chars_app, iso_local_ascii. Qed.

Lemma replace_iso_z t : replace_Z (iso_z t) = isoformat t.
Proof.
  rewrite iso_z_local, replace_Z_app, replace_Z_id, isoformat_local; [done|].
  apply iso_local_chars; [done|set_solver].
Qed.

(** Instants on a whole second. *)
Definition whole (t : datetime) : Prop := t mod usec_per_sec = 0.

Lemma parse_aware_isoformat t : representable t → whole t → parse_aware (isoformat t) = Some t.
Proof.
  intros Ht Hw. destruct (fields_of_spec t) as [Hof Hv]. specialize (Hv Ht).
  assert (Hu : f_usec (fields_of t) = 0).
  { unfold fields_of. destruct (ord2ymd _) as [[y m] d]. cbn [f_usec]. unfold usec_per_day, whole in *.
    rewrite (Z.mul_comm 86400).
    pose proof (Z.div_mod t (usec_per_sec * 86400) ltac:(done)) as E.
    assert (Hm : (t mod (usec_per_sec * 86400)) mod usec_per_sec = t mod usec_per_sec).
    { rewrite E at 2. replace (usec_per_sec * 86400 * (t / (usec_per_sec * 86400)) + t mod (usec_per_sec * 86400))
        with (t mod (usec_per_sec * 86400) + (86400 * (t / (usec_per_sec * 86400))) * usec_per_sec) by lia.
      by rewrite Z_mod_plus_full. }
    by rewrite Hm. }
  rewrite isoformat_local. unfold iso_local, parse_aware. set (f := fields_of t) in *. clearbody f.
  pose proof Hv as Hv'. unfold valid_fields in Hv'.
  repeat (apply andb_true_iff in Hv' as [Hv' ?]). rewrite ?Z.leb_le, ?Z.ltb_lt in *.
  assert (1 <= days_in_month (f_year f) (f_month f) <= 31).
  { unfold days_in_month. pose proof (leap_day_range (f_year f)). repeat case_match; lia. }
  cbv zeta. rewrite Hu. cbn [Z.eqb].
  repeat (rewrite pad_append || rewrite app_assoc_str).
  repeat (rewrite bind_take_digits by (cbn; lia); cbv beta iota;
          first [rewrite bind_expect | change ("T" +:+ ?r) with (String "T" r); cbn [take_any mbind option_bind] | idtac];
          cbv beta).
  assert (E : {| f_year := f_year f; f_month := f_month f; f_day := f_day f; f_hour := f_hour f;
                 f_minute := f_minute f; f_second := f_second f; f_usec := 0 |} = f).
  { destruct f; cbn in *; congruence. }
  change (take_frac ("" +:+ "+00:00")) with (Some (0, "+00:00")). cbn [mbind option_bind]. cbv beta iota.
  change (take_offset "+00:00") with (Some 0). cbn [mbind option_bind]. rewrite E, Hv, Hof. f_equal. lia.
Qed.

(** The payload of a signed token decodes to itself, keys sorted. *)
Lemma canonical_payload a b c d e :
  canonical (payload_json a b c d e) =
    dumps (JObj [("approver", JStr c); ("expires_at", JStr e); ("issued_at", JStr d); ("phase", JStr b);
                 ("project_id", JStr a)]).
Proof. reflexivity. Qed.

Lemma canonical_ascii a b c d e : all_chars (fun x => code x <? 128) (canonical (payload_json a b c d e)) = true.
Proof.
  rewrite canonical_payload. cbn [dumps map join fst snd]. repeat rewrite all_chars_app || rewrite quote_ascii. done.
Qed.

Lemma decode_canonical a b c d e :
  Forall (fun s => is_textb s = true) [a; b; c; d; e] →
  decode_payload (b64url (canonical (payload_json a b c d e))) =
    Some (JObj [("approver", JStr c); ("expires_at", JStr e); ("issued_at", JStr d); ("phase", JStr b);
                ("project_id", JStr a)]).
Proof.
  rewrite !Forall_cons. intros (Ha & Hb & Hc & Hd & He & _). unfold decode_payload, b64url_decode, b64url.
  rewrite b64_decode_encode. cbn [mbind option_bind]. rewrite ascii_text by apply canonical_ascii.
  rewrite canonical_payload. apply loads_dumps. cbn [valid forallb fst snd distinct fmap list_fmap].
  by rewrite Ha, Hb, Hc, Hd, He.
Qed.

Lemma signature_ok key p : signature_errors key (b64url p) (b64url (hmac_sha256 key (b64url p))) = Some [].
Proof.
  unfold signature_errors, b64url_decode. unfold b64url at 1. rewrite encode_ascii by apply bytes_range.
  unfold b64url at 2. rewrite b64_decode_encode. cbn [mbind option_bind]. by rewrite String.eqb_refl.
Qed.

Lemma signed_verifies float_repr vault key clock clock' pid phase approver ttl path token p :
  load_key vault path = Ok key →
  Forall (fun s => is_textb s = true) [pid; phase; approver] →
  sign_token vault clock pid phase approver ttl path = Ok (token, p) →
  clock' < clock / usec_per_sec * usec_per_sec + ttl * (3600 * usec_per_sec) →
  ∃ p', verify_token float_repr vault clock' token path (Some pid) (Some phase)
    = Ok {| valid_token := true; payload := p'; errors := [] |} ∧ sorted p = p'.
Proof.
  intros Hk Htexts Hs Hlt. rewrite !Forall_cons in Htexts. destruct Htexts as (Hp & Hph & Ha & _).
  revert Hs. unfold sign_token. rewrite Hk. cbn [mbind outcome_bind]. unfold now_iso.
  set (now := clock / usec_per_sec * usec_per_sec) in *. set (exp := now + _) in *.
  destruct (representableb exp) eqn:Hr; [|done]. intros [= <- <-].
  apply andb_true_iff in Hr as [Hr1%Z.leb_le Hr2%Z.ltb_lt].
  assert (Hw : whole exp).
  { unfold whole, exp, now. replace (ttl * (3600 * usec_per_sec)) with (ttl * 3600 * usec_per_sec) by lia.
    rewrite <- Z.mul_add_distr_r. by apply Z_mod_mult. }
  eexists. split; [|reflexivity]. unfold verify_token. rewrite rsplit_last by by apply encode_no_dot, bytes_range.
  rewrite Hk, signature_ok, decode_canonical by (repeat constructor; auto using iso_z_text).
  unfold check_payload, expiry_errors.
  cbn -[parse_aware replace_Z iso_z Z.leb bool_decide app].
  rewrite replace_iso_z, parse_aware_isoformat by (done || split; done).
  rewrite (proj2 (Z.leb_gt exp clock')) by lia. rewrite !String.eqb_refl. done.
Qed.

(** What a signature and its payload look like. *)
Lemma signed_shape vault clock pid phase approver ttl path token p :
  sign_token vault clock pid phase approver ttl path = Ok (token, p) →
  ∃ key y exp, load_key vault path = Ok key ∧ token = b64url y +:+ "." +:+ b64url (hmac_sha256 key (b64url y)) ∧
    exp = clock / usec_per_sec * usec_per_sec + ttl * (3600 * usec_per_sec) ∧ whole exp ∧ representable exp ∧
    parse_aware (replace_Z (expires_of p)) = Some exp.
Proof.
  unfold sign_token. destruct (load_key vault path) as [key|] eqn:Hk; [|done]. cbn [mbind outcome_bind]. unfold now_iso.
  set (exp := clock / usec_per_sec * usec_per_sec + _). destruct (representableb exp) eqn:Hr; [|done]. intros [= <- <-].
  apply andb_true_iff in Hr as [Hr1%Z.leb_le Hr2%Z.ltb_lt].
  assert (Hw : whole exp).
  { unfold whole, exp. replace (ttl * (3600 * usec_per_sec)) with (ttl * 3600 * usec_per_sec) by lia.
    rewrite <- Z.mul_add_distr_r. by apply Z_mod_mult. }
  eexists key, _, exp. split_and!; [done|reflexivity|done|done|done|].
  change (expires_of _) with (iso_z exp). by rewrite replace_iso_z, parse_aware_isoformat.
Qed.

(** C10: A token verifies for its project and phase at every instant before it expires: what
    [sign_token] returns, [verify_token] accepts without errors under the same key. *)
Theorem signed_token_verifies float_repr vault key clock clock' pid phase approver ttl path token p :
  load_key vault path = Ok key →
  Forall (fun s => is_textb s = true) [pid; phase; approver] →
  sign_token vault clock pid phase approver ttl path = Ok (token, p) →
  clock' < clock / usec_per_sec * usec_per_sec + ttl * (3600 * usec_per_sec) →
  ∃ p', verify_token float_repr vault clock' token path (Some pid) (Some phase)
    = Ok {| valid_token := true; payload := p'; errors := [] |} ∧ sorted p = p'.
Proof. apply signed_verifies. Qed.

(** A vault that holds one key, and a token it signed. *)
Definition demo_vault (p : string) : vault_answer :=
  if String.eqb p HMAC_KEY_VAULT_PATH then Value "000102030405060708090a0b0c0d0e0f" else SecretNotFound.
Definition demo_key : string := of_bytes [0; 1; 2; 3; 4; 5; 6; 7; 8; 9; 10; 11; 12; 13; 14; 15].
Definition demo_clock : datetime := 1709210096000789.
Definition demo_signed : string * json :=
  match sign_token demo_vault demo_clock "7" "plan" "po" 168 HMAC_KEY_VAULT_PATH with
  | Ok r => r
  | Raise _ => ("", JNull)
  end.

Lemma signed_token_verifies_witness :
  load_key demo_vault HMAC_KEY_VAULT_PATH = Ok demo_key ∧
  ∃ p', verify_token id demo_vault (demo_clock + 604799 * usec_per_sec) demo_signed.1 HMAC_KEY_VAULT_PATH (Some "7")
    (Some "plan") = Ok {| valid_token := true; payload := p'; errors := [] |} ∧ sorted demo_signed.2 = p'.
Proof.
  split; [vm_compute; reflexivity|].
  apply (signed_token_verifies id demo_vault demo_key demo_clock (demo_clock + 604799 * usec_per_sec) "7" "plan" "po" 168).
  - vm_compute. reflexivity.
  - repeat constructor.
  - vm_compute. reflexivity.
  - vm_compute. reflexivity.
Defined.

(** * What an accepted token says *)
Lemma check_payload_fields fr clock pid ph errs p r :
  check_payload fr clock (Some pid) (Some ph) errs p = Ok r → valid_token r = true →
  errs = [] ∧ ∃ d e exp j, p = JObj d ∧ (∀ f, f ∈ PAYLOAD_FIELDS → dict_has f d = true) ∧
    dict_lookup "expires_at" d = Some (JStr e) ∧ parse_aware (replace_Z e) = Some exp ∧ clock < exp ∧
    dict_lookup "phase" d = Some (JStr ph) ∧ dict_lookup "project_id" d = Some j ∧ str_json fr j = pid.
Proof.
  unfold check_payload. intros H Hv.
  apply outcome_bind_ok in H as (missing & Hm & H). apply outcome_bind_ok in H as (expiry & He & H).
  apply outcome_bind_ok in H as (project & Hp & H). apply outcome_bind_ok in H as (phe & Hph & H).
  injection H as <-. cbn [valid_token] in Hv. apply bool_decide_eq_true_1 in Hv.
  apply app_nil in Hv as [-> Hv]. apply app_nil in Hv as [-> Hv]. apply app_nil in Hv as [-> Hv].
  apply app_nil in Hv as [-> ->]. split; [done|].
  unfold project_errors, phase_errors in *. destruct p as [| | | | | |d]; try done.
  assert (Hf : ∀ fs, missing_fields fs (JObj d) = Ok [] → ∀ f, f ∈ fs → dict_has f d = true).
  { induction fs as [|f' fs IH]; cbn [missing_fields field_in mbind outcome_bind]; [by intros _ f ?%elem_of_nil|].
    intros Hx. apply outcome_bind_ok in Hx as (rest & Hr & Hx). destruct (dict_has f' d) eqn:Hb; [|done].
    injection Hx as ->. intros f [->|Hf]%elem_of_cons; [done|]. by apply IH. }
  pose proof (Hf _ Hm) as Hfields.
  assert (Hx : dict_has "expires_at" d = true) by (apply Hfields; unfold PAYLOAD_FIELDS; set_solver).
  unfold expiry_errors in He. cbn [field_in mbind outcome_bind] in He. rewrite Hx in He. cbn [negb] in He.
  cbn [get_json mbind outcome_bind] in Hp, Hph.
  injection He as He. destruct (dict_lookup "expires_at" d) as [[| | | |e| |]|] eqn:Hle; try discriminate He.
  destruct (parse_aware (replace_Z e)) as [exp|] eqn:Hexp; [|done].
  destruct (Z.leb_spec exp clock); [done|].
  injection Hph as Hph. destruct (dict_lookup "phase" d) as [[| | | |s| |]|] eqn:Hlp; try discriminate Hph.
  destruct (String.eqb s ph) eqn:Hs; [|done]. apply String.eqb_eq in Hs as ->.
  assert (Hj : dict_has "project_id" d = true) by (apply Hfields; unfold PAYLOAD_FIELDS; set_solver).
  unfold dict_has in Hj. destruct (dict_lookup "project_id" d) as [j|] eqn:Hlj; [|done].
  injection Hp as Hp. destruct (String.eqb (str_json fr j) pid) eqn:Hs; [|done]. apply String.eqb_eq in Hs.
  exists d, e, exp, j. by split_and!.
Qed.

(** The text is a token of the install's key for the project and phase, to expire later. *)
Definition genuine_token (fr : string → string) (vault : string → vault_answer) (clock : datetime)
    (token path pid ph : string) : Prop :=
  ∃ key payload_b64 sig_b64 d e exp j,
    load_key vault path = Ok key ∧ rsplit_dot token = Some (payload_b64, sig_b64) ∧
    b64url_decode sig_b64 = Some (hmac_sha256 key payload_b64) ∧
    decode_payload payload_b64 = Some (JObj d) ∧ (∀ f, f ∈ PAYLOAD_FIELDS → dict_has f d = true) ∧
    dict_lookup "expires_at" d = Some (JStr e) ∧ parse_aware (replace_Z e) = Some exp ∧ clock < exp ∧
    dict_lookup "phase" d = Some (JStr ph) ∧ dict_lookup "project_id" d = Some j ∧ str_json fr j = pid.

Lemma verified_token_genuine fr vault clock token path pid ph r :
  verify_token fr vault clock token path (Some pid) (Some ph) = Ok r → valid_token r = true →
  genuine_token fr vault clock token path pid ph.
Proof.
  unfold verify_token. intros H Hv. destruct (rsplit_dot token) as [[pb sb]|] eqn:Ht; [|by simplify_eq].
  destruct (load_key vault path) as [key|[c|]] eqn:Hk; [|by simplify_eq|done].
  destruct (signature_errors key pb sb) as [errs|] eqn:Hs; [|by simplify_eq].
  destruct (decode_payload pb) as [p|] eqn:Hp; [|by simplify_eq].
  destruct (check_payload_fields _ _ _ _ _ _ _ H Hv) as (-> & d & e & exp & j & -> & Hrest).
  unfold signature_errors in Hs. destruct (is_ascii pb); [|done].
  destruct (b64url_decode sb) as [sig|] eqn:Hd; [|done]. cbn [mbind option_bind] in Hs.
  destruct (String.eqb_spec (hmac_sha256 key pb) sig) as [<-|]; [|done].
  destruct Hrest as (? & ? & ? & ? & ? & ? & ?).
  exists key, pb, sb, d, e, exp, j. by split_and!.
Qed.

(** C11: An accepted token is genuine: its second part is the HMAC of its first under the
    install's key, and its payload is an object with all five fields, for the expected
    project and phase, that expires after now. *)
Theorem accepted_token_sound fr vault clock token path pid ph r :
  verify_token fr vault clock token path (Some pid) (Some ph) = Ok r → valid_token r = true →
  ∃ key payload_b64 sig_b64 d e exp j,
    load_key vault path = Ok key ∧ rsplit_dot token = Some (payload_b64, sig_b64) ∧
    b64url_decode sig_b64 = Some (hmac_sha256 key payload_b64) ∧
    decode_payload payload_b64 = Some (JObj d) ∧ (∀ f, f ∈ PAYLOAD_FIELDS → dict_has f d = true) ∧
    dict_lookup "expires_at" d = Some (JStr e) ∧ parse_aware (replace_Z e) = Some exp ∧ clock < exp ∧
    dict_lookup "phase" d = Some (JStr ph) ∧ dict_lookup "project_id" d = Some j ∧ str_json fr j = pid.
Proof. apply verified_token_genuine. Qed.

Lemma accepted_token_sound_witness :
  ∃ r, verify_token id demo_vault demo_clock demo_signed.1 HMAC_KEY_VAULT_PATH (Some "7") (Some "plan") = Ok r ∧
  valid_token r = true ∧
  ∃ key payload_b64 sig_b64 d e exp j,
    load_key demo_vault HMAC_KEY_VAULT_PATH = Ok key ∧ rsplit_dot demo_signed.1 = Some (payload_b64, sig_b64) ∧
    b64url_decode sig_b64 = Some (hmac_sha256 key payload_b64) ∧
    decode_payload payload_b64 = Some (JObj d) ∧ (∀ f, f ∈ PAYLOAD_FIELDS → dict_has f d = true) ∧
    dict_lookup "expires_at" d = Some (JStr e) ∧ parse_aware (replace_Z e) = Some exp ∧ demo_clock < exp ∧
    dict_lookup "phase" d = Some (JStr "plan") ∧ dict_lookup "project_id" d = Some j ∧ str_json id j = "7".
Proof.
  exists {| valid_token := true; payload := sorted demo_signed.2; errors := [] |}.
  split; [vm_compute; reflexivity|]. split; [reflexivity|].
  eapply (accepted_token_sound id demo_vault demo_clock demo_signed.1 HMAC_KEY_VAULT_PATH "7" "plan"
    {| valid_token := true; payload := sorted demo_signed.2; errors := [] |}); [vm_compute; reflexivity|reflexivity].
Defined.

(** Checking a token raises only when its payload text decodes to something other than
    an object; then it does so for unsigned tokens too. *)
Theorem verify_raises_only_on_non_object fr vault clock token path pid ph e :
  verify_token fr vault clock token path pid ph = Raise e →
  ∃ payload_b64 sig_b64 p, rsplit_dot token = Some (payload_b64, sig_b64) ∧
    decode_payload payload_b64 = Some p ∧ ∀ d, p ≠ JObj d.
Proof.
  unfold verify_token. destruct (rsplit_dot token) as [[pb sb]|]; [|done].
  destruct (load_key vault path) as [key|[c|]] eqn:Hk; [|done|].
  - destruct (signature_errors key pb sb); [|done]. destruct (decode_payload pb) as [p|] eqn:Hp; [|done].
    intros H. exists pb, sb, p. split; [done|]. split; [done|]. intros d ->.
    assert (Hm : ∀ fs, ∃ l, missing_fields fs (JObj d) = Ok l).
    { induction fs as [|f fs [ms IH]]; cbn [missing_fields]; [by eexists|]. rewrite IH. cbn. by eexists. }
    revert H. unfold check_payload, expiry_errors, project_errors, phase_errors. destruct (Hm PAYLOAD_FIELDS) as [ms ->].
    by destruct pid, ph.
  - unfold load_key in Hk. destruct (vault path); try done. by destruct (fromhex (strip v)).
Qed.

(** The text [W10] decodes to the empty list. *)
Lemma verify_raises_only_on_non_object_witness :
  verify_token id demo_vault demo_clock "W10.AAAA" HMAC_KEY_VAULT_PATH (Some "7") None = Raise OtherError ∧
  ∃ payload_b64 sig_b64 p, rsplit_dot "W10.AAAA" = Some (payload_b64, sig_b64) ∧
    decode_payload payload_b64 = Some p ∧ ∀ d, p ≠ JObj d.
Proof.
  split; [vm_compute; reflexivity|].
  apply (verify_raises_only_on_non_object id demo_vault demo_clock "W10.AAAA" HMAC_KEY_VAULT_PATH (Some "7") None OtherError).
  vm_compute. reflexivity.
Defined.

(** * Keys written by [genkey] *)
Lemma hex_digit_plain k :
  0 <= k < 16 → hex_value (hex_digit k) = Some k ∧ is_c_space (hex_digit k) = false ∧
  negb (is_space (hex_digit k)) = true.
Proof.
  intros Hk. split; [by apply hex_value_digit|].
  assert (H : forallb (fun i => negb (is_c_space (hex_digit (Z.of_nat i))) && negb (is_space (hex_digit (Z.of_nat i))))
    (seq 0 16) = true) by by vm_compute.
  rewrite forallb_forall in H. specialize (H (Z.to_nat k)). rewrite Z2Nat.id in H by lia.
  assert (Hin : In (Z.to_nat k) (seq 0 16)) by (apply in_seq; lia).
  apply H in Hin as [H1%negb_true_iff H2]%andb_true_iff. done.
Qed.

Lemma fromhex_hex s :
  fromhex (hex_of s) = Some s ∧ all_chars (fun c => negb (is_space c)) (hex_of s) = true.
Proof.
  unfold hex_of, bytes_of. induction s as [|c s [IH1 IH2]]; [done|].
  cbn [String.list_ascii_of_string map concat]. rewrite <- app_comm_cons.
  assert (Hc : 0 <= code c < 256) by (unfold code; pose proof (N_ascii_bounded c); lia).
  pose proof (Z.div_mod (code c) 16 ltac:(lia)) as E. pose proof (Z.mod_pos_bound (code c) 16 ltac:(lia)).
  destruct (hex_digit_plain (code c / 16)) as (V1 & S1 & P1); [lia|].
  destruct (hex_digit_plain (code c mod 16)) as (V2 & S2 & P2); [lia|].
  cbn [app String.string_of_list_ascii fromhex all_chars]. rewrite S1, V1, V2, IH1, P1, P2. cbn [mbind option_bind].
  split; [|done]. replace (code c / 16 * 16 + code c mod 16) with (code c) by lia.
  unfold chr, code. by rewrite N2Z.id, ascii_N_embedding.
Qed.

(** The key [genkey] puts in the vault is the key [sign_token] and [verify_token] load. *)
Theorem generated_key_loads vault fresh path p v :
  cmd_genkey vault None fresh path = Ok (p, v) →
  load_key (fun q => if String.eqb q path then Value v else vault q) p = Ok fresh.
Proof.
  unfold cmd_genkey, load_key. destruct (vault path); try done. intros [= <- <-].
  rewrite String.eqb_refl. destruct (fromhex_hex fresh) as [Hf Hs]. by rewrite strip_id, Hf.
Qed.

Lemma generated_key_loads_witness :
  cmd_genkey (fun _ => SecretNotFound) None demo_key "k" = Ok ("k", "000102030405060708090a0b0c0d0e0f") ∧
  load_key (fun q => if String.eqb q "k" then Value "000102030405060708090a0b0c0d0e0f" else SecretNotFound) "k"
    = Ok demo_key.
Proof.
  split; [vm_compute; reflexivity|].
  apply (generated_key_loads (fun _ => SecretNotFound) demo_key "k" "k" "000102030405060708090a0b0c0d0e0f").
  vm_compute. reflexivity.
Defined.

(** * Values inside a statement *)

(** A standard SQL string literal after its opening quote: its value and what follows. *)
Fixpoint sql_literal (s : string) : option (string * string) :=
  match s with
  | EmptyString => None
  | String c s1 =>
      if Ascii.eqb c squote then
        match s1 with
        | String c' s2 => if Ascii.eqb c' squote then p ← sql_literal s2; Some (String squote p.1, p.2) else Some ("", s1)
        | EmptyString => Some ("", s1)
        end
      else p ← sql_literal s1; Some (String c p.1, p.2)
  end.

Lemma esc_cons c v :
  esc (String c v) = if Ascii.eqb c squote then String squote (String squote (esc v)) else String c (esc v).
Proof.
  unfold esc, str_replace. cbn [replace_from]. unfold startswith. change "'" with (String squote "").
  cbn [String.prefix]. destruct (ascii_dec squote c) as [<-|Hne].
  - rewrite Ascii.eqb_refl. by destruct v.
  - destruct (Ascii.eqb_spec c squote); [congruence|]. reflexivity.
Qed.

(** A value put into the statement of a grant is read back by the database as that value
    and ends where its literal ends: no text of a user reaches the statement itself. *)
Theorem quoted_value_inert v rest :
  match rest with String c _ => c ≠ squote | EmptyString => True end →
  ∃ body, sql_quoted v +:+ rest = String squote body ∧ sql_literal body = Some (v, rest).
Proof.
  intros Hr. unfold sql_quoted. exists (esc v +:+ String squote rest).
  split; [by rewrite !app_assoc_str|]. induction v as [|c v IH].
  - rewrite app_empty. cbn [sql_literal]. rewrite Ascii.eqb_refl. destruct rest as [|c r]; [done|].
    by destruct (Ascii.eqb_spec c squote).
  - rewrite esc_cons. destruct (Ascii.eqb_spec c squote) as [->|Hc]; rewrite !app_cons; cbn [sql_literal].
    + by rewrite !Ascii.eqb_refl, IH.
    + by rewrite (proj2 (Ascii.eqb_neq _ _) Hc), IH.
Qed.

Lemma quoted_value_inert_witness :
  ", 'approved'" ≠ "" ∧ ∃ body, sql_quoted "x'); DROP TABLE t; --" +:+ ", 'approved'" = String squote body ∧
    sql_literal body = Some ("x'); DROP TABLE t; --", ", 'approved'").
Proof. split; [discriminate|]. apply (quoted_value_inert "x'); DROP TABLE t; --" ", 'approved'"). discriminate. Defined.
End Approval.
