(* ===== verification/PhasesYaml.v ===== *)
(** The readers of orchestrator/state/phases.yaml: the line scans of
    shared/mcp/tools/orchestrator.py ([_phase_requires_gate], [_next_phases_from_yaml]) and
    those of orchestrator/lib/transition.sh in awk, on the text of the file.  A missing file
    is [None].  Phase names are taken to hold no character that is special in a regular
    expression of awk. *)

From S2P Require Import Prelude PyValue Text Datetime Json Decisions Hub.
From Stdlib Require Import Ascii.
Local Open Scope Z_scope.

Module PhasesYaml.

(** * The file *)

(** A tilde stands for a double quote. *)
Fixpoint requote (s : string) : string :=
  match s with
  | EmptyString => EmptyString
  | String c s' => String (if Ascii.eqb c "~" then dquote else c) (requote s')
  end.

(** orchestrator/state/phases.yaml. *)
Definition phases_yaml : string := requote
"# Spine canonical SDLC phase set (STORY-9.1.3).
#
# This file is the DEFAULT pipeline shape shipped with stock Spine. Org
# bundles may override or extend it (EPIC-1.7 / STORY-9.1.4) by placing
# their own `sdlc-pipeline.yaml` higher in the manifest precedence chain.
# A project locks the resolved manifest at creation time and stores its
# version in `spine_lifecycle.project.pipeline_version`.
#
# The transition engine (STORY-9.2.1) treats this file as data:
#   - A move from phase X -> phase Y is valid only if Y appears in
#     phases[X].next (forward) or phases[X].rollback_to (reverse).
#   - If `gate:` is set on the TARGET phase, the engine requires at least
#     one matching `approved` row in `spine_lifecycle.approval` whose
#     `token` verifies and whose `expires_at` is in the future.
#
# Phases are free text in the database, so adding a phase here is a
# zero-migration change for downstream installs.

version: 1
metadata:
  name: ~spine-default-sdlc~
  description: ~Stock Spine SDLC pipeline: plan -> build -> verify -> acceptance -> release -> operate -> retro.~
  owner: ~spine-core~

phases:
  - id: intake
    label: ~Project Intake~
    subsystem: plan
    artifact: null            # no artifact yet
    role_lead: product
    next: [plan_in_progress]
    rollback_to: []

  - id: plan_in_progress
    label: ~Plan in Progress~
    subsystem: plan
    artifact: null
    role_lead: product
    next: [plan_approved, intake]   # can rollback to intake
    rollback_to: [intake]

  - id: plan_approved
    label: ~Plan Approved (PRD/TRD/Roadmap signed)~
    subsystem: plan
    artifact: roadmap
    role_lead: product
    gate: user_approval
    next: [build_in_progress]
    rollback_to: [plan_in_progress]

  - id: build_in_progress
    label: ~Build in Progress~
    subsystem: build
    artifact: null
    role_lead: engineer
    next: [build_complete, plan_approved]
    rollback_to: [plan_approved]

  - id: build_complete
    label: ~Build Complete (BuildArtifact emitted)~
    subsystem: build
    artifact: build_artifact
    role_lead: engineer
    next: [verify_in_progress]
    rollback_to: [build_in_progress]

  - id: verify_in_progress
    label: ~Verify in Progress~
    subsystem: verify
    artifact: null
    role_lead: auditor        # Spine role; TRON AuditManager underneath
    next: [verify_approved, verify_approved_with_warnings, build_in_progress]   # verify-fail loops to build
    rollback_to: [build_complete]
    # ── Runtime mirror of plan/artifacts/sdlc-pipeline-default.yaml ──
    # The pipeline manifest is the SOURCE OF TRUTH; phases.yaml is the
    # orchestrator's runtime view. verify_dispatcher.sh reads these
    # fields when a project enters this phase. Bundles override via
    # verify_overrides.iso_agents_enabled (bundle-schema.yaml).
    # STORY-8.7.1 / STORY-8.7.2 / STORY-8.7.3.
    verify_config:
      mcp_tool: verify_audit
      iso_agents_enabled:                            # default; bundle may override
        - SecurityISO
        - BuilderISO
        - QAISO
        - PerformanceISO
      layers_enabled:
        deterministic_scanners: true
        schema_validation:      true
        sandbox_execution:      true
        cross_llm_validation:   false                # opt-in via bundle
        calibration:            true
        prompt_regression:      true
      cost_cap_usd: 5.00
      auto_remediation_severity: high                # critical→blocked; high→loop; medium→advance-with-warnings; low→advance
      transitions:
        on_pass:     verify_approved
        on_critical: blocked                         # status update only; not a phase
        on_high:     build_in_progress               # STORY-8.7.3 via remediation.sh
        on_medium:   verify_approved_with_warnings
        on_low:      verify_approved

  - id: verify_approved_with_warnings
    label: ~Verify Approved with Warnings (medium-severity findings flagged)~
    subsystem: verify
    artifact: verify_findings
    role_lead: auditor
    gate: user_approval         # user must acknowledge the warnings
    next: [acceptance, build_in_progress]
    rollback_to: [verify_in_progress, build_in_progress]

  - id: verify_approved
    label: ~Verify Approved (VerifyFindings green or accepted)~
    subsystem: verify
    artifact: verify_findings
    role_lead: auditor
    gate: user_approval
    next: [acceptance]
    rollback_to: [build_in_progress]

  - id: acceptance
    label: ~User Acceptance~
    subsystem: plan
    artifact: acceptance_record
    role_lead: product
    gate: user_approval
    next: [released]
    rollback_to: [build_in_progress]

  - id: released
    label: ~Released~
    subsystem: build
    artifact: release_notes
    role_lead: operator
    gate: user_approval
    next: [operate]
    rollback_to: [acceptance]

  - id: operate
    label: ~Operating~
    subsystem: build
    artifact: null
    role_lead: operator
    next: [retro, build_in_progress]   # incident -> build remediation
    rollback_to: [released]

  - id: retro
    label: ~Retrospective~
    subsystem: plan
    artifact: retro_notes
    role_lead: memory
    next: []                   # terminal
    rollback_to: []

# ─────────────────────────────────────────────────────────────────────
# Engine-wide metadata
# ─────────────────────────────────────────────────────────────────────

transitions_metadata:
  invalid_transition_error: ~phase X cannot transition directly to phase Y; allowed next phases: [...]~
  retry_policy:
    default_max_retries: 3
    verify_build_loop_max: 5  # build_in_progress <-> verify_in_progress
  rollback_policy:
    requires_rationale: true
    audit_actor_required: true
  gate_policy:
    user_approval:
      verifier: hmac
      multi_approver_allowed: true   # STORY-9.3.3
      default_expiry_hours: 168      # 7 days
".

(** * The Python readers *)

(** [stripped.split(":", 1)[1]] of a line that holds a colon. *)
Definition after_colon (s : string) : string := match cut ":" s with Some (_, b) => b | None => "" end.

(** The line as [line.lstrip()] of [raw.rstrip()]. *)
Definition stripped (raw : string) : string := lstrip (rstrip raw).

Definition is_id (line : string) : bool := startswith line "- id:".
Definition id_value (line : string) : string := strip (after_colon line).
(** [split(":", 1)[1].split("#", 1)[0].strip()]. *)
Definition field_value (line : string) : string := strip (before "#" (after_colon line)).

Fixpoint gate_scan (target : string) (in_block : bool) (lines : list string) : bool :=
  match lines with
  | [] => false
  | raw :: lines' =>
      let line := stripped raw in
      if is_id line then gate_scan target (String.eqb (id_value line) target) lines'
      else if in_block && startswith line "gate:" then
        let val := field_value line in
        negb (String.eqb val "") && negb (String.eqb (lower val) "null")
      else gate_scan target in_block lines'
  end.

Definition phase_requires_gate (file : option string) (target_phase : string) : bool :=
  match file with
  | None => false
  | Some text => gate_scan target_phase false (splitlines text)
  end.

Definition is_bracket (c : ascii) : bool := Ascii.eqb c "[" || Ascii.eqb c "]".

(** The items of an inline array. *)
Definition inline_items (rest : string) : list string :=
  List.filter (fun v => negb (String.eqb v ""))
    (map (fun it => strip_by is_quote (strip it)) (split_on "," (strip_by is_bracket rest))).

Fixpoint next_scan (current : string) (in_block in_next : bool) (lines : list string) : list string :=
  match lines with
  | [] => []
  | raw :: lines' =>
      let line := stripped raw in
      if is_id line then
        if in_block then []
        else next_scan current (String.eqb (id_value line) current) false lines'
      else if negb in_block then next_scan current in_block in_next lines'
      else if startswith line "next:" then
        let rest := field_value line in
        if startswith rest "[" then inline_items rest ++ next_scan current in_block false lines'
        else next_scan current in_block (if String.eqb rest "" then true else in_next) lines'
      else if in_next then
        match drop_prefix "- " line with
        | Some item =>
            let val := strip_by is_quote (strip (before "#" item)) in
            (if String.eqb val "" then [] else [val]) ++ next_scan current in_block in_next lines'
        | None =>
            next_scan current in_block (String.eqb line "" || startswith line "#") lines'
        end
      else next_scan current in_block in_next lines'
  end.

Definition next_phases_from_yaml (file : option string) (current_phase : string) : list string :=
  match file with
  | None => []
  | Some text => next_scan current_phase false false (splitlines text)
  end.

(** * The awk readers *)
Definition ltrim := lstrip_by is_c_space.
Definition trim := strip_by is_c_space.
Definition starts_blank (s : string) : bool :=
  match s with EmptyString => false | String c _ => is_c_space c end.
Definition blank_or_end (s : string) : bool := String.eqb s "" || starts_blank s.

(** The line matches [^[[:space:]]*-[[:space:]]+id:[[:space:]]+]. *)
Definition awk_id_line (line : string) : bool :=
  match drop_prefix "-" (ltrim line) with
  | Some r => starts_blank r && match drop_prefix "id:" (ltrim r) with
                                | Some v => starts_blank v
                                | None => false
                                end
  | None => false
  end.

(** Somewhere in the line: [id:[[:space:]]+], the name, a blank or the end. *)
Fixpoint awk_names (want line : string) : bool :=
  match drop_prefix "id:" line with
  | Some r => starts_blank r && match drop_prefix want (ltrim r) with
                                | Some e => blank_or_end e
                                | None => false
                                end
  | None => false
  end || match line with EmptyString => false | String _ line' => awk_names want line' end.

(** The awk branch of [_load_phase_def]. *)
Fixpoint awk_block (want : string) (in_block : bool) (lines : list string) : list string :=
  match lines with
  | [] => []
  | line :: lines' =>
      if awk_id_line line then
        let here := awk_names want line in
        (if here then [line] else []) ++ awk_block want here lines'
      else (if in_block then [line] else []) ++ awk_block want in_block lines'
  end.

(** What follows [^[[:space:]]*f:[[:space:]]*]. *)
Definition awk_field (f line : string) : option string := ltrim <$> drop_prefix (f +:+ ":") (ltrim line).

(** [sub(/[[:space:]]*#.*$/, "")]. *)
Definition uncomment (s : string) : string :=
  match cut "#" s with Some (a, _) => rstrip_by is_c_space a | None => s end.

Definition blank_or_quote (c : ascii) : bool := is_c_space c || is_quote c.

Definition awk_items (rest : string) : list string :=
  let body := chop_end "]" (default rest (drop_prefix "[" rest)) in
  List.filter (fun v => negb (String.eqb v "")) (map (strip_by blank_or_quote) (split_on "," body)).

(** [_phase_field_list]. *)
Fixpoint awk_list (f : string) (in_field : bool) (lines : list string) : list string :=
  match lines with
  | [] => []
  | line :: lines' =>
      match awk_field f line with
      | Some r =>
          let rest := trim (uncomment r) in
          if startswith rest "[" then awk_items rest
          else if String.eqb rest "" then awk_list f true lines'
          else [delete_chars is_quote rest]
      | None =>
          if in_field then
            match drop_prefix "-" (ltrim line) with
            | Some r =>
                if starts_blank r then
                  let item := rstrip_by (fun c => blank_or_quote c || Ascii.eqb c ",")
                                (lstrip_by blank_or_quote (uncomment (ltrim r))) in
                  (if String.eqb item "" then [] else [item]) ++ awk_list f true lines'
                else []
            | None => if String.eqb (trim line) "" then awk_list f true lines' else []
            end
          else awk_list f in_field lines'
      end
  end.

(** [_phase_field_scalar]. *)
Fixpoint awk_scalar (f : string) (lines : list string) : string :=
  match lines with
  | [] => ""
  | line :: lines' =>
      match awk_field f line with
      | Some r => delete_chars is_quote r
      | None => awk_scalar f lines'
      end
  end.

(** [_load_phase_def]: [yq] when it is installed, awk otherwise. *)
Definition load_phase_def (yq : option (string → list string)) (file : option string) (phase : string) : list string :=
  match yq, file with
  | Some y, _ => y phase
  | None, Some text => awk_block phase false (split_on (chr 10) text)
  | None, None => []
  end.

Definition phase_field_list yq file (phase field : string) : list string :=
  awk_list field false (load_phase_def yq file phase).
Definition phase_field_scalar yq file (phase field : string) : string :=
  awk_scalar field (load_phase_def yq file phase).

(** The [IFS] of [_in_list]. *)
Definition is_ifs (c : ascii) : bool := let n := code c in (n =? 32) || (n =? 9) || (n =? 10).

(** [_in_list]: the words of the list, one item per line. *)
Definition in_list (needle : string) (items : list string) : bool :=
  existsb (fun it => existsb (String.eqb needle) (words_by is_ifs it)) items.

(** * The readers agree on the file *)
Definition phase_ids : list string :=
  ["intake"; "plan_in_progress"; "plan_approved"; "build_in_progress"; "build_complete"; "verify_in_progress";
   "verify_approved_with_warnings"; "verify_approved"; "acceptance"; "released"; "operate"; "retro"].

(** The ids of the file's phases. *)
Definition ids_of (lines : list string) : list string :=
  map (fun raw => id_value (stripped raw)) (List.filter (fun raw => is_id (stripped raw)) lines).

Lemma gate_scan_unknown target lines : target ∉ ids_of lines → gate_scan target false lines = false.
Proof.
  unfold ids_of. induction lines as [|raw lines IH]; [done|]. cbn [List.filter gate_scan].
  destruct (is_id (stripped raw)) eqn:Hid; [|done]. cbn [map]. intros [Hne Hn]%not_elem_of_cons.
  destruct (String.eqb_spec (id_value (stripped raw)) target); [congruence|]. by apply IH.
Qed.

Lemma next_scan_unknown current in_next lines : current ∉ ids_of lines → next_scan current false in_next lines = [].
Proof.
  unfold ids_of. revert in_next. induction lines as [|raw lines IH]; intros in_next; [done|]. cbn [List.filter next_scan].
  destruct (is_id (stripped raw)) eqn:Hid; [|apply IH]. cbn [map]. intros [Hne Hn]%not_elem_of_cons.
  destruct (String.eqb_spec (id_value (stripped raw)) current); [congruence|]. by apply IH.
Qed.

Lemma file_ids : ids_of (splitlines phases_yaml) = phase_ids.
Proof. vm_compute. reflexivity. Qed.

Lemma requires_gate_unknown text p : p ∉ ids_of (splitlines text) → phase_requires_gate (Some text) p = false.
Proof. apply gate_scan_unknown. Qed.

Lemma next_phases_unknown text p : p ∉ ids_of (splitlines text) → next_phases_from_yaml (Some text) p = [].
Proof. apply next_scan_unknown. Qed.

(** The readers of the two languages, phase by phase. *)
Definition agree_at (text p : string) : bool :=
  bool_decide (phase_field_list None (Some text) p "next" = next_phases_from_yaml (Some text) p) &&
  Bool.eqb (negb (String.eqb (phase_field_scalar None (Some text) p "gate") "")) (phase_requires_gate (Some text) p) &&
  Bool.eqb (phase_requires_gate (Some text) p) (Hub.phase_requires_gate p).

Lemma agree_spec text p :
  agree_at text p = true →
  phase_field_list None (Some text) p "next" = next_phases_from_yaml (Some text) p ∧
  negb (String.eqb (phase_field_scalar None (Some text) p "gate") "") = phase_requires_gate (Some text) p ∧
  phase_requires_gate (Some text) p = Hub.phase_requires_gate p.
Proof. unfold agree_at. by intros [[?%bool_decide_eq_true ?%Bool.eqb_prop]%andb_true_iff ?%Bool.eqb_prop]%andb_true_iff. Qed.

Lemma all_agree p : p ∈ phase_ids → agree_at phases_yaml p = true.
Proof.
  assert (H : forallb (agree_at phases_yaml) phase_ids = true) by (vm_compute; reflexivity).
  rewrite forallb_forall in H. intros Hp. by apply H, list_elem_of_In.
Qed.

Lemma gated_known p : p ∉ phase_ids → Hub.phase_requires_gate p = false.
Proof. intros Hp. apply in_strs_false. intros Hg. apply Hp. revert Hg. unfold Hub.gated_phases, phase_ids. set_solver. Qed.

Lemma requires_gate_hub p : phase_requires_gate (Some phases_yaml) p = Hub.phase_requires_gate p.
Proof.
  destruct (decide (p ∈ phase_ids)) as [Hp|Hp].
  - exact (proj2 (proj2 (agree_spec _ _ (all_agree p Hp)))).
  - rewrite gated_known, requires_gate_unknown; [done|by rewrite file_ids|done].
Qed.

(** On phases.yaml the tools and the transition script read the same graph: for every
    phase of the file the scans in Python and in awk give the same next phases and the same
    gate, and for every name at all the gate the tools see is the one the hub's own list of
    gated phases has. *)
Theorem readers_agree :
  (∀ p, p ∈ phase_ids →
     phase_field_list None (Some phases_yaml) p "next" = next_phases_from_yaml (Some phases_yaml) p ∧
     negb (String.eqb (phase_field_scalar None (Some phases_yaml) p "gate") "") = phase_requires_gate (Some phases_yaml) p) ∧
  (∀ p, phase_requires_gate (Some phases_yaml) p = Hub.phase_requires_gate p).
Proof.
  split; [|exact requires_gate_hub].
  intros p Hp. destruct (agree_spec _ _ (all_agree p Hp)) as (E1 & E2 & _). exact (conj E1 E2).
Qed.
End PhasesYaml.
