(* ===== verification/Lifecycle.v ===== *)
(** The lifecycle tools of shared/mcp/tools/orchestrator.py on the tables of
    V14__spine_lifecycle_schema.sql, and the script orchestrator/lib/transition.sh that
    [phase_advance] runs.

    A psql call takes the next fault of the state: it runs, fails with a text on stderr, or
    hangs past its timeout with or without having committed.  Postgres (the cast to uuid,
    the text of an instant, what it makes of a broken statement), [yq], the random draws
    and the vault are the outside world, the record [server].  The tools see a project as
    the line psql prints for it, which they split at its bars; other rows are read as values.
    Left out: the audit row (its failures are swallowed and nothing reads it here), pydantic's
    checks of the inputs, and [transition.sh rollback], which no Python code calls. *)

From S2P Require Import Prelude ProcLogic PyValue Text Datetime Json Crypto Decisions Hub Approval PhasesYaml.
From Stdlib Require Import Ascii.
Local Open Scope Z_scope.

Module Lifecycle.
Import Json Crypto Approval PhasesYaml.
Local Open Scope proc_scope.

(** * Tables *)
Inductive ProjectType := feature | bug | incident | support | refactor | infra | compliance.

Definition type_text (t : ProjectType) : string :=
  match t with
  | feature => "feature" | bug => "bug" | incident => "incident" | support => "support"
  | refactor => "refactor" | infra => "infra" | compliance => "compliance"
  end.

Record project := {
  p_id : Z; p_uuid : string; p_name : string; p_type : ProjectType; p_work_item : ProjectType;
  p_version : string; p_manifest : string; p_owner : string; p_phase : string; p_active : bool
}.
(** [h_outcome] is [None] while the phase is open. *)
Record history := { h_project : Z; h_phase : string; h_outcome : option string }.
Record transition := {
  t_id : Z; t_project : Z; t_from : string; t_to : string; t_actor : string; t_reason : option string; t_at : datetime
}.
Record approval := {
  a_id : Z; a_project : Z; a_phase : string; a_approver : string; a_decision : string; a_notes : option string;
  a_token : option string; a_granted : datetime; a_expires : option datetime
}.

Inductive fault := Runs | Fails (stderr : string) | Hangs (committed : bool).

Record db := {
  projects : list project; histories : list history; transitions : list transition; approvals : list approval;
  has_work_item_type : bool; vault : string → vault_answer; clock : datetime; faults : list fault; draws : nat
}.

Definition set_projects ps d := {| projects := ps; histories := histories d; transitions := transitions d;
  approvals := approvals d; has_work_item_type := has_work_item_type d; vault := vault d; clock := clock d;
  faults := faults d; draws := draws d |}.
Definition set_histories hs d := {| projects := projects d; histories := hs; transitions := transitions d;
  approvals := approvals d; has_work_item_type := has_work_item_type d; vault := vault d; clock := clock d;
  faults := faults d; draws := draws d |}.
Definition set_transitions ts d := {| projects := projects d; histories := histories d; transitions := ts;
  approvals := approvals d; has_work_item_type := has_work_item_type d; vault := vault d; clock := clock d;
  faults := faults d; draws := draws d |}.
Definition set_approvals xs d := {| projects := projects d; histories := histories d; transitions := transitions d;
  approvals := xs; has_work_item_type := has_work_item_type d; vault := vault d; clock := clock d;
  faults := faults d; draws := draws d |}.
Definition set_vault v d := {| projects := projects d; histories := histories d; transitions := transitions d;
  approvals := approvals d; has_work_item_type := has_work_item_type d; vault := v; clock := clock d;
  faults := faults d; draws := draws d |}.
Definition set_faults fs d := {| projects := projects d; histories := histories d; transitions := transitions d;
  approvals := approvals d; has_work_item_type := has_work_item_type d; vault := vault d; clock := clock d;
  faults := fs; draws := draws d |}.
Definition set_clock t d := {| projects := projects d; histories := histories d; transitions := transitions d;
  approvals := approvals d; has_work_item_type := has_work_item_type d; vault := vault d; clock := t;
  faults := faults d; draws := draws d |}.
Definition draw d := {| projects := projects d; histories := histories d; transitions := transitions d;
  approvals := approvals d; has_work_item_type := has_work_item_type d; vault := vault d; clock := clock d;
  faults := faults d; draws := S (draws d) |}.

(** The outside world. *)
Record server := {
  uuid_cast : string → option string;       (* Postgres: text::uuid *)
  pg_text : datetime → string;              (* Postgres: timestamptz::text *)
  broken : string → db → option db;         (* Postgres: a transaction whose text is not as written *)
  new_uuid : nat → string;                  (* gen_random_uuid() *)
  fresh_key : nat → string;                 (* the 32 bytes of secrets.token_hex(32) *)
  put_fails : bool;                         (* the vault refuses put_secret *)
  float_repr : string → string;
  vault_path : string;
  file : option string;                     (* phases.yaml *)
  yq : option (string → list string);       (* yq's block of a phase, when it is installed *)
  approval_py_executable : bool
}.

Inductive exn := RuntimeError (message : string) | TimeoutExpired | ValueError.

(** What a tool answers. *)
Inductive response (A : Type) :=
| Okay (data : A)
| Error (code : string) (retryable : bool) (data : option A).
Arguments Okay {A} data.
Arguments Error {A} code retryable data.

(** * psql *)

(** A statement of Postgres, which may refuse it. *)
Definition run_stmt {A} (stmt : db → outcome string A * db) : proc db exn A := fun d =>
  match stmt d with
  | (Ok a, d') => (Ok a, d')
  | (Raise m, _) => (Raise (RuntimeError m), d)
  end.

(** [_psql]. *)
Definition psql {A} (stmt : db → outcome string A * db) : proc db exn A := fun d =>
  match faults d with
  | [] => run_stmt stmt d
  | Runs :: fs => run_stmt stmt (set_faults fs d)
  | Fails m :: fs => (Raise (RuntimeError m), set_faults fs d)
  | Hangs committed :: fs =>
      let d := set_faults fs d in (Raise TimeoutExpired, if committed then (run_stmt stmt d).2 else d)
  end.

Definition query {A} (f : db → A) : proc db exn A := psql (fun d => (Ok (f d), d)).

(** [try: ... except RuntimeError as exc: ...]: the value, or the text of the error. *)
Definition attempt {A} (m : proc db exn A) : proc db exn (outcome string A) :=
  try_except (a <- m;; pret (Ok a))
    (fun e => match e with RuntimeError x => pret (Raise x) | _ => praise e end).

Section Tools.
Context (E : server).

(** * [_resolve_project] *)

(** [UUID(s)] of Python accepts the text. *)
Definition is_brace (c : ascii) : bool := Ascii.eqb c "{" || Ascii.eqb c "}".
Definition is_uuid (s : string) : bool :=
  let hex := str_replace (strip_by is_brace (str_replace (str_replace s "urn:" "") "uuid:" "")) "-" "" in
  (text_length hex =? 32)%nat && bool_decide (is_Some (int_of_str 16 hex)).

(** The [WHERE] clause; [None] when Postgres cannot cast the uuid. *)
Definition where_clause (project_id : string) : option (project → bool) :=
  let by_id p := Hub.isdigit project_id &&
                 match int_of_str 10 project_id with Some n => p_id p =? n | None => false end in
  let by_name p := String.eqb (p_name p) project_id in
  if is_uuid project_id then
    match uuid_cast E project_id with
    | None => None
    | Some u => Some (fun p => by_id p || String.eqb (p_uuid p) u || by_name p)
    end
  else Some (fun p => by_id p || by_name p).

Definition row_line (p : project) : string :=
  join "|" [str_of_Z (p_id p); p_uuid p; p_name p; p_phase p; p_version p; p_owner p].

Definition select_project (project_id : string) (d : db) : outcome string string * db :=
  match where_clause project_id with
  | None => (Raise "invalid input syntax for type uuid", d)
  | Some w => (Ok (match List.find (fun p => w p && p_active p) (projects d) with
                   | Some p => strip (row_line p)
                   | None => ""
                   end), d)
  end.

Record resolved := {
  r_id : Z; r_uuid : string; r_name : string; r_phase : string; r_version : string; r_owner : string
}.

(** The fields between the bars of a line; [int] of the first may raise. *)
Definition parse_row (out : string) : outcome exn (option resolved) :=
  if String.eqb out "" then Ok None
  else match split_max 5 "|" out with
       | [a; b; c; d; e; f] =>
           match int_of_str 10 a with
           | Some n => Ok (Some {| r_id := n; r_uuid := b; r_name := c; r_phase := d; r_version := e; r_owner := f |})
           | None => Raise ValueError
           end
       | _ => Ok None
       end.

Definition resolve_project (project_id : string) : proc db exn (option resolved) :=
  out <- attempt (psql (select_project project_id));;
  match out with
  | Raise _ => pret None
  | Ok line => ret (parse_row line)
  end.

(** * [project_create] *)
Record create_input := {
  c_name : string; c_type : ProjectType; c_owner : string; c_version : string; c_manifest : string
}.

Record created := { cr_id : Z; cr_uuid : string; cr_name : string; cr_owner : string; cr_phase : string }.

Definition INITIAL_PHASE : string := "intake".

Definition duplicate (i : create_input) (p : project) : bool :=
  String.eqb (p_name p) (c_name i) && String.eqb (p_owner p) (c_owner i) && p_active p.

(** The project row and its first history row, inserted together. *)
Definition insert_rows (i : create_input) (work_item : ProjectType) (d : db) : created * db :=
  let id := Z.of_nat (length (projects d)) + 1 in
  let u := new_uuid E (draws d) in
  let p := {| p_id := id; p_uuid := u; p_name := c_name i; p_type := c_type i; p_work_item := work_item;
              p_version := c_version i; p_manifest := c_manifest i; p_owner := c_owner i;
              p_phase := INITIAL_PHASE; p_active := true |} in
  let h := {| h_project := id; h_phase := INITIAL_PHASE; h_outcome := None |} in
  ({| cr_id := id; cr_uuid := u; cr_name := c_name i; cr_owner := c_owner i; cr_phase := INITIAL_PHASE |},
   draw (set_histories (histories d ++ [h]) (set_projects (projects d ++ [p]) d))).

Definition insert_project (i : create_input) (d : db) : outcome string created * db :=
  if has_work_item_type d then let '(c, d') := insert_rows i (c_type i) d in (Ok c, d')
  else (Raise "column work_item_type of relation project does not exist", d).

(** Without naming the column: it takes its default where it exists. *)
Definition insert_legacy (i : create_input) (d : db) : outcome string created * db :=
  let '(c, d') := insert_rows i feature d in (Ok c, d').

Definition project_create (i : create_input) : proc db exn (response created) :=
  existing <- attempt (query (fun d => List.find (duplicate i) (projects d)));;
  match existing with
  | Raise _ => pret (Error "db_error" true None)
  | Ok (Some _) => pret (Error "project_already_exists" false None)
  | Ok None =>
      out <- attempt (psql (insert_project i));;
      match out with
      | Ok c => pret (Okay c)
      | Raise x =>
          if contains "work_item_type" x then
            out <- attempt (psql (insert_legacy i));;
            match out with
            | Ok c => pret (Okay c)
            | Raise _ => pret (Error "db_error" false None)
            end
          else pret (Error "db_error" false None)
      end
  end.

(** * [project_status] *)
Record pending_approval := { pa_phase : string; pa_approver : option string; pa_granted : bool }.
Record status := {
  s_id : Z; s_uuid : string; s_name : string; s_phase : string; s_version : string;
  s_pending : list pending_approval; s_last : option datetime
}.

Definition max_time (ts : list datetime) : option datetime :=
  fold_left (fun m t => match m with Some m => Some (Z.max m t) | None => Some t end) ts None.

(** An approved row of the phase that has not expired. *)
Definition live (pid : Z) (phase : string) (d : db) (a : approval) : bool :=
  (a_project a =? pid) && String.eqb (a_phase a) phase && String.eqb (a_decision a) "approved" &&
  match a_expires a with Some e => clock d <? e | None => true end.

(** [ORDER BY granted_at DESC LIMIT 1]; of rows granted at one instant the later is taken. *)
Definition latest (rows : list approval) : option approval :=
  fold_left (fun m a => match m with
                        | Some b => if a_granted b <=? a_granted a then Some a else Some b
                        | None => Some a
                        end) rows None.

Definition latest_live (pid : Z) (phase : string) (d : db) : option approval :=
  latest (List.filter (live pid phase d) (approvals d)).

Fixpoint pending_of (pid : Z) (phases : list string) : proc db exn (list pending_approval) :=
  match phases with
  | [] => pret []
  | nxt :: phases' =>
      if phase_requires_gate (file E) nxt then
        row <- attempt (query (fun d => match latest_live pid nxt d with Some a => strip (a_approver a) | None => "" end));;
        let row := match row with Ok r => r | Raise _ => "" end in
        let some := negb (String.eqb row "") in
        rest <- pending_of pid phases';;
        pret ({| pa_phase := nxt; pa_approver := if some then Some row else None; pa_granted := some |} :: rest)
      else pending_of pid phases'
  end.

Definition project_status (project_id : string) : proc db exn (response status) :=
  proj <- resolve_project project_id;;
  match proj with
  | None => pret (Error "project_not_found" false None)
  | Some p =>
      last <- attempt (query (fun d => max_time (map t_at (List.filter (fun t => t_project t =? r_id p) (transitions d)))));;
      pending <- pending_of (r_id p) (next_phases_from_yaml (file E) (r_phase p));;
      pret (Okay {| s_id := r_id p; s_uuid := r_uuid p; s_name := r_name p; s_phase := r_phase p;
                    s_version := r_version p; s_pending := pending;
                    s_last := match last with Ok t => t | Raise _ => None end |})
  end.

(** * transition.sh *)

(** [_current_phase]: the row's phase without its blanks; [None] is exit status 1. *)
Definition current_phase (pid : Z) : proc db exn (option string) :=
  out <- attempt (query (fun d => match List.find (fun p => p_id p =? pid) (projects d) with
                                  | Some p => delete_chars is_c_space (p_phase p)
                                  | None => ""
                                  end));;
  pret (match out with
        | Ok s => if String.eqb s "" then None else Some s
        | Raise _ => None
        end).

(** The exit status of [transition_validate]. *)
Definition transition_validate (pid : Z) (target : string) : proc db exn Z :=
  current <- current_phase pid;;
  pret (match current with
        | None => 2
        | Some c =>
            if String.eqb c target then 3
            else if in_list target (phase_field_list (yq E) (file E) c "next") then 0 else 4
        end).

(** The line psql prints for the approval: the token, a bar, the expiry. *)
Definition approval_line (a : approval) : string :=
  default "" (a_token a) +:+ "|" +:+ match a_expires a with Some e => pg_text E e | None => "" end.

(** [read -r token expires_at] with [IFS=$'\n\t']: what [token] holds. *)
Definition read_token (line : string) : string :=
  let is_ifs c := (code c =? 9) || (code c =? 10) in
  before (chr 9) (lstrip_by is_ifs (before (chr 10) line)).

(** [approval.py verify --token ... --project ... --phase ...] exits with 0. *)
Definition approval_py_accepts (d : db) (token : string) (pid : Z) (target : string) : bool :=
  match cmd_verify (float_repr E) (vault d) (clock d) token (vault_path E) (Some (str_of_Z pid)) (Some target) with
  | Ok (_, rc) => rc =? 0
  | Raise _ => false
  end.

Definition transition_gate_check (pid : Z) (target : string) : proc db exn Z :=
  let gate := phase_field_scalar (yq E) (file E) target "gate" in
  if String.eqb gate "" then pret 0
  else
    out <- attempt (query (fun d => match latest_live pid target d with Some a => read_token (approval_line a) | None => "" end));;
    match out with
    | Raise _ => pret 5
    | Ok token =>
        if String.eqb token "" then pret 5
        else if approval_py_executable E then
          ok <- pgets (fun d => approval_py_accepts d token pid target);;
          pret (if ok : bool then 0 else 5)
        else pret 0
    end.

(** The reason of the row: [NULLIF(reason, '')] of the text without its final newlines. *)
Definition reason_of (rationale : string) : option string :=
  let r := rstrip_by (fun c => code c =? 10) rationale in if String.eqb r "" then None else Some r.

(** The transaction's four statements. *)
Definition close_history (pid : Z) (h : history) : history :=
  match h_outcome h with
  | None => if h_project h =? pid then {| h_project := pid; h_phase := h_phase h; h_outcome := Some "advanced" |} else h
  | Some _ => h
  end.

Definition with_phase (target : string) (p : project) : project :=
  {| p_id := p_id p; p_uuid := p_uuid p; p_name := p_name p; p_type := p_type p; p_work_item := p_work_item p;
     p_version := p_version p; p_manifest := p_manifest p; p_owner := p_owner p; p_phase := target;
     p_active := p_active p |}.

Definition move (pid : Z) (current target actor : string) (reason : option string) (d : db) : db :=
  let d := set_histories (map (close_history pid) (histories d) ++
                          [{| h_project := pid; h_phase := target; h_outcome := None |}]) d in
  let d := set_projects (map (fun p => if p_id p =? pid then with_phase target p else p) (projects d)) d in
  set_transitions (transitions d ++
    [{| t_id := Z.of_nat (length (transitions d)) + 1; t_project := pid; t_from := current; t_to := target;
        t_actor := actor; t_reason := reason; t_at := clock d |}]) d.

(** The last statement of the transaction; the actor is put into it as it is. *)
Definition transition_sql (pid : Z) (current target actor : string) (rationale : string) : string :=
  "INSERT INTO spine_lifecycle.transition (project_id, from_phase, to_phase, actor, decision, reason) VALUES (" +:+
  str_of_Z pid +:+ ", '" +:+ current +:+ "', '" +:+ target +:+ "', '" +:+ actor +:+ "', 'allowed', NULLIF('" +:+
  esc (default "" (reason_of rationale)) +:+ "', ''));".

Definition transaction (pid : Z) (current target actor rationale : string) (d : db) : outcome string unit * db :=
  if has_char squote actor then
    match broken E (transition_sql pid current target actor rationale) d with
    | Some d' => (Ok tt, d')
    | None => (Raise "syntax error", d)
    end
  else (Ok tt, move pid current target actor (reason_of rationale) d).

(** [transition_execute]; under [set -e] a failing second read of the phase ends the script. *)
Definition transition_execute (pid : Z) (target actor rationale : string) : proc db exn Z :=
  rc <- transition_validate pid target;;
  if negb (rc =? 0) then pret rc else
  rc <- transition_gate_check pid target;;
  if negb (rc =? 0) then pret rc else
  current <- current_phase pid;;
  match current with
  | None => pret 1
  | Some current =>
      out <- attempt (psql (transaction pid current target actor rationale));;
      match out with
      | Raise _ => pret 6
      | Ok _ => _ <- attempt (query (fun _ => tt));; pret 0  (* _audit_row *)
      end
  end.

(** * [phase_advance] *)
Record advance_input := {
  i_project : string; i_target : string; i_actor : string; i_rationale : option string; i_token : option string
}.
Record advanced := { ad_id : Z; ad_uuid : string; ad_from : string; ad_to : string; ad_transition : Z; ad_accepted : bool }.

(** The token checks of a gated phase: the error, if any. *)
Definition token_error (d : db) (p : resolved) (i : advance_input) : option string :=
  if phase_requires_gate (file E) (i_target i) then
    match i_token i with
    | None => Some "invalid_approval_token"
    | Some token =>
        if String.eqb token "" then Some "invalid_approval_token"
        else match verify_token (float_repr E) (vault d) (clock d) token (vault_path E)
                     (Some (str_of_Z (r_id p))) (Some (i_target i)) with
             | Ok v => if valid_token v then None else Some "invalid_approval_token"
             | Raise _ => Some "invalid_approval_token"
             end
    end
  else None.

Definition is_transition (p : resolved) (target : string) (t : transition) : bool :=
  (t_project t =? r_id p) && String.eqb (t_from t) (r_phase p) && String.eqb (t_to t) target.

Definition advance_data (p : resolved) (target : string) (tid : Z) (accepted : bool) : advanced :=
  {| ad_id := r_id p; ad_uuid := r_uuid p; ad_from := r_phase p; ad_to := target; ad_transition := tid; ad_accepted := accepted |}.

(** The script's exit status; [None] when it was stopped after thirty seconds. *)
Definition run_script (p : resolved) (i : advance_input) : proc db exn (option Z) :=
  try_except (rc <- transition_execute (r_id p) (i_target i) (i_actor i) (default "" (i_rationale i));; pret (Some rc))
    (fun e => match e with TimeoutExpired => pret None | _ => praise e end).

(** The answer for the script's exit status. *)
Definition advance_answer (p : resolved) (target : string) (rc : option Z) : proc db exn (response advanced) :=
  match rc with
  | None => pret (Error "transition_timeout" true None)
  | Some rc =>
      if negb (rc =? 0) then pret (Error "transition_rejected" false (Some (advance_data p target 0 false)))
      else
        tid <- attempt (query (fun d => match last (List.filter (is_transition p target) (transitions d)) with
                                        | Some t => t_id t
                                        | None => 0
                                        end));;
        pret (Okay (advance_data p target (match tid with Ok n => n | Raise _ => 0 end) true))
  end.

Definition phase_advance (i : advance_input) : proc db exn (response advanced) :=
  proj <- resolve_project (i_project i);;
  match proj with
  | None => pret (Error "project_not_found" false None)
  | Some p =>
      bad <- pgets (fun d => token_error d p i);;
      match bad with
      | Some code => pret (Error code false None)
      | None => rc <- run_script p i;; advance_answer p (i_target i) rc
      end
  end.

(** * [approval_grant] *)
Record grant_input := {
  g_project : string; g_phase : string; g_approver : string; g_notes : option string; g_ttl_hours : Z
}.
Record granted := {
  gr_id : Z; gr_phase : string; gr_approver : string; gr_approval : Z; gr_token : string; gr_granted : datetime;
  gr_expires : datetime
}.

(** [_ensure_approval_key]: [false] when it raised. *)
Definition ensure_approval_key : proc db exn bool :=
  answer <- pgets (fun d => vault d (vault_path E));;
  match answer with
  | Value _ => pret true
  | SecretNotFound =>
      if put_fails E then pret false
      else
        n <- pgets draws;;
        pmodify (fun d => draw (set_vault (fun q => if String.eqb q (vault_path E) then Value (hex_of (fresh_key E n))
                                                     else vault d q) d));;
        pret true
  | _ => pret false
  end.

(** The instant of the payload's [expires_at]. *)
Definition expiry (payload : json) : option datetime := parse_aware (replace_Z (expires_of payload)).

(** An absent or empty note is [NULL]. *)
Definition note_of (notes : option string) : option string :=
  match notes with Some n => if String.eqb n "" then None else Some n | None => None end.

Definition insert_approval (p : resolved) (i : grant_input) (token : string) (exp : datetime) (d : db)
    : outcome string (Z * datetime) * db :=
  let id := Z.of_nat (length (approvals d)) + 1 in
  (Ok (id, clock d),
   set_approvals (approvals d ++
     [{| a_id := id; a_project := r_id p; a_phase := g_phase i; a_approver := g_approver i; a_decision := "approved";
         a_notes := note_of (g_notes i); a_token := Some token; a_granted := clock d; a_expires := Some exp |}]) d).

(** Signing and storing, once the key is there. *)
Definition sign_and_store (p : resolved) (i : grant_input) : proc db exn (response granted) :=
  signed <- pgets (fun d => sign_token (vault d) (clock d) (str_of_Z (r_id p)) (g_phase i) (g_approver i)
                              (g_ttl_hours i) (vault_path E));;
  match signed with
  | Raise _ => pret (Error "sign_failed" false None)
  | Ok (token, payload) =>
      match expiry payload with
      | None => praise ValueError
      | Some exp =>
          out <- attempt (psql (insert_approval p i token exp));;
          match out with
          | Raise _ => pret (Error "db_error" false None)
          | Ok (aid, at_) =>
              pret (Okay {| gr_id := r_id p; gr_phase := g_phase i; gr_approver := g_approver i; gr_approval := aid;
                            gr_token := token; gr_granted := at_; gr_expires := exp |})
          end
      end
  end.

Definition approval_grant (i : grant_input) : proc db exn (response granted) :=
  proj <- resolve_project (g_project i);;
  match proj with
  | None => pret (Error "project_not_found" false None)
  | Some p =>
      key <- ensure_approval_key;;
      if negb key then pret (Error "key_init_failed" false None) else sign_and_store p i
  end.
End Tools.

(** * What a run does to the tables *)
Section Runs.

Lemma wp_psql {A} (stmt : db → outcome string A * db) Q d :
  (∀ fs a d', stmt (set_faults fs d) = (Ok a, d') → Q (Ok a) d' ∧ Q (Raise TimeoutExpired) d') →
  (∀ fs e, Q (Raise e) (set_faults fs d)) →
  wp (psql stmt) Q d.
Proof.
  intros Hok Hno.
  assert (Hrun : ∀ fs, wp (run_stmt stmt) Q (set_faults fs d)).
  { intros fs. unfold wp, run_stmt. destruct (stmt (set_faults fs d)) as [[a|m] d'] eqn:Es; cbn; [exact (proj1 (Hok _ _ _ Es))|apply Hno]. }
  unfold wp, psql. destruct (faults d) as [|[|m|committed] fs] eqn:Hf; [|apply (Hrun fs)|apply Hno|].
  - assert (Ed : d = set_faults (faults d) d) by (by destruct d). rewrite Ed. apply Hrun.
  - destruct committed; [|apply Hno]. unfold run_stmt. cbn.
    destruct (stmt (set_faults fs d)) as [[a|m] d'] eqn:Es; cbn; [exact (proj2 (Hok _ _ _ Es))|apply Hno].
Qed.

Lemma wp_try_stmt {A} (m : proc db exn A) Q d :
  wp m (fun r d' => match r with
                    | Ok a => Q (Ok (Ok a)) d'
                    | Raise (RuntimeError x) => Q (Ok (Raise x)) d'
                    | Raise e => Q (Raise e) d'
                    end) d → wp (attempt m) Q d.
Proof.
  intros H. unfold attempt. do 2 wp_step. eapply wp_conseq; [exact H|]. intros [a|e] d' HQ; [done|]. by destruct e.
Qed.

Lemma wp_attempt_psql {A} (stmt : db → outcome string A * db) Q d :
  (∀ fs a d', stmt (set_faults fs d) = (Ok a, d') → Q (Ok (Ok a)) d' ∧ Q (Raise TimeoutExpired) d') →
  (∀ fs x, Q (Ok (Raise x)) (set_faults fs d)) → (∀ fs e, Q (Raise e) (set_faults fs d)) →
  wp (attempt (psql stmt)) Q d.
Proof.
  intros H1 H2 H3. apply wp_try_stmt, wp_psql; [done|]. intros fs [x| |]; auto.
Qed.

Lemma wp_attempt_query {A} (f : db → A) Q d :
  (∀ fs, Q (Ok (Ok (f (set_faults fs d)))) (set_faults fs d)) →
  (∀ fs x, Q (Ok (Raise x)) (set_faults fs d)) → (∀ fs e, Q (Raise e) (set_faults fs d)) →
  wp (attempt (query f)) Q d.
Proof. intros H1 H2 H3. apply wp_attempt_psql; [|done..]. intros fs a d' [= <- <-]. auto. Qed.

Context (E : server).

(** The phase the script sees, and its gate check, as functions of the tables. *)
Definition phase_of (pid : Z) (d : db) : option string :=
  match List.find (fun p => p_id p =? pid) (projects d) with
  | Some p => let s := delete_chars is_c_space (p_phase p) in if String.eqb s "" then None else Some s
  | None => None
  end.

Definition edge (c target : string) : Prop := in_list target (phase_field_list (yq E) (file E) c "next") = true.

Definition gate_open (pid : Z) (target : string) (d : db) : Prop :=
  phase_field_scalar (yq E) (file E) target "gate" = "" ∨
  ∃ a, latest_live pid target d = Some a ∧ read_token (approval_line E a) ≠ "" ∧
       (approval_py_executable E = true → approval_py_accepts E d (read_token (approval_line E a)) pid target = true).

Lemma wp_current_phase pid Q d :
  (∀ fs, Q (Ok (phase_of pid d)) (set_faults fs d)) → (∀ fs, Q (Ok None) (set_faults fs d)) →
  (∀ fs e, Q (Raise e) (set_faults fs d)) → wp (current_phase pid) Q d.
Proof.
  intros H1 H2 H3. unfold current_phase. wp_step. apply wp_attempt_query; intros fs; [|intros x; wp_step; apply H2|done].
  wp_step. specialize (H1 fs). specialize (H2 fs). unfold phase_of in H1.
  change (projects (set_faults fs d)) with (projects d). by destruct (List.find _ _).
Qed.

Lemma wp_gate_check pid target Q d :
  (∀ fs, gate_open pid target d → Q (Ok 0) (set_faults fs d)) → (∀ fs, Q (Ok 5) (set_faults fs d)) →
  (∀ fs e, Q (Raise e) (set_faults fs d)) → wp (transition_gate_check E pid target) Q d.
Proof.
  intros H0 H5 He. unfold transition_gate_check. cbv zeta.
  destruct (String.eqb_spec (phase_field_scalar (yq E) (file E) target "gate") "") as [Eg|Eg].
  - wp_step. assert (Ed : d = set_faults (faults d) d) by (by destruct d). rewrite Ed. apply H0. by left.
  - wp_step. apply wp_attempt_query; [|intros fs x; wp_step; apply H5|done]. intros fs.
    change (latest_live pid target (set_faults fs d)) with (latest_live pid target d).
    destruct (latest_live pid target d) as [a|] eqn:Ea; [|apply H5].
    destruct (String.eqb_spec (read_token (approval_line E a)) "") as [Et|Et]; [apply H5|].
    destruct (approval_py_executable E) eqn:Ex.
    + do 3 wp_step. destruct (approval_py_accepts _ _ _ _ _) eqn:Ep; [|apply H5]. apply H0. right. eauto.
    + wp_step. apply H0. right. exists a. split_and!; [done..|]. congruence.
Qed.

(** A run of the script moves the project along an edge whose gate is open, or changes no
    table. *)
Lemma wp_transition_execute pid target actor rationale Q d :
  has_char squote actor = false →
  (∀ fs r, r ≠ Ok 0 → Q r (set_faults fs d)) →
  (∀ fs r c, phase_of pid d = Some c → edge c target → gate_open pid target d →
     Q r (move pid c target actor (reason_of rationale) (set_faults fs d))) →
  wp (transition_execute E pid target actor rationale) Q d.
Proof.
  intros Hq Hno Hyes. unfold transition_execute. wp_step. unfold transition_validate. wp_step.
  apply wp_current_phase; intros fs; [|wp_step; cbn; by apply Hno|by intros e; apply Hno].
  wp_step. destruct (phase_of pid d) as [c|] eqn:Ec; [|cbn; by apply Hno].
  destruct (String.eqb c target); [cbn; by apply Hno|].
  destruct (in_list target (phase_field_list (yq E) (file E) c "next")) eqn:Ee; [|cbn; by apply Hno]. cbn [Z.eqb negb].
  wp_step. apply wp_gate_check.
  - intros fs1 Hg. cbn [Z.eqb negb]. wp_step.
    apply wp_current_phase; intros fs2; [|cbn; by apply Hno|by intros e; apply Hno].
    change (phase_of pid (set_faults fs1 (set_faults fs d))) with (phase_of pid d). rewrite Ec.
    wp_step. apply wp_attempt_psql; [|intros fs3 x; wp_step; cbn; by apply Hno|by intros fs3 e; apply Hno].
    intros fs3 [] d'. unfold transaction. rewrite Hq. intros [= <-]. split; [|by apply Hyes].
    wp_step. apply wp_attempt_query; intros fs4; [wp_step|intros x; wp_step|intros e];
      exact (Hyes fs4 _ c eq_refl Ee Hg).
  - intros fs1. cbn. by apply Hno.
  - intros fs1 e. by apply Hno.
Qed.
End Runs.
End Lifecycle.
