(* ===== verification/Walk.v ===== *)
(** What the lifecycle tools of [Lifecycle] guarantee on the stock phases.yaml, whatever
    statements fail or hang: the projects walk along its edges with exactly one open phase
    each, and a gated phase is entered only with a genuine token for it.  And what they do
    not: a bar in a name, and the line the script reads a stored approval from. *)

From S2P Require Import Prelude ProcLogic PyValue Text Datetime Json Crypto Decisions Hub Approval PhasesYaml Lifecycle.
From Stdlib Require Import Ascii.
Local Open Scope Z_scope.

Module Walk.
Import Json Crypto Approval PhasesYaml Lifecycle.

Lemma length_hmac key x : String.length (hmac_sha256 key x) = 32%nat.
Proof. unfold hmac_sha256. rewrite length_of_bytes. unfold sha256_bytes. by destruct (compress_blocks _ _ _). Qed.

(** * The graph of phases.yaml *)
Definition single (items : list string) : bool :=
  forallb (fun it => bool_decide (words_by is_ifs it = [it])) items.

Lemma in_list_single x items : single items = true → in_list x items = true → x ∈ items.
Proof.
  intros Hs Hi. apply existsb_exists in Hi as (it & Hit & Hx). unfold single in Hs. rewrite forallb_forall in Hs.
  pose proof (Hs it Hit) as E%bool_decide_eq_true. rewrite E in Hx. cbn in Hx. rewrite orb_false_r in Hx.
  apply String.eqb_eq in Hx as ->. by apply list_elem_of_In.
Qed.

(** A phase of the file is one word, and so are the phases after it, which the file has. *)
Definition known_at (text c : string) : bool :=
  let items := phase_field_list None (Some text) c "next" in
  single items && forallb (fun t => in_strs t phase_ids) items && negb (in_strs c items) &&
  String.eqb (delete_chars is_c_space c) c && negb (String.eqb c "").

Lemma known_ids c : c ∈ phase_ids → known_at phases_yaml c = true.
Proof.
  assert (H : forallb (known_at phases_yaml) phase_ids = true) by (vm_compute; reflexivity).
  rewrite forallb_forall in H. intros Hc. by apply H, list_elem_of_In.
Qed.

Lemma known_spec text c target :
  known_at text c = true → in_list target (phase_field_list None (Some text) c "next") = true →
  target ∈ phase_ids ∧ target ∈ phase_field_list None (Some text) c "next" ∧ target ≠ c.
Proof.
  unfold known_at. intros [[[[Hs Hall]%andb_true_iff Hc]%andb_true_iff _]%andb_true_iff _]%andb_true_iff Hi.
  pose proof (in_list_single _ _ Hs Hi) as Ht. rewrite forallb_forall in Hall.
  split; [|split; [done|]].
  - by apply in_strs_true, Hall, list_elem_of_In.
  - intros ->. apply in_strs_true in Ht. by rewrite Ht in Hc.
Qed.

Lemma known_word text c : known_at text c = true → delete_chars is_c_space c = c ∧ c ≠ "".
Proof.
  unfold known_at. intros [[_ Hd%String.eqb_eq]%andb_true_iff Hn%negb_true_iff%String.eqb_neq]%andb_true_iff. done.
Qed.

Section Stock.
Context (E : server) (Hfile : file E = Some phases_yaml) (Hyq : yq E = None).

Lemma edge_known c target : c ∈ phase_ids → edge E c target → target ∈ phase_ids ∧ target ≠ c.
Proof.
  unfold edge. rewrite Hfile, Hyq. intros Hc He.
  destruct (known_spec _ _ _ (known_ids c Hc) He) as (? & _ & ?). done.
Qed.

(** * Well-formed tables *)

(** The walk of transitions from a phase: where it ends, if every step starts where the
    last one ended and follows an edge. *)
Fixpoint walk (from : string) (ts : list transition) : option string :=
  match ts with
  | [] => Some from
  | t :: ts' =>
      if String.eqb (t_from t) from && in_list (t_to t) (phase_field_list (yq E) (file E) from "next")
      then walk (t_to t) ts' else None
  end.

Definition transitions_of (pid : Z) (d : db) : list transition :=
  List.filter (fun t => t_project t =? pid) (transitions d).

Definition is_open (pid : Z) (h : history) : bool :=
  (h_project h =? pid) && match h_outcome h with None => true | Some _ => false end.
Definition open_phases (pid : Z) (d : db) : list string := map h_phase (List.filter (is_open pid) (histories d)).

(** A stored approval as [approval_grant] stores it: a token in two parts, the second a
    SHA-256 digest, and a whole second at which it expires. *)
Definition signed_row (a : approval) : Prop :=
  ∃ y h e, a_token a = Some (b64url y +:+ "." +:+ b64url h) ∧ String.length h = 32%nat ∧ a_expires a = Some e ∧ whole e.

Record well_formed (d : db) : Prop := {
  wf_ids : ∀ k p, projects d !! k = Some p → p_id p = Z.of_nat k + 1;
  wf_histories : ∀ h, h ∈ histories d → h_project h <= Z.of_nat (length (projects d));
  wf_transitions : ∀ t, t ∈ transitions d → t_project t <= Z.of_nat (length (projects d));
  wf_known : ∀ p, p ∈ projects d → p_phase p ∈ phase_ids;
  wf_open : ∀ p, p ∈ projects d → open_phases (p_id p) d = [p_phase p];
  wf_walk : ∀ p, p ∈ projects d → walk INITIAL_PHASE (transitions_of (p_id p) d) = Some (p_phase p);
  wf_signed : Forall signed_row (approvals d)
}.

Lemma wf_unique d p q : well_formed d → p ∈ projects d → q ∈ projects d → p_id p = p_id q → p = q.
Proof.
  intros Hd [i Hi]%list_elem_of_lookup [j Hj]%list_elem_of_lookup Hid.
  assert (i = j) as -> by (rewrite (wf_ids _ Hd _ _ Hi), (wf_ids _ Hd _ _ Hj) in Hid; lia). congruence.
Qed.

Lemma wf_bound d p : well_formed d → p ∈ projects d → p_id p <= Z.of_nat (length (projects d)).
Proof.
  intros Hd [k Hk]%list_elem_of_lookup. rewrite (wf_ids _ Hd _ _ Hk). apply lookup_lt_Some in Hk. lia.
Qed.

Lemma find_row d p : well_formed d → p ∈ projects d → List.find (fun q => p_id q =? p_id p) (projects d) = Some p.
Proof.
  intros Hd Hp. destruct (List.find _ (projects d)) as [q|] eqn:Hq.
  - apply List.find_some in Hq as [Hq E0%Z.eqb_eq]. apply list_elem_of_In in Hq. by rewrite (wf_unique d q p).
  - apply list_elem_of_In in Hp. pose proof (List.find_none _ _ Hq _ Hp) as H. cbn in H. by rewrite Z.eqb_refl in H.
Qed.

Lemma phase_of_row d p : well_formed d → p ∈ projects d → phase_of (p_id p) d = Some (p_phase p).
Proof.
  intros Hd Hp. unfold phase_of. rewrite find_row by done.
  destruct (known_word _ _ (known_ids _ (wf_known _ Hd _ Hp))) as [-> Hn]. cbv zeta.
  by destruct (String.eqb_spec (p_phase p) "").
Qed.

(** * Inserting a project *)
Lemma filter_none {A} (f : A → bool) l : (∀ x, x ∈ l → f x = false) → List.filter f l = [].
Proof.
  induction l as [|x l IH]; [done|]. intros H. cbn. rewrite H by left. apply IH. intros y Hy. apply H. by right.
Qed.

Lemma insert_well_formed i w d c d' : well_formed d → insert_rows E i w d = (c, d') → well_formed d'.
Proof.
  intros Hd [= _ <-]. set (n := Z.of_nat (length (projects d)) + 1).
  assert (Hold : ∀ p, p ∈ projects d → p_id p < n) by (intros p Hp; pose proof (wf_bound _ _ Hd Hp); unfold n; lia).
  constructor; cbn [projects histories transitions set_projects set_histories draw].
  - intros k p [Hk|[Hk Hs]]%lookup_app_Some; [by eapply wf_ids|].
    apply list_lookup_singleton_Some in Hs as [Hs <-]. cbn. unfold n. lia.
  - rewrite length_app. cbn [length]. intros h [Hh| ->%list_elem_of_singleton]%elem_of_app; [pose proof (wf_histories _ Hd _ Hh)|cbn]; lia.
  - rewrite length_app. cbn [length]. intros t Ht. pose proof (wf_transitions _ Hd _ Ht). lia.
  - intros p [Hp| ->%list_elem_of_singleton]%elem_of_app; [by eapply wf_known|]. cbn. by left.
  - intros p [Hp| ->%list_elem_of_singleton]%elem_of_app; unfold open_phases;
      cbn [histories set_projects set_histories draw]; rewrite List.filter_app, map_app.
    + pose proof (Hold _ Hp). fold (open_phases (p_id p) d). rewrite (wf_open _ Hd _ Hp). cbn [List.filter is_open h_project].
      unfold is_open. cbn [h_project]. rewrite (proj2 (Z.eqb_neq _ _)) by (fold n; lia). done.
    + cbn [p_id]. rewrite filter_none.
      * unfold is_open. cbn [h_project List.filter h_outcome]. by rewrite Z.eqb_refl.
      * intros h Hh. unfold is_open. pose proof (wf_histories _ Hd _ Hh). by rewrite (proj2 (Z.eqb_neq _ _)) by lia.
  - intros p [Hp| ->%list_elem_of_singleton]%elem_of_app.
    + exact (wf_walk _ Hd _ Hp).
    + unfold transitions_of. cbn [p_id transitions set_projects set_histories draw]. rewrite filter_none; [done|].
      intros t Ht. pose proof (wf_transitions _ Hd _ Ht). apply Z.eqb_neq. lia.
  - exact (wf_signed _ Hd).
Qed.
(** * Moving a project *)
Lemma phase_of_inv d pid c :
  well_formed d → phase_of pid d = Some c → ∃ p, p ∈ projects d ∧ p_id p = pid ∧ p_phase p = c.
Proof.
  intros Hd H. assert (Hf : ∃ p, p ∈ projects d ∧ p_id p = pid).
  { unfold phase_of in H. destruct (List.find _ (projects d)) as [p|] eqn:Hp; [|done].
    apply List.find_some in Hp as [Hp He%Z.eqb_eq]. exists p. split; [by apply list_elem_of_In|done]. }
  destruct Hf as (p & Hp & <-). exists p. split_and!; [done..|]. rewrite (phase_of_row d p Hd Hp) in H. congruence.
Qed.

Lemma walk_snoc from ts c t :
  walk from ts = Some c → t_from t = c → edge E c (t_to t) → walk from (ts ++ [t]) = Some (t_to t).
Proof.
  unfold edge. intros Hw Hc He. revert from Hw. induction ts as [|u ts IH]; intros from.
  - cbn. intros [= ->]. by rewrite Hc, String.eqb_refl, He.
  - cbn [app walk]. destruct (_ && _); [apply IH|done].
Qed.

(** The open rows of a project after its move: the new one; of another, what they were. *)
Lemma open_moved pid c target actor reason d q :
  open_phases q (move pid c target actor reason d) = if q =? pid then [target] else open_phases q d.
Proof.
  unfold open_phases, move. cbn [histories set_histories set_projects set_transitions].
  rewrite List.filter_app, map_app. cbn [List.filter]. unfold is_open at 2. cbn [h_project h_outcome].
  rewrite andb_true_r, (Z.eqb_sym pid q). destruct (Z.eqb_spec q pid) as [->|Hq].
  - rewrite filter_none; [done|]. intros h (g & -> & _)%list_elem_of_fmap. unfold is_open, close_history.
    destruct (h_outcome g) as [o|] eqn:Ho; [by rewrite Ho, andb_false_r|].
    destruct (Z.eqb_spec (h_project g) pid); [by rewrite andb_false_r|]. by rewrite (proj2 (Z.eqb_neq _ _)).
  - rewrite app_nil_r. f_equal. induction (histories d) as [|h l IH]; [done|]. cbn [map List.filter].
    assert (Eo : is_open q (close_history pid h) = is_open q h ∧ (is_open q h = true → close_history pid h = h)).
    { unfold is_open, close_history. destruct (h_outcome h) as [o|] eqn:Ho; [by rewrite Ho|].
      destruct (Z.eqb_spec (h_project h) pid) as [Hp|]; [|by rewrite Ho]. cbn [h_project h_outcome].
      rewrite Hp, (proj2 (Z.eqb_neq pid q)), andb_false_l by congruence. done. }
    destruct Eo as [-> Eo]. destruct (is_open q h); [|done]. by rewrite Eo, IH.
Qed.

Lemma transitions_moved pid c target actor reason d q :
  transitions_of q (move pid c target actor reason d) =
  transitions_of q d ++ (if pid =? q
    then [{| t_id := Z.of_nat (length (transitions d)) + 1; t_project := pid; t_from := c; t_to := target;
             t_actor := actor; t_reason := reason; t_at := clock d |}] else []).
Proof. unfold transitions_of, move. cbn [transitions set_transitions]. by rewrite List.filter_app. Qed.

Lemma projects_moved pid c target actor reason d :
  projects (move pid c target actor reason d) =
  map (fun p => if p_id p =? pid then with_phase target p else p) (projects d).
Proof. done. Qed.

Lemma id_kept pid target p : p_id (if p_id p =? pid then with_phase target p else p) = p_id p.
Proof. by destruct (_ =? _). Qed.

Lemma move_well_formed pid c target actor reason d :
  well_formed d → phase_of pid d = Some c → edge E c target → well_formed (move pid c target actor reason d).
Proof.
  intros Hd Hc He. destruct (phase_of_inv _ _ _ Hd Hc) as (p0 & Hp0 & Hid & Hph).
  pose proof (wf_known _ Hd _ Hp0) as Hk. rewrite Hph in Hk. destruct (edge_known _ _ Hk He) as [Ht _].
  constructor.
  - intros k p. rewrite projects_moved, list_lookup_fmap. intros (q & Hq & ->)%fmap_Some. rewrite id_kept. by eapply wf_ids.
  - rewrite projects_moved, length_map. intros h. unfold move. cbn [histories set_histories set_projects set_transitions].
    intros [(g & -> & Hg)%list_elem_of_fmap| ->%list_elem_of_singleton]%elem_of_app.
    + pose proof (wf_histories _ Hd _ Hg). unfold close_history. destruct (h_outcome g); [done|].
      destruct (Z.eqb_spec (h_project g) pid); cbn; lia.
    + cbn. rewrite <- Hid. by apply wf_bound.
  - rewrite projects_moved, length_map. intros t. unfold move. cbn [transitions set_transitions].
    intros [Hg| ->%list_elem_of_singleton]%elem_of_app; [by apply (wf_transitions _ Hd)|]. cbn. rewrite <- Hid. by apply wf_bound.
  - intros p. rewrite projects_moved. intros (q & -> & Hq)%list_elem_of_fmap.
    destruct (p_id q =? pid); [done|]. by apply (wf_known _ Hd).
  - intros p. rewrite projects_moved. intros (q & -> & Hq)%list_elem_of_fmap. rewrite id_kept, open_moved.
    destruct (p_id q =? pid); [done|]. by apply (wf_open _ Hd).
  - intros p. rewrite projects_moved. intros (q & -> & Hq)%list_elem_of_fmap. rewrite id_kept, transitions_moved, (Z.eqb_sym pid).
    destruct (Z.eqb_spec (p_id q) pid) as [Hi|]; [|rewrite app_nil_r; by apply (wf_walk _ Hd)].
    assert (q = p0) as -> by (apply (wf_unique d); congruence). rewrite Hid.
    apply (walk_snoc _ _ c); [|done..]. rewrite <- Hid, (wf_walk _ Hd _ Hp0). by rewrite Hph.
  - exact (wf_signed _ Hd).
Qed.

(** * Every tool *)
Lemma wf_same d d' :
  projects d' = projects d → histories d' = histories d → transitions d' = transitions d → approvals d' = approvals d →
  well_formed d → well_formed d'.
Proof.
  intros Ep Eh Et Ea [H1 H2 H3 H4 H5 H6 H7]. constructor; unfold open_phases, transitions_of in *; by rewrite ?Ep, ?Eh, ?Et, ?Ea.
Qed.

Lemma wp_resolve pid Q d :
  (∀ fs r, Q r (set_faults fs d)) → wp (resolve_project E pid) Q d.
Proof.
  intros H. unfold resolve_project. wp_step. apply wp_attempt_psql; [|intros; wp_step; apply H|intros; apply H].
  intros fs a d'. unfold select_project. destruct (where_clause E pid); [|done]. intros [= _ <-].
  split; [|apply H]. wp_step. apply H.
Qed.

(** Creating inserts a project's rows or changes no table. *)
Lemma wp_create i Q d :
  (∀ fs r, Q r (set_faults fs d)) → (∀ fs w c d' r, insert_rows E i w (set_faults fs d) = (c, d') → Q r d') →
  wp (project_create E i) Q d.
Proof.
  intros Hs Hi. unfold project_create. wp_step. apply wp_attempt_query; intros fs; [|intros; wp_step; apply Hs|intros; apply Hs].
  destruct (List.find _ _); wp_step; [apply Hs|]. apply wp_attempt_psql; [|intros fs1 x|intros fs1 e; apply (Hs fs1)].
  - intros fs1 c d'. unfold insert_project. destruct (has_work_item_type _); [|done].
    destruct (insert_rows E i (c_type i) _) as [c' d1] eqn:H1. intros [= <- <-].
    split; [wp_step|]; by apply (Hi fs1 (c_type i) c').
  - destruct (contains _ x); wp_step; [|apply (Hs fs1)].
    apply wp_attempt_psql; [|intros fs2 y; wp_step; apply (Hs fs2)|intros fs2 e; apply (Hs fs2)].
    intros fs2 c d'. unfold insert_legacy. destruct (insert_rows E i feature _) as [c' d1] eqn:H1. intros [= <- <-].
    split; [wp_step|]; by apply (Hi fs2 feature c').
Qed.

Lemma wp_pending pid phases Q d : (∀ fs r, Q r (set_faults fs d)) → wp (pending_of E pid phases) Q d.
Proof.
  revert Q d. induction phases as [|ph phases IH]; intros Q d H; cbn [pending_of].
  - assert (Ed : d = set_faults (faults d) d) by (by destruct d). rewrite Ed. wp_step. apply H.
  - destruct (phase_requires_gate _ ph); [|by apply IH].
    wp_step. apply wp_attempt_query; [intros fs|intros fs x|intros fs e; apply H]; cbv zeta; wp_step; apply IH;
      intros fs' [r|e]; try wp_step; exact (H fs' _).
Qed.

(** The status only reads. *)
Lemma wp_status pid Q d : (∀ fs r, Q r (set_faults fs d)) → wp (project_status E pid) Q d.
Proof.
  intros Hs. unfold project_status. wp_step. apply wp_resolve. intros fs [[p|]|e]; [|wp_step; apply Hs|apply Hs].
  wp_step. apply wp_attempt_query; [intros fs1|intros fs1 x|intros fs1 e; apply (Hs fs1)]; wp_step; apply wp_pending;
    intros fs2 [r|e]; try wp_step; apply (Hs fs2).
Qed.

(** The end of an advance only reads; it answers [Okay] after exit status 0. *)
Lemma wp_advance_answer p target rc Q d :
  (∀ fs r, (∀ x, r = Ok (Okay x) → rc = Some 0 ∧ ad_id x = r_id p ∧ ad_to x = target) → Q r (set_faults fs d)) →
  wp (advance_answer p target rc) Q d.
Proof.
  intros H. assert (Ed : d = set_faults (faults d) d) by (by destruct d).
  unfold advance_answer. destruct rc as [rc|]; [|wp_step; rewrite Ed; by apply H].
  destruct (Z.eqb_spec rc 0) as [->|]; cbn [negb]; [|wp_step; rewrite Ed; by apply H].
  wp_step. apply wp_attempt_query; [intros fs; wp_step|intros fs x; wp_step|intros fs e]; apply H; [..|done]; by intros y [= <-].
Qed.

(** An advance moves the project along an edge with an open gate and a valid token, or
    changes no table. *)
Lemma wp_phase_advance i Q d :
  has_char squote (i_actor i) = false →
  (∀ fs r, (∀ x, r ≠ Ok (Okay x)) → Q r (set_faults fs d)) →
  (∀ fs r p c, token_error E d p i = None → phase_of (r_id p) d = Some c → edge E c (i_target i) →
     gate_open E (r_id p) (i_target i) d → (∀ x, r = Ok (Okay x) → ad_id x = r_id p ∧ ad_to x = i_target i) →
     Q r (move (r_id p) c (i_target i) (i_actor i) (reason_of (default "" (i_rationale i))) (set_faults fs d))) →
  wp (phase_advance E i) Q d.
Proof.
  intros Hq Hno Hyes. unfold phase_advance. wp_step. apply wp_resolve.
  intros fs [[p|]|e]; [|wp_step; by apply Hno|by apply Hno]. do 2 wp_step.
  change (token_error E (set_faults fs d) p i) with (token_error E d p i).
  destruct (token_error E d p i) eqn:Ht; [wp_step; by apply Hno|].
  assert (Hn : ∀ fs1 rc, rc ≠ Some 0 → wp (advance_answer p (i_target i) rc) Q (set_faults fs1 d)).
  { intros fs1 rc Hrc. apply wp_advance_answer. intros fs2 r Hr. apply Hno. intros x Hx. by apply Hrc, (Hr x Hx). }
  wp_step. unfold run_script. do 2 wp_step. apply wp_transition_execute; [done|..].
  - intros fs1 [rc|[m| |]] Hrc; wp_step; [|by apply Hno|by apply (Hn fs1)|by apply Hno]. apply (Hn fs1). congruence.
  - intros fs1 r c Hc He Hg.
    assert (Hy : ∀ fs2 r, (∀ x, r = Ok (Okay x) → ad_id x = r_id p ∧ ad_to x = i_target i) →
      Q r (move (r_id p) c (i_target i) (i_actor i) (reason_of (default "" (i_rationale i))) (set_faults fs2 d))).
    { intros fs2 r2 Hr2. by apply (Hyes fs2 r2 p c). }
    assert (Ha : ∀ rc, wp (advance_answer p (i_target i) rc) Q
      (move (r_id p) c (i_target i) (i_actor i) (reason_of (default "" (i_rationale i))) (set_faults fs1 d))).
    { intros rc. apply wp_advance_answer. intros fs2 r2 Hr2. apply (Hy fs2). intros x Hx. by apply (Hr2 x Hx). }
    destruct r as [rc|[m| |]]; wp_step; [by apply Ha|by apply (Hy fs1)|by apply Ha|by apply (Hy fs1)].
Qed.

(** A grant adds a signed row or none, and leaves the other tables. *)
Lemma wp_grant i Q d :
  (∀ d' r, projects d' = projects d → histories d' = histories d → transitions d' = transitions d →
     (Forall signed_row (approvals d) → Forall signed_row (approvals d')) → Q r d') →
  wp (approval_grant E i) Q d.
Proof.
  intros H. unfold approval_grant. wp_step. apply wp_resolve. intros fs [[p|]|e]; [|by apply H..]. wp_step.
  assert (Hafter : ∀ d', projects d' = projects d → histories d' = histories d → transitions d' = transitions d →
    approvals d' = approvals d → wp (sign_and_store E p i) Q d').
  { intros d' Ep Eh Et Ea. unfold sign_and_store. do 2 wp_step.
    destruct (sign_token _ _ _ _ _ _ _) as [[token payload]|] eqn:Hs; [|wp_step; apply H; congruence || by rewrite Ea].
    destruct (expiry payload) as [exp|] eqn:Hx; [|wp_step; apply H; congruence || by rewrite Ea]. wp_step.
    apply signed_shape in Hs as (k & y & e0 & _ & -> & _ & Hw & _ & He). unfold expiry in Hx.
    apply wp_attempt_psql; [|intros fs1 x; wp_step; apply H; cbn; congruence || by rewrite Ea|
                             intros fs1 e; apply H; cbn; congruence || by rewrite Ea].
    intros fs1 [aid at_] d''. unfold insert_approval. intros [= <- <- <-].
    split; [wp_step|]; (apply H; cbn; [congruence..|]; intros Ha; rewrite Ea; apply Forall_app; split; [done|]; constructor; [|done];
      eexists y, _, e0; (split_and!; [reflexivity|apply length_hmac|cbn; congruence|done])). }
  unfold ensure_approval_key. do 2 wp_step. destruct (vault _ _);
    (case_match || idtac); repeat wp_step; try (by apply H); by apply Hafter.
Qed.

(** * Every run *)

(** What can happen to the tables through the tools: calls served one after another, with
    any faults ahead of them, and time.  An actor with a quote writes SQL of his own, which
    transition.sh puts into its transaction as it is ([transition_sql]): such calls are left
    out, and so is a call that starts while another is between two of its statements
    ([overlapping_advances]). *)
Inductive step : db → db → Prop :=
| step_create i d : step d (exec (project_create E i) d)
| step_status pid d : step d (exec (project_status E pid) d)
| step_advance i d : has_char squote (i_actor i) = false → step d (exec (phase_advance E i) d)
| step_grant i d : step d (exec (approval_grant E i) d)
| step_time t fs d : clock d <= t → step d (set_faults fs (set_clock t d)).

Definition no_rows (d : db) : Prop := projects d = [] ∧ histories d = [] ∧ transitions d = [] ∧ approvals d = [].

Lemma step_well_formed d d' : step d d' → well_formed d → well_formed d'.
Proof.
  destruct 1 as [i d|pid d|i d Hq|i d|]; intros Hd; unfold exec.
  - apply (wp_create i (fun _ => well_formed) d); [intros; by apply (wf_same d)|].
    intros fs w c d' _ Hi. eapply insert_well_formed; [|exact Hi]. by apply (wf_same d).
  - apply (wp_status pid (fun _ => well_formed) d). intros. by apply (wf_same d).
  - apply (wp_phase_advance i (fun _ => well_formed) d); [done|intros; by apply (wf_same d)|].
    intros fs r p c _ Hc He _ _. apply move_well_formed; [by apply (wf_same d)|done|done].
  - apply (wp_grant i (fun _ => well_formed) d). intros d' _ Ep Eh Et Ha. destruct Hd as [H1 H2 H3 H4 H5 H6 H7].
    constructor; unfold open_phases, transitions_of in *; rewrite ?Ep, ?Eh, ?Et; auto.
  - by apply (wf_same d).
Qed.

Lemma reachable_well_formed d0 d : no_rows d0 → rtc step d0 d → well_formed d.
Proof.
  intros (Hp & Hh & Ht & Ha) Hr. refine (rtc_invariant step well_formed step_well_formed d0 d Hr _).
  constructor; rewrite ?Hp, ?Hh, ?Ht, ?Ha; intros; by (set_solver || done).
Qed.

(** C26: When the tools are called one after another with actors that have no quote,
    whatever statements fail or hang and with whatever effect, every project walks from intake along the edges of phases.yaml: its recorded
    transitions start at intake, each follows an edge from where the last one ended, they
    end in the phase the project's row names, and that phase is the one open row of its
    history. *)
Theorem projects_walk_the_graph d0 d p :
  no_rows d0 → rtc step d0 d → p ∈ projects d →
  p_phase p ∈ phase_ids ∧ walk INITIAL_PHASE (transitions_of (p_id p) d) = Some (p_phase p) ∧
  open_phases (p_id p) d = [p_phase p].
Proof.
  intros H0 Hr Hp. pose proof (reachable_well_formed d0 d H0 Hr) as Hd.
  split_and!; [by apply (wf_known _ Hd)|by apply (wf_walk _ Hd)|by apply (wf_open _ Hd)].
Qed.

(** * Entering a gated phase *)
Lemma latest_in rows a : latest rows = Some a → a ∈ rows.
Proof.
  unfold latest.
  assert (H : ∀ m, fold_left (fun m a => match m with
                                        | Some b => if a_granted b <=? a_granted a then Some a else Some b
                                        | None => Some a
                                        end) rows m = Some a → a ∈ rows ∨ m = Some a).
  { induction rows as [|x rows IH]; intros m; cbn [fold_left]; [by right|]. intros [Hr|Hm]%IH; [left; by right|].
    destruct m as [b|]; [|left; injection Hm as ->; by left].
    destruct (_ <=? _); [left; injection Hm as ->; by left|by right]. }
  by intros [|]%H.
Qed.

Lemma latest_live_spec pid target d a :
  latest_live pid target d = Some a →
  a ∈ approvals d ∧ a_project a = pid ∧ a_phase a = target ∧ a_decision a = "approved" ∧
  match a_expires a with Some e => clock d < e | None => True end.
Proof.
  intros Ha%latest_in. apply list_elem_of_In, List.filter_In in Ha as [Ha Hl]. apply list_elem_of_In in Ha.
  unfold live in Hl. apply andb_true_iff in Hl as [[[H1%Z.eqb_eq H2%String.eqb_eq]%andb_true_iff H3%String.eqb_eq]%andb_true_iff H4].
  split_and!; [done..|]. destruct (a_expires a); [by apply Z.ltb_lt|done].
Qed.

Lemma token_checked d p i :
  token_error E d p i = None → Hub.phase_requires_gate (i_target i) = true →
  ∃ token, i_token i = Some token ∧
    genuine_token (float_repr E) (vault d) (clock d) token (vault_path E) (str_of_Z (r_id p)) (i_target i).
Proof.
  unfold token_error. rewrite Hfile, requires_gate_hub. intros H Hg. rewrite Hg in H.
  destruct (i_token i) as [token|]; [|done]. exists token. split; [done|]. destruct (String.eqb token ""); [done|].
  destruct (verify_token _ _ _ _ _ _ _) as [v|] eqn:Hv; [|done]. destruct (valid_token v) eqn:Hok; [|done].
  by eapply verified_token_genuine.
Qed.

(** The script sees a gate exactly where the hub lists one. *)
Lemma gate_field target : target ∈ phase_ids →
  negb (String.eqb (phase_field_scalar (yq E) (file E) target "gate") "") = Hub.phase_requires_gate target.
Proof.
  intros Ht. rewrite Hyq, Hfile. destruct (agree_spec _ _ (all_agree target Ht)) as (_ & -> & ->). done.
Qed.

Lemma gate_row pid target d :
  target ∈ phase_ids → gate_open E pid target d → Hub.phase_requires_gate target = true →
  ∃ a, latest_live pid target d = Some a ∧
       (approval_py_executable E = true → approval_py_accepts E d (read_token (approval_line E a)) pid target = true).
Proof.
  intros Ht [Hg|(a & Ha & _ & Hx)] Hr; [|by exists a]. rewrite <- (gate_field target Ht), Hg in Hr. done.
Qed.

(** C27: On tables the tools have built one call after another, with no quote in this
    actor or an earlier one, [phase_advance] either changes no table and does
    not answer ok, or moves one project from the phase of its row to a next phase of it in
    phases.yaml; and if the hub lists that phase as gated, the caller gave a genuine token
    for this project and phase, and an approval of them is stored that has not expired.
    This holds of calls that time out as well. *)
Theorem phase_entered_with_token d0 d i r d' :
  no_rows d0 → rtc step d0 d → has_char squote (i_actor i) = false → phase_advance E i d = (r, d') →
  (∃ fs, d' = set_faults fs d ∧ ∀ x, r ≠ Ok (Okay x)) ∨
  ∃ p fs, p ∈ projects d ∧
    d' = move (p_id p) (p_phase p) (i_target i) (i_actor i) (reason_of (default "" (i_rationale i))) (set_faults fs d) ∧
    i_target i ∈ next_phases_from_yaml (file E) (p_phase p) ∧
    (Hub.phase_requires_gate (i_target i) = true →
       (∃ token, i_token i = Some token ∧
          genuine_token (float_repr E) (vault d) (clock d) token (vault_path E) (str_of_Z (p_id p)) (i_target i)) ∧
       ∃ a, a ∈ approvals d ∧ a_project a = p_id p ∧ a_phase a = i_target i ∧ a_decision a = "approved" ∧
            match a_expires a with Some e => clock d < e | None => True end).
Proof.
  intros H0 Hr Hq Hrun. pose proof (reachable_well_formed d0 d H0 Hr) as Hd.
  by_run Hrun. apply wp_phase_advance; [done|..].
  - intros fs r1 Hn. left. by exists fs.
  - intros fs r1 p c Htok Hc He Hg _. right. destruct (phase_of_inv _ _ _ Hd Hc) as (q & Hqin & Hid & <-).
    pose proof (wf_known _ Hd _ Hqin) as Hk. destruct (edge_known _ _ Hk He) as [Ht _].
    exists q, fs. rewrite Hid. split_and!; [done..| |].
    + unfold edge in He. rewrite Hfile, Hyq in He. rewrite Hfile, <- (proj1 (agree_spec _ _ (all_agree _ Hk))).
      by apply (known_spec _ _ _ (known_ids _ Hk)).
    + intros Hgate. split; [by apply token_checked|].
      destruct (gate_row _ _ _ Ht Hg Hgate) as (a & Ha & _). exists a. by apply latest_live_spec.
Qed.

(** * Reading a row *)
Lemma bar_cons x : "|" +:+ x = String "|" x.
Proof. done. Qed.

Lemma rstrip_visible_app a c b : is_space c = false → rstrip (a +:+ String c b) = a +:+ String c (rstrip b).
Proof.
  intros Hc. induction a as [|d a IH].
  - rewrite !app_empty. cbn [rstrip]. destruct (rstrip b); [by rewrite Hc|done].
  - rewrite !app_cons. cbn [rstrip]. rewrite IH. by destruct a.
Qed.

Lemma id_text n : 0 <= n → has_char "|" (str_of_Z n) = false ∧ ∃ c s, str_of_Z n = String c s ∧ is_space c = false.
Proof.
  intros Hn. pose proof (str_of_Z_digits n Hn) as H. split.
  - revert H. generalize (str_of_Z n). intros s [H _]. revert H. induction s as [|c s IH]; [done|]. cbn [all_chars has_char].
    intros [Hc Hs]%andb_true_iff. rewrite IH by done. rewrite orb_false_r. apply Ascii.eqb_neq. by intros <-.
  - destruct (str_of_Z n) as [|c s]; [naive_solver|]. exists c, s. split; [done|]. destruct H as [H _].
    cbn [all_chars] in H. apply andb_true_iff in H as [H _]. apply is_digit_not_space in H. by apply negb_true_iff.
Qed.

(** The line as the tools see it: the blanks at its ends are gone, and only the owner can
    have had any. *)
Lemma stripped_line p :
  0 <= p_id p →
  strip (row_line p) = join "|" [str_of_Z (p_id p); p_uuid p; p_name p; p_phase p; p_version p; rstrip (p_owner p)].
Proof.
  intros Hid. destruct (id_text _ Hid) as (_ & c & s & Es & Hc). unfold strip, row_line. cbn [join].
  rewrite Es. rewrite !app_cons. cbn [lstrip]. rewrite Hc. rewrite <- !app_cons, <- Es.
  change ("|" +:+ p_owner p) with (String "|" (p_owner p)). change ("|" +:+ rstrip (p_owner p)) with (String "|" (rstrip (p_owner p))).
  rewrite <- !app_assoc_str. apply rstrip_visible_app. reflexivity.
Qed.

Lemma parse_line n u m h v o :
  0 <= n → has_char "|" u = false → has_char "|" m = false → has_char "|" h = false → has_char "|" v = false →
  parse_row (join "|" [str_of_Z n; u; m; h; v; o]) =
    Ok (Some {| r_id := n; r_uuid := u; r_name := m; r_phase := h; r_version := v; r_owner := o |}).
Proof.
  intros Hn Hu Hm Hh Hv. destruct (id_text n Hn) as (Hb & c & s & Es & _). unfold parse_row. cbn [join].
  assert (Hne : String.eqb (str_of_Z n +:+ "|" +:+ u +:+ "|" +:+ m +:+ "|" +:+ h +:+ "|" +:+ v +:+ "|" +:+ o) "" = false)
    by (by rewrite Es). rewrite Hne.
  rewrite !bar_cons, !split_max_cons by done. cbn [split_max]. by rewrite int_of_str_str_of_Z.
Qed.

(** The first field is the id whatever the other fields hold. *)
Fixpoint bars (n : nat) (s : string) : Prop :=
  match n with O => True | S n' => ∃ a b, s = a +:+ String "|" b ∧ bars n' b end.

Lemma bars_after n a s : bars n s → bars n (a +:+ s).
Proof. destruct n; [done|]. intros (x & b & -> & H). exists (a +:+ x), b. by rewrite app_assoc_str. Qed.

Lemma split_bars n s : bars n s → length (split_max n "|" s) = S n.
Proof.
  revert s. induction n as [|n IH]; intros s; [done|]. intros (a & b & -> & Hb). cbn [split_max].
  assert (Hc : ∃ x y, cut "|" (a +:+ String "|" b) = Some (x, y) ∧ bars n y).
  { destruct (cut "|" a) as [[x y]|] eqn:Ha.
    - apply cut_some in Ha as [-> Hx]. rewrite app_assoc_str, app_cons, cut_app by done. eexists _, _. split; [done|].
      rewrite <- app_str1, <- app_assoc_str. apply bars_after. by rewrite app_str1 || done.
    - exists a, b. split; [|done]. apply cut_app. clear -Ha. induction a as [|d a IH]; [done|]. cbn [cut has_char] in *.
      rewrite Ascii.eqb_sym. destruct (Ascii.eqb d "|"); [done|]. destruct (cut "|" a) as [[]|]; [done|]. by apply IH. }
  destruct Hc as (x & y & -> & Hy). cbn [length]. by rewrite IH.
Qed.

Lemma resolved_id p : 0 <= p_id p → ∃ r, parse_row (strip (row_line p)) = Ok (Some r) ∧ r_id r = p_id p.
Proof.
  intros Hn. rewrite stripped_line by done. destruct (id_text _ Hn) as (Hb & c & s & Es & _). unfold parse_row. cbn [join].
  set (rest := p_uuid p +:+ _).
  assert (Hne : String.eqb (str_of_Z (p_id p) +:+ "|" +:+ rest) "" = false) by (by rewrite Es). rewrite Hne.
  rewrite bar_cons, split_max_cons by done.
  assert (Hl : length (split_max 4 "|" rest) = 5%nat).
  { apply split_bars. unfold rest. rewrite !bar_cons. do 4 (eexists _, _; split; [reflexivity|]). done. }
  destruct (split_max 4 "|" rest) as [|a1 [|a2 [|a3 [|a4 [|a5 [|a6 l]]]]]]; try done.
  rewrite int_of_str_str_of_Z by done. by eexists.
Qed.

Lemma resolve_run pid w d p :
  faults d = [] → where_clause E pid = Some w → List.find (fun q => w q && p_active q) (projects d) = Some p →
  resolve_project E pid d = (parse_row (strip (row_line p)), d).
Proof.
  intros Hf Hw Hp. unfold resolve_project, attempt, psql, run_stmt, select_project, try_except, pbind, bind. rewrite Hf, Hw, Hp. done.
Qed.

(** A project is read back as its row says when no field but the owner holds a bar and
    the owner does not end in blanks; a bar in the name makes what follows it the phase. *)
Theorem row_reads_back pid w d p :
  faults d = [] → where_clause E pid = Some w → List.find (fun q => w q && p_active q) (projects d) = Some p →
  0 <= p_id p → has_char "|" (p_uuid p) = false → has_char "|" (p_phase p) = false →
  has_char "|" (p_version p) = false → rstrip (p_owner p) = p_owner p →
  (has_char "|" (p_name p) = false →
     resolve_project E pid d = (Ok (Some {| r_id := p_id p; r_uuid := p_uuid p; r_name := p_name p; r_phase := p_phase p;
                                            r_version := p_version p; r_owner := p_owner p |}), d)) ∧
  (∀ n1 n2, p_name p = n1 +:+ "|" +:+ n2 → has_char "|" n1 = false → has_char "|" n2 = false →
     ∃ r, resolve_project E pid d = (Ok (Some r), d) ∧ r_name r = n1 ∧ r_phase r = n2 ∧ r_version r = p_phase p).
Proof.
  intros Hf Hw Hp Hid Hu Hh Hv Ho. rewrite (resolve_run pid w d p), stripped_line, Ho by done. split.
  - intros Hn. by rewrite parse_line.
  - intros n1 n2 -> H1 H2. cbn [join]. rewrite !app_assoc_str. eexists. split.
    + f_equal. exact (parse_line (p_id p) (p_uuid p) n1 n2 (p_phase p) (p_version p +:+ "|" +:+ p_owner p) Hid Hu H1 H2 Hh).
    + done.
Qed.

(** * The script's own check of the token *)

(** What Postgres prints for a whole second: digits, blanks and the marks of dates, offsets
    and eras, among them a digit; no dot, no tab, no newline. *)
Definition pg_char (c : ascii) : bool :=
  is_digit c || existsb (Ascii.eqb c) [" "%char; ":"%char; "-"%char; "+"%char; "B"%char; "C"%char].

Class PgText (text : datetime → string) : Prop := {
  pg_chars : ∀ t, whole t → all_chars pg_char (text t) = true;
  pg_digit : ∀ t, whole t → ∃ a c b, text t = a +:+ String c b ∧ is_digit c = true
}.

(** How many characters of the text the decoder reads. *)
Fixpoint read_chars (s : string) : Z :=
  match s with
  | EmptyString => 0
  | String c s' => (if b64_value c then 1 else 0) + read_chars s'
  end.

Lemma read_chars_app a b : read_chars (a +:+ b) = read_chars a + read_chars b.
Proof. induction a as [|c a IH]; [done|]. rewrite app_cons. cbn [read_chars]. lia. Qed.

Lemma read_chars_pos s : 0 <= read_chars s.
Proof. induction s as [|c s IH]; cbn [read_chars]; [done|]. destruct (b64_value c); lia. Qed.

(** Four characters are three bytes: a decoded text is no shorter than what was read of it. *)
Definition emitted (quad : Z) : Z := if quad =? 3 then 2 else if quad =? 2 then 1 else 0.

Lemma scan_length s quad left pads t l :
  0 <= quad < 4 → has_char "=" s = false → b64_scan quad left pads (s +:+ t) = Some l →
  4 * Z.of_nat (length l) + 4 * emitted quad + 3 >= 3 * (quad + read_chars s).
Proof.
  revert quad left pads l. induction s as [|c s IH]; intros quad left pads l Hq Hs.
  - intros _. cbn [read_chars]. unfold emitted. assert (quad = 0 ∨ quad = 1 ∨ quad = 2 ∨ quad = 3) as [->|[->|[->| ->]]] by lia; cbn; lia.
  - cbn [has_char] in Hs. apply orb_false_iff in Hs as [Hc Hs]. rewrite app_cons. cbn [b64_scan read_chars].
    rewrite Ascii.eqb_sym, Hc. destruct (b64_value c) as [v|]; [|intros H; apply IH in H; [lia|lia|done]].
    assert (quad = 0 ∨ quad = 1 ∨ quad = 2 ∨ quad = 3) as [->|[->|[->| ->]]] by lia; cbn [Z.eqb Pos.eqb];
      [intros H; apply IH in H; [|lia|done]; unfold emitted in *; cbn in *; lia|..];
      (destruct (b64_scan _ _ _ (s +:+ t)) as [l'|] eqn:H; [|done]; intros [= <-]; apply IH in H; [|lia|done];
       cbn [length]; unfold emitted in *; cbn in *; lia).
Qed.

Lemma decode_length s x :
  has_char "=" s = false → b64_decode s = Some x → 4 * Z.of_nat (String.length x) + 3 >= 3 * read_chars s.
Proof.
  intros Hs. unfold b64_decode. destruct (is_ascii s); [|done]. destruct (b64_scan _ _ _ _) as [l|] eqn:H; [|done].
  intros [= <-]. apply scan_length in H; [|done..]. rewrite length_of_bytes. unfold emitted in H. cbn in H. lia.
Qed.

(** An encoded digest is 43 characters, all of them read. *)
Lemma read_encode l : Forall is_byte l → read_chars (b64_encode l) = Z.of_nat (String.length (b64_encode l)).
Proof.
  intros Hl. assert (H : all_chars (fun c => match b64_value c with Some _ => true | None => false end) (b64_encode l) = true).
  { apply encode_all; [|done]. intros n Hn. by destruct (b64_value_char n Hn) as (-> & _). }
  revert H. generalize (b64_encode l). intros s. induction s as [|c s IH]; [done|]. cbn [all_chars read_chars String.length].
  destruct (b64_value c); [|done]. intros H. rewrite IH by done. lia.
Qed.

Lemma encode_without c l :
  (∀ n, 0 <= n < 64 → negb (Ascii.eqb c (b64_char n)) = true) → Forall is_byte l → has_char c (b64_encode l) = false.
Proof.
  intros Hc Hl. pose proof (encode_all (fun d => negb (Ascii.eqb c d)) l Hc Hl) as Ha. revert Ha.
  generalize (b64_encode l). intros s. induction s as [|d s IH]; [done|]. cbn [all_chars has_char].
  intros [Hd%negb_true_iff Hs]%andb_true_iff. by rewrite Hd, IH.
Qed.

Lemma encode_long l : 3 * Z.of_nat (String.length (b64_encode l)) >= 4 * Z.of_nat (length l).
Proof. induction l as [|a|a b|a b c l IH] using triples_ind; cbn [b64_encode String.length length] in *; cbn; lia. Qed.

Lemma before_none c s : has_char c s = false → before c s = s.
Proof. intros H. unfold before. by rewrite cut_none. Qed.

Lemma lstrip_by_none p s : all_chars (fun c => negb (p c)) s = true → lstrip_by p s = s.
Proof. destruct s as [|c s]; [done|]. cbn. intros [Hc%negb_true_iff _]%andb_true_iff. by rewrite Hc. Qed.

Lemma without_char (p : ascii → bool) c s : p c = false → all_chars p s = true → has_char c s = false.
Proof.
  intros Hc. induction s as [|d s IH]; [done|]. cbn [all_chars has_char]. intros [Hd Hs]%andb_true_iff.
  rewrite IH, orb_false_r by done. apply Ascii.eqb_neq. congruence.
Qed.

(** The characters of an encoded text. *)
Definition url_char (c : ascii) : bool :=
  match b64_value c with Some _ => negb (Ascii.eqb c "+") && negb (Ascii.eqb c "/") | None => false end.

Lemma url_chars s : all_chars url_char (b64url s) = true.
Proof.
  apply encode_all; [|apply bytes_range]. intros n Hn.
  assert (H : forallb (fun i => url_char (b64_char (Z.of_nat i))) (seq 0 64) = true) by (vm_compute; reflexivity).
  rewrite forallb_forall in H. specialize (H (Z.to_nat n)). rewrite Z2Nat.id in H by lia. apply H, in_seq. lia.
Qed.

Section OwnCheck.
Context (Hexec : approval_py_executable E = true) `{!PgText (pg_text E)}.

(** The script hands approval.py the token with the bar and the expiry after it. *)
Lemma line_of_row y h e :
  whole e → read_token ((b64url y +:+ "." +:+ b64url h) +:+ "|" +:+ pg_text E e) =
            b64url y +:+ "." +:+ (b64url h +:+ "|" +:+ pg_text E e).
Proof.
  intros He. rewrite !app_assoc_str. unfold read_token. cbv zeta.
  set (p := fun c => url_char c || pg_char c || Ascii.eqb c "." || Ascii.eqb c "|").
  assert (Ha : all_chars p (b64url y +:+ "." +:+ b64url h +:+ "|" +:+ pg_text E e) = true).
  { rewrite !all_chars_app. unfold p. apply andb_true_iff. split; [|apply andb_true_iff; split; [done|apply andb_true_iff; split;
      [|apply andb_true_iff; split; [done|]]]].
    - eapply all_chars_impl; [|apply url_chars]. intros c Hc. cbn. by rewrite Hc.
    - eapply all_chars_impl; [|apply url_chars]. intros c Hc. cbn. by rewrite Hc.
    - eapply all_chars_impl; [|by apply pg_chars]. intros c Hc. cbn. rewrite Hc. by rewrite orb_true_r. }
  rewrite (before_none (chr 10)) by by apply (without_char p). rewrite lstrip_by_none.
  - by rewrite before_none by by apply (without_char p).
  - eapply all_chars_impl; [|exact Ha]. intros c Hc. apply negb_true_iff, orb_false_iff.
    assert (H9 : p (chr 9) = false) by reflexivity. assert (H10 : p (chr 10) = false) by reflexivity.
    assert (Hcode : ∀ n, 0 <= n < 256 → code c = n → c = chr n).
    { intros n Hn <-. unfold chr, code. by rewrite N2Z.id, ascii_N_embedding. }
    split; apply Z.eqb_neq; intros Ec; apply Hcode in Ec; [|lia| |lia]; subst c; congruence.
Qed.

Lemma refused_by_script a d pid target :
  signed_row a → approval_py_accepts E d (read_token (approval_line E a)) pid target = false.
Proof.
  intros (y & h & e & Ht & Hlen & He & Hw). apply not_true_is_false. intros H.
  assert (El : approval_line E a = (b64url y +:+ "." +:+ b64url h) +:+ "|" +:+ pg_text E e)
    by (unfold approval_line; by rewrite Ht, He).
  rewrite El, line_of_row in H by done.
  unfold approval_py_accepts, cmd_verify in H. destruct (verify_token _ _ _ _ _ _ _) as [v|] eqn:Hv; [|done].
  cbn [mbind outcome_bind] in H. destruct (valid_token v) eqn:Hok; [|done].
  pose proof (verified_token_genuine _ _ _ _ _ _ _ _ Hv Hok) as (key & pb & sb & dd & ex & exp & j & _ & Hs & Hd & _).
  assert (Hpg : ∀ c, pg_char c = false → has_char c (pg_text E e) = false).
  { intros c Hc. by apply (without_char pg_char); [|apply pg_chars]. }
  assert (Hurl : ∀ c, url_char c = false → has_char c (b64url h) = false).
  { intros c Hc. by apply (without_char url_char); [|apply url_chars]. }
  rewrite rsplit_last in Hs by (by rewrite !has_char_app, Hurl, Hpg). injection Hs as <- <-.
  apply decode_length in Hd; [|by rewrite !has_char_app, Hurl, Hpg].
  rewrite length_hmac, !read_chars_app in Hd. destruct (pg_digit e Hw) as (x & c & b & Ep & Hc).
  rewrite Ep, read_chars_app in Hd. cbn [read_chars] in Hd.
  assert (Hv1 : is_Some (b64_value c)).
  { unfold b64_value. unfold is_digit in Hc. repeat case_match; done. }
  destruct Hv1 as [v1 Hv1]. rewrite Hv1 in Hd. pose proof (read_chars_pos x). pose proof (read_chars_pos b).
  unfold b64url in Hd. rewrite read_encode in Hd by apply bytes_range. pose proof (encode_long (bytes_of h)) as Hl.
  assert (Hb : length (bytes_of h) = 32%nat).
  { rewrite <- Hlen. unfold bytes_of. rewrite length_map. clear. induction h as [|c h IH]; [done|]. cbn. by rewrite IH. }
  rewrite Hb in Hl. change (b64_value "|") with (@None Z) in Hd. lia.
Qed.

(** C29: When approval.py is executable the script checks the stored token as well, and it
    reads the token with the bar and the expiry psql prints after it: no approval the tools
    have stored passes, so through calls one after another by actors without a quote no
    project ever enters a phase the hub lists as gated. *)
Theorem no_gate_opens d0 d p :
  no_rows d0 → rtc step d0 d → p ∈ projects d → Hub.phase_requires_gate (p_phase p) = false.
Proof.
  intros H0 Hr.
  assert (Hinv : well_formed d ∧ ∀ q, q ∈ projects d → Hub.phase_requires_gate (p_phase q) = false);
    [|intros Hp; by apply Hinv].
  assert (Hstep : ∀ d1 d2, step d1 d2 →
    (well_formed d1 ∧ ∀ q, q ∈ projects d1 → Hub.phase_requires_gate (p_phase q) = false) →
    well_formed d2 ∧ ∀ q, q ∈ projects d2 → Hub.phase_requires_gate (p_phase q) = false).
  { intros d1 d2 Hst [Hd Hq]. split; [by eapply step_well_formed|]. destruct Hst as [i d1|pid d1|i d1 Ha|i d1|]; unfold exec.
    - apply (wp_create i (fun _ d2 => ∀ q, q ∈ projects d2 → _) d1); [done|].
      intros fs w c d' _ [= _ <-] q [Hin| ->%list_elem_of_singleton]%elem_of_app; [by apply Hq|done].
    - by apply (wp_status pid (fun _ d2 => ∀ q, q ∈ projects d2 → _) d1).
    - apply (wp_phase_advance i (fun _ d2 => ∀ q, q ∈ projects d2 → _) d1); [done..|].
      intros fs r x c _ Hc He Hg _ q. rewrite projects_moved. intros (q0 & -> & Hin)%list_elem_of_fmap.
      destruct (p_id q0 =? r_id x); [|by apply Hq]. cbn [with_phase p_phase].
      destruct (phase_of_inv _ _ _ Hd Hc) as (q1 & Hin1 & _ & <-).
      destruct (edge_known _ _ (wf_known _ Hd _ Hin1) He) as [Ht _].
      apply not_true_is_false. intros Hgate. destruct (gate_row _ _ _ Ht Hg Hgate) as (a & Hl & Hx).
      rewrite refused_by_script in Hx; [by specialize (Hx Hexec)|]. apply latest_live_spec in Hl as [Hl _].
      pose proof (wf_signed _ Hd) as Hs. rewrite Forall_forall in Hs. by apply Hs.
    - apply (wp_grant i (fun _ d2 => ∀ q, q ∈ projects d2 → _) d1). intros d' _ -> _ _ _. done.
    - done. }
  refine (rtc_invariant step _ Hstep d0 d Hr _). split; [by eapply reachable_well_formed; [|apply rtc_refl]|].
  destruct H0 as (-> & _). intros q Hq. by apply elem_of_nil in Hq.
Qed.
End OwnCheck.

(** * From a grant to the phase *)
Lemma attempt_psql_run {A} (stmt : db → outcome string A * db) d a d' :
  faults d = [] → stmt d = (Ok a, d') → attempt (psql stmt) d = (Ok (Ok a), d').
Proof. intros Hf Hs. unfold attempt, psql, run_stmt, try_except, pbind, bind. by rewrite Hf, Hs. Qed.

Lemma attempt_query_run {A} (f : db → A) d : faults d = [] → attempt (query f) d = (Ok (Ok (f d)), d).
Proof. intros Hf. by apply attempt_psql_run. Qed.

Lemma pbind_run {A B} (m : proc db exn A) (f : A → proc db exn B) d a d' : m d = (Ok a, d') → pbind m f d = f a d'.
Proof. intros Hm. unfold pbind, bind. by rewrite Hm. Qed.

Lemma current_phase_run pid d : faults d = [] → current_phase pid d = (Ok (phase_of pid d), d).
Proof.
  intros Hf. unfold current_phase. rewrite (pbind_run _ _ d _ d (attempt_query_run _ d Hf)). unfold phase_of.
  by destruct (List.find _ (projects d)).
Qed.

Lemma script_run pid target actor rationale d c :
  faults d = [] → has_char squote actor = false → phase_of pid d = Some c → c ≠ target → edge E c target →
  gate_open E pid target d → approval_py_executable E = false →
  transition_execute E pid target actor rationale d = (Ok 0, move pid c target actor (reason_of rationale) d).
Proof.
  intros Hf Hq Hc Hne He Hg Hx. unfold transition_execute.
  assert (Hv : transition_validate E pid target d = (Ok 0, d)).
  { unfold transition_validate. rewrite (pbind_run _ _ d _ d (current_phase_run pid d Hf)), Hc.
    apply String.eqb_neq in Hne. rewrite Hne. unfold edge in He. by rewrite He. }
  rewrite (pbind_run _ _ d _ d Hv). cbn [Z.eqb negb].
  assert (Hgc : transition_gate_check E pid target d = (Ok 0, d)).
  { unfold transition_gate_check. cbv zeta. destruct Hg as [->|(a & Ha & Ht & _)]; [done|].
    destruct (String.eqb _ ""); [done|]. rewrite (pbind_run _ _ d _ d (attempt_query_run _ d Hf)), Ha, Hx.
    apply String.eqb_neq in Ht. by rewrite Ht. }
  rewrite (pbind_run _ _ d _ d Hgc). cbn [Z.eqb negb].
  rewrite (pbind_run _ _ d _ d (current_phase_run pid d Hf)), Hc.
  set (d' := move _ _ _ _ _ d).
  rewrite (pbind_run _ _ d _ d' (attempt_psql_run (transaction E pid c target actor rationale) d tt d' Hf ltac:(unfold transaction; by rewrite Hq))).
  by rewrite (pbind_run _ _ d' _ d' (attempt_query_run _ d' Hf)).
Qed.

Lemma before_cons c d s : Ascii.eqb d c = false → before c (String d s) = String d (before c s).
Proof. intros H. unfold before. cbn [cut]. rewrite H. by destruct (cut c s) as [[]|]. Qed.

Lemma read_token_some a : signed_row a → read_token (approval_line E a) ≠ "".
Proof.
  intros (y & h & e & Ht & _). set (rest := "|" +:+ match a_expires a with Some e => pg_text E e | None => "" end).
  assert (El : approval_line E a = (b64url y +:+ "." +:+ b64url h) +:+ rest) by (unfold approval_line; by rewrite Ht).
  rewrite El.
  assert (Hc : ∃ c s, b64url y +:+ "." +:+ b64url h = String c s ∧ (url_char c || Ascii.eqb c ".") = true).
  { pose proof (url_chars y) as Hu. destruct (b64url y) as [|c s]; [by eexists _, _|]. cbn [all_chars] in Hu.
    apply andb_true_iff in Hu as [Hu _]. exists c, (s +:+ "." +:+ b64url h). by rewrite Hu. }
  destruct Hc as (c & s & -> & Hc). rewrite app_cons. unfold read_token. cbv zeta.
  assert (Hne : ∀ n, url_char n || Ascii.eqb n "." = false → Ascii.eqb c n = false).
  { intros n Hn. apply Ascii.eqb_neq. intros ->. congruence. }
  rewrite before_cons by by apply Hne. cbn [lstrip_by].
  assert (Hi : (code c =? 9) || (code c =? 10) = false).
  { apply orb_false_iff. split; apply Z.eqb_neq; intros Ec.
    - assert (c = chr 9) as -> by (unfold chr; rewrite <- Ec; unfold code; by rewrite N2Z.id, ascii_N_embedding). done.
    - assert (c = chr 10) as -> by (unfold chr; rewrite <- Ec; unfold code; by rewrite N2Z.id, ascii_N_embedding). done. }
  rewrite Hi, before_cons by by apply Hne. done.
Qed.

Lemma latest_some rows : rows ≠ [] → ∃ a, latest rows = Some a.
Proof.
  assert (H : ∀ l m, is_Some m → is_Some (fold_left (fun m a => match m with
                                        | Some b => if a_granted b <=? a_granted a then Some a else Some b
                                        | None => Some a
                                        end) l m)).
  { induction l as [|x l IH]; [done|]. intros m [b ->]. cbn [fold_left]. apply IH. by destruct (_ <=? _). }
  destruct rows as [|x rows]; [done|]. intros _. unfold latest. cbn [fold_left]. by apply (H rows (Some x)).
Qed.

Lemma phase_text target : target ∈ phase_ids → is_textb target = true.
Proof.
  assert (H : forallb is_textb phase_ids = true) by (vm_compute; reflexivity).
  rewrite forallb_forall in H. intros Ht. by apply H, list_elem_of_In.
Qed.

Lemma id_is_text n : 0 <= n → is_textb (str_of_Z n) = true.
Proof.
  intros Hn. apply ascii_text. eapply all_chars_impl; [|apply str_of_Z_digits, Hn]. unfold is_digit.
  intros c [_ H%Z.leb_le]%andb_true_iff. apply Z.ltb_lt. lia.
Qed.

Lemma grant_run d pid w p i r token payload exp v :
  faults d = [] → where_clause E pid = Some w → List.find (fun q => w q && p_active q) (projects d) = Some p →
  parse_row (strip (row_line p)) = Ok (Some r) → g_project i = pid → vault d (vault_path E) = Value v →
  sign_token (vault d) (clock d) (str_of_Z (r_id r)) (g_phase i) (g_approver i) (g_ttl_hours i) (vault_path E) = Ok (token, payload) →
  expiry payload = Some exp →
  approval_grant E i d =
    (Ok (Okay {| gr_id := r_id r; gr_phase := g_phase i; gr_approver := g_approver i;
                 gr_approval := Z.of_nat (length (approvals d)) + 1; gr_token := token; gr_granted := clock d; gr_expires := exp |}),
     (insert_approval r i token exp d).2).
Proof.
  intros Hf Hw Hp Hr <- Hv Hs Hx. unfold approval_grant.
  rewrite (pbind_run _ _ d (Some r) d) by by rewrite (resolve_run _ w d p), Hr.
  assert (Hk : ensure_approval_key E d = (Ok true, d)).
  { unfold ensure_approval_key, pbind, bind, pgets, plift, gets, bind, ret. by rewrite Hv. }
  rewrite (pbind_run _ _ d _ d Hk). cbn [negb]. unfold sign_and_store.
  unfold pbind at 1, bind at 1. cbn -[sign_token expiry insert_approval attempt psql]. rewrite Hs. cbn -[expiry insert_approval attempt psql]. rewrite Hx.
  by rewrite (pbind_run _ _ d _ _ (attempt_psql_run (insert_approval r i token exp) d _ _ Hf eq_refl)).
Qed.

Lemma advance_run d pid w p i r c :
  faults d = [] → where_clause E pid = Some w → List.find (fun q => w q && p_active q) (projects d) = Some p →
  parse_row (strip (row_line p)) = Ok (Some r) → i_project i = pid → token_error E d r i = None →
  has_char squote (i_actor i) = false → phase_of (r_id r) d = Some c → c ≠ i_target i → edge E c (i_target i) →
  gate_open E (r_id r) (i_target i) d → approval_py_executable E = false →
  ∃ a, phase_advance E i d = (Ok (Okay a),
    move (r_id r) c (i_target i) (i_actor i) (reason_of (default "" (i_rationale i))) d).
Proof.
  intros Hf Hw Hp Hr <- Ht Hq Hc Hne He Hg Hx. unfold phase_advance.
  rewrite (pbind_run _ _ d (Some r) d) by by rewrite (resolve_run _ w d p), Hr.
  rewrite (pbind_run _ _ d (token_error E d r i) d) by done. rewrite Ht.
  set (d' := move _ _ _ _ _ d).
  assert (Hs : run_script E r i d = (Ok (Some 0), d')).
  { unfold run_script, try_except, bind at 1. by rewrite (pbind_run _ _ d 0 d' (script_run _ _ _ _ d c Hf Hq Hc Hne He Hg Hx)). }
  rewrite (pbind_run _ _ d _ d' Hs). unfold advance_answer. cbn [Z.eqb negb]. eexists.
  by rewrite (pbind_run _ _ d' _ d' (attempt_query_run _ d' Hf)).
Qed.

End Stock.

(** * A run *)

(** Seconds since the epoch, for Postgres' text of an instant. *)
Definition seconds_text (t : datetime) : string := str_of_Z (Z.abs t / usec_per_sec).

#[export] Instance seconds_pg_text : PgText seconds_text.
Proof.
  assert (H : ∀ t, all_chars is_digit (seconds_text t) = true ∧ seconds_text t ≠ "").
  { intros t. apply str_of_Z_digits, Z.div_pos; [lia|done]. }
  split; intros t _; destruct (H t) as [Hd Hn].
  - eapply all_chars_impl; [|exact Hd]. unfold pg_char. by intros c ->.
  - destruct (seconds_text t) as [|c s]; [done|]. exists "", c, s. cbn [all_chars] in Hd. by apply andb_true_iff in Hd as [? _].
Qed.

Definition demo_server (executable : bool) : server := {|
  uuid_cast := fun s => Some s; pg_text := seconds_text; broken := fun _ _ => None;
  new_uuid := fun n => "3f2b0c6e-0000-4000-8000-00000000000" +:+ str_of_Z (Z.of_nat n); fresh_key := fun _ => demo_key;
  put_fails := false; float_repr := id; vault_path := HMAC_KEY_VAULT_PATH; file := Some phases_yaml; yq := None;
  approval_py_executable := executable |}.

Definition empty_db : db := {|
  projects := []; histories := []; transitions := []; approvals := []; has_work_item_type := true;
  vault := demo_vault; clock := demo_clock; faults := []; draws := 0 |}.

Definition demo_create : create_input :=
  {| c_name := "shop"; c_type := feature; c_owner := "ann"; c_version := "1.0.0"; c_manifest := "sdlc.yaml" |}.
Definition demo_advance (target : string) (token : option string) : advance_input :=
  {| i_project := "1"; i_target := target; i_actor := "ann"; i_rationale := Some "go"; i_token := token |}.
Definition demo_grant : grant_input :=
  {| g_project := "1"; g_phase := "plan_approved"; g_approver := "po"; g_notes := None; g_ttl_hours := 168 |}.

(** A project in planning, and the same with an approval for the next phase. *)
Definition planning (x : bool) : db :=
  exec (phase_advance (demo_server x) (demo_advance "plan_in_progress" None)) (exec (project_create (demo_server x) demo_create) empty_db).
Definition approved (x : bool) : db := exec (approval_grant (demo_server x) demo_grant) (planning x).

Definition demo_project : project := {|
  p_id := 1; p_uuid := "3f2b0c6e-0000-4000-8000-000000000000"; p_name := "shop"; p_type := feature; p_work_item := feature;
  p_version := "1.0.0"; p_manifest := "sdlc.yaml"; p_owner := "ann"; p_phase := "plan_in_progress"; p_active := true |}.

Lemma planning_reached x : rtc (step (demo_server x)) empty_db (planning x).
Proof.
  unfold planning. apply (rtc_l _ _ (exec (project_create (demo_server x) demo_create) empty_db)); [apply step_create|].
  apply rtc_once. apply (step_advance (demo_server x) (demo_advance "plan_in_progress" None)). reflexivity.
Qed.

Lemma approved_reached x : rtc (step (demo_server x)) empty_db (approved x).
Proof. unfold approved. apply (rtc_r _ (planning x)); [apply planning_reached|]. apply (step_grant (demo_server x) demo_grant). Qed.

Lemma planning_projects : projects (planning false) = [demo_project] ∧ projects (planning true) = [demo_project].
Proof. split; vm_compute; reflexivity. Qed.

(** Nothing holds a project's row between the statements of a call: a call that has found
    its target to be next, and then waits while another makes the same move, records a move
    from that phase to itself, which is no edge. *)
Example overlapping_advances :
  let E := demo_server false in
  let target := "plan_in_progress" in
  let before := exec (project_create E demo_create) empty_db in
  let after := exec (phase_advance E (demo_advance target None)) before in
  let last := (transaction E 1 target target "ann" "go" after).2 in
  transition_validate E 1 target before = (Ok 0, before) ∧ transition_gate_check E 1 target after = (Ok 0, after) ∧
  current_phase 1 after = (Ok (Some target), after) ∧
  map (fun t => (t_from t, t_to t)) (transitions last) = [("intake", target); (target, target)] ∧
  walk E INITIAL_PHASE (transitions_of 1 last) = None.
Proof. vm_compute. repeat split. Qed.

Lemma projects_walk_the_graph_witness :
  demo_project ∈ projects (planning false) ∧
  walk (demo_server false) INITIAL_PHASE (transitions_of 1 (planning false)) = Some "plan_in_progress".
Proof.
  assert (H : demo_project ∈ projects (planning false)) by (rewrite (proj1 planning_projects); by left). split; [exact H|].
  apply (projects_walk_the_graph (demo_server false) eq_refl eq_refl empty_db (planning false) demo_project);
    [split_and!; reflexivity|apply planning_reached|exact H].
Defined.

Lemma phase_entered_with_token_witness :
  let i := demo_advance "plan_approved" (Some "forged") in
  let '(r, d') := phase_advance (demo_server false) i (approved false) in
  (∃ fs, d' = set_faults fs (approved false) ∧ ∀ x, r ≠ Ok (Okay x)) ∨
  ∃ p fs, p ∈ projects (approved false) ∧
    d' = move (p_id p) (p_phase p) "plan_approved" "ann" (Some "go") (set_faults fs (approved false)) ∧
    "plan_approved" ∈ next_phases_from_yaml (Some phases_yaml) (p_phase p) ∧
    (Hub.phase_requires_gate "plan_approved" = true →
       (∃ token, Some "forged" = Some token ∧
          genuine_token id (vault (approved false)) (clock (approved false)) token HMAC_KEY_VAULT_PATH (str_of_Z (p_id p)) "plan_approved") ∧
       ∃ a, a ∈ approvals (approved false) ∧ a_project a = p_id p ∧ a_phase a = "plan_approved" ∧ a_decision a = "approved" ∧
            match a_expires a with Some e => clock (approved false) < e | None => True end).
Proof.
  cbv zeta. rewrite (surjective_pairing (phase_advance _ _ _)).
  apply (phase_entered_with_token (demo_server false) eq_refl eq_refl empty_db (approved false)
    (demo_advance "plan_approved" (Some "forged"))); [split_and!; reflexivity|apply approved_reached|reflexivity|].
  apply surjective_pairing.
Defined.

Lemma row_reads_back_witness :
  eval (resolve_project (demo_server false) "1") (planning false) =
    Ok (Some {| r_id := 1; r_uuid := p_uuid demo_project; r_name := "shop"; r_phase := "plan_in_progress"; r_version := "1.0.0";
                r_owner := "ann" |}).
Proof.
  unfold eval. rewrite (proj1 (row_reads_back (demo_server false) "1"
    (fun p => Hub.isdigit "1" && match int_of_str 10 "1" with Some n => p_id p =? n | None => false end || String.eqb (p_name p) "1")
    (planning false) demo_project ltac:(vm_compute; reflexivity) ltac:(reflexivity) ltac:(rewrite (proj1 planning_projects); reflexivity)
    ltac:(vm_compute; discriminate) eq_refl eq_refl eq_refl eq_refl) eq_refl). reflexivity.
Defined.

Lemma no_gate_opens_witness :
  demo_project ∈ projects (planning true) ∧ Hub.phase_requires_gate (p_phase demo_project) = false.
Proof.
  assert (H : demo_project ∈ projects (planning true)) by (rewrite (proj2 planning_projects); by left). split; [exact H|].
  apply (no_gate_opens (demo_server true) eq_refl eq_refl eq_refl empty_db (planning true));
    [split_and!; reflexivity|apply planning_reached|exact H].
Defined.

Definition demo_signature : string * json :=
  match sign_token demo_vault demo_clock "1" "plan_approved" "po" 168 HMAC_KEY_VAULT_PATH with
  | Ok r => r
  | Raise _ => ("", JNull)
  end.

End Walk.
