(* ===== verification/Quota.v ===== *)
(** The quota ledger: [license/quota_ledger.py].

    Usage of a metered feature accumulates in the rows of [spine_license.quota_usage], one
    per billing period, each anchored to the SHA-256 of the row before it.  A call of
    [record_usage] reads the row in one statement and writes it in another; both are
    operations here ([usage_plan], [usage_write]), and the call is one after the other. *)

From stdpp Require Import sorting.
From S2P Require Import Prelude PyValue Datetime Json Crypto.
From Stdlib Require Import Ascii.
Local Open Scope Z_scope.

Module Quota.
Import Json Crypto.

(** * Rows *)
Record usage_row := {
  u_flag : string; u_start : datetime; u_end : datetime; u_used : Z; u_anchor : option string
}.

Definition GENESIS_ANCHOR_HEX : string := "0000000000000000000000000000000000000000000000000000000000000000".

(** The text an anchor is the digest of. *)
Definition anchor_text (prev_anchor_hex flag_name : string) (period_start period_end : datetime) (used : Z) : string :=
  join newline [prev_anchor_hex; flag_name; isoformat period_start; isoformat period_end; str_of_Z used].

Definition anchor (prev_anchor_hex flag_name : string) (period_start period_end : datetime) (used : Z) : string :=
  sha256 (anchor_text prev_anchor_hex flag_name period_start period_end used).

(** The calendar month of an instant; December of year 9999 has no next month. *)
Definition month_start (y m : Z) : datetime :=
  of_fields {| f_year := y; f_month := m; f_day := 1; f_hour := 0; f_minute := 0; f_second := 0; f_usec := 0 |}.

Definition default_period (now : datetime) : option (datetime * datetime) :=
  let f := fields_of now in
  let start := month_start (f_year f) (f_month f) in
  if f_month f =? 12 then
    if f_year f <? 9999 then Some (start, month_start (f_year f + 1) 1) else None
  else Some (start, month_start (f_year f) (f_month f + 1)).

(** * Recording usage *)
Definition same_period (flag : string) (s e : datetime) (r : usage_row) : bool :=
  String.eqb (u_flag r) flag && (u_start r =? s) && (u_end r =? e).

Definition find_row (flag : string) (s e : datetime) (rows : list usage_row) : option usage_row :=
  List.find (same_period flag s e) rows.

(** The row of the flag that ends last among those that end by [s]. *)
Fixpoint latest_before (flag : string) (s : datetime) (best : option usage_row) (rows : list usage_row)
    : option usage_row :=
  match rows with
  | [] => best
  | r :: rows' =>
      let better := String.eqb (u_flag r) flag && (u_end r <=? s) &&
        match best with Some b => u_end b <? u_end r | None => true end in
      latest_before flag s (if better then Some r else best) rows'
  end.

Definition anchor_hex (a : option string) : string :=
  match a with Some b => if String.eqb b "" then GENESIS_ANCHOR_HEX else hex_of b | None => GENESIS_ANCHOR_HEX end.

Definition prev_anchor_hex (flag : string) (s : datetime) (rows : list usage_row) : string :=
  match latest_before flag s None rows with Some r => anchor_hex (u_anchor r) | None => GENESIS_ANCHOR_HEX end.

(** What the reads of a call decide: the row to write, and whether it is a new one. *)
Definition usage_plan (flag : string) (inc : Z) (s e : datetime) (rows : list usage_row) : usage_row * bool :=
  match find_row flag s e rows with
  | Some r =>
      let used := u_used r + inc in
      ({| u_flag := flag; u_start := s; u_end := e; u_used := used;
          u_anchor := Some (anchor (anchor_hex (u_anchor r)) flag s e used) |}, false)
  | None =>
      ({| u_flag := flag; u_start := s; u_end := e; u_used := inc;
          u_anchor := Some (anchor (prev_anchor_hex flag s rows) flag s e inc) |}, true)
  end.

(** The update hits every row of the period; the insert appends. *)
Definition usage_write (p : usage_row * bool) (rows : list usage_row) : list usage_row :=
  if p.2 then rows ++ [p.1]
  else map (fun r => if same_period (u_flag p.1) (u_start p.1) (u_end p.1) r then p.1 else r) rows.

Inductive exn := ValueError.

(** [record_usage]: the table after the call, the row written and whether it is new. *)
Definition record_usage (rows : list usage_row) (flag : string) (inc : Z)
    (period : option (datetime * datetime)) (now : datetime) : outcome exn (list usage_row * usage_row * bool) :=
  if inc <? 0 then Raise ValueError
  else match (match period with Some p => Some p | None => default_period now end) with
       | None => Raise ValueError
       | Some (s, e) =>
           if e <=? s then Raise ValueError
           else let p := usage_plan flag inc s e rows in Ok (usage_write p rows, p.1, p.2)
       end.

(** * Verification *)
Fixpoint insert_start (r : usage_row) (l : list usage_row) : list usage_row :=
  match l with
  | [] => [r]
  | x :: l' => if u_start x <? u_start r then x :: insert_start r l' else r :: l
  end.

(** The rows of a flag by [period_start]. *)
Definition flag_rows (flag : string) (rows : list usage_row) : list usage_row :=
  foldr insert_start [] (List.filter (fun r => String.eqb (u_flag r) flag) rows).

(** The replay: the number of the first row, from 1, whose anchor is not the expected one. *)
Fixpoint replay (flag prev : string) (n : Z) (l : list usage_row) : option Z :=
  match l with
  | [] => None
  | r :: l' =>
      let expected := anchor prev flag (u_start r) (u_end r) (u_used r) in
      match u_anchor r with
      | Some a => if String.eqb a expected then replay flag (hex_of expected) (n + 1) l' else Some (n + 1)
      | None => Some (n + 1)
      end
  end.

Definition first_bad (flag : string) (rows : list usage_row) : option Z :=
  replay flag GENESIS_ANCHOR_HEX 0 (flag_rows flag rows).

(** [verify_chain]: the verdict and the rows checked. *)
Definition verify_chain (rows : list usage_row) (flag : string) : bool * Z :=
  match first_bad flag rows with
  | None => (true, Z.of_nat (length (flag_rows flag rows)))
  | Some n => (false, n)
  end.

(** * The default period *)
Lemma days_before_next y m :
  1 <= m <= 11 → days_before_month y (m + 1) = days_before_month y m + days_in_month y m.
Proof.
  intros Hm. assert (Hc : m = 1 ∨ m = 2 ∨ m = 3 ∨ m = 4 ∨ m = 5 ∨ m = 6 ∨ m = 7 ∨ m = 8 ∨ m = 9 ∨ m = 10 ∨ m = 11)
    by lia. unfold days_before_month, days_in_month.
  destruct Hc as [->|[->|[->|[->|[->|[->|[->|[->|[->|[->| ->]]]]]]]]]];
    repeat match goal with |- context [?a =? ?b] => let v := eval vm_compute in (a =? b) in change (a =? b) with v end;
    cbn [orb]; lia.
Qed.

Lemma month_start_days y m : month_start y m = (ymd2ord y m 1 - epoch_ord) * usec_per_day.
Proof. unfold month_start, of_fields. cbn. lia. Qed.

(** The default billing period is the calendar month of the instant: it starts on the
    first of that month and the instant falls into it. *)
Theorem default_period_covers now s e :
  default_period now = Some (s, e) → s <= now < e ∧ s = month_start (f_year (fields_of now)) (f_month (fields_of now)).
Proof.
  assert (Hf : ∃ y m d, ord2ymd (now / usec_per_day + epoch_ord) = (y, m, d) ∧
    f_year (fields_of now) = y ∧ f_month (fields_of now) = m).
  { unfold fields_of. destruct (ord2ymd _) as [[y m] d]. by exists y, m, d. }
  destruct Hf as (y & m & d & Ho & Hy & Hm). unfold default_period. rewrite Hy, Hm.
  apply ord2ymd_spec in Ho as (Hd & Hmr & Hdr & _). unfold ymd2ord in Hd.
  pose proof (Z.div_mod now usec_per_day ltac:(done)) as E.
  pose proof (Z.mod_pos_bound now usec_per_day ltac:(done)) as Hr.
  rewrite !month_start_days. unfold ymd2ord.
  destruct (Z.eqb_spec m 12) as [->|Hne].
  - destruct (y <? 9999); [|done]. intros [= <- <-]. rewrite is_leap_days.
    change (days_before_month (y + 1) 1) with 0. unfold days_in_month in Hdr. cbn in Hdr.
    assert (H12 : days_before_month y 12 = leap_day y + 334) by done. rewrite H12 in *.
    unfold usec_per_day, usec_per_sec in *. lia.
  - intros [= <- <-]. rewrite days_before_next by lia.
    unfold usec_per_day, usec_per_sec in *. lia.
Qed.

Lemma default_period_covers_witness :
  default_period 1709210096000789 = Some (1706745600000000, 1709251200000000) ∧
  (1706745600000000 <= 1709210096000789 < 1709251200000000 ∧
   1706745600000000 = month_start (f_year (fields_of 1709210096000789)) (f_month (fields_of 1709210096000789))).
Proof.
  split; [vm_compute; reflexivity|]. apply default_period_covers. vm_compute. reflexivity.
Defined.

(** * Sums *)

(** The usage recorded for a period. *)
Definition usage_of (flag : string) (s e : datetime) (rows : list usage_row) : Z :=
  match find_row flag s e rows with Some r => u_used r | None => 0 end.

Lemma same_period_spec flag s e r : same_period flag s e r = true ↔ u_flag r = flag ∧ u_start r = s ∧ u_end r = e.
Proof. unfold same_period. rewrite !andb_true_iff, String.eqb_eq, !Z.eqb_eq. tauto. Qed.

Lemma find_row_app flag s e rows r :
  find_row flag s e (rows ++ [r]) =
    match find_row flag s e rows with
    | Some x => Some x
    | None => if same_period flag s e r then Some r else None
    end.
Proof.
  unfold find_row. induction rows as [|x rows IH]; cbn; [done|]. by destruct (same_period flag s e x).
Qed.

Lemma find_row_map flag s e p rows :
  find_row flag s e (map (fun r => if same_period (u_flag p) (u_start p) (u_end p) r then p else r) rows) =
    match find_row flag s e rows with
    | Some x => Some (if same_period flag s e p then p else x)
    | None => None
    end.
Proof.
  unfold find_row. induction rows as [|x rows IH]; cbn [map List.find]; [done|].
  destruct (same_period (u_flag p) (u_start p) (u_end p) x) eqn:Hp.
  - apply same_period_spec in Hp as (H1 & H2 & H3).
    assert (E : same_period flag s e x = same_period flag s e p) by (unfold same_period; congruence).
    rewrite E. destruct (same_period flag s e p) eqn:Hs; [done|]. rewrite IH. done.
  - destruct (same_period flag s e x) eqn:Hx; [|done].
    assert (Hf : same_period flag s e p = false).
    { apply not_true_iff_false. intros (H1 & H2 & H3)%same_period_spec.
      apply same_period_spec in Hx as (H4 & H5 & H6). apply not_true_iff_false in Hp. apply Hp, same_period_spec.
      split_and!; congruence. }
    by rewrite Hf.
Qed.

(** A call adds its increment to the usage of its period and changes no other period. *)
Theorem record_usage_adds rows flag inc s e now rows' r created :
  record_usage rows flag inc (Some (s, e)) now = Ok (rows', r, created) →
  usage_of flag s e rows' = usage_of flag s e rows + inc ∧
  ∀ flag' s' e', (flag', s', e') ≠ (flag, s, e) → usage_of flag' s' e' rows' = usage_of flag' s' e' rows.
Proof.
  unfold record_usage. destruct (inc <? 0); [done|]. destruct (e <=? s); [done|]. intros [= <- <- <-].
  assert (Hplan : ∃ a, usage_plan flag inc s e rows =
    ({| u_flag := flag; u_start := s; u_end := e; u_used := usage_of flag s e rows + inc; u_anchor := a |},
     match find_row flag s e rows with Some _ => false | None => true end)).
  { unfold usage_plan, usage_of. by destruct (find_row flag s e rows); eexists. }
  destruct Hplan as [a ->]. set (p := {| u_flag := flag |}).
  assert (Hself : ∀ f' s' e', same_period f' s' e' p = true ↔ (f', s', e') = (flag, s, e)).
  { intros f' s' e'. rewrite same_period_spec. cbn. naive_solver. }
  unfold usage_write. cbn [fst snd]. destruct (find_row flag s e rows) as [x|] eqn:Hx.
  - change p with (p, false).1. cbn [fst]. split; [|intros f' s' e' Hne]; unfold usage_of at 1; rewrite find_row_map.
    + rewrite Hx. by rewrite (proj2 (Hself flag s e) eq_refl).
    + unfold usage_of. destruct (find_row f' s' e' rows); [|done].
      destruct (same_period f' s' e' p) eqn:Hp; [|done]. by apply Hself in Hp.
  - split; [|intros f' s' e' Hne]; unfold usage_of at 1; rewrite find_row_app.
    + rewrite Hx. by rewrite (proj2 (Hself flag s e) eq_refl).
    + unfold usage_of. destruct (find_row f' s' e' rows); [done|].
      destruct (same_period f' s' e' p) eqn:Hp; [|done]. by apply Hself in Hp.
Qed.

Definition march : datetime * datetime := (1709251200000000, 1711929600000000).
Definition april : datetime * datetime := (1711929600000000, 1714521600000000).
Definition recorded (rows : list usage_row) (inc : Z) (p : datetime * datetime) : list usage_row :=
  match record_usage rows "quota_max_projects" inc (Some p) 0 with Ok (rows', _, _) => rows' | Raise _ => rows end.

Lemma record_usage_adds_witness :
  ∃ rows' r, record_usage (recorded [] 5 march) "quota_max_projects" 7 (Some march) 0 = Ok (rows', r, false) ∧
  usage_of "quota_max_projects" march.1 march.2 rows' =
    usage_of "quota_max_projects" march.1 march.2 (recorded [] 5 march) + 7 ∧
  ∀ flag' s' e', (flag', s', e') ≠ ("quota_max_projects", march.1, march.2) →
    usage_of flag' s' e' rows' = usage_of flag' s' e' (recorded [] 5 march).
Proof.
  eexists _, _. split; [reflexivity|].
  eapply (record_usage_adds (recorded [] 5 march) "quota_max_projects" 7 march.1 march.2 0). reflexivity.
Defined.

(** Two callers that both read before either writes: the second write loses the first. *)
Example interleaved_usage_is_lost :
  let rows := recorded [] 0 march in
  let a := usage_plan "quota_max_projects" 5 march.1 march.2 rows in
  let b := usage_plan "quota_max_projects" 7 march.1 march.2 rows in
  usage_of "quota_max_projects" march.1 march.2 (usage_write b (usage_write a rows)) = 7.
Proof. reflexivity. Qed.

(** * Digests *)

Lemma hex_of_inj a b : hex_of a = hex_of b → a = b.
Proof.
  assert (Hd : ∀ c, code c / 16 * 16 + code c mod 16 = code c ∧ 0 <= code c / 16 < 16 ∧ 0 <= code c mod 16 < 16).
  { intros c. assert (Hc : 0 <= code c < 256) by (unfold code; pose proof (N_ascii_bounded c); lia).
    pose proof (Z.div_mod (code c) 16 ltac:(lia)). pose proof (Z.mod_pos_bound (code c) 16 ltac:(lia)). lia. }
  assert (Hi : ∀ i k, 0 <= i < 16 → 0 <= k < 16 → hex_digit i = hex_digit k → i = k).
  { intros i k Hi Hk E. apply (f_equal hex_value) in E. rewrite !hex_value_digit in E by done. congruence. }
  unfold hex_of, bytes_of. revert b. induction a as [|c a IH]; intros [|d b]; cbn; try done.
  intros [= H1 H2 Hr]. f_equal; [|by apply IH].
  destruct (Hd c) as (Ec & ? & ?), (Hd d) as (Ed & ? & ?).
  apply Hi in H1, H2; try done. assert (Ecd : code c = code d) by congruence.
  apply (f_equal chr) in Ecd. unfold chr, code in Ecd. by rewrite !N2Z.id, !ascii_N_embedding in Ecd.
Qed.

Lemma hex_no_newline s : has_char (chr 10) (hex_of s) = false.
Proof. by apply hex_without. Qed.

(** The texts a replay hashes, row by row. *)
Fixpoint hashed (flag prev : string) (l : list usage_row) : list string :=
  match l with
  | [] => []
  | r :: l' =>
      anchor_text prev flag (u_start r) (u_end r) (u_used r)
      :: hashed flag (hex_of (anchor prev flag (u_start r) (u_end r) (u_used r))) l'
  end.

(** The ways SHA-256 can fail on the given texts: two of them with one digest, one whose
    digest is all zeros, or one that holds the digest of itself.  The texts are those the
    ledgers in question were made of: that SHA-256 has collisions somewhere says nothing. *)
Inductive weak_digest (texts : list string) : Prop :=
| Collision a b : a ∈ texts → b ∈ texts → a ≠ b → sha256 a = sha256 b → weak_digest texts
| Zero a : a ∈ texts → hex_of (sha256 a) = GENESIS_ANCHOR_HEX → weak_digest texts
| SelfReference p flag s e n :
    anchor_text p flag s e n ∈ texts → p = hex_of (anchor p flag s e n) → weak_digest texts.

Lemma weak_digest_more texts texts' : texts ⊆ texts' → weak_digest texts → weak_digest texts'.
Proof.
  intros Hs [a b Ha Hb Hn He|a Ha He|p flag s e n Ha He]; 
    [by apply (Collision _ a b); auto|by apply (Zero _ a); auto|by eapply SelfReference; [apply Hs|]].
Qed.

(** * The text of an anchor determines its fields *)
Lemma split_at_newline a b x y :
  has_char (chr 10) a = false → has_char (chr 10) b = false →
  a +:+ newline +:+ x = b +:+ newline +:+ y → a = b ∧ x = y.
Proof.
  revert b. induction a as [|c a IH]; intros [|d b] Ha Hb.
  - change (String (chr 10) x = String (chr 10) y → "" = "" ∧ x = y). by intros [= ->].
  - change (String (chr 10) x = String d (b +:+ newline +:+ y) → "" = String d b ∧ x = y). intros [= <- _]. by cbn in Hb.
  - change (String c (a +:+ newline +:+ x) = String (chr 10) y → String c a = "" ∧ x = y). intros [= -> _]. by cbn in Ha.
  - change (String c (a +:+ newline +:+ x) = String d (b +:+ newline +:+ y) → String c a = String d b ∧ x = y).
    cbn [has_char] in Ha, Hb. apply orb_false_iff in Ha as [_ Ha], Hb as [_ Hb]. intros [= -> E].
    destruct (IH b Ha Hb E) as [-> ->]. done.
Qed.

Lemma app_inj_str p x y : p +:+ x = p +:+ y → x = y.
Proof. induction p as [|c p IH]; [done|]. rewrite !app_cons. intros [= H]. auto. Qed.

Lemma iso_no_newline t : has_char (chr 10) (isoformat t) = false.
Proof.
  rewrite isoformat_local, has_char_app, iso_local_chars; [done|done|].
  rewrite !not_elem_of_cons. split_and!; try done. apply not_elem_of_nil.
Qed.

Definition sound_row (r : usage_row) : Prop :=
  representable (u_start r) ∧ representable (u_end r) ∧ 0 <= u_used r.

Lemma anchor_text_inj p p' flag s s' e e' n n' :
  has_char (chr 10) p = false → has_char (chr 10) p' = false →
  representable s → representable s' → representable e → representable e' → 0 <= n → 0 <= n' →
  anchor_text p flag s e n = anchor_text p' flag s' e' n' → p = p' ∧ s = s' ∧ e = e' ∧ n = n'.
Proof.
  intros Hp Hp' Hs Hs' He He' Hn Hn'. unfold anchor_text. cbn [join]. intros H.
  apply split_at_newline in H as [-> H]; [|done..]. apply app_inj_str, app_inj_str in H.
  apply split_at_newline in H as [H1 H]; [|apply iso_no_newline..].
  apply split_at_newline in H as [H2 H3]; [|apply iso_no_newline..].
  apply isoformat_inj in H1; [|done..]. apply isoformat_inj in H2; [|done..]. apply str_of_Z_inj in H3; [|done..].
  done.
Qed.

Lemma anchor_inj texts p p' flag s s' e e' n n' :
  anchor_text p flag s e n ∈ texts → anchor_text p' flag s' e' n' ∈ texts →
  has_char (chr 10) p = false → has_char (chr 10) p' = false →
  representable s → representable s' → representable e → representable e' → 0 <= n → 0 <= n' →
  anchor p flag s e n = anchor p' flag s' e' n' → (p = p' ∧ s = s' ∧ e = e' ∧ n = n') ∨ weak_digest texts.
Proof.
  intros Ht Ht' Hp Hp' Hs Hs' He He' Hn Hn' H.
  destruct (decide (anchor_text p flag s e n = anchor_text p' flag s' e' n')) as [E|Hne].
  - left. by apply anchor_text_inj in E.
  - right. by apply (Collision _ _ _ Ht Ht').
Qed.

(** * Tampering shows *)

(** The hexadecimal anchor a replay ends with. *)
Fixpoint final_hex (flag prev : string) (l : list usage_row) : string :=
  match l with
  | [] => prev
  | r :: l' => final_hex flag (hex_of (anchor prev flag (u_start r) (u_end r) (u_used r))) l'
  end.

Lemma replay_app flag prev n l r :
  replay flag prev n (l ++ [r]) = None ↔
  replay flag prev n l = None ∧
  u_anchor r = Some (anchor (final_hex flag prev l) flag (u_start r) (u_end r) (u_used r)).
Proof.
  revert prev n. induction l as [|x l IH]; intros prev n; cbn [app replay final_hex].
  - destruct (u_anchor r) as [a|]; [|naive_solver].
    destruct (String.eqb_spec a (anchor prev flag (u_start r) (u_end r) (u_used r))) as [->|Hne]; naive_solver.
  - destruct (u_anchor x) as [a|]; [|naive_solver].
    destruct (String.eqb_spec a (anchor prev flag (u_start x) (u_end x) (u_used x))); [apply IH|naive_solver].
Qed.

Lemma final_hex_app flag prev l r :
  final_hex flag prev (l ++ [r]) = hex_of (anchor (final_hex flag prev l) flag (u_start r) (u_end r) (u_used r)).
Proof. revert prev. induction l as [|x l IH]; intros prev; [done|]. cbn. apply IH. Qed.

Lemma final_hex_plain flag l : has_char (chr 10) (final_hex flag GENESIS_ANCHOR_HEX l) = false.
Proof.
  destruct l as [|r l _] using rev_ind; [done|]. rewrite final_hex_app. apply hex_no_newline.
Qed.

Definition content (r : usage_row) : datetime * datetime * Z := (u_start r, u_end r, u_used r).

Lemma hashed_app flag prev l r :
  hashed flag prev (l ++ [r]) = hashed flag prev l ++ [anchor_text (final_hex flag prev l) flag (u_start r) (u_end r) (u_used r)].
Proof. revert prev. induction l as [|x l IH]; intros prev; [done|]. cbn. by rewrite IH. Qed.

Lemma same_final_same_rows flag l1 l2 :
  Forall sound_row l1 → Forall sound_row l2 →
  final_hex flag GENESIS_ANCHOR_HEX l1 = final_hex flag GENESIS_ANCHOR_HEX l2 →
  map content l1 = map content l2 ∨
  weak_digest (hashed flag GENESIS_ANCHOR_HEX l1 ++ hashed flag GENESIS_ANCHOR_HEX l2).
Proof.
  revert l2. induction l1 as [|r1 l1 IH] using rev_ind; intros l2.
  - destruct l2 as [|r2 l2 _] using rev_ind; [by left|]. intros _ _. rewrite final_hex_app, hashed_app. cbn [final_hex].
    intros E. right. eapply Zero; [|symmetry; exact E]. set_solver.
  - intros [H1 Hr1]%Forall_app. destruct l2 as [|r2 l2 _] using rev_ind.
    + intros _. rewrite final_hex_app, hashed_app. cbn [final_hex]. intros E. right. eapply Zero; [|exact E]. set_solver.
    + intros [H2 Hr2]%Forall_app. rewrite !final_hex_app, !hashed_app. intros E%hex_of_inj.
      apply Forall_singleton in Hr1 as (? & ? & ?), Hr2 as (? & ? & ?).
      match goal with |- _ ∨ weak_digest ?ts => remember ts as texts eqn:Htexts end; revert E; intros E.
      apply (anchor_inj texts) in E as [(E & ? & ? & ?)|?]; auto using final_hex_plain; [|subst texts; set_solver..].
      destruct (IH l2 H1 H2 E) as [Hm|Hw]; [|right; eapply weak_digest_more; [|exact Hw]; set_solver]. left.
      rewrite !map_app, Hm. cbn. unfold content. congruence.
Qed.

(** C15: Tampering is evident: two ledgers of a flag that both verify and end with the same
    anchor record the same periods and the same usage, row by row, unless SHA-256 fails on
    the very texts the two ledgers were hashed from: two of these have one digest, one has
    the digest zero or holds its own. *)
Theorem same_anchor_same_ledger flag rows1 rows2 r1 r2 :
  Forall sound_row rows1 → Forall sound_row rows2 →
  (verify_chain rows1 flag).1 = true → (verify_chain rows2 flag).1 = true →
  last (flag_rows flag rows1) = Some r1 → last (flag_rows flag rows2) = Some r2 → u_anchor r1 = u_anchor r2 →
  map content (flag_rows flag rows1) = map content (flag_rows flag rows2) ∨
  weak_digest (hashed flag GENESIS_ANCHOR_HEX (flag_rows flag rows1) ++
               hashed flag GENESIS_ANCHOR_HEX (flag_rows flag rows2)).
Proof.
  intros Hs1 Hs2 Hv1 Hv2 H1 H2 Ha.
  assert (Hsound : ∀ rows, Forall sound_row rows → Forall sound_row (flag_rows flag rows)).
  { intros rows H. unfold flag_rows. assert (Hi : ∀ r l, sound_row r → Forall sound_row l → Forall sound_row (insert_start r l)).
    { intros r l Hr. induction 1 as [|x l Hx Hl IH]; cbn; [by apply Forall_singleton|]. destruct (_ <? _); [by apply Forall_cons_2|by do 2 (apply Forall_cons_2; [done|])]. }
    induction H as [|r rows Hr _ IH]; cbn; [constructor|]. destruct (String.eqb _ _); cbn; auto. }
  apply Hsound in Hs1, Hs2. unfold verify_chain, first_bad in Hv1, Hv2.
  destruct (replay flag _ 0 (flag_rows flag rows1)) eqn:R1; [done|].
  destruct (replay flag _ 0 (flag_rows flag rows2)) eqn:R2; [done|].
  apply last_snoc_inv in H1 as [l1 E1], H2 as [l2 E2]. rewrite E1, E2 in *.
  apply replay_app in R1 as [_ R1], R2 as [_ R2]. apply (same_final_same_rows flag); [done..|].
  rewrite !final_hex_app. congruence.
Qed.

Definition two_months : list usage_row := recorded (recorded [] 5 march) 3 april.

Lemma same_anchor_same_ledger_witness :
  (verify_chain two_months "quota_max_projects").1 = true ∧
  (map content (flag_rows "quota_max_projects" two_months) = map content (flag_rows "quota_max_projects" two_months)
   ∨ weak_digest (hashed "quota_max_projects" GENESIS_ANCHOR_HEX (flag_rows "quota_max_projects" two_months) ++
                  hashed "quota_max_projects" GENESIS_ANCHOR_HEX (flag_rows "quota_max_projects" two_months))).
Proof.
  split; [vm_compute; reflexivity|].
  apply (same_anchor_same_ledger "quota_max_projects" two_months two_months
    (List.nth 1 two_months {| u_flag := ""; u_start := 0; u_end := 0; u_used := 0; u_anchor := None |})
    (List.nth 1 two_months {| u_flag := ""; u_start := 0; u_end := 0; u_used := 0; u_anchor := None |})).
  - repeat constructor; vm_compute; discriminate.
  - repeat constructor; vm_compute; discriminate.
  - vm_compute; reflexivity.
  - vm_compute; reflexivity.
  - vm_compute; reflexivity.
  - vm_compute; reflexivity.
  - reflexivity.
Defined.

(** * One call per period keeps the chain *)
Definition of_flag (flag : string) (rows : list usage_row) : list usage_row :=
  List.filter (fun r => String.eqb (u_flag r) flag) rows.

Definition before (a b : usage_row) : Prop := u_end a <= u_start b.

(** The rows of a flag in order of insertion: proper periods one after the other, chained. *)
Definition chained (flag : string) (rows : list usage_row) : Prop :=
  StronglySorted before (of_flag flag rows) ∧ Forall (fun r => u_start r < u_end r) (of_flag flag rows) ∧
  replay flag GENESIS_ANCHOR_HEX 0 (of_flag flag rows) = None.

Lemma sort_in_order l :
  StronglySorted before l → Forall (fun r => u_start r < u_end r) l → foldr insert_start [] l = l.
Proof.
  induction l as [|r l IH]; [done|]. intros [Hs Hr]%StronglySorted_inv [Hp Hps]%Forall_cons. cbn [foldr].
  rewrite IH by done. destruct l as [|x l]; [done|]. cbn [insert_start].
  apply Forall_cons in Hr as [Hx _]. unfold before in Hx. by rewrite (proj2 (Z.ltb_ge _ _)) by lia.
Qed.

Lemma latest_of_flag flag s best rows :
  latest_before flag s best rows = latest_before flag s best (of_flag flag rows).
Proof.
  revert best. induction rows as [|r rows IH]; intros best; [done|]. cbn [latest_before of_flag List.filter].
  destruct (String.eqb (u_flag r) flag) eqn:Hf; cbn [andb latest_before]; rewrite ?Hf; cbn [andb]; apply IH.
Qed.

Lemma latest_in_order flag s best l :
  StronglySorted before l → Forall (fun r => u_start r < u_end r) l → Forall (fun r => u_end r <= s) l →
  Forall (fun r => u_flag r = flag) l →
  (∀ b, best = Some b → Forall (before b) l) →
  latest_before flag s best l = match last l with Some r => Some r | None => best end.
Proof.
  revert best. induction l as [|r l IH]; intros best Hs Hp He Hf Hb; [done|].
  apply StronglySorted_inv in Hs as [Hs Hr]. apply Forall_cons in Hp as [Hp Hps], He as [He Hes], Hf as [Hf Hfs].
  cbn [latest_before]. rewrite Hf, String.eqb_refl, (proj2 (Z.leb_le _ _) He).
  assert (Hbest : match best with Some b => u_end b <? u_end r | None => true end = true).
  { destruct best as [b|]; [|done]. specialize (Hb b eq_refl). apply Forall_cons in Hb as [Hb _].
    unfold before in Hb. apply Z.ltb_lt. lia. }
  rewrite Hbest. cbn [andb]. rewrite IH; [|done..|by intros b [= <-]].
  destruct l as [|x l]; [done|]. change (last (r :: x :: l)) with (last (x :: l)).
  by destruct (last_is_Some (x :: l)) as [_ [y ->]].
Qed.

Lemma of_flag_flags flag rows : Forall (fun r => u_flag r = flag) (of_flag flag rows).
Proof.
  apply Forall_forall. intros r Hr%list_elem_of_In. apply filter_In in Hr as [_ Hr]. by apply String.eqb_eq.
Qed.

Lemma prev_hex_final flag s rows :
  chained flag rows → Forall (fun r => u_end r <= s) (of_flag flag rows) →
  prev_anchor_hex flag s rows = final_hex flag GENESIS_ANCHOR_HEX (of_flag flag rows).
Proof.
  intros (Hs & Hp & Hr) He. unfold prev_anchor_hex. rewrite latest_of_flag, latest_in_order by
    (done || apply of_flag_flags).
  destruct (of_flag flag rows) as [|r l _] using rev_ind; [done|]. rewrite last_snoc.
  apply replay_app in Hr as [_ Ha]. rewrite Ha, final_hex_app. unfold anchor_hex.
  destruct (String.eqb_spec (anchor (final_hex flag GENESIS_ANCHOR_HEX l) flag (u_start r) (u_end r) (u_used r)) "")
    as [E|]; [|done].
  apply (f_equal String.length) in E. unfold anchor in E. by rewrite length_sha256 in E.
Qed.

Lemma find_new flag s e rows :
  Forall (fun r => u_start r < u_end r) (of_flag flag rows) → Forall (fun r => u_end r <= s) (of_flag flag rows) →
  find_row flag s e rows = None.
Proof.
  intros Hp He. unfold find_row. destruct (List.find _ rows) as [r|] eqn:Hf; [|done].
  apply List.find_some in Hf as [Hin (Hfl & Hs & _)%same_period_spec].
  assert (Hr : r ∈ of_flag flag rows).
  { apply list_elem_of_In, filter_In. split; [done|]. by apply String.eqb_eq. }
  rewrite Forall_forall in Hp, He. specialize (Hp r Hr). specialize (He r Hr). cbn in *. lia.
Qed.

(** A call for a period after all the others of its flag. *)
Lemma new_period_chained flag inc (s e now : datetime) rows :
  chained flag rows → Forall (fun r => u_end r <= s) (of_flag flag rows) → 0 <= inc → s < e →
  ∃ r rows', record_usage rows flag inc (Some (s, e)) now = Ok (rows', r, true) ∧ chained flag rows' ∧
    of_flag flag rows' = of_flag flag rows ++ [r] ∧ u_end r = e.
Proof.
  intros Hc He Hi Hse. pose proof Hc as (Hs & Hp & Hr). unfold record_usage.
  rewrite (proj2 (Z.ltb_ge _ _) Hi), (proj2 (Z.leb_gt _ _) Hse). unfold usage_plan, usage_write.
  rewrite find_new by done. cbn [fst snd]. rewrite prev_hex_final by done. eexists _, _. split; [done|].
  set (r := {| u_flag := flag |}).
  assert (Ef : of_flag flag (rows ++ [r]) = of_flag flag rows ++ [r]).
  { unfold of_flag. rewrite List.filter_app. cbn. by rewrite String.eqb_refl. }
  split_and!; [|done|done]. unfold chained. rewrite Ef. split_and!.
  - apply StronglySorted_app. split_and!; [|done|by repeat constructor].
    intros x y Hx ->%list_elem_of_singleton. rewrite Forall_forall in He. apply (He x Hx).
  - apply Forall_app. split; [done|]. by apply Forall_singleton.
  - apply replay_app. split; done.
Qed.

(** Calls for periods that follow one another from [t] on. *)
Fixpoint following (t : datetime) (calls : list (Z * datetime * datetime)) : Prop :=
  match calls with
  | [] => True
  | (inc, s, e) :: calls' => 0 <= inc ∧ t <= s ∧ s < e ∧ following e calls'
  end.

Fixpoint record_all (flag : string) (calls : list (Z * datetime * datetime)) (now : datetime)
    (rows : list usage_row) : outcome exn (list usage_row) :=
  match calls with
  | [] => Ok rows
  | (inc, s, e) :: calls' =>
      r ← record_usage rows flag inc (Some (s, e)) now; record_all flag calls' now r.1.1
  end.

Lemma record_all_chained flag calls now t rows :
  chained flag rows → Forall (fun r => u_end r <= t) (of_flag flag rows) → following t calls →
  ∃ rows', record_all flag calls now rows = Ok rows' ∧ chained flag rows' ∧
    length (of_flag flag rows') = (length (of_flag flag rows) + length calls)%nat.
Proof.
  revert t rows. induction calls as [|[[inc s] e] calls IH]; intros t rows Hc Ht Hf.
  - exists rows. cbn. split_and!; [done|done|lia].
  - destruct Hf as (Hi & Hts & Hse & Hf). cbn [record_all].
    assert (He : Forall (fun r => u_end r <= s) (of_flag flag rows)).
    { eapply Forall_impl; [done|]. cbn. lia. }
    destruct (new_period_chained flag inc s e now rows Hc He Hi Hse) as (r & rows1 & E & Hc' & Ef & Hr). rewrite E.
    cbn [mbind outcome_bind fst]. destruct (IH e rows1 Hc') as (rows2 & -> & Hc2 & Hl); [|done|].
    + rewrite Ef. apply Forall_app. split; [|apply Forall_singleton; lia]. eapply Forall_impl; [done|]. cbn. lia.
    + exists rows2. split_and!; [done|done|]. rewrite Hl, Ef, length_app. cbn. lia.
Qed.

Lemma chained_verifies flag rows :
  chained flag rows → verify_chain rows flag = (true, Z.of_nat (length (of_flag flag rows))).
Proof.
  intros (Hs & Hp & Hr). unfold verify_chain, first_bad, flag_rows. fold (of_flag flag rows).
  by rewrite sort_in_order, Hr.
Qed.

(** C16: A ledger that gets one call per period, period after period, verifies, with one row
    per call, whatever other flags have recorded. *)
Theorem ledger_of_periods_verifies flag calls now t rows :
  of_flag flag rows = [] → following t calls →
  ∃ rows', record_all flag calls now rows = Ok rows' ∧
    verify_chain rows' flag = (true, Z.of_nat (length calls)).
Proof.
  intros He Hf. destruct (record_all_chained flag calls now t rows) as (rows' & Hr & Hc & Hl); [| |done|].
  - unfold chained. rewrite He. repeat constructor.
  - by rewrite He.
  - exists rows'. split; [done|]. rewrite chained_verifies, Hl, He by done. done.
Qed.

Lemma ledger_of_periods_verifies_witness :
  of_flag "quota_max_projects" [] = [] ∧ following 0 [(5, march.1, march.2); (3, april.1, april.2)] ∧
  ∃ rows', record_all "quota_max_projects" [(5, march.1, march.2); (3, april.1, april.2)] 0 [] = Ok rows' ∧
    verify_chain rows' "quota_max_projects" = (true, 2).
Proof.
  assert (Hf : following 0 [(5, march.1, march.2); (3, april.1, april.2)]) by (cbn; lia).
  split; [reflexivity|]. split; [exact Hf|].
  apply (ledger_of_periods_verifies "quota_max_projects" [(5, march.1, march.2); (3, april.1, april.2)] 0 0 []
    eq_refl Hf).
Defined.

(** * A second call in a period *)
Lemma flag_rows_map flag f rows :
  (∀ r, u_flag (f r) = u_flag r ∧ u_start (f r) = u_start r) →
  flag_rows flag (map f rows) = map f (flag_rows flag rows).
Proof.
  intros Hf. unfold flag_rows. assert (Hi : ∀ r l, insert_start (f r) (map f l) = map f (insert_start r l)).
  { intros r l. induction l as [|x l IH]; [done|]. cbn [map insert_start].
    destruct (Hf r) as [_ ->], (Hf x) as [_ ->]. destruct (_ <? _); cbn [map]; [by rewrite IH|done]. }
  induction rows as [|r rows IH]; [done|]. cbn [map List.filter]. destruct (Hf r) as [-> _].
  destruct (String.eqb _ _); [|done]. cbn [foldr]. by rewrite IH, Hi.
Qed.

Lemma replay_replaced flag prev n l p x :
  u_flag p = flag → u_start p = u_start x → u_end p = u_end x → sound_row x → 0 <= u_used p →
  has_char (chr 10) prev = false →
  u_anchor p = Some (anchor (anchor_hex (u_anchor x)) flag (u_start x) (u_end x) (u_used p)) →
  let l' := map (fun r => if same_period flag (u_start x) (u_end x) r then p else r) l in
  (∀ y, y ∈ l → same_period flag (u_start x) (u_end x) y = true → y = x) → x ∈ l → u_flag x = flag →
  replay flag prev n l = None →
  replay flag prev n l' = None →
  weak_digest (anchor_text (anchor_hex (u_anchor x)) flag (u_start x) (u_end x) (u_used p) ::
               hashed flag prev l ++ hashed flag prev l').
Proof.
  intros Hfp Hsp Hep (Hs & He & Hu) Hup. revert prev n. induction l as [|r l IH]; intros prev n Hprev Ha l' Huniq Hin Hfx; subst l';
    [by apply elem_of_nil in Hin|].
  cbn [replay map]. destruct (same_period flag (u_start x) (u_end x) r) eqn:Hm.
  - assert (Hrx : r = x) by (apply Huniq; [by left|done]). subst r. rewrite Ha, Hsp, Hep.
    destruct (u_anchor x) as [a|] eqn:Hxa; [|done].
    destruct (String.eqb_spec a (anchor prev flag (u_start x) (u_end x) (u_used x))) as [->|]; [|done]. intros _.
    destruct (String.eqb_spec (anchor (anchor_hex (Some (anchor prev flag (u_start x) (u_end x) (u_used x)))) flag
      (u_start x) (u_end x) (u_used p)) (anchor prev flag (u_start x) (u_end x) (u_used p))) as [E|]; [|done]. intros _.
    assert (Hne : anchor_hex (Some (anchor prev flag (u_start x) (u_end x) (u_used x))) =
      hex_of (anchor prev flag (u_start x) (u_end x) (u_used x))).
    { unfold anchor_hex. destruct (String.eqb_spec (anchor prev flag (u_start x) (u_end x) (u_used x)) "") as [E0|]; [|done].
      apply (f_equal String.length) in E0. unfold anchor in E0. by rewrite length_sha256 in E0. }
    rewrite Hne in E |- *. cbn [map hashed]. rewrite Hsp, Hep. match goal with |- weak_digest ?ts => remember ts as texts eqn:Htexts end; revert E; intros E.
    assert (anchor_text (hex_of (anchor prev flag (u_start x) (u_end x) (u_used x))) flag
      (u_start x) (u_end x) (u_used p) ∈ texts) by (subst texts; by left).
    assert (anchor_text prev flag (u_start x) (u_end x) (u_used p) ∈ texts) by (subst texts; set_solver).
    apply (anchor_inj texts) in E as [(E & _)|]; [|done|done|done|..]; auto using hex_no_newline.
    apply (SelfReference texts prev flag (u_start x) (u_end x) (u_used x)); [subst texts; set_solver|done].
  - destruct (u_anchor r) as [a|]; [|done]. destruct (String.eqb a _); [|done]. intros Hl Hl'. cbn [hashed].
    apply elem_of_cons in Hin as [->|Hin].
    + exfalso. apply not_true_iff_false in Hm. by apply Hm, same_period_spec.
    + eapply weak_digest_more; [|apply (IH (hex_of (anchor prev flag (u_start r) (u_end r) (u_used r))) (n + 1))];
        auto using hex_no_newline; [set_solver|]. intros y Hy. apply Huniq. by right.
Qed.

(** A second call in a period breaks the chain: the period's row, anchored to itself
    instead of the row before it, no longer verifies, unless SHA-256 fails. *)
Theorem second_usage_breaks_chain rows flag inc s e now x rows' r created :
  (verify_chain rows flag).1 = true → find_row flag s e rows = Some x → sound_row x →
  (∀ y, y ∈ rows → same_period flag s e y = true → y = x) →
  record_usage rows flag inc (Some (s, e)) now = Ok (rows', r, created) →
  (verify_chain rows' flag).1 = false ∨
  weak_digest (anchor_text (anchor_hex (u_anchor x)) flag s e (u_used r) ::
               hashed flag GENESIS_ANCHOR_HEX (flag_rows flag rows) ++
               hashed flag GENESIS_ANCHOR_HEX (flag_rows flag rows')).
Proof.
  intros Hv Hx Hsound Huniq. unfold record_usage. destruct (Z.ltb_spec inc 0) as [|Hinc]; [done|].
  destruct (e <=? s); [done|]. unfold usage_plan, usage_write. rewrite Hx. cbn [fst snd].
  intros [= <- <- <-]. set (p := {| u_flag := flag |}).
  apply List.find_some in Hx as [Hxin (Hxf & Hxs & Hxe)%same_period_spec].
  unfold verify_chain, first_bad in *. rewrite flag_rows_map.
  2: { intros y. cbn [u_flag u_start u_end p]. destruct (same_period flag s e y) eqn:Hy; [|done].
       by apply same_period_spec in Hy as (-> & -> & _). }
  destruct (replay flag _ 0 (flag_rows flag rows)) eqn:Hr; [done|].
  destruct (replay flag _ 0 (map _ _)) eqn:Hr'; [by left|]. right.
  assert (Hmem : ∀ y, y ∈ flag_rows flag rows ↔ y ∈ of_flag flag rows).
  { intros y. unfold flag_rows. fold (of_flag flag rows). generalize (of_flag flag rows). intros l.
    assert (Hi : ∀ z l', y ∈ insert_start z l' ↔ y = z ∨ y ∈ l').
    { intros z l'. induction l' as [|w l' IH]; cbn; [set_solver|]. destruct (_ <? _); set_solver. }
    induction l as [|z l IH]; cbn; [done|]. rewrite Hi, IH. set_solver. }
  destruct Hsound as (Hs1 & Hs2 & Hs3). subst s e.
  eapply (replay_replaced flag GENESIS_ANCHOR_HEX 0 (flag_rows flag rows) p x); try done.
  - cbn. lia.
  - intros y Hy. apply Huniq. apply Hmem in Hy. apply list_elem_of_In, filter_In in Hy as [Hy _].
    by apply list_elem_of_In.
  - apply Hmem, list_elem_of_In, filter_In. split; [done|]. by apply String.eqb_eq.
Qed.

Lemma second_usage_breaks_chain_witness :
  ∃ x rows' r, find_row "quota_max_projects" march.1 march.2 two_months = Some x ∧
  record_usage two_months "quota_max_projects" 1 (Some march) 0 = Ok (rows', r, false) ∧
  ((verify_chain rows' "quota_max_projects").1 = false ∨
   weak_digest (anchor_text (anchor_hex (u_anchor x)) "quota_max_projects" march.1 march.2 (u_used r) ::
                hashed "quota_max_projects" GENESIS_ANCHOR_HEX (flag_rows "quota_max_projects" two_months) ++
                hashed "quota_max_projects" GENESIS_ANCHOR_HEX (flag_rows "quota_max_projects" rows'))).
Proof.
  eexists _, _, _. split; [reflexivity|]. split; [reflexivity|].
  eapply (second_usage_breaks_chain two_months "quota_max_projects" 1 march.1 march.2 0).
  - vm_compute. reflexivity.
  - reflexivity.
  - repeat constructor; vm_compute; discriminate.
  - intros y [->|[->|[]%elem_of_nil]%elem_of_cons]%elem_of_cons Hy; [reflexivity|].
    exfalso. revert Hy. apply not_true_iff_false. vm_compute. reflexivity.
  - reflexivity.
Defined.

(** On concrete data the verdict is computed. *)
Example second_usage_refused :
  verify_chain (recorded two_months 1 march) "quota_max_projects" = (false, 1).
Proof. vm_compute. reflexivity. Qed.
End Quota.
