(* ===== verification/License.v ===== *)
(** Licence bundles and feature gates: [license/bundle_verifier.py],
    [license/feature_flags.py] and [shared/api/middleware/feature_flag.py].

    The vendor signs a bundle; the hub loads the newest row that is not revoked, checks
    the signature under the key in its vault, and keeps the payload as the active bundle
    of the process.  Every gate reads that bundle.  Ed25519 ([cryptography]) and the
    pydantic validation of the payload are parameters. *)

From S2P Require Import Prelude PyValue Datetime Json Crypto Approval Quota.
From Stdlib Require Import Ascii.
Local Open Scope Z_scope.

Module License.
Import Json Crypto.

(** * Data *)
Record FeatureFlag := {
  flag_name : string; enabled : bool; quota_value : option Z; quota_unit : option string
}.

Record LicenseBundlePayload := {
  payload_version : string; customer : string; tier : string; bundle_id : string;
  issued_at : datetime; expires_at : option datetime; feature_flags : list FeatureFlag;
  notes : option string
}.

Record SignedLicenseBundle := {
  payload_canonical_b64 : string; signature_b64 : string; signing_key_fingerprint : string
}.

(** [last_error] keeps the code of the error without its message. *)
Record ActiveBundle := {
  payload : LicenseBundlePayload; signature_ok : bool; last_verified_at : datetime; last_error : option string
}.

(** A row of [spine_license.bundle]. *)
Record bundle_row := {
  signed_payload : string; row_signature : string; row_fingerprint : string;
  row_issued_at : datetime; revoked_at : option datetime
}.

Definition BUNDLE_PAYLOAD_VERSION : string := "license-bundle-v1".
Definition VENDOR_PUBKEY_VAULT_PATH : string := "license/vendor_pubkey".
(** [CACHE_TTL_SECONDS], in microseconds. *)
Definition CACHE_TTL : Z := 60 * usec_per_sec.

Definition KNOWN_FEATURE_FLAGS : list string :=
  ["federation"; "hub_admin"; "remote_mcp"; "sso_oidc"; "sso_scim"; "channel_slack"; "channel_pagerduty";
   "channel_sms"; "channel_whatsapp"; "channel_teams"; "integration_github"; "integration_linear";
   "integration_jira"; "integration_vanta"; "integration_drata"; "role_devops"; "role_customer_support";
   "role_compliance_officer"; "role_security_engineer"; "role_tech_writer"; "role_release_manager";
   "quota_max_projects"; "quota_max_concurrent_runs"; "license_inspector"].

(** [BundleVerificationError] with its code, [KeyError] of an unknown flag, any other. *)
Inductive exn :=
| BundleVerificationError (code : string)
| KeyError
| OtherError.

(** The process: the active bundle and the quota cache; its database and vault; the clock. *)
Record hub := {
  active : option ActiveBundle;
  quota_cache : list (string * (datetime * option Z));
  bundles : list bundle_row;
  usage : list Quota.usage_row;
  has_pool : bool;
  usage_readable : bool;
  vault : string → Approval.vault_answer;
  clock : datetime
}.

Definition set_active (a : option ActiveBundle) (h : hub) : hub :=
  {| active := a; quota_cache := quota_cache h; bundles := bundles h; usage := usage h; has_pool := has_pool h;
     usage_readable := usage_readable h; vault := vault h; clock := clock h |}.
Definition set_cache (c : list (string * (datetime * option Z))) (h : hub) : hub :=
  {| active := active h; quota_cache := c; bundles := bundles h; usage := usage h; has_pool := has_pool h;
     usage_readable := usage_readable h; vault := vault h; clock := clock h |}.
Definition set_usage (u : list Quota.usage_row) (h : hub) : hub :=
  {| active := active h; quota_cache := quota_cache h; bundles := bundles h; usage := u; has_pool := has_pool h;
     usage_readable := usage_readable h; vault := vault h; clock := clock h |}.

Definition fingerprint (public_key : string) : string := hex_of (sha256 public_key).

(** * Verification *)
Section Verifier.
(** [cryptography]: whether it imports, and [Ed25519PublicKey.verify] on a 32-byte key. *)
Context (crypto_available : bool) (ed25519_verify : string → string → string → bool).
(** [LicenseBundlePayload.model_validate]. *)
Context (model_validate : json → option LicenseBundlePayload).
Context (TRUSTED_VENDOR_FINGERPRINT : string).

Definition parse_payload (bytes : string) : option LicenseBundlePayload :=
  if is_textb bytes then raw ← loads bytes; model_validate raw else None.

Definition verify_signature (envelope : SignedLicenseBundle) (vendor_key : string) : outcome exn LicenseBundlePayload :=
  if negb crypto_available then Raise (BundleVerificationError "cryptography_unavailable") else
  let expected_fp := fingerprint vendor_key in
  if negb (String.eqb (lower (signing_key_fingerprint envelope)) expected_fp)
  then Raise (BundleVerificationError "fingerprint_mismatch") else
  if negb (String.eqb expected_fp TRUSTED_VENDOR_FINGERPRINT)
  then Raise (BundleVerificationError "untrusted_vendor_key") else
  match b64std_decode (payload_canonical_b64 envelope), b64std_decode (signature_b64 envelope) with
  | Some payload_bytes, Some signature =>
      if negb (String.length vendor_key =? 32)%nat then Raise OtherError else
      if negb (ed25519_verify vendor_key signature payload_bytes)
      then Raise (BundleVerificationError "invalid_signature") else
      match parse_payload payload_bytes with
      | None => Raise (BundleVerificationError "payload_parse_failed")
      | Some p =>
          if String.eqb (payload_version p) BUNDLE_PAYLOAD_VERSION then Ok p
          else Raise (BundleVerificationError "unknown_payload_version")
      end
  | _, _ => Raise (BundleVerificationError "base64_decode_failed")
  end.

Definition is_hex_digit (c : ascii) : bool := match hex_value c with Some _ => true | None => false end.

Definition fetch_vendor_public_key (h : hub) : outcome exn string :=
  match vault h VENDOR_PUBKEY_VAULT_PATH with
  | Approval.Value v =>
      let raw := strip v in
      let bad := Raise (BundleVerificationError "bad_vendor_pubkey_format") in
      if (text_length raw =? 64)%nat && all_chars is_hex_digit raw then
        match Approval.fromhex raw with Some k => Ok k | None => Raise OtherError end
      else match b64std_decode raw with
           | Some k => if (String.length k =? 32)%nat then Ok k else bad
           | None => bad
           end
  | _ => Raise OtherError
  end.

(** The row of the query: not revoked, issued last. *)
Fixpoint newest_bundle (best : option bundle_row) (rows : list bundle_row) : option bundle_row :=
  match rows with
  | [] => best
  | r :: rows' =>
      let better := match revoked_at r with None => true | Some _ => false end &&
        match best with Some b => row_issued_at b <? row_issued_at r | None => true end in
      newest_bundle (if better then Some r else best) rows'
  end.

(** The envelope of a row; its model wants three non-empty fields and 64 hex digits. *)
Definition row_envelope (r : bundle_row) : outcome exn SignedLicenseBundle :=
  let fp := strip (lower (row_fingerprint r)) in
  if negb (String.eqb (signed_payload r) "") && negb (String.eqb (row_signature r) "") &&
     (String.length fp =? 64)%nat && all_chars is_hex_digit fp
  then Ok {| payload_canonical_b64 := b64std_encode (signed_payload r);
             signature_b64 := b64std_encode (row_signature r); signing_key_fingerprint := fp |}
  else Raise OtherError.

(** [load_active_bundle] up to the assignment: the bundle it installs. *)
Definition load_bundle (h : hub) : outcome exn ActiveBundle :=
  key ← fetch_vendor_public_key h;
  match newest_bundle None (bundles h) with
  | None => Raise (BundleVerificationError "no_active_bundle")
  | Some r =>
      envelope ← row_envelope r;
      p ← verify_signature envelope key;
      Ok {| payload := p; signature_ok := true; last_verified_at := clock h; last_error := None |}
  end.

Definition load_active_bundle (h : hub) : outcome exn ActiveBundle * hub :=
  match load_bundle h with
  | Ok b => (Ok b, set_active (Some b) h)
  | Raise e => (Raise e, h)
  end.

(** One turn of the periodic verifier: a failed check closes the bundle, any other
    exception leaves it as it is. *)
Definition periodic_verify (h : hub) : hub :=
  match load_active_bundle h with
  | (Raise (BundleVerificationError code), h') =>
      match active h' with
      | Some b => set_active (Some {| payload := payload b; signature_ok := false;
                                      last_verified_at := last_verified_at b; last_error := Some code |}) h'
      | None => h'
      end
  | (_, h') => h'
  end.
End Verifier.

(** * Gates *)
Definition is_currently_valid (b : ActiveBundle) (now : datetime) : bool :=
  signature_ok b && match expires_at (payload b) with Some e => now <? e | None => true end.

Definition active_or_none (h : hub) : option ActiveBundle :=
  match active h with Some b => if is_currently_valid b (clock h) then Some b else None | None => None end.

Definition find_flag (flag : string) (b : ActiveBundle) : option FeatureFlag :=
  List.find (fun r => String.eqb (flag_name r) flag) (feature_flags (payload b)).

Definition is_enabled (h : hub) (flag : string) : outcome exn bool :=
  if in_strs flag KNOWN_FEATURE_FLAGS then
    Ok (match active_or_none h with
        | None => String.eqb flag "license_inspector"
        | Some b => match find_flag flag b with
                    | Some r => enabled r
                    | None => String.eqb flag "license_inspector"
                    end
        end)
  else Raise KeyError.

(** The middleware's evaluator, and the dependency a route declares. *)
Definition is_feature_enabled (h : hub) (flag : string) : outcome exn bool :=
  if in_strs flag KNOWN_FEATURE_FLAGS then
    match active h with
    | None => Ok true
    | Some _ => match is_enabled h flag with Ok b => Ok b | Raise KeyError => Raise KeyError | Raise _ => Ok true end
    end
  else Raise KeyError.

Inductive http_answer := Passed | PaymentRequired (flag : string).

Definition require_feature_flag (h : hub) (flag : string) : outcome exn http_answer :=
  b ← is_feature_enabled h flag; Ok (if b : bool then Passed else PaymentRequired flag).

(** * Quotas *)
Definition quota_for_flag (h : hub) (flag : string) : option Z :=
  match active_or_none h with
  | None => Some 0
  | Some b => match find_flag flag b with Some r => quota_value r | None => Some 0 end
  end.

(** The sum of the rows whose period covers now. *)
Fixpoint used_sum (flag : string) (now : datetime) (rows : list Quota.usage_row) : Z :=
  match rows with
  | [] => 0
  | r :: rows' =>
      (if String.eqb (Quota.u_flag r) flag && (Quota.u_start r <=? now) && (now <? Quota.u_end r)
       then Quota.u_used r else 0) + used_sum flag now rows'
  end.

Definition read_used_value (h : hub) (flag : string) : option Z :=
  if has_pool h then if usage_readable h then Some (used_sum flag (clock h) (usage h)) else None else Some 0.

Definition invalidate_cache (h : hub) : hub := set_cache [] h.

(** The answer computed from the bundle and the table, which is cached unless the table
    could not be read. *)
Definition compute_quota (h : hub) (flag : string) : outcome exn (option Z) * hub :=
  match quota_for_flag h flag with
  | None => (Ok None, set_cache (dict_set flag (clock h, None) (quota_cache h)) h)
  | Some ceiling =>
      match read_used_value h flag with
      | None => (Ok (Some 0), h)
      | Some used =>
          let remaining := Z.max 0 (ceiling - used) in
          (Ok (Some remaining), set_cache (dict_set flag (clock h, Some remaining) (quota_cache h)) h)
      end
  end.

Definition quota_remaining (h : hub) (flag : string) : outcome exn (option Z) * hub :=
  if in_strs flag KNOWN_FEATURE_FLAGS then
    match dict_lookup flag (quota_cache h) with
    | Some (t, v) => if clock h - t <? CACHE_TTL then (Ok v, h) else compute_quota h flag
    | None => compute_quota h flag
    end
  else (Raise KeyError, h).

(** [record_usage] on the hub's table; it drops the cache. *)
Definition record_usage (h : hub) (flag : string) (inc : Z) (period : option (datetime * datetime))
    : outcome Quota.exn (Quota.usage_row * bool) * hub :=
  match Quota.record_usage (usage h) flag inc period (clock h) with
  | Ok (rows, r, created) => (Ok (r, created), invalidate_cache (set_usage rows h))
  | Raise e => (Raise e, h)
  end.

(** * What an open gate means *)
Section Safety.
Context (crypto_available : bool) (ed25519_verify : string → string → string → bool).
Context (model_validate : json → option LicenseBundlePayload) (TRUSTED : string).
Let load := load_active_bundle crypto_available ed25519_verify model_validate TRUSTED.
Let periodic := periodic_verify crypto_available ed25519_verify model_validate TRUSTED.

(** What can happen to the process.  The database and the vault may change in any way
    between two calls: whoever writes to them is not trusted.  The clock may be set. *)
Inductive step : hub → hub → Prop :=
| step_load h : step h (load h).2
| step_periodic h : step h (periodic h)
| step_quota h flag : step h (quota_remaining h flag).2
| step_usage h flag inc period : step h (record_usage h flag inc period).2
| step_world h bs us pool readable v now :
    step h {| active := active h; quota_cache := quota_cache h; bundles := bs; usage := us; has_pool := pool;
              usage_readable := readable; vault := v; clock := now |}.

(** The payload was signed by the key the hub was built to trust. *)
Definition genuine (b : ActiveBundle) : Prop :=
  ∃ key sig bytes, fingerprint key = TRUSTED ∧ ed25519_verify key sig bytes = true ∧
    parse_payload model_validate bytes = Some (payload b).

Lemma verified_genuine env key p :
  verify_signature crypto_available ed25519_verify model_validate TRUSTED env key = Ok p →
  fingerprint key = TRUSTED ∧ ∃ sig bytes, ed25519_verify key sig bytes = true ∧
    parse_payload model_validate bytes = Some p.
Proof.
  unfold verify_signature. destruct crypto_available; [|done]. cbn [negb].
  destruct (String.eqb (lower _) _); [|done]. cbn [negb].
  destruct (String.eqb_spec (fingerprint key) TRUSTED) as [E|]; [|done]. cbn [negb].
  destruct (b64std_decode (payload_canonical_b64 env)) as [bytes|]; [|done].
  destruct (b64std_decode (signature_b64 env)) as [sig|]; [|done].
  destruct (String.length key =? 32)%nat; [|done]. cbn [negb].
  destruct (ed25519_verify key sig bytes) eqn:Hv; [|done]. cbn [negb].
  destruct (parse_payload model_validate bytes) as [p'|] eqn:Hp; [|done].
  destruct (String.eqb (payload_version p') _); [|done]. intros [= <-]. eauto.
Qed.

Lemma load_genuine h b : (load h).1 = Ok b → genuine b.
Proof.
  unfold load, load_active_bundle. destruct (load_bundle _ _ _ _ h) as [b'|e] eqn:Hl; [|done]. intros [= <-].
  unfold load_bundle in Hl. apply outcome_bind_ok in Hl as (key & _ & Hl).
  destruct (newest_bundle None (bundles h)) as [r|]; [|done]. apply outcome_bind_ok in Hl as (env & _ & Hl).
  apply outcome_bind_ok in Hl as (p & Hv & [= <-]). apply verified_genuine in Hv as (Hf & sig & bytes & Hs & Hp).
  by exists key, sig, bytes.
Qed.

Lemma load_active h : active (load h).2 = match (load h).1 with Ok b => Some b | Raise _ => active h end.
Proof. unfold load, load_active_bundle. by destruct (load_bundle _ _ _ _ h). Qed.

Lemma quota_active h flag : active (quota_remaining h flag).2 = active h ∧ clock (quota_remaining h flag).2 = clock h.
Proof. unfold quota_remaining, compute_quota. repeat case_match; done. Qed.

Lemma usage_active h flag inc period :
  active (record_usage h flag inc period).2 = active h ∧ clock (record_usage h flag inc period).2 = clock h.
Proof. unfold record_usage. by destruct (Quota.record_usage _ _ _ _ _) as [[[? ?] ?]|]. Qed.

Lemma periodic_cases h :
  periodic h = (load h).2 ∨
  ∃ b code, active h = Some b ∧ (load h).1 = Raise (BundleVerificationError code) ∧
    periodic h = set_active (Some {| payload := payload b; signature_ok := false;
                                     last_verified_at := last_verified_at b; last_error := Some code |}) h.
Proof.
  unfold periodic, periodic_verify, load, load_active_bundle.
  destruct (load_bundle _ _ _ _ h) as [b|[code| |]]; cbn [fst snd]; auto.
  destruct (active h) as [b|] eqn:Ha; [right|by left]. by exists b, code.
Qed.

Lemma genuine_invariant h h' :
  step h h' → (∀ b, active h = Some b → genuine b) → ∀ b, active h' = Some b → genuine b.
Proof.
  assert (Hload : ∀ h, (∀ b, active h = Some b → genuine b) → ∀ b, active (load h).2 = Some b → genuine b).
  { intros k Hk b. rewrite load_active. destruct ((load k).1) as [b'|] eqn:Hl; [|apply Hk].
    intros [= <-]. by eapply load_genuine. }
  destruct 1; intros Hi b Hb.
  - by eapply Hload.
  - destruct (periodic_cases h) as [E|(b' & code & Ha & _ & E)]; rewrite E in Hb; [by eapply Hload|].
    cbn in Hb. injection Hb as <-. destruct (Hi b' Ha) as (key & sig & bytes & ?). by exists key, sig, bytes.
  - apply Hi. by rewrite <- (proj1 (quota_active h flag)).
  - apply Hi. by rewrite <- (proj1 (usage_active h flag inc period)).
  - by apply Hi.
Qed.

(** The flag is granted by the active bundle, which the trusted key signed and which has
    not expired. *)
Definition granted (h : hub) (flag : string) : Prop :=
  ∃ b r, active h = Some b ∧ genuine b ∧ signature_ok b = true ∧
    match expires_at (payload b) with Some e => clock h < e | None => True end ∧
    r ∈ feature_flags (payload b) ∧ flag_name r = flag ∧ enabled r = true.

(** C12: an enabled gate is a licensed one.  Whatever happens to the database, the vault and
    the clock, a flag is enabled only while a bundle is active that was signed by the
    trusted vendor key, has not expired and grants the flag; with the one exception the code
    makes, [license_inspector], which is also enabled while no bundle that is valid names
    it, before any bundle was loaded among other times. *)
Theorem enabled_gate_is_licensed h0 h flag :
  active h0 = None → rtc step h0 h → is_enabled h flag = Ok true →
  granted h flag ∨ flag = "license_inspector" ∧ active_or_none h ≫= find_flag flag = None.
Proof.
  intros H0 Hstep He.
  assert (Hg : ∀ b, active h = Some b → genuine b).
  { refine (rtc_invariant step (fun h => ∀ b, active h = Some b → genuine b) _ h0 h Hstep _).
    - apply genuine_invariant.
    - intros b Hb. congruence. }
  revert He. unfold is_enabled. destruct (in_strs flag KNOWN_FEATURE_FLAGS); [|done]. intros [= He].
  unfold active_or_none in *. destruct (active h) as [b|] eqn:Ha; [|right; by apply String.eqb_eq in He].
  destruct (is_currently_valid b (clock h)) eqn:Hv; [|right; by apply String.eqb_eq in He].
  cbn. destruct (find_flag flag b) as [r|] eqn:Hf; [left|right; by apply String.eqb_eq in He].
  apply List.find_some in Hf as [Hr Hn%String.eqb_eq]. apply andb_true_iff in Hv as [Hs Hx].
  exists b, r. split_and!; auto.
  - destruct (expires_at (payload b)); [by apply Z.ltb_lt|done].
  - by apply list_elem_of_In.
Qed.

(** C13: A failed periodic check closes every gate of the evaluator except the inspector's;
    the middleware follows it only when a bundle had been loaded before, and lets every
    request pass when none ever was. *)
Theorem failed_check_closes_gates h code flag :
  (load h).1 = Raise (BundleVerificationError code) → flag ∈ KNOWN_FEATURE_FLAGS → flag ≠ "license_inspector" →
  is_enabled (periodic h) flag = Ok false ∧
  require_feature_flag (periodic h) flag =
    Ok (match active h with Some _ => PaymentRequired flag | None => Passed end).
Proof.
  intros Hl Hk%in_strs_true Hne%String.eqb_neq.
  assert (He : is_enabled (periodic h) flag = Ok false ∧
    active (periodic h) = match active h with
                          | Some b => Some {| payload := payload b; signature_ok := false;
                                              last_verified_at := last_verified_at b; last_error := Some code |}
                          | None => None end).
  { unfold periodic, periodic_verify, load, load_active_bundle in *.
    destruct (load_bundle _ _ _ _ h) as [|e]; [done|]. cbn in Hl. injection Hl as ->. cbn [active snd].
    unfold is_enabled. rewrite Hk. destruct (active h) as [b|] eqn:Ha; unfold active_or_none; cbn [active set_active].
    - cbn. by rewrite Hne.
    - by rewrite Ha, Hne. }
  destruct He as [He Ha]. split; [done|]. unfold require_feature_flag, is_feature_enabled. rewrite Hk, Ha.
  destruct (active h); [by rewrite He|done].
Qed.

(** * Quotas *)

(** The answer computed from the bundle and the usage table. *)
Definition fresh_quota (h : hub) (flag : string) : option Z :=
  match quota_for_flag h flag with
  | None => None
  | Some ceiling => match read_used_value h flag with
                    | None => Some 0
                    | Some used => Some (Z.max 0 (ceiling - used))
                    end
  end.

Lemma compute_fresh h flag : (compute_quota h flag).1 = Ok (fresh_quota h flag).
Proof.
  unfold compute_quota, fresh_quota. destruct (quota_for_flag h flag); [|done]. by destruct (read_used_value h flag).
Qed.

End Safety.

(** * A hub with one licence *)
Definition demo_verify (key sig msg : string) : bool := String.eqb sig (hmac_sha256 key msg).
Definition demo_validate (j : json) : option LicenseBundlePayload :=
  match j with
  | JObj d =>
      match dict_lookup "customer" d, dict_lookup "flag" d, dict_lookup "quota" d with
      | Some (JStr c), Some (JStr f), Some (JInt n) =>
          Some {| payload_version := BUNDLE_PAYLOAD_VERSION; customer := c; tier := "team"; bundle_id := "b";
                  issued_at := 0; expires_at := None;
                  feature_flags := [{| flag_name := f; enabled := true; quota_value := Some n; quota_unit := None |}];
                  notes := None |}
      | _, _, _ => None
      end
  | _ => None
  end.

Definition demo_key : string := of_bytes (map Z.of_nat (seq 1 32)).
Definition demo_payload : string :=
  canonical (JObj [("customer", JStr "acme"); ("flag", JStr "quota_max_projects"); ("quota", JInt 10)]).
Definition demo_row (revoked : option datetime) : bundle_row :=
  {| signed_payload := demo_payload; row_signature := hmac_sha256 demo_key demo_payload;
     row_fingerprint := fingerprint demo_key; row_issued_at := 0; revoked_at := revoked |}.
Definition demo_hub (rows : list bundle_row) : hub :=
  {| active := None; quota_cache := []; bundles := rows; usage := []; has_pool := true; usage_readable := true;
     vault := (fun _ => Approval.Value (hex_of demo_key)); clock := Quota.march.1 + 5 |}.
Definition demo_load := load_active_bundle true demo_verify demo_validate (fingerprint demo_key).
Definition demo_step := step true demo_verify demo_validate (fingerprint demo_key).
Definition licensed_hub : hub := (demo_load (demo_hub [demo_row None])).2.

Lemma licensed_reachable : rtc demo_step (demo_hub [demo_row None]) licensed_hub.
Proof. apply rtc_once. unfold demo_step. apply step_load. Qed.

Lemma enabled_gate_is_licensed_witness :
  is_enabled licensed_hub "quota_max_projects" = Ok true ∧
  granted demo_verify demo_validate (fingerprint demo_key) licensed_hub "quota_max_projects".
Proof.
  split; [vm_compute; reflexivity|].
  destruct (enabled_gate_is_licensed true demo_verify demo_validate (fingerprint demo_key) (demo_hub [demo_row None])
    licensed_hub "quota_max_projects") as [H|[H _]].
  - reflexivity.
  - exact licensed_reachable.
  - vm_compute. reflexivity.
  - exact H.
  - discriminate H.
Defined.

(** Before any bundle was loaded the inspector is open, and nothing else. *)
Example inspector_without_bundle :
  is_enabled (demo_hub []) "license_inspector" = Ok true ∧ is_enabled (demo_hub []) "federation" = Ok false.
Proof. vm_compute. done. Qed.

(** The same licence revoked: the next check closes the gate, and without a loaded bundle
    the middleware stays open. *)
Definition revoked_hub : hub :=
  {| active := active licensed_hub; quota_cache := []; bundles := [demo_row (Some 1)]; usage := []; has_pool := true;
     usage_readable := true; vault := (fun _ => Approval.Value (hex_of demo_key)); clock := Quota.march.1 + 6 |}.

Lemma failed_check_closes_gates_witness :
  (demo_load revoked_hub).1 = Raise (BundleVerificationError "no_active_bundle") ∧
  (is_enabled (periodic_verify true demo_verify demo_validate (fingerprint demo_key) revoked_hub) "federation" = Ok false ∧
   require_feature_flag (periodic_verify true demo_verify demo_validate (fingerprint demo_key) revoked_hub) "federation"
     = Ok (match active revoked_hub with Some _ => PaymentRequired "federation" | None => Passed end)).
Proof.
  split; [vm_compute; reflexivity|].
  apply (failed_check_closes_gates true demo_verify demo_validate (fingerprint demo_key) revoked_hub "no_active_bundle").
  - vm_compute. reflexivity.
  - apply in_strs_true. vm_compute. reflexivity.
  - discriminate.
Defined.

(** * Recording usage reduces the quota *)
Definition covers (now : datetime) (r : Quota.usage_row) : bool :=
  (Quota.u_start r <=? now) && (now <? Quota.u_end r).

Lemma used_sum_app flag now a b : used_sum flag now (a ++ b) = used_sum flag now a + used_sum flag now b.
Proof. induction a as [|r a IH]; cbn [app used_sum]; [done|]. rewrite IH. lia. Qed.

Lemma used_sum_replace flag now p x rows :
  Quota.u_flag p = flag → Quota.u_start p = Quota.u_start x → Quota.u_end p = Quota.u_end x →
  x ∈ rows → Quota.u_flag x = flag → NoDup rows →
  (∀ y, y ∈ rows → Quota.same_period flag (Quota.u_start x) (Quota.u_end x) y = true → y = x) →
  used_sum flag now (map (fun r => if Quota.same_period flag (Quota.u_start x) (Quota.u_end x) r then p else r) rows) =
    used_sum flag now rows + if covers now x then Quota.u_used p - Quota.u_used x else 0.
Proof.
  intros Hp Hs He Hin Hx Hnd Huniq.
  assert (Hrest : ∀ l, (∀ y, y ∈ l → y ∈ rows) → x ∉ l →
    map (fun r => if Quota.same_period flag (Quota.u_start x) (Quota.u_end x) r then p else r) l = l).
  { induction l as [|y l IH]; [done|]. intros Hl Hn. cbn [map]. rewrite IH; [|set_solver..].
    destruct (Quota.same_period _ _ _ y) eqn:Hm; [|done]. assert (y = x) by (apply Huniq; [apply Hl; by left|done]).
    set_solver. }
  apply list_elem_of_split in Hin as (a & b & ->).
  apply NoDup_app in Hnd as (_ & Hab & [Hnb _]%NoDup_cons).
  rewrite map_app. cbn [map]. rewrite (Hrest a), (Hrest b) by set_solver.
  rewrite (proj2 (Quota.same_period_spec flag _ _ x)) by done.
  rewrite !used_sum_app. cbn [used_sum]. unfold covers. rewrite Hp, Hx, Hs, He, String.eqb_refl. cbn [andb].
  destruct (_ && _); lia.
Qed.

(** The usage of now after a call for a period that covers now. *)
Lemma used_after_record rows flag inc s e now rows' r created :
  NoDup rows → (∀ x y, x ∈ rows → y ∈ rows → Quota.same_period flag s e x = true →
                       Quota.same_period flag s e y = true → y = x) →
  s <= now < e → Quota.record_usage rows flag inc (Some (s, e)) now = Ok (rows', r, created) →
  used_sum flag now rows' = used_sum flag now rows + inc.
Proof.
  intros Hnd Huniq [Hs He]%and_comm. unfold Quota.record_usage. destruct (inc <? 0); [done|].
  destruct (e <=? s); [done|]. intros [= <- <- <-]. unfold Quota.usage_plan, Quota.usage_write.
  destruct (Quota.find_row flag s e rows) as [x|] eqn:Hx; cbn [fst snd].
  - apply List.find_some in Hx as [Hin%list_elem_of_In Hm].
    pose proof Hm as (Hf & Hxs & Hxe)%Quota.same_period_spec. cbn [Quota.u_flag Quota.u_start Quota.u_end].
    subst s e. rewrite (used_sum_replace flag now _ x); try done; cbn [Quota.u_used].
    + unfold covers. rewrite (proj2 (Z.leb_le _ _)), (proj2 (Z.ltb_lt _ _)) by lia. cbn [andb]. lia.
    + intros y Hy Hym. by apply (Huniq x y).
  - rewrite used_sum_app. cbn [used_sum Quota.u_flag Quota.u_start Quota.u_end Quota.u_used].
    rewrite String.eqb_refl, (proj2 (Z.leb_le _ _)), (proj2 (Z.ltb_lt _ _)) by lia. cbn [andb]. lia.
Qed.

(** Metering: after a recorded usage in the current period the next quota answer is the
    ceiling less all the usage recorded so far, this call included, and never negative. *)
Theorem recorded_usage_reduces_quota h flag inc s e ceiling r created :
  flag ∈ KNOWN_FEATURE_FLAGS → has_pool h = true → usage_readable h = true → quota_for_flag h flag = Some ceiling →
  NoDup (usage h) → (∀ x y, x ∈ usage h → y ∈ usage h → Quota.same_period flag s e x = true →
                       Quota.same_period flag s e y = true → y = x) →
  s <= clock h < e → (record_usage h flag inc (Some (s, e))).1 = Ok (r, created) →
  (quota_remaining (record_usage h flag inc (Some (s, e))).2 flag).1 =
    Ok (Some (Z.max 0 (ceiling - (used_sum flag (clock h) (usage h) + inc)))).
Proof.
  intros Hk%in_strs_true Hpool Hread Hq Hnd Huniq Hnow. unfold record_usage.
  destruct (Quota.record_usage (usage h) flag inc (Some (s, e)) (clock h)) as [[[rows' r'] c]|] eqn:Hr; [|done].
  intros _. cbn [snd]. unfold quota_remaining. rewrite Hk. cbn [dict_lookup quota_cache invalidate_cache set_cache].
  rewrite compute_fresh. unfold fresh_quota, read_used_value.
  change (quota_for_flag (invalidate_cache (set_usage rows' h)) flag) with (quota_for_flag h flag). rewrite Hq.
  cbn [has_pool usage_readable usage clock invalidate_cache set_cache set_usage]. rewrite Hpool, Hread.
  by rewrite (used_after_record _ _ _ _ _ _ _ _ _ Hnd Huniq Hnow Hr).
Qed.

Lemma recorded_usage_reduces_quota_witness :
  quota_for_flag licensed_hub "quota_max_projects" = Some 10 ∧
  (quota_remaining (record_usage licensed_hub "quota_max_projects" 7 (Some Quota.march)).2 "quota_max_projects").1 =
    Ok (Some (Z.max 0 (10 - (used_sum "quota_max_projects" (clock licensed_hub) (usage licensed_hub) + 7)))).
Proof.
  split; [vm_compute; reflexivity|].
  eapply (recorded_usage_reduces_quota licensed_hub "quota_max_projects" 7 Quota.march.1 Quota.march.2 10).
  - apply in_strs_true. vm_compute. reflexivity.
  - vm_compute. reflexivity.
  - vm_compute. reflexivity.
  - vm_compute. reflexivity.
  - vm_compute. constructor.
  - vm_compute. intros x y Hx. by apply elem_of_nil in Hx.
  - vm_compute. split; [discriminate|reflexivity].
  - vm_compute. reflexivity.
Defined.
End License.
