(* ===== verification/QuotaTasks.v ===== *)
(** Quota answers under interleaving.

    [quota_remaining] of [license/feature_flags.py] reads the clock, its cache and the
    bundle, awaits the usage table, and then writes its cache; loads, revocations, metering
    and other calls may come in between, and the clock may be set.  Here the call is cut at
    its await over a process that keeps its past, so that the theorem can say which bundle
    and which table an answer was made of. *)

From S2P Require Import Prelude Tasks PyValue Datetime Quota License.
Local Open Scope Z_scope.

Module QuotaTasks.
Import License.
Local Open Scope task_scope.

(** * The program *)

(** What the stretch before the await decides. *)
Inductive plan :=
| Served (v : option Z)                                   (* from the cache *)
| Unlimited                                               (* no ceiling: cached at once *)
| Ask (now : datetime) (ceiling : Z) (pooled : bool).     (* ask the table *)

Definition quota_plan (flag : string) (h : hub) : plan * hub :=
  let fresh :=
    match quota_for_flag h flag with
    | None => (Unlimited, set_cache (dict_set flag (clock h, None) (quota_cache h)) h)
    | Some c => (Ask (clock h) c (has_pool h), h)
    end in
  match dict_lookup flag (quota_cache h) with
  | Some (t, v) => if clock h - t <? CACHE_TTL then (Served v, h) else fresh
  | None => fresh
  end.

(** The statement of [_read_used_value]; [now] was read before it. *)
Definition ask_used (flag : string) (now : datetime) (pooled : bool) (h : hub) : option Z :=
  if pooled then if usage_readable h then Some (used_sum flag now (usage h)) else None else Some 0.

Definition store_quota (flag : string) (now : datetime) (v : option Z) (h : hub) : hub :=
  set_cache (dict_set flag (now, v) (quota_cache h)) h.

(** The process with its former states, oldest first, and the answers its callers were
    given: the flag, the number of former states when they called, what they got. *)
Record world := { cur : hub; past : list hub; answers : list (string * nat * outcome exn (option Z)) }.

(** One action of the program; it leaves the state it found in the past. *)
Definition on {R} (f : hub → R * hub) (w : world) : R * world :=
  let '(r, h) := f (cur w) in (r, {| cur := h; past := past w ++ [cur w]; answers := answers w |}).

Definition quota_task (flag : string) : task world exn (option Z) :=
  if negb (in_strs flag KNOWN_FEATURE_FLAGS) then traise KeyError else
  p <- act (on (quota_plan flag));;
  match p with
  | Served v => tret v
  | Unlimited => tret None
  | Ask now ceiling pooled =>
      used <- act (on (fun h => (ask_used flag now pooled h, h)));;
      match used with
      | None => tret (Some 0)
      | Some used =>
          let remaining := Z.max 0 (ceiling - used) in
          act (on (fun h => (tt, store_quota flag now (Some remaining) h)));;
          tret (Some remaining)
      end
  end.

(** Left alone it is [License.quota_remaining]. *)
Theorem run_quota_task flag w :
  (run (quota_task flag) w).1 = (quota_remaining (cur w) flag).1 ∧
  cur (run (quota_task flag) w).2 = (quota_remaining (cur w) flag).2.
Proof.
  destruct w as [h past0 given]. unfold quota_task, quota_remaining. cbn [cur].
  destruct (in_strs flag KNOWN_FEATURE_FLAGS); cbn [negb]; [|done].
  unfold tbind, act. cbn [handle run]. unfold on. cbn [cur]. unfold quota_plan.
  destruct (dict_lookup flag (quota_cache h)) as [[t v]|]; [destruct (clock h - t <? CACHE_TTL); [done|]|];
    unfold compute_quota, read_used_value; (destruct (quota_for_flag h flag) as [c|]; [|by cbn]);
    cbn [run handle]; unfold ask_used, store_quota; cbn [cur past handle];
    destruct (has_pool h); cbn; destruct (usage_readable h); done.
Qed.
(** * What an answer is made of *)

(** Of a bundle and a moment [t], and of the usage table at a later moment: *)
Definition made_of (hs : list hub) (flag : string) (t : datetime) (v : option Z) : Prop :=
  ∃ i h1, hs !! i = Some h1 ∧ clock h1 = t ∧
    match quota_for_flag h1 flag with
    | None => v = None
    | Some c => ∃ j h2 used, (i < j)%nat ∧ hs !! j = Some h2 ∧
        ask_used flag (clock h1) (has_pool h1) h2 = Some used ∧ v = Some (Z.max 0 (c - used))
    end.

Definition grows (w w' : world) : Prop := past w `prefix_of` past w'.
#[local] Instance grows_preorder : PreOrder grows.
Proof. split; [intros w; apply (reflexivity (R := prefix))|]. intros w1 w2 w3. apply (transitivity (R := prefix)). Qed.

Lemma made_of_later hs hs' flag t v : hs `prefix_of` hs' → made_of hs flag t v → made_of hs' flag t v.
Proof.
  intros Hp (i & h1 & Hi & Ht & Hm). exists i, h1. split; [by eapply prefix_lookup_Some|]. split; [done|].
  destruct (quota_for_flag h1 flag) as [c|]; [|done]. destruct Hm as (j & h2 & used & Hij & Hj & Hu & Hv).
  exists j, h2, used. split; [done|]. split; [by eapply prefix_lookup_Some|done].
Qed.

(** Every entry of the cache is such an answer, under the clock reading it carries. *)
Definition cache_made (w : world) : Prop :=
  ∀ flag t v, dict_lookup flag (quota_cache (cur w)) = Some (t, v) → made_of (past w) flag t v.

(** What a call may answer that began after [n] actions. *)
Definition answered (flag : string) (n : nat) (r : outcome exn (option Z)) (w : world) : Prop :=
  match r with
  | Raise e => e = KeyError ∧ flag ∉ KNOWN_FEATURE_FLAGS
  | Ok v => ∃ k h0, (n <= k)%nat ∧ past w !! k = Some h0 ∧
      ((∃ t, made_of (past w) flag t v ∧ clock h0 - t < CACHE_TTL) ∨
       v = Some 0 ∧ ∃ j h2, (k < j)%nat ∧ past w !! j = Some h2 ∧ usage_readable h2 = false)
  end.

Lemma on_past {R} (f : hub → R * hub) w : past (on f w).2 = past w ++ [cur w].
Proof. unfold on. by destruct (f (cur w)). Qed.

Lemma lookup_last {A} (l : list A) x : (l ++ [x]) !! length l = Some x.
Proof. by apply list_lookup_middle. Qed.

Lemma on_grows {R} (f : hub → R * hub) w : grows w (on f w).2.
Proof. unfold grows. rewrite on_past. by apply prefix_app_r. Qed.

Lemma grows_keeps {R} (f : hub → R * hub) w flag t v : made_of (past w) flag t v → made_of (past (on f w).2) flag t v.
Proof. apply made_of_later, on_grows. Qed.

(** Writing a new entry that is made of the past keeps the cache so. *)
Lemma cache_made_set {R} (f : hub → R * hub) w flag t v :
  cache_made w → quota_cache (cur (on f w).2) = dict_set flag (t, v) (quota_cache (cur w)) →
  made_of (past (on f w).2) flag t v → cache_made (on f w).2.
Proof.
  intros Hc He Hm fl t' v'. rewrite He, dict_lookup_set. destruct (String.eqb_spec fl flag) as [->|].
  - by intros [= <- <-].
  - intros Hl. by apply grows_keeps, Hc.
Qed.

Lemma cache_made_same {R} (f : hub → R * hub) w :
  cache_made w → quota_cache (cur (on f w).2) = quota_cache (cur w) → cache_made (on f w).2.
Proof. intros Hc He fl t v. rewrite He. intros Hl. by apply grows_keeps, Hc. Qed.

(** The first stretch. *)
Lemma plan_cases flag w (r := on (quota_plan flag) w) :
  cache_made w →
  cache_made r.2 ∧ past r.2 !! length (past w) = Some (cur w) ∧
  match r.1 with
  | Served v => ∃ t, made_of (past r.2) flag t v ∧ clock (cur w) - t < CACHE_TTL
  | Unlimited => quota_for_flag (cur w) flag = None
  | Ask now c pooled => quota_for_flag (cur w) flag = Some c ∧ now = clock (cur w) ∧ pooled = has_pool (cur w)
  end.
Proof.
  intros Hc. assert (Hlast : past r.2 !! length (past w) = Some (cur w)) by (subst r; rewrite on_past; apply lookup_last).
  assert (Hfresh : (let x := match quota_for_flag (cur w) flag with
             | None => (Unlimited, set_cache (dict_set flag (clock (cur w), None) (quota_cache (cur w))) (cur w))
             | Some c => (Ask (clock (cur w)) c (has_pool (cur w)), cur w) end in quota_plan flag (cur w) = x) →
    cache_made r.2 ∧ match r.1 with
      | Served _ => False
      | Unlimited => quota_for_flag (cur w) flag = None
      | Ask now c pooled => quota_for_flag (cur w) flag = Some c ∧ now = clock (cur w) ∧ pooled = has_pool (cur w)
      end).
  { cbv zeta. intros Hp. destruct (quota_for_flag (cur w) flag) as [c|] eqn:Hq.
    - split; [apply cache_made_same; [done|]|]; subst r; unfold on; by rewrite Hp.
    - split; [|subst r; unfold on; by rewrite Hp]. apply (cache_made_set _ _ flag (clock (cur w)) None); [done|unfold on; by rewrite Hp|].
      fold r. exists (length (past w)), (cur w). split; [done|]. split; [done|]. by rewrite Hq. }
  unfold quota_plan in Hfresh. cbv zeta in Hfresh.
  destruct (dict_lookup flag (quota_cache (cur w))) as [[t v]|] eqn:Hl.
  - destruct (Z.ltb_spec (clock (cur w) - t) CACHE_TTL) as [Ht|Ht].
    + assert (Hp : quota_plan flag (cur w) = (Served v, cur w)).
      { unfold quota_plan. rewrite Hl. by rewrite (proj2 (Z.ltb_lt _ _) Ht). }
      split; [apply cache_made_same; [done|unfold on; by rewrite Hp]|]. split; [done|].
      assert (Hr1 : r.1 = Served v) by (subst r; unfold on; by rewrite Hp). rewrite Hr1.
      exists t. split; [by apply grows_keeps, Hc|done].
    + destruct (Hfresh eq_refl) as [H1 H2]. split; [done|]. split; [done|]. by destruct r.1.
  - destruct (Hfresh eq_refl) as [H1 H2]. split; [done|]. split; [done|]. by destruct r.1.
Qed.

Lemma answered_later flag n r w w' : grows w w' → answered flag n r w → answered flag n r w'.
Proof.
  intros Hg. destruct r as [v|e]; [|done]. intros (k & h0 & Hk & Hl & Hv). exists k, h0. split; [done|].
  split; [by eapply prefix_lookup_Some|]. destruct Hv as [(t & Hm & Ht)|(Hz & j & h2 & Hj & Hl2 & Hu)].
  - left. exists t. split; [by eapply made_of_later|done].
  - right. split; [done|]. exists j, h2. split; [done|]. split; [by eapply prefix_lookup_Some|done].
Qed.

Definition honest (w : world) : Prop :=
  cache_made w ∧ ∀ flag n r, (flag, n, r) ∈ answers w → answered flag n r w.

Lemma on_answers {R} (f : hub → R * hub) w : answers (on f w).2 = answers w.
Proof. unfold on. by destruct (f (cur w)). Qed.

Lemma honest_on {R} (f : hub → R * hub) w : honest w → cache_made (on f w).2 → honest (on f w).2.
Proof.
  intros [_ Ha] Hc. split; [done|]. intros flag n r. rewrite on_answers. intros Hin.
  eapply answered_later; [apply on_grows|by apply Ha].
Qed.

(** A call, whatever comes between its actions. *)
Lemma quota_task_wp flag w :
  Tasks.wp honest grows (quota_task flag) (answered flag (length (past w))) w.
Proof.
  unfold quota_task. destruct (in_strs flag KNOWN_FEATURE_FLAGS) eqn:Hf; cbn [negb].
  2:{ cbn. split; [done|]. by apply in_strs_false. }
  apply (Tasks.wp_bind _ _), (Tasks.wp_act _ _). intros w1 Hg1 Hc1. pose proof (plan_cases flag w1 (proj1 Hc1)) as Hp. cbv zeta in Hp.
  split; [by apply honest_on, Hp|]. split; [apply on_grows|]. destruct Hp as (Hc2 & Hlast & Hp).
  assert (Hn : (length (past w) <= length (past w1))%nat) by (by apply prefix_length).
  set (w2 := (on (quota_plan flag) w1).2) in *. destruct (on (quota_plan flag) w1).1 as [v| |now c pooled].
  - cbn. exists (length (past w1)), (cur w1). split; [done|]. split; [done|]. by left.
  - cbn. exists (length (past w1)), (cur w1). split; [done|]. split; [done|]. left. exists (clock (cur w1)).
    split; [|unfold CACHE_TTL, usec_per_sec; lia]. exists (length (past w1)), (cur w1). by rewrite Hp.
  - destruct Hp as (Hq & -> & ->). apply (Tasks.wp_bind _ _), (Tasks.wp_act _ _). intros w3 Hg3 Hc3.
    set (ask := fun h : hub => (ask_used flag (clock (cur w1)) (has_pool (cur w1)) h, h)).
    split; [by apply honest_on, cache_made_same; [|apply Hc3|]|]. split; [apply on_grows|].
    assert (Hkeep3 : past (on ask w3).2 !! length (past w1) = Some (cur w1)).
    { rewrite on_past. eapply prefix_lookup_Some; [exact Hlast|]. etrans; [exact Hg3|]. by apply prefix_app_r. }
    assert (Hlt : (length (past w1) < length (past w3))%nat).
    { apply lookup_lt_Some in Hlast. eapply Nat.lt_le_trans; [exact Hlast|]. by apply prefix_length. }
    assert (Hlast3 : past (on ask w3).2 !! length (past w3) = Some (cur w3)) by (rewrite on_past; apply lookup_last).
    cbn [on ask fst]. destruct (ask_used flag (clock (cur w1)) (has_pool (cur w1)) (cur w3)) as [used|] eqn:Hu.
    2:{ cbn. exists (length (past w1)), (cur w1). split; [done|]. split; [done|]. right. split; [done|].
        exists (length (past w3)), (cur w3). split; [done|]. split; [done|].
        revert Hu. unfold ask_used. destruct (has_pool (cur w1)); [|done]. by destruct (usage_readable (cur w3)). }
    assert (Hmade : made_of (past (on ask w3).2) flag (clock (cur w1)) (Some (Z.max 0 (c - used)))).
    { exists (length (past w1)), (cur w1). split; [done|]. split; [done|]. rewrite Hq.
      by exists (length (past w3)), (cur w3), used. }
    apply (Tasks.wp_bind _ _), (Tasks.wp_act _ _). intros w4 Hg4 Hc4.
    set (put := fun h : hub => (tt, store_quota flag (clock (cur w1)) (Some (Z.max 0 (c - used))) h)).
    assert (Hmade4 : made_of (past (on put w4).2) flag (clock (cur w1)) (Some (Z.max 0 (c - used)))).
    { apply grows_keeps. eapply made_of_later; [exact Hg4|exact Hmade]. }
    split; [by apply honest_on; [|eapply cache_made_set; [apply Hc4|reflexivity|exact Hmade4]]|]. split; [apply on_grows|]. cbn.
    exists (length (past w1)), (cur w1). split; [done|]. split.
    + eapply prefix_lookup_Some; [exact Hkeep3|]. etrans; [exact Hg4|]. by apply prefix_app_r.
    + left. exists (clock (cur w1)). split; [exact Hmade4|]. unfold CACHE_TTL, usec_per_sec. lia.
Qed.

(** * Every interleaving *)

(** Someone who asks and notes the answer. *)
Definition caller (flag : string) : task world exn unit :=
  n <- act (fun w => (length (past w), w));;
  handle (quota_task flag)
    (fun r => act (fun w => (tt, {| cur := cur w; past := past w; answers := answers w ++ [(flag, n, r)] |}))).

Inductive calls : task world exn unit → Prop :=
| calls_intro flag : calls (caller flag).

(** The rest of the process and the world: bundles are loaded and checked, rows are written
    and revoked, the clock is set to anything, the cache is dropped. *)
Definition elsewhere (w w' : world) : Prop :=
  past w' = past w ++ [cur w] ∧ answers w' = answers w ∧
  ∀ flag e, dict_lookup flag (quota_cache (cur w')) = Some e → dict_lookup flag (quota_cache (cur w)) = Some e.

(** What [License] does apart from quota calls is of this kind. *)
Lemma license_elsewhere crypto verify validate trusted h hs l h' :
  (h' = (load_active_bundle crypto verify validate trusted h).2 ∨
   h' = periodic_verify crypto verify validate trusted h ∨
   (∃ flag inc period, h' = (record_usage h flag inc period).2) ∨
   ∃ bs us pool readable v now, h' = {| active := active h; quota_cache := quota_cache h; bundles := bs; usage := us;
     has_pool := pool; usage_readable := readable; vault := v; clock := now |}) →
  elsewhere {| cur := h; past := hs; answers := l |} {| cur := h'; past := hs ++ [h]; answers := l |}.
Proof.
  intros H. split; [done|]. split; [done|]. cbn [cur]. intros flag e.
  assert (Hload : quota_cache (load_active_bundle crypto verify validate trusted h).2 = quota_cache h).
  { unfold load_active_bundle. by destruct (load_bundle _ _ _ _ h). }
  destruct H as [->|[->|[(fl & inc & period & ->)|(bs & us & pl & rd & v & now & ->)]]].
  - by rewrite Hload.
  - unfold periodic_verify. destruct (load_active_bundle crypto verify validate trusted h) as [[b|[code| |]] h1]; cbn in *;
      [by rewrite Hload| |by rewrite Hload|by rewrite Hload].
    destruct (active h1); cbn; by rewrite Hload.
  - unfold record_usage. by destruct (Quota.record_usage _ _ _ _ _) as [[[? ?] ?]|].
  - done.
Qed.

Lemma caller_wp flag w : Tasks.wp honest grows (caller flag) anything w.
Proof.
  unfold caller. apply (Tasks.wp_bind _ _), (Tasks.wp_act _ _). intros w1 _ Hh1. cbn [fst snd].
  split; [done|]. split; [reflexivity|]. apply Tasks.wp_handle.
  eapply (Tasks.wp_mono _ _); [|apply (quota_task_wp flag w1)]. intros r w2 _ Hans.
  apply (Tasks.wp_act _ _). intros w3 Hg3 [Hc3 Ha3]. cbn [snd]. split; [|split; [apply (reflexivity (R := prefix))|done]].
  split; [exact Hc3|]. intros fl n r'. cbn [answers]. rewrite elem_of_app, list_elem_of_singleton. intros [Hin|[= -> -> ->]].
  - exact (Ha3 _ _ _ Hin).
  - exact (answered_later _ _ _ _ _ Hg3 Hans).
Qed.

Lemma elsewhere_honest w w' : elsewhere w w' → honest w → honest w' ∧ grows w w'.
Proof.
  intros (Hp & Ha & Hc) [Hcm Hans]. assert (Hg : grows w w') by (unfold grows; rewrite Hp; by apply prefix_app_r).
  split; [|done]. split.
  - intros flag t v Hl. eapply made_of_later; [exact Hg|]. by apply Hcm, Hc.
  - intros flag n r. rewrite Ha. intros Hin. eapply answered_later; [exact Hg|by apply Hans].
Qed.

Definition started (h : hub) : world := {| cur := h; past := []; answers := [] |}.

(** C14: what a quota answer is made of.  In a process that starts with an empty cache, in
    every interleaving of any number of calls with each other and with everything else the
    process, its database and its clock do, every answer a caller was given is: the ceiling
    of the bundle that was active when the clock read some [t], less the usage the table
    showed at a later moment for the period of [t] and not below zero, or no limit where
    that bundle sets none; and after the call began the clock read less than [t] plus sixty
    seconds.  The other answers are 0, after a read of the table that failed during the
    call, and the KeyError of an unknown flag.  Both readings are the clock's own: where it
    was set back the answer is older than they say; and a bundle replaced between the two
    reads is not noticed ([mixed_answer]). *)
Theorem quota_answers_recent h0 w l flag n r :
  quota_cache h0 = [] → rtc (pool_step calls elsewhere) (started h0, []) (w, l) →
  (flag, n, r) ∈ answers w → answered flag n r w.
Proof.
  intros H0 Hr Hin. assert (Hh : honest w); [|by apply Hh].
  change (honest (w, l).1). eapply (pool_invariant honest grows); [| |exact Hr| |].
  - intros t w1 [fl] _. apply caller_wp.
  - apply elsewhere_honest.
  - split; [|intros ? ? ? Hx; by apply elem_of_nil in Hx]. intros fl t v. cbn. by rewrite H0.
  - intros t Ht. by apply elem_of_nil in Ht.
Qed.

(** * A licence replaced in the middle of a call *)
Definition smaller_hub : hub :=
  {| active := (fun b => {| payload := {| payload_version := payload_version (payload b); customer := "acme"; tier := "team";
        bundle_id := "b2"; issued_at := 1; expires_at := None; notes := None;
        feature_flags := [{| flag_name := "quota_max_projects"; enabled := true; quota_value := Some 3; quota_unit := None |}] |};
       signature_ok := true; last_verified_at := 1; last_error := None |}) <$> active licensed_hub;
     quota_cache := []; bundles := []; usage := [{| Quota.u_flag := "quota_max_projects"; Quota.u_start := Quota.march.1;
       Quota.u_end := Quota.march.2; Quota.u_used := 2; Quota.u_anchor := None |}];
     has_pool := true; usage_readable := true; vault := vault licensed_hub; clock := clock licensed_hub + 1 |}.

(** The other licence is put in, and two units are recorded. *)
Definition replaced (w : world) : world :=
  {| cur := smaller_hub; past := past w ++ [cur w]; answers := answers w |}.

Definition asking : task world exn unit := caller "quota_max_projects".
Definition half_way : Tasks.pool (W := world) (E := exn) := interleave [0; 0]%nat (started licensed_hub, [asking]).
Definition answered_pool : Tasks.pool (W := world) (E := exn) :=
  interleave [0; 0; 0]%nat (replaced half_way.1, half_way.2).

(** Ten units before, one after; the caller is told eight, and so is everyone who asks in
    the next minute. *)
Example mixed_answer :
  (quota_remaining licensed_hub "quota_max_projects").1 = Ok (Some 10) ∧
  (quota_remaining smaller_hub "quota_max_projects").1 = Ok (Some 1) ∧
  answers answered_pool.1 = [("quota_max_projects", 0%nat, Ok (Some 8))] ∧
  (quota_remaining (cur answered_pool.1) "quota_max_projects").1 = Ok (Some 8).
Proof. vm_compute. done. Qed.

Lemma quota_answers_recent_witness :
  answers answered_pool.1 = [("quota_max_projects", 0%nat, Ok (Some 8))] ∧
  answered "quota_max_projects" 0 (Ok (Some 8)) answered_pool.1.
Proof.
  split; [vm_compute; reflexivity|].
  apply (quota_answers_recent licensed_hub answered_pool.1 answered_pool.2).
  - vm_compute. reflexivity.
  - rewrite <-surjective_pairing. unfold answered_pool.
    eapply rtc_l; [apply (step_begin _ _ _ [] _ (calls_intro "quota_max_projects"))|].
    etransitivity; [apply (interleave_steps _ _ [0; 0]%nat)|]. fold asking. fold half_way.
    eapply rtc_l; [|apply interleave_steps].
    rewrite (surjective_pairing half_way) at 1. apply step_outside.
    split; [reflexivity|]. split; [reflexivity|]. intros flag e He. vm_compute in He. discriminate He.
  - vm_compute. left.
Defined.

End QuotaTasks.
