(* ===== verification/RateLimit.v ===== *)
(** The rate limiter of the public API: [shared/api/rate_limit.py].

    A request for a licensed route takes a token from the bucket of its organisation and
    flag; an empty bucket answers 429 with the seconds to wait.  Buckets are objects the
    store and a request in flight both point to, so they live on a heap.  Numbers of
    seconds and tokens are doubles ([Float64]).  The database and the rest of the
    application are arguments. *)

From S2P Require Import Prelude PyValue Float64.
Local Open Scope Z_scope.

Module RateLimit.
Import Float64.

Definition QUOTA_UNIT_WINDOWS_SECONDS : list (string * Z) :=
  [("runs_per_day", 86400); ("tokens_per_day", 86400); ("agents_per_month", 30 * 86400)].
Definition QUOTA_CACHE_TTL_SECONDS : Z := of_Z 30.
Definition DEFAULT_ORG_ID : string := "local".

(** * Quota providers *)

(** [(quota_value, quota_unit)]. *)
Definition QuotaTuple : Type := option Z * option string.

(** A row of [spine_license.feature_flag]. *)
Record flag_row := {
  row_flag : string; row_enabled : bool; row_value : option Z; row_unit : option string; updated_at : option Z
}.

(** The database at one moment: no pool, a statement that raises, or the table. *)
Inductive database :=
| NoPool
| QueryFails
| Table (rows : list flag_row).

(** [ORDER BY updated_at DESC NULLS LAST LIMIT 1]; of equal rows the first of the table. *)
Definition later (r b : flag_row) : bool :=
  match updated_at r, updated_at b with
  | Some x, Some y => y <? x
  | Some _, None => true
  | None, _ => false
  end.

Fixpoint newest (flag : string) (best : option flag_row) (rows : list flag_row) : option flag_row :=
  match rows with
  | [] => best
  | r :: rows' =>
      let take := String.eqb (row_flag r) flag && row_enabled r &&
        match best with Some b => later r b | None => true end in
      newest flag (if take then Some r else best) rows'
  end.

Definition default_quota_provider (db : database) (org_id flag_name : string) : QuotaTuple :=
  match db with
  | NoPool | QueryFails => (None, None)
  | Table rows => match newest flag_name None rows with
                  | Some r => (row_value r, row_unit r)
                  | None => (None, None)
                  end
  end.

(** * The bucket store *)
Record bucket := {
  capacity : Z; tokens : Z; refill_per_second : Z; last_refill_ts : Z; quota_value : Z; quota_unit : string
}.

Definition set_tokens (t : Z) (b : bucket) : bucket :=
  {| capacity := capacity b; tokens := t; refill_per_second := refill_per_second b;
     last_refill_ts := last_refill_ts b; quota_value := quota_value b; quota_unit := quota_unit b |}.

Definition set_rate (r : Z) (b : bucket) : bucket :=
  {| capacity := capacity b; tokens := tokens b; refill_per_second := r;
     last_refill_ts := last_refill_ts b; quota_value := quota_value b; quota_unit := quota_unit b |}.

Definition refill (now : Z) (b : bucket) : bucket :=
  if now <=? last_refill_ts b then b
  else
    let delta := fsub now (last_refill_ts b) in
    {| capacity := capacity b;
       tokens := Z.min (capacity b) (fadd (tokens b) (fmul delta (refill_per_second b)));
       refill_per_second := refill_per_second b; last_refill_ts := now;
       quota_value := quota_value b; quota_unit := quota_unit b |}.

(** The bucket after the call and the seconds; [None] is infinity. *)
Definition seconds_until_one_token (now : Z) (b : bucket) : bucket * option Z :=
  let b := refill now b in
  (b, if one <=? tokens b then Some 0
      else if refill_per_second b <=? 0 then None
      else Some (fdiv (fsub one (tokens b)) (refill_per_second b))).

Record quota_entry := { entry_quota : QuotaTuple; expires_at : Z }.

Definition key : Type := string * string.

(** [_BucketStore]: the bucket objects, the two dicts. *)
Record bucket_store := { heap : list bucket; buckets : gmap key nat; quota_cache : gmap key quota_entry }.

Definition empty_store : bucket_store := {| heap := []; buckets := ∅; quota_cache := ∅ |}.

Definition reset (s : bucket_store) : bucket_store := {| heap := heap s; buckets := ∅; quota_cache := ∅ |}.

Definition find_bucket (k : key) (s : bucket_store) : option (nat * bucket) :=
  match buckets s !! k with
  | Some a => match heap s !! a with Some b => Some (a, b) | None => None end
  | None => None
  end.

Definition set_bucket (a : nat) (b : bucket) (s : bucket_store) : bucket_store :=
  {| heap := <[a := b]> (heap s); buckets := buckets s; quota_cache := quota_cache s |}.

Definition new_bucket (k : key) (b : bucket) (s : bucket_store) : bucket_store :=
  {| heap := heap s ++ [b]; buckets := <[k := length (heap s)]> (buckets s); quota_cache := quota_cache s |}.

Definition cache_quota (k : key) (e : quota_entry) (s : bucket_store) : bucket_store :=
  {| heap := heap s; buckets := buckets s; quota_cache := <[k := e]> (quota_cache s) |}.

(** 1. The quota row, read again when it is older than the time to live. *)
Definition resolve_quota (k : key) (provider : string → string → QuotaTuple) (now : Z) (s : bucket_store)
    : QuotaTuple * bucket_store :=
  let fetch :=
    let q := provider k.1 k.2 in
    (q, cache_quota k {| entry_quota := q; expires_at := fadd now QUOTA_CACHE_TTL_SECONDS |} s) in
  match quota_cache s !! k with
  | Some e => if expires_at e <=? now then fetch else (entry_quota e, s)
  | None => fetch
  end.

(** The quota, its unit and its window, when the flag has a rate. *)
Definition rate_of (q : QuotaTuple) : option (Z * string * Z) :=
  match q with
  | (Some qv, Some qu) =>
      if qv <=? 0 then None
      else match dict_lookup qu QUOTA_UNIT_WINDOWS_SECONDS with Some w => Some (qv, qu, w) | None => None end
  | _ => None
  end.

(** 2. The bucket of the key: a full one for a first request or a changed quota. *)
Definition resolve_bucket (k : key) (qv : Z) (qu : string) (w now : Z) (s : bucket_store)
    : nat * bucket * bucket_store :=
  let rate := fdiv (of_Z qv) (of_Z w) in
  let b := {| capacity := of_Z qv; tokens := of_Z qv; refill_per_second := rate; last_refill_ts := now;
              quota_value := qv; quota_unit := qu |} in
  match find_bucket k s with
  | Some (a, b0) =>
      if capacity b0 =? of_Z qv then (a, set_rate rate b0, set_bucket a (set_rate rate b0) s)
      else (length (heap s), b, new_bucket k b s)
  | None => (length (heap s), b, new_bucket k b s)
  end.

(** 3. Refill and try to spend. *)
Definition spend (now : Z) (b : bucket) : bool * bucket * option Z :=
  let b := refill now b in
  if one <=? tokens b then (true, set_tokens (fsub (tokens b) one) b, Some 0)
  else let '(b, retry_after) := seconds_until_one_token now b in (false, b, retry_after).

(** [consume]: allowed, the bucket object, the seconds to wait. *)
Definition consume (k : key) (provider : string → string → QuotaTuple) (now : Z) (s : bucket_store)
    : bool * option nat * option Z * bucket_store :=
  let '(q, s) := resolve_quota k provider now s in
  match rate_of q with
  | None => (true, None, Some 0, s)
  | Some (qv, qu, w) =>
      let '(a, b, s) := resolve_bucket k qv qu w now s in
      let '(allowed, b, retry_after) := spend now b in
      (allowed, Some a, retry_after, set_bucket a b s)
  end.

(** * Routes and flags *)
Definition ROUTE_FLAG_MAP : list (string * string) :=
  [("/api/v2/integrations/github", "integration_github");
   ("/api/v2/integrations/linear", "integration_linear");
   ("/api/v2/integrations/jira", "integration_jira");
   ("/api/v2/integrations/vanta", "integration_vanta");
   ("/api/v2/integrations/drata", "integration_drata");
   ("/api/v2/federation", "federation");
   ("/api/v2/role-chat", "remote_mcp");
   ("/api/v2/decisions", "hub_admin");
   ("/api/v2/", "quota_max_concurrent_runs")].

Fixpoint longest_prefix (path : string) (best : Z * option string) (routes : list (string * string))
    : Z * option string :=
  match routes with
  | [] => best
  | (prefix, flag) :: routes' =>
      let n := Z.of_nat (text_length prefix) in
      longest_prefix path (if startswith path prefix && (best.1 <? n) then (n, Some flag) else best) routes'
  end.

Definition map_route_to_flag (path : string) : option string := (longest_prefix path (-1, None) ROUTE_FLAG_MAP).2.

(** * The middleware *)
Record request := {
  method : string; path : string; org_header : option string; state_org_id : option string
}.

(** The status, the headers and body the middleware knows of. *)
Record response := { status : Z; headers : list (string * string); body : option dict }.

(** The process: the installed provider ([None]: the default one) and the store. *)
Record process := { provider : option (string → string → QuotaTuple); store : bucket_store }.

Definition set_store (s : bucket_store) (p : process) : process := {| provider := provider p; store := s |}.
Definition set_quota_provider (f : option (string → string → QuotaTuple)) (p : process) : process :=
  {| provider := f; store := store p |}.
Definition get_quota_provider (db : database) (p : process) : string → string → QuotaTuple :=
  match provider p with Some f => f | None => default_quota_provider db end.
Definition reset_bucket_store (p : process) : process := set_store (reset (store p)) p.

Definition SKIP_METHODS : list string := ["OPTIONS"].

(** [a or b or default] on optional strings. *)
Definition or_else (a : option string) (b : string) : string :=
  match a with Some s => if String.eqb s "" then b else s | None => b end.

Definition org_of (r : request) : string := or_else (org_header r) (or_else (state_org_id r) DEFAULT_ORG_ID).

(** The bucket a request is charged to. *)
Definition request_key (r : request) : option key :=
  if in_strs (method r) SKIP_METHODS then None
  else match map_route_to_flag (path r) with Some flag => Some (org_of r, flag) | None => None end.

(** What [dispatch] does before the rest of the application runs: call it, holding the flag
    and the bucket, or answer itself. *)
Inductive verdict :=
| CallNext (charged : option (string * nat))
| Answer (r : response).

(** [math.ceil(inf)]. *)
Inductive exn := OverflowError.

Definition retry_seconds (retry_after : option Z) : outcome exn Z :=
  match retry_after with Some r => Ok (Z.max 1 (ceil r)) | None => Raise OverflowError end.

Definition too_many_requests (flag : string) (retry_secs : Z) (b : option bucket) : response :=
  {| status := 429;
     headers := [("Retry-After", str_of_Z retry_secs); ("X-Spine-Rate-Limit-Flag", flag)];
     body := Some ([("error_code", VStr "rate_limited");
                    ("message", VStr ("Quota exceeded for feature " ++ repr_str flag ++ "; retry in "
                                      ++ str_of_Z retry_secs ++ "s.")%string);
                    ("feature_flag", VStr flag); ("retry_after_seconds", VInt retry_secs)]
                   ++ match b with
                      | Some b => [("quota_value", VInt (quota_value b)); ("quota_unit", VStr (quota_unit b))]
                      | None => []
                      end) |}.

Definition object_at (a : option nat) (s : bucket_store) : option bucket :=
  match a with Some a => heap s !! a | None => None end.

Definition enter (r : request) (now : Z) (db : database) (p : process) : outcome exn verdict * process :=
  match request_key r with
  | None => (Ok (CallNext None), p)
  | Some k =>
      let '(allowed, a, retry_after, s) := consume k (get_quota_provider db p) now (store p) in
      (if allowed : bool then Ok (CallNext (match a with Some a => Some (k.2, a) | None => None end))
       else retry_secs ← retry_seconds retry_after;
            Ok (Answer (too_many_requests k.2 retry_secs (object_at a s))),
       set_store s p)
  end.

(** What it does with the response; the bucket is read as it is by then. *)
Definition finish (charged : option (string * nat)) (p : process) (resp : response) : response :=
  match charged with
  | Some (flag, a) =>
      match heap (store p) !! a with
      | Some b =>
          {| status := status resp;
             headers := dict_update (headers resp)
               [("X-Spine-Rate-Limit-Remaining", str_of_Z (Z.max 0 (trunc (tokens b))));
                ("X-Spine-Rate-Limit-Capacity", str_of_Z (trunc (capacity b)));
                ("X-Spine-Rate-Limit-Flag", flag)];
             body := body resp |}
      | None => resp
      end
  | None => resp
  end.

(** [dispatch]; [call_next] is the rest of the application with whatever else runs before
    it answers. *)
Definition dispatch (r : request) (now : Z) (db : database) (call_next : process → response * process) (p : process)
    : outcome exn response * process :=
  let '(v, p) := enter r now db p in
  match v with
  | Ok (Answer resp) => (Ok resp, p)
  | Ok (CallNext charged) => let '(resp, p) := call_next p in (Ok (finish charged p resp), p)
  | Raise e => (Raise e, p)
  end.

(** * Routes *)
Section Routes.
Context (path : string).

(** [best] is a longest matching prefix among [routes], or nothing matches. *)
Definition longest_of (best : Z * option string) (routes : list (string * string)) : Prop :=
  match best.2 with
  | Some flag =>
      (∃ prefix, (prefix, flag) ∈ routes ∧ startswith path prefix = true ∧ best.1 = Z.of_nat (text_length prefix)) ∧
      ∀ r, r ∈ routes → startswith path r.1 = true → Z.of_nat (text_length r.1) <= best.1
  | None => best.1 = -1 ∧ ∀ r, r ∈ routes → startswith path r.1 = false
  end.

Lemma longest_prefix_of best seen routes :
  longest_of best seen → longest_of (longest_prefix path best routes) (seen ++ routes).
Proof.
  revert best seen. induction routes as [|[prefix flag] routes IH]; intros best seen Hb; cbn [longest_prefix].
  { by rewrite app_nil_r. }
  rewrite cons_middle, app_assoc. apply IH. unfold longest_of in *.
  destruct (startswith path prefix) eqn:Es; cbn [andb].
  - destruct (Z.ltb_spec best.1 (Z.of_nat (text_length prefix))) as [L|L]; cbn [snd fst].
    + split; [exists prefix; by rewrite elem_of_app, list_elem_of_singleton; auto|].
      intros r [Hr|Hr%list_elem_of_singleton]%elem_of_app Hm; [|by subst r].
      destruct best.2; [destruct Hb as [_ Hb]; specialize (Hb r Hr Hm); lia|].
      destruct Hb as [_ Hb]. by rewrite Hb in Hm.
    + destruct best.2; [|destruct Hb; lia]. destruct Hb as [(pf & Hin & Hb) Hall].
      split; [exists pf; by rewrite elem_of_app; auto|].
      intros r [Hr|Hr%list_elem_of_singleton]%elem_of_app Hm; [by apply Hall|by subst r].
  - destruct best.2.
    + destruct Hb as [(pf & Hin & Hb) Hall]. split; [exists pf; by rewrite elem_of_app; auto|].
      intros r [Hr|Hr%list_elem_of_singleton]%elem_of_app Hm; [by apply Hall|subst r; cbn in Hm; congruence].
    + destruct Hb as [H1 Hb]. split; [done|].
      intros r [Hr|Hr%list_elem_of_singleton]%elem_of_app; [by apply Hb|by subst r].
Qed.

(** Wherever it stands in the table, a longest matching prefix decides; a path no prefix
    matches is not limited. *)
Lemma map_route_longest :
  match map_route_to_flag path with
  | Some flag =>
      ∃ prefix, (prefix, flag) ∈ ROUTE_FLAG_MAP ∧ startswith path prefix = true ∧
        ∀ r, r ∈ ROUTE_FLAG_MAP → startswith path r.1 = true → (text_length r.1 <= text_length prefix)%nat
  | None => ∀ r, r ∈ ROUTE_FLAG_MAP → startswith path r.1 = false
  end.
Proof.
  assert (H0 : longest_of (-1, None) []) by (split; [done|]; by intros r Hr%elem_of_nil).
  pose proof (longest_prefix_of _ _ ROUTE_FLAG_MAP H0) as H. unfold map_route_to_flag, longest_of in *.
  destruct (longest_prefix path (-1, None) ROUTE_FLAG_MAP) as [n [flag|]]; cbn [snd fst app] in *; [|apply H].
  destruct H as [(prefix & Hin & Hs & ->) Hall]. exists prefix. split_and!; try done.
  intros r Hr Hm. specialize (Hall r Hr Hm). lia.
Qed.
End Routes.

End RateLimit.
