(* ===== verification/TokenBucket.v ===== *)
(** The token bucket of the rate limiter: the arithmetic of one bucket in doubles, the
    store as a bucket per key, and what a client may count on. *)

From S2P Require Import Prelude PyValue Float64 RateLimit.
Local Open Scope Z_scope.

Module TokenBucket.
Import Float64 RateLimit.

(** * One bucket *)
Definition bucket_ok (b : bucket) : Prop :=
  0 <= tokens b <= capacity b ∧ is_double (capacity b) ∧ 0 <= refill_per_second b.

Lemma fsub_nonneg a b : b <= a → 0 <= fsub a b.
Proof. intros H. apply round_nonneg; lia. Qed.

Lemma fmul_nonneg a b : 0 <= a → 0 <= b → 0 <= fmul a b.
Proof. intros Ha Hb. apply round_nonneg; [exact one_pos|nia]. Qed.

Lemma fdiv_nonneg a b : 0 <= a → 0 < b → 0 <= fdiv a b.
Proof. intros Ha Hb. apply round_nonneg; [done|]. pose proof one_pos. nia. Qed.

Lemma refill_ok now b : bucket_ok b → bucket_ok (refill now b).
Proof.
  intros (Ht & Hc & Hr). unfold refill. destruct (Z.leb_spec now (last_refill_ts b)) as [L|L]; [done|].
  split_and!; cbn; try done; [|lia].
  pose proof (fmul_nonneg _ _ (fsub_nonneg now (last_refill_ts b) ltac:(lia)) Hr).
  apply Z.min_glb; [lia|]. apply round_nonneg; lia.
Qed.

Lemma refill_twice now b : refill now (refill now b) = refill now b.
Proof.
  unfold refill at 2 3. destruct (Z.leb_spec now (last_refill_ts b)) as [L|L].
  - unfold refill. by rewrite (proj2 (Z.leb_le _ _) L).
  - unfold refill. cbn. by rewrite Z.leb_refl.
Qed.

(** What [spend] returns, by the tokens after the refill. *)
Lemma spend_spec now b :
  spend now b =
    let b' := refill now b in
    if one <=? tokens b' then (true, set_tokens (fsub (tokens b') one) b', Some 0)
    else (false, b', if refill_per_second b' <=? 0 then None
                     else Some (fdiv (fsub one (tokens b')) (refill_per_second b'))).
Proof.
  unfold spend, seconds_until_one_token. cbn zeta. rewrite refill_twice.
  by destruct (one <=? tokens (refill now b)).
Qed.

Lemma spend_ok now b : bucket_ok b → bucket_ok (spend now b).1.2.
Proof.
  intros Hb. pose proof (refill_ok now b Hb) as (Ht & Hc & Hr). rewrite spend_spec. cbn zeta.
  destruct (Z.leb_spec one (tokens (refill now b))) as [L|L]; cbn [fst snd]; [|done].
  pose proof one_pos. split_and!; cbn; try done.
  - by apply fsub_nonneg.
  - apply round_le; [lia|done].
Qed.

(** The rounded product of a rounded span and a rounded rate. *)
Lemma gain_high_chain D r x u w qv delta :
  1 <= u → 0 <= qv → 0 <= w → 0 <= D → 0 <= r → 0 <= delta <= w * u →
  D * 2 ^ 53 <= delta * (2 ^ 53 + 1) + 2 ^ 52 →
  r * w * 2 ^ 53 <= qv * u * (2 ^ 53 + 1) + w * 2 ^ 52 →
  x * u * 2 ^ 53 <= D * r * (2 ^ 53 + 1) + u * 2 ^ 52 →
  x * w * 2 ^ 51 <= delta * qv * (2 ^ 51 + 1) + 2 ^ 51 * w * (w + qv + 4).
Proof.
  intros Hu Hqv Hw HD Hr Hd HP HQ HX.
  assert (HD' : 0 <= D * 2 ^ 53) by lia. assert (HR' : 0 <= r * w * 2 ^ 53) by nia.
  pose proof (Z.mul_le_mono_nonneg _ _ _ _ HD' HP HR' HQ) as HM.
  apply (Z.mul_le_mono_nonneg_r _ _ w) in HX; [|done].
  assert (Hdw : delta * w <= w * u * w) by (apply Z.mul_le_mono_nonneg_r; lia).
  assert (Hqu : qv * 1 <= qv * u) by (apply Z.mul_le_mono_nonneg_l; lia).
  assert (Hwu : w * 1 <= w * u) by (apply Z.mul_le_mono_nonneg_l; lia).
  assert (Hdq : 0 <= delta * qv) by (apply Z.mul_nonneg_nonneg; lia).
  assert (Hdqu : 0 <= delta * qv * u) by (apply Z.mul_nonneg_nonneg; lia).
  assert (Hw0 : w = 0 ∨ 1 <= w) by lia.
  assert (Hqwu : w = 0 ∨ 1 * (qv * u) <= w * (qv * u)) by (destruct Hw0; [by left|right; apply Z.mul_le_mono_nonneg_r; lia]).
  apply (Zmult_le_reg_r _ _ u); [lia|]. clear HP HQ HD' HR'.
  destruct Hqwu as [->|Hqwu]; lia.
Qed.

(** A span of the rounded wait and one second more brings what was missing. *)
Lemma retry_chain g G y r u D x :
  2 ^ 53 <= u → 0 <= g <= u → u <= r * 2 ^ 23 →
  g * (2 ^ 53 - 1) <= G * 2 ^ 53 + 2 ^ 52 →
  G * u * (2 ^ 53 - 1) <= y * r * 2 ^ 53 + r * 2 ^ 52 →
  (y + u) * (2 ^ 53 - 1) <= D * 2 ^ 53 + 2 ^ 52 →
  D * r * (2 ^ 53 - 1) <= x * u * 2 ^ 53 + u * 2 ^ 52 →
  g <= x.
Proof.
  intros Hu Hg Hr HG Hy HD Hx.
  apply (Z.mul_le_mono_nonneg_r _ _ u) in HG; [|lia].
  apply (Z.mul_le_mono_nonneg_r _ _ r) in HD; [|lia].
  assert (Hur : u * u <= r * 2 ^ 23 * u) by (apply Z.mul_le_mono_nonneg_r; lia).
  assert (Hgu : g * u <= u * u) by (apply Z.mul_le_mono_nonneg_r; lia).
  assert (Hgu0 : 0 <= g * u) by (apply Z.mul_nonneg_nonneg; lia).
  assert (Huu : 2 ^ 53 * u <= u * u) by (apply Z.mul_le_mono_nonneg_r; lia).
  assert (Hrr : 2 ^ 53 * r <= u * r) by (apply Z.mul_le_mono_nonneg_r; lia).
  apply (Zmult_le_reg_r _ _ u); [lia|]. lia.
Qed.

(** The spent tokens of [n] calls, the bucket's and the rounding, against the span [x - T]. *)
Lemma budget_step_chain n spent t t1 t2 e g qv w V span delta :
  2 <= V → 1 <= qv → 0 <= w → 0 <= g → 0 <= t <= qv * (2 ^ 50 * V) → 0 <= e →
  t1 <= qv * (2 ^ 50 * V) → t1 * 2 ^ 53 <= (t + g) * (2 ^ 53 + 1) + 2 ^ 52 →
  t2 * 2 ^ 53 <= (t1 - e * (2 ^ 50 * V)) * (2 ^ 53 + 1) + 2 ^ 52 →
  g * w * 2 ^ 51 <= delta * qv * (2 ^ 51 + 1) + 2 ^ 51 * w * (w + qv + 4) →
  w * 2 ^ 51 * (2 ^ 50 * V * spent + t - qv * (2 ^ 50 * V) - n * (qv * V)) <=
    span * qv * (2 ^ 51 + 1) + n * (2 ^ 51 * w * (w + qv + 4)) →
  w * 2 ^ 51 * (2 ^ 50 * V * (spent + e) + t2 - qv * (2 ^ 50 * V) - (n + 1) * (qv * V)) <=
    (span + delta) * qv * (2 ^ 51 + 1) + (n + 1) * (2 ^ 51 * w * (w + qv + 4)).
Proof.
  intros HV Hqv Hw Hg Ht He Hc H1 H2 Hgain HB.
  assert (HqV : 1 * V <= qv * V) by (apply Z.mul_le_mono_nonneg_r; lia).
  assert (HeV : 0 <= e * V) by (apply Z.mul_nonneg_nonneg; lia).
  assert (Hstep : t2 + e * (2 ^ 50 * V) <= t + g + qv * V).
  { assert (Ht1 : t1 * 2 ^ 53 <= (t + g) * 2 ^ 53 + 2 * (qv * (2 ^ 50 * V)) + 2 ^ 52)
      by (destruct (Z.le_gt_cases (t + g) (2 * (qv * (2 ^ 50 * V)))); lia).
    lia. }
  apply (Z.mul_le_mono_nonneg_l _ _ w) in Hstep; [|lia]. lia.
Qed.

(** * The arithmetic of a quota *)
Section Quota.
Context (qv w : Z) (Hqv : 1 <= qv <= 2 ^ 48) (Hw : 1 <= w <= 2 ^ 22).

Definition rate : Z := fdiv (of_Z qv) (of_Z w).

Lemma cap_exact : of_Z qv = qv * one.
Proof. apply of_Z_exact. lia. Qed.

Lemma window_exact : of_Z w = w * one.
Proof. apply of_Z_exact. lia. Qed.

Lemma cap_double : is_double (of_Z qv).
Proof. apply round_double; [lia|]. pose proof one_pos. nia. Qed.

Lemma rate_error : Z.abs (rate * w - qv * one) * 2 ^ 53 <= qv * one + w * 2 ^ 52.
Proof.
  pose proof one_pos. pose proof (round_error (of_Z qv * one) (of_Z w)) as H0.
  rewrite window_exact, cap_exact in H0. specialize (H0 ltac:(nia) ltac:(nia)).
  change (round (qv * one * one) (w * one)) with (fdiv (qv * one) (w * one)) in H0.
  rewrite <-window_exact, <-cap_exact in H0 at 1. fold rate in H0.
  replace (rate * (w * one) - qv * one * one) with ((rate * w - qv * one) * one) in H0 by ring.
  rewrite Z.abs_mul, (Z.abs_eq one) in H0 by lia. nia.
Qed.

(** The rate is far above the rounding error. *)
Lemma rate_big : one <= rate * 2 ^ 23.
Proof.
  pose proof rate_error. assert (2 ^ 53 <= one) by (unfold one; apply Z.pow_le_mono_r; lia). nia.
Qed.

(** The tokens a span of [delta] adds. *)
Definition gain (delta : Z) : Z := fmul (round delta 1) rate.

Lemma rate_nonneg : 0 <= rate.
Proof. pose proof rate_big. pose proof one_pos. lia. Qed.

Lemma gain_error delta :
  0 <= delta → Z.abs (gain delta * one - round delta 1 * rate) * 2 ^ 53 <= round delta 1 * rate + one * 2 ^ 52.
Proof.
  intros Hd. apply round_error; [exact one_pos|].
  pose proof (round_nonneg delta 1 ltac:(lia) Hd). pose proof rate_nonneg. nia.
Qed.

Lemma gain_high delta :
  0 <= delta <= w * one →
  gain delta * w * 2 ^ 51 <= delta * qv * (2 ^ 51 + 1) + 2 ^ 51 * w * (w + qv + 4).
Proof.
  intros Hd. pose proof one_pos as H1. pose proof (gain_error delta ltac:(lia)) as HC.
  pose proof (round_error delta 1 ltac:(lia) ltac:(lia)) as HA. pose proof rate_error as HB.
  pose proof (round_nonneg delta 1 ltac:(lia) ltac:(lia)) as HD. pose proof rate_nonneg as HR.
  apply (gain_high_chain (round delta 1) rate (gain delta) one w qv delta); lia.
Qed.

(** Waiting as long as a double says, and a second, is enough for one token. *)
Lemma retry_enough t r delta :
  0 <= t < one → fdiv (fsub one t) rate <= r → r + one <= delta → one <= fadd t (gain delta).
Proof.
  intros Ht Hr Hd. pose proof one_pos as Hu. pose proof rate_big as Hb. pose proof rate_nonneg as Hr0.
  assert (Hu53 : 2 ^ 53 <= one) by (unfold one; apply Z.pow_le_mono_r; lia).
  apply le_round; [|exact one_double]. split; [lia|].
  pose proof (round_nonneg (one - t) 1 ltac:(lia) ltac:(lia)) as HG0. fold (fsub one t) in HG0.
  pose proof (round_error (one - t) 1 ltac:(lia) ltac:(lia)) as HG. fold (fsub one t) in HG.
  assert (Hrpos : 0 < rate) by lia.
  pose proof (round_error (fsub one t * one) rate Hrpos ltac:(apply Z.mul_nonneg_nonneg; lia)) as HY.
  change (round (fsub one t * one) rate) with (fdiv (fsub one t) rate) in HY.
  pose proof (fdiv_nonneg (fsub one t) rate HG0 Hrpos) as HY0.
  pose proof (round_error delta 1 ltac:(lia) ltac:(lia)) as HD.
  pose proof (gain_error delta ltac:(lia)) as HX.
  assert (one - t <= gain delta); [|lia].
  apply (retry_chain (one - t) (fsub one t) (fdiv (fsub one t) rate) rate one (round delta 1)); lia.
Qed.
End Quota.

(** * The store *)
Record store_ok (s : bucket_store) : Prop := {
  ok_points : ∀ k a, buckets s !! k = Some a → (a < length (heap s))%nat;
  ok_own : ∀ k k' a, buckets s !! k = Some a → buckets s !! k' = Some a → k = k';
  ok_heap : Forall bucket_ok (heap s)
}.

Lemma empty_store_ok : store_ok empty_store.
Proof. split; [done|done|constructor]. Qed.

(** The bucket of a key. *)
Definition bucket_at (k : key) (s : bucket_store) : option bucket := snd <$> find_bucket k s.

(** A change that is about one key. *)
Definition others_kept (k : key) (s s' : bucket_store) : Prop :=
  ∀ k', k' ≠ k → bucket_at k' s' = bucket_at k' s ∧ quota_cache s' !! k' = quota_cache s !! k'.

Lemma others_kept_trans k s1 s2 s3 : others_kept k s1 s2 → others_kept k s2 s3 → others_kept k s1 s3.
Proof. intros H1 H2 k' Hk. destruct (H1 k' Hk), (H2 k' Hk). by split; etrans. Qed.

Lemma bucket_at_ok k s b : store_ok s → bucket_at k s = Some b → bucket_ok b.
Proof.
  intros [_ _ Hh]. unfold bucket_at, find_bucket. destruct (buckets s !! k) as [a|]; [|done].
  destruct (heap s !! a) as [b'|] eqn:E; [|done]. intros [= <-]. exact (proj1 (Forall_lookup _ _) Hh _ _ E).
Qed.

Lemma set_bucket_spec k s a b0 b :
  store_ok s → find_bucket k s = Some (a, b0) → bucket_ok b →
  let s' := set_bucket a b s in
  store_ok s' ∧ find_bucket k s' = Some (a, b) ∧ quota_cache s' = quota_cache s ∧ others_kept k s s'.
Proof.
  intros [Hp Ho Hh] Hf Hb. unfold find_bucket in Hf.
  destruct (buckets s !! k) as [a'|] eqn:E; [|done]. destruct (heap s !! a') as [b'|] eqn:E'; [|done].
  injection Hf as -> ->. cbn. split_and!.
  - split; cbn; [|exact Ho|by apply Forall_insert].
    intros k1 a1. rewrite length_insert. apply Hp.
  - unfold find_bucket. cbn. by rewrite E, list_lookup_insert_eq by (eapply Hp; eassumption).
  - done.
  - intros k' Hk. split; [|done]. unfold bucket_at, find_bucket. cbn.
    destruct (buckets s !! k') as [a'|] eqn:E1; [|done].
    rewrite list_lookup_insert_ne; [done|]. intros <-. by apply Hk, (Ho _ _ a).
Qed.

Lemma new_bucket_spec k s b :
  store_ok s → bucket_ok b →
  let s' := new_bucket k b s in
  store_ok s' ∧ find_bucket k s' = Some (length (heap s), b) ∧ quota_cache s' = quota_cache s ∧ others_kept k s s'.
Proof.
  intros [Hp Ho Hh] Hb. cbn. split_and!.
  - split; cbn.
    + intros k1 a1. rewrite length_app, lookup_insert_Some. cbn. intros [[_ <-]|[_ Hk]]; [lia|].
      apply Hp in Hk. lia.
    + intros k1 k2 a. rewrite !lookup_insert_Some. intros [[<- <-]|[N1 H1]] [[<- H]|[N2 H2]]; try done.
      * apply Hp in H2. lia.
      * apply Hp in H1. lia.
      * by apply (Ho _ _ a).
    + by apply Forall_app; split; [|constructor].
  - unfold find_bucket. cbn. rewrite lookup_insert_eq, lookup_app_r, Nat.sub_diag by lia. done.
  - done.
  - intros k' Hk. split; [|done]. unfold bucket_at, find_bucket. cbn. rewrite lookup_insert_ne by done.
    destruct (buckets s !! k') as [a'|] eqn:E1; [|done]. by rewrite lookup_app_l by (eapply Hp; eassumption).
Qed.

(** The full bucket a changed quota starts with, and the bucket a call works on. *)
Definition full_bucket (qv : Z) (qu : string) (w now : Z) : bucket :=
  {| capacity := of_Z qv; tokens := of_Z qv; refill_per_second := rate qv w; last_refill_ts := now;
     quota_value := qv; quota_unit := qu |}.

Definition current (qv : Z) (qu : string) (w now : Z) (ob : option bucket) : bucket :=
  match ob with
  | Some b => if capacity b =? of_Z qv then set_rate (rate qv w) b else full_bucket qv qu w now
  | None => full_bucket qv qu w now
  end.

(** A quota that changes its unit and not its value keeps the bucket, which goes on naming
    the old unit. *)
Lemma unit_change_unseen qv qu qu' w w' t now :
  current qv qu' w' now (Some (full_bucket qv qu w t)) = set_rate (rate qv w') (full_bucket qv qu w t).
Proof. cbn -[of_Z rate]. by rewrite Z.eqb_refl. Qed.

Lemma current_ok qv qu w now ob :
  0 <= qv → 1 <= w <= 2 ^ 22 → (∀ b, ob = Some b → bucket_ok b) → bucket_ok (current qv qu w now ob).
Proof.
  intros Hqv Hw Hb. pose proof one_pos.
  assert (Hc : 0 <= of_Z qv) by (apply round_nonneg; nia).
  assert (Hr : 0 <= rate qv w).
  { apply fdiv_nonneg; [done|]. rewrite of_Z_exact by lia. nia. }
  assert (Hd : is_double (of_Z qv)) by (apply round_double; nia).
  unfold current. destruct ob as [b|]; [|split_and!; cbn -[of_Z rate]; lia || done].
  destruct (Hb b eq_refl) as (Ht & Hcb & _). destruct (_ =? _); split_and!; cbn -[of_Z rate]; lia || done.
Qed.

Lemma window_range qu w : dict_lookup qu QUOTA_UNIT_WINDOWS_SECONDS = Some w → 1 <= w <= 2 ^ 22.
Proof. unfold QUOTA_UNIT_WINDOWS_SECONDS. cbn. intros H. split_ifs; injection H as <-; lia. Qed.

Lemma resolve_bucket_spec k qv qu w now s :
  store_ok s → 0 <= qv → 1 <= w <= 2 ^ 22 →
  let '(a, b, s') := resolve_bucket k qv qu w now s in
  b = current qv qu w now (bucket_at k s) ∧ store_ok s' ∧ find_bucket k s' = Some (a, b) ∧
  quota_cache s' = quota_cache s ∧ others_kept k s s'.
Proof.
  intros Hs Hqv Hw.
  pose proof (current_ok qv qu w now (bucket_at k s) Hqv Hw (fun b => bucket_at_ok k s b Hs)) as Hok.
  unfold resolve_bucket, bucket_at in *. fold (rate qv w). fold (full_bucket qv qu w now).
  destruct (find_bucket k s) as [[a b0]|] eqn:E; cbn [fmap option_fmap option_map snd current] in *.
  - destruct (capacity b0 =? of_Z qv).
    + split; [done|]. by eapply set_bucket_spec.
    + split; [done|]. by apply new_bucket_spec.
  - split; [done|]. by apply new_bucket_spec.
Qed.

Lemma resolve_quota_store k pr now s :
  store_ok s →
  let s' := (resolve_quota k pr now s).2 in
  store_ok s' ∧ (∀ k', bucket_at k' s' = bucket_at k' s) ∧
  (∀ k', k' ≠ k → quota_cache s' !! k' = quota_cache s !! k').
Proof.
  intros [Hp Ho Hh]. unfold resolve_quota.
  assert (Hc : ∀ e, let s' := cache_quota k e s in
    store_ok s' ∧ (∀ k', bucket_at k' s' = bucket_at k' s) ∧
    (∀ k', k' ≠ k → quota_cache s' !! k' = quota_cache s !! k')).
  { intros e. split; [by split|]. split; [done|]. intros k' Hk. by apply lookup_insert_ne. }
  destruct (quota_cache s !! k) as [e|]; [destruct (_ <=? _)|]; cbn [snd]; by try apply Hc.
Qed.

(** What [consume] does for a key whose quota has a rate. *)
Lemma consume_rated k pr now s qv qu w :
  store_ok s → (resolve_quota k pr now s).1 = (Some qv, Some qu) →
  dict_lookup qu QUOTA_UNIT_WINDOWS_SECONDS = Some w → 1 <= qv →
  ∃ a s', let '(allowed, b, r) := spend now (current qv qu w now (bucket_at k s)) in
    consume k pr now s = (allowed, Some a, r, s') ∧ store_ok s' ∧ bucket_at k s' = Some b ∧
    heap s' !! a = Some b ∧ quota_cache s' = quota_cache (resolve_quota k pr now s).2 ∧
    others_kept k s s'.
Proof.
  intros Hs Hq Hw Hqv. pose proof (resolve_quota_store k pr now s Hs) as (Hs1 & Hb1 & Hc1).
  unfold consume. destruct (resolve_quota k pr now s) as [q s1]. cbn [fst snd] in *. subst q.
  unfold rate_of. rewrite (proj2 (Z.leb_gt qv 0)), Hw by lia.
  pose proof (resolve_bucket_spec k qv qu w now s1 Hs1 ltac:(lia) (window_range _ _ Hw)) as Hr.
  destruct (resolve_bucket k qv qu w now s1) as [[a b] s2]. destruct Hr as (Hb & Hs2 & Hf & Hc2 & Ho2).
  rewrite Hb1 in Hb. rewrite <-Hb.
  assert (Hok : bucket_ok b) by (eapply (bucket_at_ok k s2); [done|]; unfold bucket_at; by rewrite Hf).
  pose proof (spend_ok now b Hok) as Hok'. destruct (spend now b) as [[al b'] r]. cbn [fst snd] in Hok'.
  pose proof (set_bucket_spec k s2 a b b' Hs2 Hf Hok') as (Hs3 & Hf3 & Hc3 & Ho3).
  exists a, (set_bucket a b' s2). split_and!; try done.
  - unfold bucket_at. by rewrite Hf3.
  - cbn. apply list_lookup_insert_eq. eapply lookup_lt_Some.
    revert Hf. unfold find_bucket. destruct (buckets s2 !! k); [|done].
    destruct (heap s2 !! n) eqn:E; [|done]. intros [= -> ->]. exact E.
  - apply (others_kept_trans k s s2); [|done]. apply (others_kept_trans k s s1); [|done].
    intros k' Hk. by rewrite Hb1, Hc1.
Qed.

(** A key that has no rate keeps every bucket. *)
Lemma consume_free k pr now s :
  store_ok s → rate_of (resolve_quota k pr now s).1 = None →
  consume k pr now s = (true, None, Some 0, (resolve_quota k pr now s).2).
Proof. intros Hs Hq. unfold consume. destruct (resolve_quota k pr now s). cbn [fst snd] in *. by rewrite Hq. Qed.

Lemma rate_of_some q qv qu w :
  rate_of q = Some (qv, qu, w) →
  q = (Some qv, Some qu) ∧ 1 <= qv ∧ dict_lookup qu QUOTA_UNIT_WINDOWS_SECONDS = Some w.
Proof.
  unfold rate_of. destruct q as [[v|] [u|]]; try done. destruct (Z.leb_spec v 0); [done|].
  destruct (dict_lookup u _) eqn:E; [|done]. intros [= -> -> ->]. split_and!; [done|lia|done].
Qed.

(** Whatever the quota, a call is about its own key and keeps the store in order. *)
Lemma consume_kept k pr now s :
  store_ok s → store_ok (consume k pr now s).2 ∧ others_kept k s (consume k pr now s).2.
Proof.
  intros Hs. destruct (rate_of (resolve_quota k pr now s).1) as [[[qv qu] w]|] eqn:Hq.
  - apply rate_of_some in Hq as (Hq & Hqv & Hw).
    destruct (consume_rated k pr now s qv qu w Hs Hq Hw Hqv) as (a & s' & H).
    destruct (spend _ _) as [[al b] r]. destruct H as (-> & Hs' & _ & _ & _ & Ho). by split.
  - rewrite (consume_free k pr now s Hs Hq). cbn [snd].
    destruct (resolve_quota_store k pr now s Hs) as (Hs' & Hb & Hc). split; [done|].
    intros k' Hk. by rewrite Hb, Hc.
Qed.

(** * What a window admits *)

(** One call of the limiter: the request, the clock, the database it would read. *)
Record arrival := { at_req : request; at_time : Z; at_db : database }.

Definition arrive (p : process) (x : arrival) : process := (enter (at_req x) (at_time x) (at_db x) p).2.

Definition passes (v : outcome exn verdict) : bool := match v with Ok (CallNext _) => true | _ => false end.

(** The arrivals charged to [k] that were let through. *)
Fixpoint admitted (k : key) (l : list arrival) (p : process) : Z :=
  match l with
  | [] => 0
  | x :: l' =>
      (if bool_decide (request_key (at_req x) = Some k) && passes (enter (at_req x) (at_time x) (at_db x) p).1
       then 1 else 0) + admitted k l' (arrive p x)
  end.

(** The quota of [k] is [q] in the cache, and at every arrival for the provider. *)
Definition cached_is (k : key) (q : QuotaTuple) (s : bucket_store) : Prop :=
  ∀ e, quota_cache s !! k = Some e → entry_quota e = q.

Definition quota_steady (k : key) (q : QuotaTuple) (l : list arrival) (p : process) : Prop :=
  cached_is k q (store p) ∧ ∀ x, x ∈ l → get_quota_provider (at_db x) p k.1 k.2 = q.

(** No bucket has seen a later time. *)
Definition clock_before (t : Z) (s : bucket_store) : Prop :=
  ∀ k b, bucket_at k s = Some b → last_refill_ts b <= t.

Lemma resolve_steady k pr now s q :
  cached_is k q s → pr k.1 k.2 = q →
  (resolve_quota k pr now s).1 = q ∧ cached_is k q (resolve_quota k pr now s).2.
Proof.
  intros Hc Hp. unfold resolve_quota, cached_is. destruct (quota_cache s !! k) as [e|] eqn:E; [destruct (_ <=? _)|].
  - split; [done|]. cbn. intros e'. rewrite lookup_insert_eq. by intros [= <-].
  - split; [by apply Hc|]. cbn. intros e'. rewrite E. intros [= <-]. by apply Hc.
  - split; [done|]. cbn. intros e'. rewrite lookup_insert_eq. by intros [= <-].
Qed.

(** A request of another key, or of none, is no matter for [k]. *)
Lemma enter_other k r now db p :
  store_ok (store p) → request_key r ≠ Some k →
  let p' := (enter r now db p).2 in
  provider p' = provider p ∧ store_ok (store p') ∧
  bucket_at k (store p') = bucket_at k (store p) ∧ quota_cache (store p') !! k = quota_cache (store p) !! k.
Proof.
  intros Hs Hk. unfold enter. destruct (request_key r) as [k'|]; [|done].
  pose proof (consume_kept k' (get_quota_provider db p) now (store p) Hs) as [Hs' Ho].
  destruct (consume _ _ _ _) as [[[al a] ra] s']. cbn in *. split; [done|]. split; [done|].
  apply Ho. by intros ->.
Qed.

(** A request of a key with a rate, by what its bucket answers. *)
Lemma enter_rated k r now db p qv qu w :
  store_ok (store p) → request_key r = Some k → cached_is k (Some qv, Some qu) (store p) →
  get_quota_provider db p k.1 k.2 = (Some qv, Some qu) →
  dict_lookup qu QUOTA_UNIT_WINDOWS_SECONDS = Some w → 1 <= qv →
  let p' := (enter r now db p).2 in
  provider p' = provider p ∧ store_ok (store p') ∧ cached_is k (Some qv, Some qu) (store p') ∧
  let '(allowed, b, ra) := spend now (current qv qu w now (bucket_at k (store p))) in
  bucket_at k (store p') = Some b ∧ passes (enter r now db p).1 = allowed ∧
  (allowed = false → (enter r now db p).1 =
     (retry_secs ← retry_seconds ra; Ok (Answer (too_many_requests k.2 retry_secs (Some b))))).
Proof.
  intros Hs Hk Hc Hp Hw Hqv. unfold enter. rewrite Hk.
  destruct (resolve_steady k _ now (store p) _ Hc Hp) as [Hq Hc'].
  destruct (consume_rated k (get_quota_provider db p) now (store p) qv qu w Hs Hq Hw Hqv) as (a & s' & H).
  destruct (spend now _) as [[al b] ra]. destruct H as (-> & Hs' & Hb & Ha & Hcs & _). cbn.
  split; [done|]. split; [done|]. split; [unfold cached_is; by rewrite Hcs|].
  split; [done|]. split; [|intros ->; by rewrite Ha].
  destruct al; [done|]. by destruct (retry_seconds ra).
Qed.

(** The account of one bucket since [T]: [n] calls, [spent] of them let through. *)
Section Budget.
Context (qv : Z) (qu : string) (w : Z) (T : Z).
Context (Hqv : 1 <= qv <= 2 ^ 48) (Hw : 1 <= w <= 2 ^ 22).

Definition drift : Z := 2 ^ 1024.

Lemma one_drift : one = 2 ^ 50 * drift.
Proof. unfold one, drift. by rewrite <-Z.pow_add_r. Qed.

Lemma drift_big : 2 ^ 99 <= drift.
Proof. unfold drift. apply Z.pow_le_mono_r; lia. Qed.

Definition budget (n spent : Z) (b : bucket) : Prop :=
  capacity b = of_Z qv ∧ (T <= last_refill_ts b ∨ spent = 0) ∧
  w * 2 ^ 51 * (2 ^ 50 * drift * spent + tokens b - qv * (2 ^ 50 * drift) - n * (qv * drift)) <=
    (Z.max T (last_refill_ts b) - T) * qv * (2 ^ 51 + 1) + n * (2 ^ 51 * w * (w + qv + 4)).

Definition account (n spent : Z) (ob : option bucket) : Prop :=
  match ob with
  | Some b => bucket_ok b ∧ last_refill_ts b <= T + w * one ∧ if capacity b =? of_Z qv then budget n spent b else spent = 0
  | None => spent = 0
  end.

Lemma account_current n spent ob now :
  0 <= n → T <= now <= T + w * one → account n spent ob →
  let b := current qv qu w now ob in
  budget n spent b ∧ bucket_ok b ∧ refill_per_second b = rate qv w ∧ last_refill_ts b <= T + w * one.
Proof.
  intros Hn Hnow Ha. assert (Hok : bucket_ok (current qv qu w now ob)).
  { apply current_ok; [lia|done|]. intros b ->. by destruct Ha. }
  assert (Hfull : spent = 0 → budget n spent (full_bucket qv qu w now)).
  { intros ->. split; [done|]. split; [by right|]. cbn -[of_Z Z.max]. rewrite cap_exact, one_drift by lia.
    pose proof drift_big. assert (0 <= n * (qv * drift)) by (apply Z.mul_nonneg_nonneg; nia).
    assert (0 <= n * (2 ^ 51 * w * (w + qv + 4))) by (apply Z.mul_nonneg_nonneg; nia).
    assert (0 <= (Z.max T now - T) * qv) by (apply Z.mul_nonneg_nonneg; lia).
    assert (0 <= w * 2 ^ 51 * (n * (qv * drift))) by (apply Z.mul_nonneg_nonneg; lia). lia. }
  unfold current in *. destruct ob as [b|]; cbn in Ha; [|split_and!; try done; [by apply Hfull|cbn; lia]].
  destruct Ha as (_ & Hl & Ha). destruct (capacity b =? of_Z qv); split_and!; try done; [by apply Hfull|cbn; lia].
Qed.

(** A refill is the step of [budget_step_chain] from [t] tokens at [span] by [g] and [delta]. *)
Lemma budget_refill n spent b now :
  0 <= n → T <= now <= T + w * one → budget n spent b → bucket_ok b → refill_per_second b = rate qv w →
  let b' := refill now b in
  capacity b' = of_Z qv ∧ (T <= last_refill_ts b' ∨ spent = 0) ∧
  ∃ t g span delta,
    0 <= g ∧ 0 <= t <= qv * (2 ^ 50 * drift) ∧ tokens b' * 2 ^ 53 <= (t + g) * (2 ^ 53 + 1) + 2 ^ 52 ∧
    g * w * 2 ^ 51 <= delta * qv * (2 ^ 51 + 1) + 2 ^ 51 * w * (w + qv + 4) ∧
    w * 2 ^ 51 * (2 ^ 50 * drift * spent + t - qv * (2 ^ 50 * drift) - n * (qv * drift)) <=
      span * qv * (2 ^ 51 + 1) + n * (2 ^ 51 * w * (w + qv + 4)) ∧
    span + delta = Z.max T (last_refill_ts b') - T.
Proof.
  intros Hn Hnow (Hc & Hs & HB) (Ht & _ & _) Hr.
  assert (Hcap : of_Z qv = qv * (2 ^ 50 * drift)) by (rewrite cap_exact, one_drift by lia; done).
  assert (Hsmall : 0 <= 2 ^ 51 * w * (w + qv + 4)) by nia.
  unfold refill. destruct (Z.leb_spec now (last_refill_ts b)) as [L|L].
  - split; [done|]. split; [done|]. exists (tokens b), 0, (Z.max T (last_refill_ts b) - T), 0.
    rewrite Hc in Ht. split_and!; lia.
  - cbn. split; [done|]. split; [left; lia|]. rewrite Hr, Hc in *.
    destruct (Z.le_gt_cases T (last_refill_ts b)) as [LT|LT].
    + exists (tokens b), (gain qv w (now - last_refill_ts b)), (last_refill_ts b - T), (now - last_refill_ts b).
      assert (Hg : 0 <= gain qv w (now - last_refill_ts b)).
      { apply fmul_nonneg; [apply round_nonneg; lia|]. by apply rate_nonneg. }
      split; [done|]. split; [lia|]. split.
      { pose proof (round_error (tokens b + gain qv w (now - last_refill_ts b)) 1 ltac:(lia) ltac:(lia)) as He.
        change (fmul (fsub now (last_refill_ts b)) (rate qv w)) with (gain qv w (now - last_refill_ts b)).
        fold (fadd (tokens b) (gain qv w (now - last_refill_ts b))) in He. lia. }
      split; [apply gain_high; lia|]. split; [|lia].
      by replace (last_refill_ts b - T) with (Z.max T (last_refill_ts b) - T) by lia.
    + destruct Hs as [Hs| ->]; [lia|].
      exists (qv * (2 ^ 50 * drift)), 0, 0, (now - T). split_and!; try lia.
      * assert (0 <= (now - T) * qv) by (apply Z.mul_nonneg_nonneg; lia). lia.
      * pose proof drift_big. assert (0 <= w * 2 ^ 51 * (n * (qv * drift)))
          by (repeat apply Z.mul_nonneg_nonneg; lia).
        assert (0 <= n * (2 ^ 51 * w * (w + qv + 4))) by (apply Z.mul_nonneg_nonneg; [done|nia]). lia.
Qed.

Lemma budget_spend n spent b now :
  0 <= n → T <= now <= T + w * one → budget n spent b → bucket_ok b → refill_per_second b = rate qv w →
  let '(allowed, b', _) := spend now b in
  budget (n + 1) (spent + if allowed : bool then 1 else 0) b'.
Proof.
  intros Hn Hnow HB Hok Hr.
  pose proof (refill_ok now b Hok) as (Ht' & _ & _).
  pose proof (budget_refill n spent b now Hn Hnow HB Hok Hr) as (Hc & Hs & t & g & span & delta & Hg & Ht & H1 & Hgain & Hp & E).
  assert (Hlast : T <= last_refill_ts (refill now b)).
  { unfold refill. destruct (Z.leb_spec now (last_refill_ts b)); cbn; lia. }
  pose proof drift_big as Hv. rewrite spend_spec. cbn zeta. rewrite Hc, cap_exact, one_drift in Ht' by lia.
  destruct (Z.leb_spec one (tokens (refill now b))) as [L|L].
  - split; [done|]. split; [by left|]. cbn. rewrite <-E.
    pose proof (round_error (tokens (refill now b) - one) 1 ltac:(lia) ltac:(lia)) as H2.
    fold (fsub (tokens (refill now b)) one) in H2. rewrite one_drift in H2 |- *.
    eapply budget_step_chain; try eassumption; lia.
  - split; [done|]. split; [by left|]. rewrite <-E.
    eapply (budget_step_chain n spent t (tokens (refill now b)) _ 0); try eassumption; lia.
Qed.

(** In one window the span pays for a second quota and no more. *)
Lemma budget_bound n spent b :
  0 <= n → n * qv <= 2 ^ 48 → budget n spent b → 0 <= tokens b → last_refill_ts b <= T + w * one →
  spent <= 2 * qv.
Proof.
  intros Hn Hnq (_ & _ & HB) Ht Hl. pose proof drift_big as Hv. rewrite one_drift in Hl.
  assert (Hspan : (Z.max T (last_refill_ts b) - T) * qv <= w * (2 ^ 50 * drift) * qv)
    by (apply Z.mul_le_mono_nonneg_r; lia).
  assert (HnqV : n * qv * drift <= 2 ^ 48 * drift) by (apply Z.mul_le_mono_nonneg_r; lia).
  assert (HqV : qv * drift <= 2 ^ 48 * drift) by (apply Z.mul_le_mono_nonneg_r; lia).
  assert (Hns : n * (w + qv + 4) <= 2 ^ 72) by nia.
  assert (HX : w * (2 ^ 51 * (2 ^ 50 * drift * spent - qv * (2 ^ 50 * drift) - n * (qv * drift))) <=
               w * (2 ^ 50 * drift * qv * (2 ^ 51 + 1) + 2 ^ 51 * (n * (w + qv + 4)))).
  { assert (0 <= w * tokens b) by (apply Z.mul_nonneg_nonneg; lia). lia. }
  apply Z.mul_le_mono_pos_l in HX; [|lia].
  assert (2 ^ 50 * drift * (spent - 2 * qv) < 2 ^ 50 * drift * 1) by lia.
  enough (spent - 2 * qv < 1) by lia. eapply Z.mul_lt_mono_pos_l; [|eassumption]. lia.
Qed.
End Budget.

Lemma spend_last t now b : last_refill_ts b <= t → now <= t → last_refill_ts (spend now b).1.2 <= t.
Proof.
  intros Hb Hn. rewrite spend_spec. cbn zeta.
  assert (last_refill_ts (refill now b) <= t) by (unfold refill; destruct (now <=? _); cbn; lia).
  by destruct (one <=? _).
Qed.

Lemma account_admitted k qv qu w T l p n spent :
  1 <= qv <= 2 ^ 48 → dict_lookup qu QUOTA_UNIT_WINDOWS_SECONDS = Some w → 0 <= n →
  (n + Z.of_nat (length l)) * qv <= 2 ^ 48 →
  store_ok (store p) → quota_steady k (Some qv, Some qu) l p →
  (∀ x, x ∈ l → request_key (at_req x) = Some k → T <= at_time x <= T + w * one) →
  account qv w T n spent (bucket_at k (store p)) →
  spent + admitted k l p <= 2 * qv.
Proof.
  intros Hqv Hw. pose proof (window_range _ _ Hw) as Hwr. pose proof (proj1 Hqv) as Hqv1.
  revert p n spent. induction l as [|x l IH]; intros p n spent Hn Hlen Hs Hq Hin Ha; cbn [admitted length] in *.
  - destruct (bucket_at k (store p)) as [b|] eqn:Eb; cbn in Ha; [|lia].
    destruct Ha as (Hok & Hl & Ha). destruct (capacity b =? of_Z qv); [|lia].
    rewrite Z.add_0_r in *. destruct Hok as (Ht & _). eapply budget_bound; try eassumption; lia.
  - destruct Hq as [Hc Hp].
    assert (Hl' : ∀ y, y ∈ l → y ∈ x :: l) by (intros; by apply list_elem_of_further).
    destruct (decide (request_key (at_req x) = Some k)) as [Hk|Hk].
    + rewrite bool_decide_eq_true_2 by done. cbn [andb].
      destruct (enter_rated k (at_req x) (at_time x) (at_db x) p qv qu w Hs Hk Hc (Hp x (list_elem_of_here _ _)) Hw Hqv1)
        as (Hpr & Hs' & Hc' & H).
      assert (Hx : T <= at_time x <= T + w * one) by (apply Hin; [apply list_elem_of_here|done]).
      destruct (account_current qv qu w T Hqv Hwr n spent _ (at_time x) Hn Hx Ha) as (HB & Hok & Hr & Hl).
      pose proof (budget_spend qv w T Hqv Hwr n spent _ _ Hn Hx HB Hok Hr) as HB'.
      pose proof (spend_ok (at_time x) _ Hok) as Hok'. pose proof (spend_last _ (at_time x) _ Hl ltac:(lia)) as Hl2.
      destruct (spend _ _) as [[al b] ra]. destruct H as (Hb & Hv & _). rewrite Hv.
      rewrite Z.add_assoc. apply (IH (arrive p x) (n + 1)); [lia|lia|done| | |].
      * split; [done|]. intros y Hy. unfold get_quota_provider, arrive. rewrite Hpr. by apply (Hp y), Hl'.
      * intros y Hy. by apply Hin, Hl'.
      * unfold arrive. rewrite Hb. cbn [account fst snd] in *. split; [done|]. split; [done|].
        by rewrite (proj2 (Z.eqb_eq _ _) (proj1 HB')).
    + rewrite bool_decide_eq_false_2 by done. cbn [andb]. rewrite Z.add_0_l.
      destruct (enter_other k (at_req x) (at_time x) (at_db x) p Hs Hk) as (Hpr & Hs' & Hb & Hcs).
      apply (IH (arrive p x) n); [done|lia|done| | |].
      * split; [unfold cached_is, arrive; by rewrite Hcs|].
        intros y Hy. unfold get_quota_provider, arrive. rewrite Hpr. by apply (Hp y), Hl'.
      * intros y Hy. by apply Hin, Hl'.
      * unfold arrive. by rewrite Hb.
Qed.

(** C17: Within one window of its unit, an organisation gets at most twice its quota through
    a flag, whatever the requests, their order and the rounding of the doubles: the bucket's
    content and what refills in the window. *)
Theorem two_quotas_per_window k qv qu w T l p :
  1 <= qv → Z.of_nat (length l) * qv <= 2 ^ 48 →
  dict_lookup qu QUOTA_UNIT_WINDOWS_SECONDS = Some w →
  store_ok (store p) → clock_before T (store p) → quota_steady k (Some qv, Some qu) l p →
  (∀ x, x ∈ l → request_key (at_req x) = Some k → T <= at_time x <= T + w * one) →
  admitted k l p <= 2 * qv.
Proof.
  intros Hqv Hlen Hw Hs Hclock Hq Hin. pose proof (window_range _ _ Hw) as Hwr. pose proof one_pos as H1.
  destruct l as [|x l]; [cbn; lia|]. assert (Hqv' : 1 <= qv <= 2 ^ 48) by (cbn [length] in Hlen; nia).
  rewrite <-(Z.add_0_l (admitted _ _ _)). eapply (account_admitted k qv qu w T _ _ 0); try eassumption; [done|].
  destruct (bucket_at k (store p)) as [b|] eqn:E; [|done]. cbn [account].
  pose proof (bucket_at_ok k _ b Hs E) as Hok. pose proof (Hclock k b E) as Hl. destruct Hok as (Ht & Hd & Hr).
  split; [done|]. split; [nia|]. destruct (Z.eqb_spec (capacity b) (of_Z qv)) as [Ec|]; [|done].
  split; [done|]. split; [by right|]. rewrite Ec, cap_exact, one_drift in Ht by done. pose proof drift_big.
  replace (Z.max T (last_refill_ts b) - T) with 0 by lia.
  assert (0 <= w * (qv * (2 ^ 50 * drift) - tokens b)) by (apply Z.mul_nonneg_nonneg; lia). lia.
Qed.

Definition sample_key : key := ("local", "federation").
Definition sample_request : request :=
  {| method := "POST"; path := "/api/v2/federation/children"; org_header := None; state_org_id := Some "" |}.
Definition sample_quota (qv : Z) (qu : string) : process :=
  {| provider := Some (fun _ _ => (Some qv, Some qu)); store := empty_store |}.
Definition sample_arrivals : list arrival :=
  map (fun t => {| at_req := sample_request; at_time := of_Z t; at_db := NoPool |}) [0; 0; 86400; 86400].

Lemma two_quotas_per_window_witness :
  admitted sample_key sample_arrivals (sample_quota 1 "runs_per_day") <= 2 * 1.
Proof.
  apply (two_quotas_per_window _ _ "runs_per_day" 86400 0); try done.
  intros x Hx _.
  assert (H : forallb (fun x => (0 <=? at_time x) && (at_time x <=? 0 + 86400 * one)) sample_arrivals = true)
    by (vm_compute; reflexivity).
  apply list_elem_of_In in Hx. apply (proj1 (forallb_forall _ _) H) in Hx.
  by rewrite andb_true_iff, !Z.leb_le in Hx.
Defined.

(** * Waiting *)
Lemma arrive_others k l p :
  store_ok (store p) → (∀ x, x ∈ l → request_key (at_req x) ≠ Some k) →
  let p' := foldl arrive p l in
  provider p' = provider p ∧ store_ok (store p') ∧
  bucket_at k (store p') = bucket_at k (store p) ∧ quota_cache (store p') !! k = quota_cache (store p) !! k.
Proof.
  revert p. induction l as [|x l IH]; intros p Hs Hl; cbn [foldl]; [done|].
  destruct (enter_other k (at_req x) (at_time x) (at_db x) p Hs (Hl x (list_elem_of_here _ _))) as (Hp & Hs' & Hb & Hc).
  destruct (IH (arrive p x) Hs') as (Hp2 & Hs2 & Hb2 & Hc2).
  { intros y Hy. by apply Hl, list_elem_of_further. }
  cbn. rewrite Hp2, Hb2, Hc2. by split_and!.
Qed.

(** A refused bucket, and that it pays when the wait is over. *)
Lemma refused_then_served qv w b now now' :
  1 <= qv <= 2 ^ 48 → 1 <= w <= 2 ^ 22 → bucket_ok b → capacity b = of_Z qv → refill_per_second b = rate qv w →
  last_refill_ts b <= now → (spend now b).1.1 = false →
  ∃ r, (spend now b).2 = Some r ∧
    (now + Z.max 1 (ceil r) * one + one <= now' → (spend now' (set_rate (rate qv w) (spend now b).1.2)).1.1 = true).
Proof.
  intros Hqv Hw Hok Hc Hr Hl. pose proof (refill_ok now b Hok) as (Ht & _ & _).
  assert (Hb' : capacity (refill now b) = of_Z qv ∧ refill_per_second (refill now b) = rate qv w ∧
    last_refill_ts (refill now b) = now).
  { unfold refill. destruct (Z.leb_spec now (last_refill_ts b)); cbn; split_and!; try done; lia. }
  destruct Hb' as (Hc' & Hr' & Hl'). rewrite !spend_spec. cbn zeta.
  destruct (Z.leb_spec one (tokens (refill now b))) as [L|L]; [done|]. intros _. cbn [snd fst].
  pose proof (rate_big qv w Hqv Hw) as Hbig. pose proof one_pos. rewrite Hr', (proj2 (Z.leb_gt _ 0)) by lia.
  eexists. split; [done|]. intros Hnow. set (b1 := set_rate _ _).
  pose proof (ceil_ge (fdiv (fsub one (tokens (refill now b))) (rate qv w))) as Hce.
  assert (Hwait : fdiv (fsub one (tokens (refill now b))) (rate qv w) + one <= now' - now) by nia.
  pose proof (retry_enough qv w Hqv Hw (tokens (refill now b)) _ (now' - now) ltac:(lia) ltac:(reflexivity) Hwait) as Hone.
  assert (Hgo : one <= tokens (refill now' b1)); [|by rewrite (proj2 (Z.leb_le _ _) Hgo)].
  assert (0 <= fdiv (fsub one (tokens (refill now b))) (rate qv w)) by (apply fdiv_nonneg; [apply fsub_nonneg|]; lia).
  unfold refill at 1. cbn [last_refill_ts b1 set_rate]. rewrite Hl', (proj2 (Z.leb_gt now' now)) by lia.
  cbn -[one of_Z]. rewrite Hc', cap_exact by done. apply Z.min_glb; [nia|exact Hone].
Qed.

(** C18: A client that is refused may rely on [Retry-After]: one second after it has passed,
    the next request of the organisation for the flag is let through, whatever the requests
    of others in between. *)
Theorem retry_after_suffices k qv qu w p r now db resp secs p1 l r' now' db' :
  1 <= qv <= 2 ^ 48 → dict_lookup qu QUOTA_UNIT_WINDOWS_SECONDS = Some w →
  store_ok (store p) → clock_before now (store p) → cached_is k (Some qv, Some qu) (store p) →
  get_quota_provider db p k.1 k.2 = (Some qv, Some qu) → get_quota_provider db' p k.1 k.2 = (Some qv, Some qu) →
  request_key r = Some k → request_key r' = Some k → (∀ x, x ∈ l → request_key (at_req x) ≠ Some k) →
  enter r now db p = (Ok (Answer resp), p1) →
  dict_lookup "Retry-After" (headers resp) = Some (str_of_Z secs) → 0 <= secs →
  now + (secs + 1) * one <= now' →
  ∃ charged, (enter r' now' db' (foldl arrive p1 l)).1 = Ok (CallNext charged).
Proof.
  intros Hqv Hw Hs Hclock Hcache Hq1 Hq2 Hk Hk' Hl Had Hret Hsecs Hnow.
  pose proof (window_range _ _ Hw) as Hwr.
  destruct (enter_rated k r now db p qv qu w Hs Hk Hcache Hq1 Hw (proj1 Hqv)) as (Hp & Hs1 & Hc1 & H).
  set (b := current qv qu w now (bucket_at k (store p))) in *.
  assert (Hb : bucket_ok b ∧ capacity b = of_Z qv ∧ refill_per_second b = rate qv w ∧ last_refill_ts b <= now).
  { split; [apply current_ok; [lia|done|]; intros b0; by apply bucket_at_ok|].
    unfold b, current. destruct (bucket_at k (store p)) as [b0|] eqn:E; [|by split_and!; cbn -[of_Z]; try lia].
    destruct (Z.eqb_spec (capacity b0) (of_Z qv)); cbn -[of_Z]; split_and!; try done; try lia. by eapply Hclock. }
  destruct Hb as (Hok & Hcap & Hrate & Hlast).
  pose proof (refused_then_served qv w b now now' Hqv Hwr Hok Hcap Hrate Hlast) as Href.
  destruct (spend now b) as [[al b1] ra] eqn:Hsp. cbn [fst snd] in *. destruct H as (Hb1 & Hpass & Hans).
  rewrite Had in Hpass, Hans, Hp, Hs1, Hc1, Hb1. cbn [fst snd passes] in *. subst al.
  destruct (Href eq_refl) as (rr & -> & Hserve). specialize (Hans eq_refl). cbn in Hans.
  injection Hans as ->. cbn in Hret. injection Hret as Hret. apply str_of_Z_inj in Hret; [|lia|done].
  destruct (arrive_others k l p1 Hs1 Hl) as (Hp2 & Hs2 & Hb2 & Hc2). set (p2 := foldl arrive p1 l) in *.
  assert (Hq : get_quota_provider db' p2 k.1 k.2 = (Some qv, Some qu)).
  { unfold get_quota_provider. by rewrite Hp2, Hp. }
  assert (Hcache2 : cached_is k (Some qv, Some qu) (store p2)) by (unfold cached_is; by rewrite Hc2).
  destruct (enter_rated k r' now' db' p2 qv qu w Hs2 Hk' Hcache2 Hq Hw (proj1 Hqv)) as (_ & _ & _ & H2).
  assert (Hcap1 : capacity b1 = of_Z qv).
  { pose proof (spend_spec now b) as E. cbn zeta in E. rewrite Hsp in E. revert E.
    destruct (one <=? _); [done|]. intros [= -> _]. unfold refill. by destruct (now <=? _). }
  rewrite Hb2, Hb1 in H2. cbn [current] in H2. rewrite (proj2 (Z.eqb_eq _ _) Hcap1) in H2.
  specialize (Hserve ltac:(lia)). destruct (spend now' _) as [[al2 b2] ra2]. cbn [fst] in Hserve. subst al2.
  destruct H2 as (_ & H2 & _). destruct (enter r' now' db' p2).1 as [[c|]|]; try done. by exists c.
Qed.

(** A bucket of one agent a month that was emptied at 0. *)
Definition sample_rate : Z := rate 1 2592000.
Definition sample_empty : bucket :=
  {| capacity := of_Z 1; tokens := 0; refill_per_second := sample_rate; last_refill_ts := 0;
     quota_value := 1; quota_unit := "agents_per_month" |}.
Definition sample_emptied : process :=
  {| provider := Some (fun _ _ => (Some 1, Some "agents_per_month"));
     store := {| heap := [sample_empty]; buckets := {[sample_key := 0%nat]}; quota_cache := ∅ |} |}.
Definition sample_refusal : response := too_many_requests "federation" 2592000 (Some sample_empty).

Lemma sample_emptied_ok : store_ok (store sample_emptied).
Proof.
  split; unfold sample_emptied; cbn [store buckets heap].
  - intros k a. rewrite lookup_singleton_Some. intros [_ <-]. cbn. lia.
  - intros k k' a. rewrite !lookup_singleton_Some. by intros [<- _] [<- _].
  - constructor; [|constructor]. assert (1 <= 1 <= 2 ^ 48) by lia. split_and!; cbn -[of_Z sample_rate].
    + lia.
    + rewrite cap_exact by done. pose proof one_pos. lia.
    + by apply cap_double.
    + apply rate_nonneg; lia.
Qed.

Lemma sample_refused : (enter sample_request 0 NoPool sample_emptied).1 = Ok (Answer sample_refusal).
Proof. vm_compute. reflexivity. Qed.

Lemma retry_after_suffices_witness :
  ∃ charged, (enter sample_request ((2592000 + 1) * one) NoPool
                (foldl arrive (enter sample_request 0 NoPool sample_emptied).2 [])).1 = Ok (CallNext charged).
Proof.
  apply (retry_after_suffices sample_key 1 "agents_per_month" 2592000 sample_emptied sample_request 0 NoPool
           sample_refusal 2592000 _ [] sample_request _ NoPool).
  - lia.
  - reflexivity.
  - exact sample_emptied_ok.
  - intros k b. unfold bucket_at, find_bucket, sample_emptied. cbn [store buckets heap].
    destruct (decide (k = sample_key)) as [->|Hk]; [rewrite lookup_singleton_eq; by intros [= <-]|].
    by rewrite lookup_singleton_ne by done.
  - intros e. unfold sample_emptied. cbn [store quota_cache]. by rewrite lookup_empty.
  - reflexivity.
  - reflexivity.
  - reflexivity.
  - reflexivity.
  - intros x Hx. by apply elem_of_nil in Hx.
  - rewrite <-sample_refused. apply surjective_pairing.
  - reflexivity.
  - lia.
  - lia.
Defined.

(** The second is needed: a double short of one token, the client that comes back exactly
    after the announced 2592000 seconds is refused again. *)
Lemma retry_after_alone_falls_short :
  ceil (fdiv (fsub one (tokens sample_empty)) sample_rate) = 2592000 ∧
  (spend (of_Z 2592000) sample_empty).1.1 = false.
Proof. split; vm_compute; reflexivity. Qed.

End TokenBucket.
