(* ===== verification/Shamir.v ===== *)
(** Shares of the vendor's signing key: [license/shamir.py].

    The key is split into five shares, three of which recover it.  The sharing scheme is
    the package [pyshamir]; the module around it checks the shares, keeps them in files
    and wipes the files it reads.  The file system is a map from paths to contents, with
    the paths that cannot be read or cannot be overwritten. *)

From S2P Require Import Prelude PyValue Datetime Json Crypto Approval Quota.
From Stdlib Require Import Ascii.
Local Open Scope Z_scope.

Module Shamir.
Import Json Crypto.

(** [ShamirError] with its code, or any other exception. *)
Inductive exn :=
| ShamirError (code : string)
| OtherError.

Definition SECRET_LEN_BYTES : nat := 32.
Definition DEFAULT_PARTS : nat := 5.
Definition DEFAULT_THRESHOLD : nat := 3.
Definition SHARE_LEN_BYTES : nat := 33.
Definition SHARE_LEN_HEX : nat := 66.

(** * Shares *)
Definition is_hex (c : ascii) : bool := match hex_value c with Some _ => true | None => false end.

(** [validate_share]: hex digits only, the length of a share, not all zeros. *)
Definition validate_share (share_hex : string) : outcome exn unit :=
  let s := strip share_hex in
  let bad := Raise (ShamirError "bad_share_format") in
  if String.eqb s "" then bad
  else if negb (all_chars is_hex s) then bad
  else if negb (String.length s =? SHARE_LEN_HEX)%nat then bad
  else if all_chars (Ascii.eqb "0") s then bad
  else Ok tt.

Fixpoint validate_all (shares : list string) : outcome exn unit :=
  match shares with
  | [] => Ok tt
  | s :: shares' => _ ← validate_share s; validate_all shares'
  end.

(** The last byte of a share, its X-coordinate. *)
Fixpoint last_char (s : string) : option ascii :=
  match s with
  | EmptyString => None
  | String c EmptyString => Some c
  | String _ s' => last_char s'
  end.

Fixpoint distinct_xs (xs : list (option ascii)) : bool :=
  match xs with [] => true | x :: xs' => negb (bool_decide (x ∈ xs')) && distinct_xs xs' end.

Definition shares_have_unique_xs (shares : list string) : outcome exn unit :=
  guard_raise (negb (distinct_xs (map last_char shares))) (ShamirError "duplicate_shares").

(** [bytes.fromhex(s.strip())] for every share. *)
Fixpoint decode_shares (shares : list string) : outcome exn (list string) :=
  match shares with
  | [] => Ok []
  | s :: shares' =>
      match Approval.fromhex (strip s) with
      | Some b => bs ← decode_shares shares'; Ok (b :: bs)
      | None => Raise OtherError
      end
  end.

(** * The library *)

(** [pyshamir]: [split secret parts threshold] and [combine shares]; [combine] may raise. *)
Record library := {
  lib_split : string → nat → nat → list string;
  lib_combine : list string → option string
}.

Section Sharing.
(** [None] when the package is not installed. *)
Context (pyshamir : option library).

Definition import_pyshamir : outcome exn library :=
  match pyshamir with Some l => Ok l | None => Raise (ShamirError "library_unavailable") end.

Definition split_secret (secret : string) (parts threshold : nat) : outcome exn (list string) :=
  if negb (String.length secret =? SECRET_LEN_BYTES)%nat then Raise (ShamirError "bad_secret_length")
  else if negb ((1 <? threshold)%nat && (threshold <=? parts)%nat) then Raise (ShamirError "bad_secret_length")
  else l ← import_pyshamir; Ok (map hex_of (lib_split l secret parts threshold)).

Definition combine_shares (shares : list string) (threshold : nat) : outcome exn string :=
  if (length shares <? threshold)%nat then Raise (ShamirError "too_few_shares")
  else
    _ ← validate_all shares;
    bs ← decode_shares shares;
    _ ← shares_have_unique_xs bs;
    l ← import_pyshamir;
    match lib_combine l bs with
    | None => Raise (ShamirError "combine_failed")
    | Some secret =>
        if (String.length secret =? SECRET_LEN_BYTES)%nat then Ok secret
        else Raise (ShamirError "combine_failed")
    end.

(** * Files *)
Record fs := { files : gmap string string; unreadable : gset string; unwritable : gset string }.

Definition set_files (m : gmap string string) (s : fs) : fs :=
  {| files := m; unreadable := unreadable s; unwritable := unwritable s |}.

(** Exclusive creation of the files, in order: what was written before a failure stays. *)
Fixpoint create_files (shares paths : list string) : proc fs exn (list string) :=
  match shares, paths with
  | share :: shares', p :: paths' =>
      pbind (pgets files) (fun m =>
      if bool_decide (is_Some (m !! p)) then praise OtherError
      else pbind (pmodify (fun s => set_files (<[p := strip share +:+ newline]> (files s)) s)) (fun _ =>
           pbind (create_files shares' paths') (fun ps => pret (p :: ps))))
  | _, _ => pret []
  end.

Definition write_share_files (shares paths : list string) : proc fs exn (list string) :=
  if negb (length shares =? length paths)%nat then praise (ShamirError "bad_share_format")
  else pbind (pgets files) (fun m =>
    if existsb (fun p => bool_decide (is_Some (m !! p))) paths then praise (ShamirError "share_file_exists")
    else create_files shares paths).

(** The share in a file, which is overwritten and removed; a file that cannot be written
    stays, with a warning. *)
Definition read_and_zeroize_share_file (p : string) : proc fs exn string :=
  pbind (pgets id) (fun s =>
  match files s !! p with
  | None => praise (ShamirError "share_file_unreadable")
  | Some text =>
      if bool_decide (p ∈ unreadable s) then praise (ShamirError "share_file_unreadable")
      else let content := strip text in
           if String.eqb content "" then praise (ShamirError "share_file_unreadable")
           else pbind (pmodify (fun s => if bool_decide (p ∈ unwritable s) then s
                                         else set_files (delete p (files s)) s)) (fun _ => pret content)
  end).

(** Reading without wiping: a missing file raises as an unreadable one does. *)
Definition read_share_file (p : string) : proc fs exn string :=
  pbind (pgets id) (fun s =>
  match files s !! p with
  | None => praise (ShamirError "share_file_unreadable")
  | Some text => if bool_decide (p ∈ unreadable s) then praise (ShamirError "share_file_unreadable")
                 else pret (strip text)
  end).

Fixpoint read_all (zeroize : bool) (paths : list string) : proc fs exn (list string) :=
  match paths with
  | [] => pret []
  | p :: paths' =>
      pbind (if zeroize then read_and_zeroize_share_file p else read_share_file p) (fun c =>
      pbind (read_all zeroize paths') (fun cs => pret (c :: cs)))
  end.

Definition reconstruct_from_files (paths : list string) (threshold : nat) (zeroize : bool)
    : proc fs exn (string * list string) :=
  if (length paths <? threshold)%nat then praise (ShamirError "too_few_shares")
  else pbind (read_all zeroize paths) (fun shares =>
       match combine_shares shares threshold with
       | Ok secret => pret (secret, if zeroize then paths else [])
       | Raise e => praise e
       end).
End Sharing.

(** * The sharing scheme *)

Definition sizes_ok (k n : nat) : Prop := (1 < k)%nat ∧ (k ≤ n)%nat ∧ (n ≤ 255)%nat.

(** What [pyshamir] documents: [split] gives as many shares as asked, each one byte longer
    than the secret and ending in an X-coordinate of its own that is not zero, and any
    [threshold] of them combine to the secret. *)
Class ShamirLaws (l : library) : Prop := {
  split_length secret n k : sizes_ok k n → length (lib_split l secret n k) = n;
  split_shape secret n k x : sizes_ok k n → x ∈ lib_split l secret n k →
    String.length x = S (String.length secret) ∧ ∃ c, last_char x = Some c ∧ 0 < code c;
  split_coordinates secret n k : sizes_ok k n → NoDup (map last_char (lib_split l secret n k));
  combine_split secret n k picked : sizes_ok k n → (k ≤ length picked)%nat → NoDup picked →
    (∀ x, x ∈ picked → x ∈ lib_split l secret n k) → lib_combine l picked = Some secret
}.

(** * A share survives its file *)
Lemma hex_chars s : all_chars is_hex (hex_of s) = true ∧ all_chars (fun c => negb (is_space c)) (hex_of s) = true.
Proof.
  split; [|apply Approval.fromhex_hex]. unfold hex_of, bytes_of. induction s as [|c s IH]; [done|].
  cbn [String.list_ascii_of_string map concat app String.string_of_list_ascii all_chars]. rewrite IH.
  assert (Hc : 0 <= code c < 256) by (unfold code; pose proof (N_ascii_bounded c); lia).
  pose proof (Z.div_mod (code c) 16 ltac:(lia)). pose proof (Z.mod_pos_bound (code c) 16 ltac:(lia)).
  unfold is_hex. by rewrite !hex_value_digit by lia.
Qed.

Lemma strip_hex s : strip (hex_of s) = hex_of s.
Proof. apply strip_id, hex_chars. Qed.

Lemma strip_newline x : all_chars (fun c => negb (is_space c)) x = true → strip (x +:+ newline) = x.
Proof.
  intros Hx. unfold strip. assert (Hr : ∀ t, all_chars (fun c => negb (is_space c)) t = true → rstrip (t +:+ newline) = t).
  { induction t as [|c t IH]; [done|]. cbn [all_chars]. intros [Hc%negb_true_iff Ht]%andb_true_iff.
    rewrite app_cons. cbn [rstrip]. rewrite IH by done. destruct t; [by rewrite Hc|done]. }
  destruct x as [|c x]; [done|]. cbn [all_chars] in Hx. pose proof Hx as [Hc%negb_true_iff _]%andb_true_iff.
  rewrite app_cons. cbn [lstrip]. rewrite Hc, <- app_cons. by apply Hr.
Qed.

(** A hex text is all zeros only if its last byte is zero. *)
Lemma zero_hex x c : last_char x = Some c → 0 < code c → all_chars (Ascii.eqb "0") (hex_of x) = false.
Proof.
  intros Hl Hc. apply not_true_iff_false. intros Hz. revert Hl. induction x as [|d x IH]; [done|].
  revert Hz. unfold hex_of, bytes_of. cbn [String.list_ascii_of_string map concat app String.string_of_list_ascii all_chars].
  intros [H1%Ascii.eqb_eq [H2%Ascii.eqb_eq Hz]%andb_true_iff]%andb_true_iff.
  assert (Hd : 0 <= code d < 256) by (unfold code; pose proof (N_ascii_bounded d); lia).
  pose proof (Z.div_mod (code d) 16 ltac:(lia)). pose proof (Z.mod_pos_bound (code d) 16 ltac:(lia)).
  apply (f_equal hex_value) in H1, H2. rewrite hex_value_digit in H1, H2 by lia.
  change (hex_value "0") with (Some 0) in H1, H2. injection H1 as H1. injection H2 as H2.
  destruct x as [|e x]; [|by apply IH]. intros [= <-]. lia.
Qed.

Lemma valid_hex_share x c :
  String.length x = SHARE_LEN_BYTES → last_char x = Some c → 0 < code c → validate_share (hex_of x) = Ok tt.
Proof.
  intros Hx Hl Hc. unfold validate_share. rewrite strip_hex. destruct (hex_chars x) as [Hh _].
  destruct (String.eqb_spec (hex_of x) "") as [E|_].
  { apply (f_equal String.length) in E. by rewrite Crypto.length_hex, Hx in E. }
  rewrite Hh, Crypto.length_hex, Hx. cbn [negb Nat.mul Nat.eqb]. rewrite (zero_hex x c) by done. done.
Qed.

Lemma decode_hex xs : decode_shares (map hex_of xs) = Ok xs.
Proof.
  induction xs as [|x xs IH]; [done|]. cbn [map decode_shares]. rewrite strip_hex.
  destruct (Approval.fromhex_hex x) as [-> _]. by rewrite IH.
Qed.

Lemma distinct_xs_spec xs : distinct_xs xs = true ↔ NoDup xs.
Proof.
  induction xs as [|x xs IH]; cbn; [split; [constructor|done]|].
  by rewrite andb_true_iff, negb_true_iff, bool_decide_eq_false, NoDup_cons, IH.
Qed.

Lemma combine_hex l secret n k picked `{!ShamirLaws l} :
  String.length secret = SECRET_LEN_BYTES → sizes_ok k n →
  (k ≤ length picked)%nat → NoDup picked → (∀ x, x ∈ picked → x ∈ lib_split l secret n k) →
  combine_shares (Some l) (map hex_of picked) k = Ok secret.
Proof.
  intros Hs Hk Hl Hnd Hin. unfold combine_shares. rewrite length_map, (proj2 (Nat.ltb_ge _ _)) by done.
  assert (Hv : validate_all (map hex_of picked) = Ok tt).
  { assert (Hall : ∀ xs, (∀ x, x ∈ xs → x ∈ lib_split l secret n k) → validate_all (map hex_of xs) = Ok tt).
    { induction xs as [|x xs IH]; [done|]. intros Hx. cbn [map validate_all].
      destruct (split_shape secret n k x Hk) as (Hlen & c & Hc & Hpos); [apply Hx; by left|].
      rewrite (valid_hex_share x c) by (rewrite ?Hlen, ?Hs; done). cbn [mbind outcome_bind]. apply IH. set_solver. }
    by apply Hall. }
  rewrite Hv, decode_hex. cbn [mbind outcome_bind]. unfold shares_have_unique_xs.
  assert (Hd : distinct_xs (map last_char picked) = true).
  { apply distinct_xs_spec. pose proof (split_coordinates secret n k Hk) as Hc.
    assert (Hinj : ∀ a b, a ∈ lib_split l secret n k → b ∈ lib_split l secret n k → last_char a = last_char b → a = b).
    { clear -Hc. revert Hc. generalize (lib_split l secret n k). intros xs. induction xs as [|x xs IH].
      - intros _ a b Ha. by apply elem_of_nil in Ha.
      - cbn [map]. intros [Hx Hxs]%NoDup_cons a b [->|Ha]%elem_of_cons [->|Hb]%elem_of_cons E; [done| | |by apply IH].
        + destruct Hx. rewrite E. apply list_elem_of_In, in_map, list_elem_of_In, Hb.
        + destruct Hx. rewrite <- E. apply list_elem_of_In, in_map, list_elem_of_In, Ha. }
    clear -Hnd Hin Hinj. induction Hnd as [|x xs Hx _ IH]; cbn; constructor.
    - intros Hm. apply list_elem_of_In, in_map_iff in Hm as (y & E & Hy%list_elem_of_In).
      assert (y = x) by (apply Hinj; [apply Hin; by right|apply Hin; by left|done]). by subst.
    - apply IH. set_solver. }
  rewrite Hd. cbn [negb guard_raise mbind outcome_bind import_pyshamir].
  rewrite (combine_split secret n k picked) by done. by rewrite Hs.
Qed.

(** * Files *)

(** A file that holds a share and can be read and wiped. *)
Definition good_file (s : fs) (p : string) : Prop :=
  p ∉ unreadable s ∧ p ∉ unwritable s ∧ ∃ text, files s !! p = Some text ∧ strip text ≠ "".

Definition share_in (s : fs) (p : string) : string := strip (default "" (files s !! p)).

Lemma read_all_good paths s :
  NoDup paths → (∀ p, p ∈ paths → good_file s p) →
  eval (read_all true paths) s = Ok (map (share_in s) paths) ∧
  ∀ p, files (exec (read_all true paths) s) !! p = if bool_decide (p ∈ paths) then None else files s !! p.
Proof.
  revert s. induction paths as [|q paths IH]; intros s Hnd Hgood; [done|].
  apply NoDup_cons in Hnd as [Hq Hnd]. destruct (Hgood q) as (Hr & Hw & text & Hf & Hne); [by left|].
  assert (Hstep : eval (read_and_zeroize_share_file q) s = Ok (strip text) ∧
    exec (read_and_zeroize_share_file q) s = set_files (delete q (files s)) s).
  { unfold read_and_zeroize_share_file. autorewrite with statedb. cbn [id]. rewrite Hf, bool_decide_eq_false_2 by done.
    destruct (String.eqb_spec (strip text) ""); [done|]. autorewrite with statedb.
    by rewrite bool_decide_eq_false_2. }
  destruct Hstep as [He Hx]. cbn [read_all].
  destruct (IH (set_files (delete q (files s)) s) Hnd) as [IHe IHx].
  { intros p Hp. destruct (Hgood p) as (? & ? & t & Ht & ?); [by right|]. split_and!; [done..|].
    exists t. split; [|done]. cbn. rewrite lookup_delete_ne; [done|]. by intros ->. }
  assert (Heq : map (share_in (set_files (delete q (files s)) s)) paths = map (share_in s) paths).
  { apply map_ext_in. intros p Hp%list_elem_of_In. unfold share_in. cbn. rewrite lookup_delete_ne; [done|]. by intros ->. }
  rewrite eval_pbind, exec_pbind, He, Hx. rewrite !eval_pbind, !exec_pbind, IHe. split.
  - cbn [map]. rewrite eval_pret. unfold share_in at 2. by rewrite Hf, Heq.
  - intros p. rewrite exec_pret, IHx. cbn. destruct (decide (p = q)) as [->|Hpq].
    + rewrite bool_decide_eq_false_2, lookup_delete_eq by done. rewrite bool_decide_eq_true_2; [done|by left].
    + rewrite lookup_delete_ne by done. assert (Hiff : p ∈ q :: paths ↔ p ∈ paths) by set_solver.
      by rewrite (bool_decide_ext _ _ Hiff).
Qed.

Lemma create_files_fresh shares paths s :
  NoDup paths → (∀ p, p ∈ paths → files s !! p = None) → length shares = length paths →
  eval (create_files shares paths) s = Ok paths ∧
  unreadable (exec (create_files shares paths) s) = unreadable s ∧
  unwritable (exec (create_files shares paths) s) = unwritable s ∧
  (∀ p x, (p, x) ∈ zip paths shares → files (exec (create_files shares paths) s) !! p = Some (strip x +:+ newline)) ∧
  ∀ p, p ∉ paths → files (exec (create_files shares paths) s) !! p = files s !! p.
Proof.
  revert shares s. induction paths as [|q paths IH]; intros [|x shares] s Hnd Hfree Hlen; try done.
  { split_and!; try done. intros p x Hp. by apply elem_of_nil in Hp. }
  apply NoDup_cons in Hnd as [Hq Hnd]. cbn [create_files].
  set (s1 := set_files (<[q := strip x +:+ newline]> (files s)) s).
  destruct (IH shares s1 Hnd) as (He & Hu & Hw & Hz & Ho).
  { intros p Hp. cbn. rewrite lookup_insert_ne; [apply Hfree; by right|]. by intros ->. }
  { by injection Hlen. }
  rewrite !eval_pbind, !exec_pbind. autorewrite with statedb.
  rewrite (Hfree q) by by left. rewrite bool_decide_eq_false_2 by by intros [? ?].
  rewrite !eval_pbind, !exec_pbind. autorewrite with statedb. fold s1. rewrite He. autorewrite with statedb.
  split_and!; [done|done|done| |].
  - intros p y [E|Hp]%elem_of_cons; [|by apply Hz]. injection E as -> ->. rewrite Ho by done. cbn. by rewrite lookup_insert_eq.
  - intros p [Hpq Hp]%not_elem_of_cons. rewrite Ho by done. cbn. by rewrite lookup_insert_ne.
Qed.

Lemma zip_pick_fst {A B} (xs : list A) (ys : list B) (picked : list (A * B)) :
  NoDup xs → NoDup ys → NoDup picked → (∀ z, z ∈ picked → z ∈ zip xs ys) → NoDup picked.*1 ∧ NoDup picked.*2.
Proof.
  intros Hx Hy Hp Hin.
  assert (Hf : ∀ a b c, (a, b) ∈ zip xs ys → (a, c) ∈ zip xs ys → b = c).
  { intros a b c (i & H1)%list_elem_of_lookup (k & H2)%list_elem_of_lookup.
    apply lookup_zip_with_Some in H1 as (? & ? & [= <- <-] & Hi1 & Hi2).
    apply lookup_zip_with_Some in H2 as (? & ? & [= <- <-] & Hk1 & Hk2).
    assert (i = k) by (eapply NoDup_lookup; [exact Hx|done..]). subst. congruence. }
  assert (Hs : ∀ a b c, (a, c) ∈ zip xs ys → (b, c) ∈ zip xs ys → a = b).
  { intros a b c (i & H1)%list_elem_of_lookup (k & H2)%list_elem_of_lookup.
    apply lookup_zip_with_Some in H1 as (? & ? & [= <- <-] & Hi1 & Hi2).
    apply lookup_zip_with_Some in H2 as (? & ? & [= <- <-] & Hk1 & Hk2).
    assert (i = k) by (eapply NoDup_lookup; [exact Hy|done..]). subst. congruence. }
  induction Hp as [|[a b] picked Hab _ IH]; [by repeat constructor|].
  destruct IH as [IH1 IH2]; [intros z Hz; apply Hin; by right|].
  assert (Hhere : (a, b) ∈ zip xs ys) by (apply Hin; by left).
  cbn. split; constructor; try done.
  - intros ((a' & b') & E & Hz)%list_elem_of_fmap. cbn in E. subst a'.
    assert (b' = b) by (eapply Hf; [apply Hin; by right|done]). by subst.
  - intros ((a' & b') & E & Hz)%list_elem_of_fmap. cbn in E. subst b'.
    assert (a' = a) by (eapply Hs; [apply Hin; by right|done]). by subst.
Qed.

(** The files of freshly written shares can be used for recovery. *)
Lemma written_files s raw paths picked m :
  NoDup paths → (∀ p, p ∈ paths → files s !! p = None) → length (map hex_of raw) = length paths →
  unreadable s = ∅ → unwritable s = ∅ → (∀ x, x ∈ raw → String.length x = S m) →
  (∀ z, z ∈ picked → z ∈ zip paths (map hex_of raw)) →
  let s1 := exec (create_files (map hex_of raw) paths) s in
  (∀ p, p ∈ picked.*1 → good_file s1 p) ∧ map (share_in s1) picked.*1 = picked.*2.
Proof.
  intros Hnd Hfree Hlen Hu Hw Hsize Hpick s1.
  destruct (create_files_fresh (map hex_of raw) paths s Hnd Hfree Hlen) as (_ & Hu1 & Hw1 & Hz & _). fold s1 in Hu1, Hw1, Hz.
  assert (Hfile : ∀ a x, (a, x) ∈ picked → files s1 !! a = Some (x +:+ newline) ∧ strip (x +:+ newline) = x ∧ x ≠ "").
  { intros a x Hp%Hpick. assert (Hx : x ∈ map hex_of raw) by (eapply elem_of_zip_r, Hp).
    apply list_elem_of_In, in_map_iff in Hx as (y & <- & Hy%list_elem_of_In).
    rewrite (Hz _ _ Hp), strip_hex, strip_newline by apply hex_chars. split_and!; [done|done|].
    intros E. apply (f_equal String.length) in E. by rewrite Crypto.length_hex, (Hsize y Hy) in E. }
  split.
  - intros p ((a & x) & -> & Hp)%list_elem_of_fmap. destruct (Hfile a x Hp) as (Hf & Hst & Hne). cbn.
    unfold good_file. rewrite Hu1, Hw1, Hu, Hw. split_and!; [set_solver|set_solver|]. eexists. split; [done|]. by rewrite Hst.
  - clear -Hfile. induction picked as [|[a x] picked IH]; [done|]. cbn. rewrite IH by (intros; apply Hfile; by right).
    destruct (Hfile a x) as (Hf & Hst & _); [by left|]. 
    assert (Hs : share_in s1 a = x) by (unfold share_in; rewrite Hf; exact Hst). by rewrite Hs.
Qed.

Lemma picked_raw (paths raw : list string) (picked : list (string * string)) :
  (∀ z, z ∈ picked → z ∈ zip paths (map hex_of raw)) → ∃ xs, picked.*2 = map hex_of xs ∧ ∀ x, x ∈ xs → x ∈ raw.
Proof.
  intros Hpick. induction picked as [|(a & x) picked IH].
  { exists []. split; [done|]. by intros x ?%elem_of_nil. }
  destruct IH as (xs & E & Hxs); [intros z Hz; apply Hpick; by right|].
  assert (Hxr : x ∈ map hex_of raw) by (eapply elem_of_zip_r, Hpick; by left).
  apply list_elem_of_In, in_map_iff in Hxr as (y & <- & Hy%list_elem_of_In).
  exists (y :: xs). cbn. rewrite E. split; [done|]. intros z [->|Hz]%elem_of_cons; auto.
Qed.

Lemma split_ok l secret n k shares :
  (n ≤ 255)%nat → split_secret (Some l) secret n k = Ok shares →
  String.length secret = SECRET_LEN_BYTES ∧ sizes_ok k n ∧ shares = map hex_of (lib_split l secret n k).
Proof.
  intros Hn. unfold split_secret. destruct (Nat.eqb_spec (String.length secret) SECRET_LEN_BYTES); [|done].
  cbn [negb]. destruct ((1 <? k)%nat && (k <=? n)%nat) eqn:Hkn; [|done]. cbn [negb mbind outcome_bind import_pyshamir].
  intros [= <-]. by apply andb_true_iff in Hkn as [Hk1%Nat.ltb_lt Hk2%Nat.leb_le].
Qed.

Lemma write_ok shares paths s ps :
  eval (write_share_files shares paths) s = Ok ps →
  (∀ p, p ∈ paths → files s !! p = None) ∧ length shares = length paths ∧
  exec (write_share_files shares paths) s = exec (create_files shares paths) s.
Proof.
  unfold write_share_files. destruct (Nat.eqb_spec (length shares) (length paths)); [|done]. cbn [negb].
  autorewrite with statedb. destruct (existsb _ paths) eqn:Hex; [done|]. intros _. split_and!; try done.
  intros p Hp. rewrite existsb_elem_false in Hex. apply Hex, bool_decide_eq_false in Hp. by apply eq_None_not_Some.
Qed.

(** C19: Recovery: split a key, write the shares to fresh files, and any [threshold] of the
    files give the key back; the files used are gone and the others are as they were. *)
Theorem key_recovered_from_files l secret n k shares paths s ps picked `{!ShamirLaws l} :
  (n ≤ 255)%nat → split_secret (Some l) secret n k = Ok shares →
  unreadable s = ∅ → unwritable s = ∅ → NoDup paths →
  eval (write_share_files shares paths) s = Ok ps →
  (∀ z, z ∈ picked → z ∈ zip paths shares) → NoDup picked → (k ≤ length picked)%nat →
  let s1 := exec (write_share_files shares paths) s in
  eval (reconstruct_from_files (Some l) picked.*1 k true) s1 = Ok (secret, picked.*1) ∧
  ∀ p, files (exec (reconstruct_from_files (Some l) picked.*1 k true) s1) !! p =
       if bool_decide (p ∈ picked.*1) then None else files s1 !! p.
Proof.
  intros Hn (Hs & Hk & ->)%split_ok Hu Hw Hnd (Hfree & Hlen2 & ->)%write_ok Hpick Hndp Hlen s1; [|done].
  set (raw := lib_split l secret n k) in *.
  destruct (written_files s raw paths picked (String.length secret) Hnd Hfree Hlen2 Hu Hw) as [Hgood Hmap]; [|done|].
  { intros x Hx. by destruct (split_shape secret n k x Hk Hx). }
  fold s1 in Hgood, Hmap. assert (Hndh : NoDup (map hex_of raw)).
  { apply (NoDup_fmap_2_strong hex_of); [intros a b _ _; apply Quota.hex_of_inj|].
    pose proof (split_coordinates secret n k Hk) as Hc. by apply NoDup_fmap_1 in Hc. }
  destruct (zip_pick_fst paths (map hex_of raw) picked Hnd Hndh Hndp Hpick) as [Hnd1 Hnd2].
  destruct (read_all_good picked.*1 s1 Hnd1 Hgood) as [He Hx].
  destruct (picked_raw paths raw picked Hpick) as (xs & E & Hxs). rewrite Hmap, E in He. rewrite E in Hnd2.
  assert (Hsecret : combine_shares (Some l) (map hex_of xs) k = Ok secret).
  { apply (combine_hex l secret n k); try done.
    - rewrite <- (length_map hex_of xs), <- E, length_fmap. done.
    - by apply (NoDup_fmap_1 hex_of) in Hnd2. }
  unfold reconstruct_from_files. rewrite length_fmap, (proj2 (Nat.ltb_ge _ _)) by done.
  rewrite eval_pbind, exec_pbind, He, Hsecret. split; [done|]. intros p. rewrite exec_pret. apply Hx.
Qed.

(** The shares are wiped before they are combined: once every file has been read, all of
    them are gone, also when the shares turn out not to combine. *)
Theorem shares_gone_whatever_happens lib paths k s :
  NoDup paths → (k ≤ length paths)%nat → (∀ p, p ∈ paths → good_file s p) →
  ∀ p, p ∈ paths → files (exec (reconstruct_from_files lib paths k true) s) !! p = None.
Proof.
  intros Hnd Hk Hgood p Hp. destruct (read_all_good paths s Hnd Hgood) as [He Hx].
  unfold reconstruct_from_files. rewrite (proj2 (Nat.ltb_ge _ _)) by done. rewrite exec_pbind, He.
  assert (Hr : files (exec (read_all true paths) s) !! p = None) by by rewrite Hx, bool_decide_eq_true_2.
  by destruct (combine_shares lib _ k).
Qed.

(** * A scheme that satisfies the laws *)

(** Every share holds the secret: not a secret sharing, but a model of the laws. *)
Definition plain_split (secret : string) (n k : nat) : list string :=
  map (fun i => secret +:+ str1 (chr (Z.of_nat i))) (seq 1 n).

Fixpoint drop_last (s : string) : string :=
  match s with
  | EmptyString | String _ EmptyString => ""
  | String c s' => String c (drop_last s')
  end.

Definition plain_library : library :=
  {| lib_split := plain_split; lib_combine := (fun shares => drop_last <$> head shares) |}.

Lemma last_char_snoc x c : last_char (x +:+ str1 c) = Some c ∧ drop_last (x +:+ str1 c) = x.
Proof.
  induction x as [|d x [IH1 IH2]]; [done|]. rewrite app_cons. cbn [last_char drop_last]. rewrite IH1, IH2.
  by destruct x.
Qed.

#[export] Instance plain_laws : ShamirLaws plain_library.
Proof.
  assert (Hin : ∀ secret n k x, x ∈ plain_split secret n k → ∃ i, (1 ≤ i ≤ n)%nat ∧ x = secret +:+ str1 (chr (Z.of_nat i))).
  { intros secret n k x (i & <- & Hi)%list_elem_of_In%in_map_iff. exists i. apply in_seq in Hi. split; [lia|done]. }
  split.
  - intros secret n k _. cbn. unfold plain_split. by rewrite length_map, length_seq.
  - intros secret n k x (_ & _ & Hn) (i & Hi & ->)%Hin. rewrite length_app_str. split; [cbn; lia|].
    exists (chr (Z.of_nat i)). split; [apply last_char_snoc|]. rewrite code_chr; lia.
  - intros secret n k (_ & _ & Hn). cbn. unfold plain_split. rewrite map_map.
    rewrite (map_ext _ (fun i => Some (chr (Z.of_nat i)))) by (intros i; apply last_char_snoc).
    apply (NoDup_fmap_2_strong (fun i => Some (chr (Z.of_nat i)))); [|apply NoDup_seq].
    intros a b Ha Hb [= E]. apply (f_equal code) in E. apply elem_of_seq in Ha, Hb. rewrite !code_chr in E by lia. lia.
  - intros secret n k picked (Hk & _) Hl _ Hp. destruct picked as [|x picked]; [cbn in Hl; lia|]. cbn.
    destruct (Hin secret n k x) as (i & _ & ->); [apply Hp; by left|]. f_equal. apply last_char_snoc.
Qed.

Definition demo_secret : string := of_bytes (map Z.of_nat (seq 100 32)).
Definition demo_paths : list string := ["a"; "b"; "c"; "d"; "e"].
Definition empty_fs : fs := {| files := ∅; unreadable := ∅; unwritable := ∅ |}.
Definition demo_shares : list string := map hex_of (plain_split demo_secret 5 3).
Definition demo_picked : list (string * string) :=
  List.filter (fun z => in_strs z.1 ["b"; "c"; "e"]) (zip demo_paths demo_shares).

Lemma key_recovered_from_files_witness :
  split_secret (Some plain_library) demo_secret 5 3 = Ok demo_shares ∧
  let s1 := exec (write_share_files demo_shares demo_paths) empty_fs in
  eval (reconstruct_from_files (Some plain_library) demo_picked.*1 3 true) s1 = Ok (demo_secret, demo_picked.*1) ∧
  ∀ p, files (exec (reconstruct_from_files (Some plain_library) demo_picked.*1 3 true) s1) !! p =
       if bool_decide (p ∈ demo_picked.*1) then None else files s1 !! p.
Proof.
  split; [vm_compute; reflexivity|].
  apply (key_recovered_from_files plain_library demo_secret 5 3 demo_shares demo_paths empty_fs demo_paths demo_picked).
  - lia.
  - vm_compute. reflexivity.
  - reflexivity.
  - reflexivity.
  - apply (bool_decide_eq_true_1 (NoDup demo_paths)). vm_compute. reflexivity.
  - vm_compute. reflexivity.
  - intros z Hz. apply list_elem_of_In, filter_In in Hz as [Hz _]. by apply list_elem_of_In.
  - apply (bool_decide_eq_true_1 (NoDup demo_picked)). vm_compute. reflexivity.
  - vm_compute. reflexivity.
Defined.

(** Three files, one of them not a share: the recovery fails and the shares are lost. *)
Definition mistyped_fs : fs :=
  {| files := <["b" := "not a share"]> (<["c" := List.nth 2 demo_shares ""]> (<["a" := List.nth 0 demo_shares ""]> ∅));
     unreadable := ∅; unwritable := ∅ |}.

Lemma shares_gone_whatever_happens_witness :
  eval (reconstruct_from_files (Some plain_library) ["a"; "b"; "c"] 3 true) mistyped_fs
    = Raise (ShamirError "bad_share_format") ∧
  ∀ p, p ∈ ["a"; "b"; "c"] →
    files (exec (reconstruct_from_files (Some plain_library) ["a"; "b"; "c"] 3 true) mistyped_fs) !! p = None.
Proof.
  split; [vm_compute; reflexivity|].
  apply (shares_gone_whatever_happens (Some plain_library) ["a"; "b"; "c"] 3 mistyped_fs).
  - apply (bool_decide_eq_true_1 (NoDup ["a"; "b"; "c"])). vm_compute. reflexivity.
  - vm_compute. reflexivity.
  - intros p [->|[->|[->|[]%elem_of_nil]%elem_of_cons]%elem_of_cons]%elem_of_cons;
      (split; [set_solver|split; [set_solver|]]); eexists; (split; [vm_compute; reflexivity|vm_compute; discriminate]).
Defined.
End Shamir.
