(* ===== verification/Ledger.v ===== *)
(** The decision ledger: [shared/audit/decision_ledger.py].

    A run's rollouts are lines of JSON in one file, each entry carrying the hash of the
    one before it.  The file is its text, [None] before the first append.  The checks of
    pydantic when a line is read back, and its text of an instant, are parameters. *)

From S2P Require Import Prelude PyValue Datetime Json Crypto.
From Stdlib Require Import Ascii.
Local Open Scope Z_scope.

Module Ledger.
Import Json Crypto.

(** * Data *)
Inductive DecisionMark := accept | watch | reject | decay | replay.
Inductive PromotionVerdict := allowed | denied.
Inductive WorkItemTier := paper | preview | internal | production | destructive.

Definition mark_text (m : DecisionMark) : string :=
  match m with accept => "accept" | watch => "watch" | reject => "reject" | decay => "decay" | replay => "replay" end.
Definition verdict_text (v : PromotionVerdict) : string := match v with allowed => "allowed" | denied => "denied" end.
Definition tier_text (t : WorkItemTier) : string :=
  match t with
  | paper => "paper" | preview => "preview" | internal => "internal" | production => "production"
  | destructive => "destructive"
  end.

(** A score is the literal of the float. *)
Record Candidate := { candidate_id : string; mark : DecisionMark; score : option string; rationale : option string }.

Record CoherenceMark := {
  ensemble_matches_prior_winner : option bool; recursive_matches_prior_winner : option bool;
  latest_rollout_match : option bool; drift_detected : bool; coherence_notes : option string
}.

Record PromotionGate := {
  verdict : PromotionVerdict; tier : WorkItemTier; freshness_passed : bool; replay_passed : bool;
  operator_confirmed : bool; reasons : list string
}.

Record LedgerEntry := {
  entry_id : string; project_id : string; run_id : string; actor : string; rollout_index : Z; ts : datetime;
  fresh_evidence : list string; search_space_size : option Z; trial_count : Z; effective_trial_count : option Z;
  candidates : list Candidate; prior_accepted_winner : option string; prior_watchlist : list string;
  coherence : CoherenceMark; promotion_gate : PromotionGate; prev_hash : option string;
  content_hash : option string
}.

Definition with_prev_hash (h : option string) (e : LedgerEntry) : LedgerEntry :=
  let '(Build_LedgerEntry a b c d i t fe ss tc et cs pw pl co pg _ ch) := e in
  Build_LedgerEntry a b c d i t fe ss tc et cs pw pl co pg h ch.
Definition with_content_hash (h : option string) (e : LedgerEntry) : LedgerEntry :=
  let '(Build_LedgerEntry a b c d i t fe ss tc et cs pw pl co pg ph _) := e in
  Build_LedgerEntry a b c d i t fe ss tc et cs pw pl co pg ph h.

(** * The promotion gate *)
Definition when (b : bool) (r : string) : list string := if b then [r] else [].

Definition evaluate (t : WorkItemTier) (fresh replayed confirmed : bool) : PromotionGate :=
  let rs := match t with
            | paper | preview => []
            | internal => when (negb fresh) "freshness_stale"
            | production => when (negb fresh) "freshness_stale" ++ when (negb replayed) "replay_failed"
            | destructive => when (negb fresh) "freshness_stale" ++ when (negb replayed) "replay_failed" ++
                             when (negb confirmed) "operator_not_confirmed"
            end in
  {| verdict := match rs with [] => allowed | _ => denied end; tier := t; freshness_passed := fresh;
     replay_passed := replayed; operator_confirmed := confirmed; reasons := rs |}.

(** * JSON *)
Definition jopt {A} (f : A → json) (o : option A) : json := match o with Some a => f a | None => JNull end.

Definition candidate_json (c : Candidate) : json :=
  JObj [("candidate_id", JStr (candidate_id c)); ("mark", JStr (mark_text (mark c))); ("score", jopt JFloat (score c));
        ("rationale", jopt JStr (rationale c))].

Definition coherence_json (c : CoherenceMark) : json :=
  JObj [("ensemble_matches_prior_winner", jopt JBool (ensemble_matches_prior_winner c));
        ("recursive_matches_prior_winner", jopt JBool (recursive_matches_prior_winner c));
        ("latest_rollout_match", jopt JBool (latest_rollout_match c)); ("drift_detected", JBool (drift_detected c));
        ("notes", jopt JStr (coherence_notes c))].

Definition gate_json (g : PromotionGate) : json :=
  JObj [("verdict", JStr (verdict_text (verdict g))); ("tier", JStr (tier_text (tier g)));
        ("freshness_passed", JBool (freshness_passed g)); ("replay_passed", JBool (replay_passed g));
        ("operator_confirmed", JBool (operator_confirmed g)); ("reasons", JList (map JStr (reasons g)))].

Section Pydantic.
(** The text of an instant in [model_dump(mode="json")], and [model_validate_json]. *)
Context (dump_ts : datetime → string) (model_validate_json : string → option LedgerEntry).

(** The fields but for [content_hash]. *)
Definition payload_items (e : LedgerEntry) : list (string * json) :=
  [("entry_id", JStr (entry_id e)); ("project_id", JStr (project_id e)); ("run_id", JStr (run_id e));
   ("actor", JStr (actor e)); ("rollout_index", JInt (rollout_index e)); ("ts", JStr (dump_ts (ts e)));
   ("fresh_evidence", JList (map JStr (fresh_evidence e))); ("search_space_size", jopt JInt (search_space_size e));
   ("trial_count", JInt (trial_count e)); ("effective_trial_count", jopt JInt (effective_trial_count e));
   ("candidates", JList (map candidate_json (candidates e)));
   ("prior_accepted_winner", jopt JStr (prior_accepted_winner e));
   ("prior_watchlist", JList (map JStr (prior_watchlist e))); ("coherence", coherence_json (coherence e));
   ("promotion_gate", gate_json (promotion_gate e)); ("prev_hash", jopt JStr (prev_hash e))].

Definition entry_json (e : LedgerEntry) : json :=
  JObj (payload_items e ++ [("content_hash", jopt JStr (content_hash e))]).

Definition compute_content_hash (e : LedgerEntry) : string := hex_of (sha256 (canonical (JObj (payload_items e)))).

Definition entry_line (e : LedgerEntry) : string := canonical (entry_json e).

(** * The file *)
Record DecisionLedger := { l_project : string; l_run : string; l_file : option string }.

Inductive exn := ValueError | ValidationError | OtherError.

(** A ledger on the file that is there. *)
Definition new_ledger (project run : string) (file : option string) : outcome exn DecisionLedger :=
  if String.eqb project "" then Raise ValueError
  else if String.eqb run "" then Raise ValueError
  else Ok {| l_project := project; l_run := run; l_file := file |}.

(** [bytes.splitlines()]. *)
Fixpoint bytes_lines (cur : string) (s : string) : list string :=
  match s with
  | EmptyString => if String.eqb cur "" then [] else [cur]
  | String c s' =>
      if Ascii.eqb c (chr 10) then cur :: bytes_lines "" s'
      else if Ascii.eqb c (chr 13) then
        match s' with
        | String d s'' => if Ascii.eqb d (chr 10) then cur :: bytes_lines "" s'' else cur :: bytes_lines "" s'
        | EmptyString => [cur]
        end
      else bytes_lines (cur +:+ str1 c) s'
  end.

(** The last [n] bytes. *)
Fixpoint drop_bytes (n : nat) (s : string) : string :=
  match n, s with O, _ => s | S k, String _ s' => drop_bytes k s' | S _, EmptyString => EmptyString end.
Definition last_bytes (n : nat) (s : string) : string := drop_bytes (String.length s - n) s.

(** [_last_hash_locked]: of the lines of the last 4096 bytes, from the end, the first with a
    [content_hash].  A line that is not JSON is skipped; one that is not an object, or not
    UTF-8, raises; so does here a hash that is not a string, which [append] never writes. *)
Fixpoint first_hash (last : option string) (lines : list string) : outcome exn (option string) :=
  match lines with
  | [] => Ok last
  | l :: lines' =>
      if all_chars is_c_space l then first_hash last lines'
      else if negb (is_textb l) then Raise OtherError
      else match loads l with
           | None => first_hash last lines'
           | Some (JObj d) =>
               match dict_lookup "content_hash" d with
               | None | Some JNull => first_hash None lines'
               | Some (JStr h) => if String.eqb h "" then first_hash (Some h) lines' else Ok (Some h)
               | Some _ => Raise OtherError
               end
           | Some _ => Raise OtherError
           end
  end.

Definition last_hash (l : DecisionLedger) : outcome exn (option string) :=
  match l_file l with
  | None => Ok None
  | Some text => first_hash None (rev (bytes_lines "" (last_bytes 4096 text)))
  end.

Definition append (l : DecisionLedger) (e : LedgerEntry) : outcome exn (LedgerEntry * DecisionLedger) :=
  if negb (String.eqb (project_id e) (l_project l)) then Raise ValueError
  else if negb (String.eqb (run_id e) (l_run l)) then Raise ValueError
  else match candidates e with
       | [] => Raise ValueError
       | _ =>
           prev ← last_hash l;
           let chained := with_prev_hash prev e in
           let final := with_content_hash (Some (compute_content_hash chained)) chained in
           let text := default "" (l_file l) in
           Ok (final, {| l_project := l_project l; l_run := l_run l;
                         l_file := Some (text +:+ entry_line final +:+ newline) |})
       end.

(** Reading back: lines end as in [bytes_lines] (universal newlines), blank ones are skipped. *)
Fixpoint parse_lines (lines : list string) : outcome exn (list LedgerEntry) :=
  match lines with
  | [] => Ok []
  | l :: lines' =>
      if String.eqb (strip l) "" then parse_lines lines'
      else match model_validate_json (strip l) with
           | Some e => es ← parse_lines lines'; Ok (e :: es)
           | None => Raise ValidationError
           end
  end.

Definition file_lines (l : DecisionLedger) : list string :=
  match l_file l with None => [] | Some text => bytes_lines "" text end.

Definition iter_entries (l : DecisionLedger) : outcome exn (list LedgerEntry) := parse_lines (file_lines l).

Definition tail (l : DecisionLedger) (n : Z) : outcome exn (list LedgerEntry) :=
  if n <=? 0 then Ok [] else es ← iter_entries l; Ok (drop (length es - Z.to_nat n) es).

(** The walk: the index of the first entry that does not fit and which of its hashes; it
    stops there, so what follows is not read. *)
Fixpoint walk (prev : option string) (i : Z) (lines : list string) : outcome exn (option (Z * string)) :=
  match lines with
  | [] => Ok None
  | l :: lines' =>
      if String.eqb (strip l) "" then walk prev i lines'
      else match model_validate_json (strip l) with
           | None => Raise ValidationError
           | Some e =>
               if negb (bool_decide (prev_hash e = prev)) then Ok (Some (i, "prev_hash mismatch"))
               else if negb (bool_decide (content_hash e = Some (compute_content_hash e)))
               then Ok (Some (i, "content_hash mismatch"))
               else walk (content_hash e) (i + 1) lines'
           end
  end.

Definition verify_chain (l : DecisionLedger) : outcome exn (bool * option (Z * string)) :=
  r ← walk None 0 (file_lines l);
  Ok (match r with None => true | Some _ => false end, r).

(** A run: its entries appended one after the other. *)
Fixpoint append_all (l : DecisionLedger) (es : list LedgerEntry) : outcome exn (list LedgerEntry * DecisionLedger) :=
  match es with
  | [] => Ok ([], l)
  | e :: es' => a ← append l e; r ← append_all a.2 es'; Ok (a.1 :: r.1, r.2)
  end.

(** * The text of a file *)
Lemma drop_bytes_app k a b : (k ≤ String.length a)%nat → drop_bytes k (a +:+ b) = drop_bytes k a +:+ b.
Proof.
  revert a. induction k as [|k IH]; intros [|c a] Hk; [done|done|by inversion Hk|].
  rewrite app_cons. cbn [drop_bytes]. apply IH. by apply le_S_n.
Qed.

Lemma last_bytes_app n a b :
  (String.length b ≤ n)%nat → last_bytes n (a +:+ b) = last_bytes (n - String.length b) a +:+ b.
Proof.
  intros Hn. unfold last_bytes. rewrite length_app_str.
  replace (String.length a + String.length b - n)%nat with (String.length a - (n - String.length b))%nat by lia.
  apply drop_bytes_app. lia.
Qed.

Definition plain (x : string) : Prop := has_char (chr 10) x = false ∧ has_char (chr 13) x = false.

Lemma printable_plain x : all_chars printable x = true → plain x.
Proof.
  unfold plain. induction x as [|c x IH]; [done|]. cbn [all_chars has_char]. intros [Hc Hx]%andb_true_iff.
  destruct (IH Hx) as [-> ->]. unfold printable in Hc. apply andb_true_iff in Hc as [H%Z.leb_le _].
  split; apply orb_false_iff; (split; [|done]); apply Ascii.eqb_neq; intros E; subst c; vm_compute in H; by destruct (H eq_refl).
Qed.

Lemma lines_plain cur x r : plain x → bytes_lines cur (x +:+ newline +:+ r) = (cur +:+ x) :: bytes_lines "" r.
Proof.
  intros [H1 H2]. revert cur. induction x as [|c x IH]; intros cur.
  - rewrite app_nil_str. reflexivity.
  - cbn [has_char] in H1, H2. apply orb_false_iff in H1 as [Hc1 H1], H2 as [Hc2 H2]. rewrite app_cons. cbn [bytes_lines].
    rewrite Ascii.eqb_sym, Hc1, Ascii.eqb_sym, Hc2, IH, app_assoc_str by done. done.
Qed.

(** Lines that end before some text split off. *)
Lemma lines_app_fuel n cur t r :
  (String.length t ≤ n)%nat →
  bytes_lines cur (t +:+ newline +:+ r) = bytes_lines cur (t +:+ newline) ++ bytes_lines "" r.
Proof.
  revert cur t. induction n as [|n IH]; intros cur t Hn; [destruct t; [done|cbn in Hn; lia]|].
  destruct t as [|c t]; [done|]. rewrite !app_cons. cbn [bytes_lines String.length] in *.
  destruct (Ascii.eqb c (chr 10)); [by rewrite IH by lia|]. destruct (Ascii.eqb c (chr 13)).
  - destruct t as [|d t]; [done|]. rewrite !app_cons. cbn [String.length] in Hn.
    destruct (Ascii.eqb d (chr 10)); [by rewrite IH by lia|].
    change (String d (t +:+ newline +:+ r)) with (String d t +:+ newline +:+ r).
    change (String d (t +:+ newline)) with (String d t +:+ newline). rewrite IH by (cbn; lia). done.
  - by rewrite IH by lia.
Qed.

Fixpoint file_of (es : list LedgerEntry) : string :=
  match es with [] => "" | e :: es' => entry_line e +:+ newline +:+ file_of es' end.

Lemma file_of_snoc es e : file_of (es ++ [e]) = file_of es +:+ entry_line e +:+ newline.
Proof.
  induction es as [|x es IH]; [cbn [app file_of]; by rewrite app_empty, app_nil_str|].
  cbn [app file_of]. by rewrite IH, !app_assoc_str.
Qed.

(** A text that is empty or ends with a newline. *)
Definition closed (t : string) : Prop := t = "" ∨ ∃ t', t = t' +:+ newline.

Lemma file_of_closed es : closed (file_of es).
Proof.
  destruct es as [|e es _] using rev_ind; [by left|]. right. exists (file_of es +:+ entry_line e).
  by rewrite file_of_snoc, app_assoc_str.
Qed.

Lemma drop_closed k t : closed t → closed (drop_bytes k t).
Proof.
  intros [->|(t' & ->)]; [left; by destruct k|]. revert t'. induction k as [|k IH]; intros t'; [right; by exists t'|].
  destruct t' as [|c t']; [left; by destruct k|]. rewrite app_cons. cbn [drop_bytes]. apply IH.
Qed.

Lemma lines_closed t x : closed t → plain x → bytes_lines "" (t +:+ x +:+ newline) = bytes_lines "" t ++ [x].
Proof.
  intros Ht Hx. pose proof (lines_plain "" x "" Hx) as E. rewrite app_nil_str, app_empty in E.
  destruct Ht as [->|(t' & ->)]; [by rewrite app_empty, E|].
  by rewrite app_assoc_str, (lines_app_fuel (String.length t')), E.
Qed.

(** * Entries *)

(** What [append] makes of an entry after one whose hash is [prev]. *)
Definition seal (prev : option string) (e : LedgerEntry) : LedgerEntry :=
  let chained := with_prev_hash prev e in with_content_hash (Some (compute_content_hash chained)) chained.

Fixpoint seal_all (prev : option string) (es : list LedgerEntry) : list LedgerEntry :=
  match es with [] => [] | e :: es' => seal prev e :: seal_all (content_hash (seal prev e)) es' end.

(** The hash of the last entry. *)
Definition end_hash (prev : option string) (es : list LedgerEntry) : option string :=
  match last es with Some e => content_hash e | None => prev end.

(** An entry that JSON can hold and that reading gives back. *)
Definition reads (e : LedgerEntry) : Prop :=
  valid (sorted (entry_json e)) = true ∧ model_validate_json (entry_line e) = Some e.

(** The line and its newline are within the tail that [append] looks at. *)
Definition short (e : LedgerEntry) : Prop := (String.length (entry_line e) < 4096)%nat.

Lemma payload_content_hash h e : payload_items (with_content_hash h e) = payload_items e.
Proof. by destruct e. Qed.

Lemma seal_hashes prev e :
  prev_hash (seal prev e) = prev ∧ content_hash (seal prev e) = Some (compute_content_hash (seal prev e)).
Proof.
  unfold seal, compute_content_hash. rewrite payload_content_hash. by destruct e.
Qed.

Lemma entry_line_dumps e : ∃ d, sorted (entry_json e) = JObj d ∧
  dict_lookup "content_hash" d = Some (jopt JStr (content_hash e)).
Proof. eexists. split; [reflexivity|]. by destruct (content_hash e). Qed.

Lemma entry_line_plain e : reads e → plain (entry_line e).
Proof. intros [Hv _]. apply printable_plain, dumps_printable, Hv. Qed.

Lemma loads_line e : reads e → ∃ d, loads (entry_line e) = Some (JObj d) ∧
  dict_lookup "content_hash" d = Some (jopt JStr (content_hash e)).
Proof.
  intros [Hv _]. destruct (entry_line_dumps e) as (d & Hd & Hl). exists d. split; [|done].
  unfold entry_line, canonical. rewrite loads_dumps by done. by rewrite Hd.
Qed.

Lemma rstrip_last t c : is_space c = false → rstrip (t +:+ str1 c) = t +:+ str1 c.
Proof.
  intros Hc. induction t as [|x t IH].
  - rewrite app_empty. unfold str1. simpl rstrip. by rewrite Hc.
  - rewrite app_cons. cbn [rstrip]. rewrite IH. by destruct t.
Qed.

(** A line is an object: it starts and ends with a brace. *)
Lemma entry_line_braces e : ∃ t, entry_line e = "{" +:+ t +:+ "}".
Proof. eexists. unfold entry_line, canonical, entry_json. cbn [sorted dumps]. reflexivity. Qed.

Lemma strip_line e : strip (entry_line e) = entry_line e.
Proof.
  destruct (entry_line_braces e) as [t ->]. unfold strip. cbn [String.append lstrip]. 
  change (is_space "{"%char) with false. cbv iota. apply (rstrip_last (String "{" t) "}"). done.
Qed.

Lemma line_not_empty e : String.eqb (entry_line e) "" = false.
Proof. by destruct (entry_line_braces e) as [t ->]. Qed.

Lemma line_not_blank e : all_chars is_c_space (entry_line e) = false.
Proof. by destruct (entry_line_braces e) as [t ->]. Qed.

Lemma first_hash_line e rest h :
  reads e → content_hash e = Some h → h ≠ "" → first_hash None (entry_line e :: rest) = Ok (Some h).
Proof.
  intros He Hh Hn. cbn [first_hash]. rewrite line_not_blank.
  assert (is_textb (entry_line e) = true) as ->.
  { apply ascii_text. destruct He as [Hv _]. eapply all_chars_impl; [|apply dumps_printable, Hv].
    unfold printable. intros c [_ H%Z.leb_le]%andb_true_iff. apply Z.ltb_lt. lia. }
  destruct (loads_line e He) as (d & -> & ->). rewrite Hh. cbn [negb jopt]. by rewrite (proj2 (String.eqb_neq _ _) Hn).
Qed.

Lemma hash_not_empty s : hex_of (sha256 s) ≠ "".
Proof. intros E%(f_equal String.length). by rewrite length_hex, length_sha256 in E. Qed.

(** An entry is as valid as it was without its hashes. *)
Lemma hex_text x : is_textb (hex_of x) = true.
Proof.
  apply ascii_text. unfold hex_of, bytes_of. induction x as [|c x IH]; [done|].
  cbn [String.list_ascii_of_string map concat app String.string_of_list_ascii all_chars]. rewrite IH.
  assert (Hc : 0 <= code c < 256) by (unfold code; pose proof (N_ascii_bounded c); lia).
  rewrite <-(Z.mod_small (code c / 16) 16) by (split; [apply Z.div_pos; lia|apply Z.div_lt_upper_bound; lia]).
  by rewrite !hex_digit_ascii.
Qed.

(** The line of an entry, key by key. *)
Lemma entry_sorted e :
  sorted (entry_json e) = JObj
    [("actor", JStr (actor e)); ("candidates", sorted (JList (map candidate_json (candidates e))));
     ("coherence", sorted (coherence_json (coherence e))); ("content_hash", sorted (jopt JStr (content_hash e)));
     ("effective_trial_count", sorted (jopt JInt (effective_trial_count e))); ("entry_id", JStr (entry_id e));
     ("fresh_evidence", sorted (JList (map JStr (fresh_evidence e)))); ("prev_hash", sorted (jopt JStr (prev_hash e)));
     ("prior_accepted_winner", sorted (jopt JStr (prior_accepted_winner e)));
     ("prior_watchlist", sorted (JList (map JStr (prior_watchlist e)))); ("project_id", JStr (project_id e));
     ("promotion_gate", sorted (gate_json (promotion_gate e))); ("rollout_index", JInt (rollout_index e));
     ("run_id", JStr (run_id e)); ("search_space_size", sorted (jopt JInt (search_space_size e)));
     ("trial_count", JInt (trial_count e)); ("ts", JStr (dump_ts (ts e)))].
Proof. reflexivity. Qed.

Lemma seal_valid prev e :
  valid (sorted (entry_json (with_prev_hash None (with_content_hash None e)))) = true →
  match prev with Some h => is_textb h = true | None => True end → valid (sorted (entry_json (seal prev e))) = true.
Proof.
  clear model_validate_json. intros He Hp. unfold seal. cbv zeta. pose proof (hex_text (sha256 (canonical (JObj (payload_items (with_prev_hash prev e)))))) as Hh.
  fold (compute_content_hash (with_prev_hash prev e)) in Hh. revert Hh. generalize (compute_content_hash (with_prev_hash prev e)) as h.
  intros h Hh. rewrite entry_sorted in He |- *. cbn [valid forallb fst snd] in He |- *. rewrite !andb_true_iff in He |- *.
  assert (Hs : valid (sorted (jopt JStr prev)) = true) by (by destruct prev).
  destruct e. cbn [with_prev_hash with_content_hash actor candidates coherence content_hash effective_trial_count entry_id
    fresh_evidence prev_hash prior_accepted_winner prior_watchlist project_id promotion_gate rollout_index run_id
    search_space_size trial_count ts] in *. change (valid (sorted (jopt JStr (Some h)))) with (is_textb h). tauto.
Qed.

(** * The chain *)
Fixpoint linked (prev : option string) (es : list LedgerEntry) : Prop :=
  match es with
  | [] => True
  | e :: es' => prev_hash e = prev ∧ content_hash e = Some (compute_content_hash e) ∧ linked (content_hash e) es'
  end.

Lemma end_hash_cons prev e es : end_hash prev (e :: es) = end_hash (content_hash e) es.
Proof. unfold end_hash. rewrite last_cons. by destruct (last es). Qed.

Lemma linked_snoc prev es e :
  linked prev es → linked prev (es ++ [seal (end_hash prev es) e]).
Proof.
  revert prev. induction es as [|x es IH]; intros prev; [cbn; intros _; by destruct (seal_hashes prev e) as [-> ->]|].
  intros (H1 & H2 & H3). cbn [app linked]. split_and!; [done|done|].
  rewrite end_hash_cons. by apply IH.
Qed.

Lemma end_hash_snoc prev es e : end_hash prev (es ++ [e]) = content_hash e.
Proof. unfold end_hash. by rewrite last_snoc. Qed.

Lemma linked_last prev es e : linked prev (es ++ [e]) → content_hash e = Some (compute_content_hash e).
Proof.
  revert prev. induction es as [|x es IH]; intros prev; [by intros (_ & ? & _)|]. intros (_ & _ & H). by eapply IH.
Qed.

Lemma lines_file es : Forall reads es → bytes_lines "" (file_of es) = map entry_line es.
Proof.
  induction 1 as [|e es He _ IH]; [done|]. cbn [file_of map]. by rewrite lines_plain, app_empty, IH by by apply entry_line_plain.
Qed.

Lemma parse_file es : Forall reads es → parse_lines (map entry_line es) = Ok es.
Proof.
  induction 1 as [|e es [_ He] _ IH]; [done|]. cbn [map parse_lines]. by rewrite strip_line, line_not_empty, He, IH.
Qed.

Lemma walk_file prev i es rest : Forall reads es → linked prev es →
  walk prev i (map entry_line es ++ rest) = walk (end_hash prev es) (i + Z.of_nat (length es)) rest.
Proof.
  intros H. revert prev i. induction H as [|e es [_ He] _ IH]; intros prev i; [intros _; cbn; by rewrite Z.add_0_r|].
  intros (H1 & H2 & H3). cbn [map app walk]. rewrite strip_line, line_not_empty, He, !bool_decide_eq_true_2 by done.
  cbn [negb]. rewrite IH, end_hash_cons by done. f_equal. cbn [length]. lia.
Qed.

(** The tail of the file ends with the whole last line when that is short. *)
Lemma last_hash_file l es :
  default "" (l_file l) = file_of es → Forall reads es → linked None es →
  (∀ e, last es = Some e → short e) → last_hash l = Ok (end_hash None es).
Proof.
  intros Hf Hr Hl Hs. unfold last_hash.
  destruct es as [|e es _] using rev_ind; [destruct (l_file l) as [t|]; cbn in Hf; by subst|].
  rewrite end_hash_snoc. rewrite file_of_snoc in Hf. apply Forall_app in Hr as [Hr [He _]%Forall_cons].
  destruct (l_file l) as [t|].
  2: { apply (f_equal String.length) in Hf. rewrite !length_app_str in Hf.
       change (String.length (default "" None)) with 0%nat in Hf. change (String.length newline) with 1%nat in Hf. lia. }
  change (default "" (Some t)) with t in Hf. subst t.
  rewrite last_bytes_app, lines_closed.
  - rewrite rev_app_distr. cbn [rev app].
    pose proof (linked_last _ _ _ Hl) as Hc.
    rewrite (first_hash_line e _ (compute_content_hash e)), Hc by (done || apply hash_not_empty). done.
  - apply drop_closed, file_of_closed.
  - by apply entry_line_plain.
  - rewrite (length_app_str (entry_line e) newline). specialize (Hs e (last_snoc _ _)). unfold short in Hs.
    change (String.length newline) with 1%nat. lia.
Qed.

(** An entry that belongs to the ledger and proposes something. *)
Definition belongs (l : DecisionLedger) (e : LedgerEntry) : Prop :=
  project_id e = l_project l ∧ run_id e = l_run l ∧ candidates e ≠ [].

Lemma append_file l es e :
  default "" (l_file l) = file_of es → Forall reads es → linked None es → (∀ e, last es = Some e → short e) →
  belongs l e →
  append l e = Ok (seal (end_hash None es) e,
    {| l_project := l_project l; l_run := l_run l; l_file := Some (file_of (es ++ [seal (end_hash None es) e])) |}).
Proof.
  intros Hf Hr Hl Hs (Hp & Hu & Hc). unfold append. rewrite Hp, Hu, !String.eqb_refl. cbn [negb].
  rewrite (last_hash_file l es) by done. cbn [mbind outcome_bind]. rewrite Hf, file_of_snoc. by destruct (candidates e).
Qed.

Lemma append_all_file l pre es :
  default "" (l_file l) = file_of pre → Forall reads (pre ++ seal_all (end_hash None pre) es) →
  Forall short (pre ++ seal_all (end_hash None pre) es) → linked None pre → Forall (belongs l) es →
  let out := seal_all (end_hash None pre) es in
  ∃ l', append_all l es = Ok (out, l') ∧ default "" (l_file l') = file_of (pre ++ out) ∧ linked None (pre ++ out).
Proof.
  cbv zeta. revert l pre. induction es as [|e es IH]; intros l pre Hf Hr Hs Hl Hb; [exists l; by rewrite app_nil_r|].
  apply Forall_cons in Hb as [Hb Hbs]. cbn [append_all seal_all] in *. set (e' := seal (end_hash None pre) e) in *.
  pose proof Hr as Hr'. apply Forall_app in Hr' as [Hrp _]. pose proof Hs as Hs'. apply Forall_app in Hs' as [Hsp _].
  rewrite (append_file l pre) by (done || (intros x Hx; eapply Forall_forall; [exact Hsp|by apply last_Some_elem_of])).
  cbn [mbind outcome_bind fst snd].
  fold e'. set (l1 := {| l_project := l_project l |}).
  pose proof (IH l1 (pre ++ [e'])) as I. rewrite end_hash_snoc, <-!app_assoc in I. cbn [app] in I.
  destruct I as (l' & E & Hf' & Hl'); [done|done|done|by apply linked_snoc|exact Hbs|]. rewrite E. by exists l'.
Qed.

(** C25: the entries appended to a new ledger read back, in order, each carrying the hash
    of the one before it, and the chain verifies, as long as every line fits the tail
    that [append] looks at. *)
Theorem run_verifies p r es :
  let out := seal_all None es in
  Forall reads out → Forall short out → Forall (belongs (Build_DecisionLedger p r None)) es →
  ∃ l, append_all (Build_DecisionLedger p r None) es = Ok (out, l) ∧ iter_entries l = Ok out ∧
       linked None out ∧ verify_chain l = Ok (true, None) ∧
       (∀ n, 0 < n → tail l n = Ok (drop (length out - Z.to_nat n) out)).
Proof.
  cbv zeta. intros Hr Hs Hb.
  destruct (append_all_file (Build_DecisionLedger p r None) [] es) as (l & Ha & Hf & Hl); [done..|].
  exists l. cbn [app] in *. change (end_hash None []) with (@None string) in *. split; [exact Ha|].
  assert (Hi : file_lines l = map entry_line (seal_all None es)).
  { rewrite <-lines_file, <-Hf by done. unfold file_lines. by destruct (l_file l). }
  assert (He : iter_entries l = Ok (seal_all None es)) by (unfold iter_entries; by rewrite Hi, parse_file).
  split_and!; [done|done| |].
  - unfold verify_chain. rewrite Hi, <-(app_nil_r (map _ _)), walk_file by done. done.
  - intros n Hn. unfold tail. rewrite (proj2 (Z.leb_gt n 0) Hn), He. done.
Qed.

(** * Long lines *)
Lemma drop_bytes_past k a b :
  (String.length a ≤ k)%nat → drop_bytes k (a +:+ b) = drop_bytes (k - String.length a) b.
Proof.
  revert k. induction a as [|c a IH]; intros k Hk; [cbn [String.length]; by rewrite Nat.sub_0_r|].
  destruct k as [|k]; [by inversion Hk|]. rewrite app_cons. cbn [drop_bytes String.length]. rewrite IH by by apply le_S_n. done.
Qed.

Lemma last_bytes_inside n a b : (n ≤ String.length b)%nat → last_bytes n (a +:+ b) = last_bytes n b.
Proof.
  intros Hn. unfold last_bytes. rewrite length_app_str, drop_bytes_past by lia. f_equal. lia.
Qed.

Lemma drop_all_chars p k s : all_chars p s = true → all_chars p (drop_bytes k s) = true.
Proof.
  revert s. induction k as [|k IH]; intros [|c s]; try done. cbn [all_chars drop_bytes]. intros [_ H]%andb_true_iff. by apply IH.
Qed.

(** After a line that does not fit the tail [append] looks at, the next entry is
    appended without the hash of the one before, and the chain no longer verifies. *)
Theorem long_line_breaks_chain l es long e :
  default "" (l_file l) = file_of (es ++ [long]) → Forall reads (es ++ [long]) → linked None (es ++ [long]) →
  (4095 ≤ String.length (entry_line long))%nat → loads (last_bytes 4095 (entry_line long)) = None →
  belongs l e → reads (seal None e) →
  ∃ l', append l e = Ok (seal None e, l') ∧
        verify_chain l' = Ok (false, Some (Z.of_nat (length es + 1), "prev_hash mismatch")).
Proof.
  intros Hf Hr Hl Hlong Hbad (Hp & Hu & Hc) He. pose proof Hr as Hr'. apply Forall_app in Hr' as [_ [Hlr _]%Forall_cons].
  assert (Hlast : last_hash l = Ok None).
  { unfold last_hash. rewrite file_of_snoc in Hf. destruct (l_file l) as [t|]; [|done].
    change (default "" (Some t)) with t in Hf. subst t.
    rewrite last_bytes_inside, last_bytes_app; [|by apply le_n_S, Nat.le_0_l| ].
    2: { rewrite (length_app_str (entry_line long) newline). change (String.length newline) with 1%nat. lia. }
    change (4096 - String.length newline)%nat with 4095%nat.
    assert (Hpr : all_chars printable (last_bytes 4095 (entry_line long)) = true).
    { apply drop_all_chars, dumps_printable, Hlr. }
    pose proof (lines_plain "" _ "" (printable_plain _ Hpr)) as E. rewrite app_nil_str, app_empty in E. rewrite E.
    cbn [bytes_lines rev app first_hash String.eqb]. rewrite Hbad. destruct (all_chars is_c_space _); [done|].
    rewrite ascii_text; [done|]. eapply all_chars_impl; [|exact Hpr]. unfold printable.
    intros c [_ H%Z.leb_le]%andb_true_iff. apply Z.ltb_lt. lia. }
  unfold append. rewrite Hp, Hu, !String.eqb_refl, Hlast. cbn [negb mbind outcome_bind]. rewrite Hf, <-file_of_snoc.
  exists {| l_project := l_project l; l_run := l_run l; l_file := Some (file_of ((es ++ [long]) ++ [seal None e])) |}.
  split; [by destruct (candidates e)|].
  unfold verify_chain, file_lines. cbn [l_file]. rewrite lines_file, map_app, walk_file by (done || by apply Forall_app; split; [|constructor]).
  rewrite end_hash_snoc. cbn [map walk]. rewrite strip_line, line_not_empty. destruct He as [_ ->].
  rewrite (bool_decide_eq_false_2 (prev_hash _ = _)).
  - cbn [negb mbind outcome_bind]. rewrite length_app. repeat f_equal.
  - rewrite (linked_last _ _ _ Hl). destruct (seal_hashes None e) as [-> _]. done.
Qed.
End Pydantic.

(** * A run *)
Definition demo_entry (n : Z) (r : option string) : LedgerEntry :=
  {| entry_id := "3f2b0c6e-0000-4000-8000-00000000000" +:+ str_of_Z n; project_id := "abc"; run_id := "run-001";
     actor := "conductor"; rollout_index := n; ts := 1767225600000000; fresh_evidence := []; search_space_size := None;
     trial_count := 1; effective_trial_count := None;
     candidates := [{| candidate_id := "plan-A"; mark := accept; score := Some "0.9"; rationale := r |}];
     prior_accepted_winner := None; prior_watchlist := [];
     coherence := {| ensemble_matches_prior_winner := None; recursive_matches_prior_winner := None;
       latest_rollout_match := None; drift_detected := false; coherence_notes := None |};
     promotion_gate := evaluate production true true false; prev_hash := None; content_hash := None |}.

(** A reader that knows the lines of [es]: the first and, unless its line is the first's,
    the second. *)
Definition knows (es : list LedgerEntry) (line : string) : option LedgerEntry :=
  find (fun e => String.eqb (entry_line isoformat e) line) es.

Definition demo_run : list LedgerEntry := seal_all isoformat None [demo_entry 0 None; demo_entry 1 (Some "cheaper")].

Definition demo_ledger : DecisionLedger := {| l_project := "abc"; l_run := "run-001"; l_file := None |}.

Lemma knows_first e es : knows (e :: es) (entry_line isoformat e) = Some e.
Proof. unfold knows. cbn [find]. by rewrite String.eqb_refl. Qed.

Lemma knows_second e e' es :
  String.eqb (entry_line isoformat e) (entry_line isoformat e') = false → knows (e :: e' :: es) (entry_line isoformat e') = Some e'.
Proof. intros H. unfold knows. cbn [find]. by rewrite H, String.eqb_refl. Qed.

Lemma demo_valid prev n r :
  valid (sorted (entry_json isoformat (demo_entry n r))) = true → match prev with Some h => is_textb h = true | None => True end →
  valid (sorted (entry_json isoformat (seal isoformat prev (demo_entry n r)))) = true.
Proof.
  intros H Hp. assert (E : with_prev_hash None (with_content_hash None (demo_entry n r)) = demo_entry n r) by reflexivity.
  apply (seal_valid isoformat prev (demo_entry n r)); [by rewrite E|done].
Qed.

Lemma run_verifies_witness :
  ∃ l, append_all isoformat demo_ledger [demo_entry 0 None; demo_entry 1 (Some "cheaper")] = Ok (demo_run, l) ∧
       verify_chain isoformat (knows demo_run) l = Ok (true, None).
Proof.
  destruct (run_verifies isoformat (knows demo_run) "abc" "run-001" [demo_entry 0 None; demo_entry 1 (Some "cheaper")])
    as (l & H1 & _ & _ & H2 & _).
  - cbn [seal_all]. apply Forall_cons. split; [|apply Forall_cons; split; [|apply Forall_nil; exact I]]; split.
    + apply demo_valid; [vm_compute; reflexivity|exact I].
    + apply knows_first.
    + apply demo_valid; [vm_compute; reflexivity|]. rewrite (proj2 (seal_hashes _ _ _)). apply hex_text.
    + apply knows_second. vm_compute. reflexivity.
  - cbn [seal_all]. apply Forall_cons. split; [|apply Forall_cons; split; [|apply Forall_nil; exact I]];
      apply Nat.ltb_lt; vm_compute; reflexivity.
  - repeat constructor; discriminate.
  - exists l. exact (conj H1 H2).
Defined.
End Ledger.
