(* ===== verification/Federation.v ===== *)
(** The federation of hubs: [federation/consent.py], [federation/hub_registry.py],
    [federation/update_cascade.py] and the single calls of
    [federation/downstream_router.py], on the tables of V23__federation_registry.sql.

    Every statement is one action of a [task], so operations of several administrators
    interleave between their statements; a statement fails when the next fault says so.
    The sanity smoke, the request to a child, the identifiers [uuid4] draws and the clock
    are the outside world.  An exception is its class without its text. *)

From S2P Require Import Prelude PyValue Datetime Json Tasks.
From Stdlib Require Import Ascii.
Local Open Scope Z_scope.

Module Federation.
Import Json.

(** * Tables *)
Inductive ConsentStatus := hub_pending | active | suspended | revoked.
Inductive RolloutStatus := pending | in_progress | completed | failed | rolled_back.

#[export] Instance consent_status_eq_dec : EqDecision ConsentStatus.
Proof. solve_decision. Defined.
#[export] Instance rollout_status_eq_dec : EqDecision RolloutStatus.
Proof. solve_decision. Defined.

(** Rows are in the order of [registered_at]. *)
Record HubRecord := {
  hub_id : string; hub_name : string; base_url : string; public_key : string; parent_hub_id : option string;
  consent_status : ConsentStatus
}.

Record ConsentRecord := {
  child_hub : string; parent_hub : string; consent_class : string; granted_by : string; scope_jsonb : json
}.

(** Rows are in the order of [created_at]. *)
Record UpdateRecord := {
  update_id : string; source_hub_id : string; target_hub_id : string; bundle_version : string; signature : string;
  rollout_status : RolloutStatus; approved_at : option datetime; approved_by : option string
}.

Record CascadeOutcome := {
  local_update_id : string; local_status : RolloutStatus; children_attempted : Z; children_succeeded : Z;
  children_failed : Z; notes : string
}.

Inductive exn :=
| ValueError | MandatoryFlowDenied | HubNotFound | ApprovalRequired | CascadeError | RoutingError | UpstreamCallError
| DbError | OtherError.

(** A request sent to a hub. *)
Record request := { r_url : string; r_method : string; r_path : string; r_json : option json }.

Record world := {
  hubs : list HubRecord; consents : list ConsentRecord; updates : list UpdateRecord; sent : list request;
  now : datetime; drawn : nat; faults : list bool
}.

Definition with_hubs (x : list HubRecord) (w : world) : world :=
  Build_world x (consents w) (updates w) (sent w) (now w) (drawn w) (faults w).
Definition with_consents (x : list ConsentRecord) (w : world) : world :=
  Build_world (hubs w) x (updates w) (sent w) (now w) (drawn w) (faults w).
Definition with_updates (x : list UpdateRecord) (w : world) : world :=
  Build_world (hubs w) (consents w) x (sent w) (now w) (drawn w) (faults w).
Definition with_sent (x : list request) (w : world) : world :=
  Build_world (hubs w) (consents w) (updates w) x (now w) (drawn w) (faults w).
Definition with_drawn (x : nat) (w : world) : world :=
  Build_world (hubs w) (consents w) (updates w) (sent w) (now w) x (faults w).
Definition with_faults (x : list bool) (w : world) : world :=
  Build_world (hubs w) (consents w) (updates w) (sent w) (now w) (drawn w) x.

Abbreviation job := (task world exn).

(** One statement. *)
Definition sql {A} (f : world → outcome exn A * world) : job A :=
  attempt (fun w =>
    match faults w with
    | true :: fs => (Raise DbError, with_faults fs w)
    | false :: fs => f (with_faults fs w)
    | [] => f w
    end).

Definition select {A} (f : world → A) : job A := sql (fun w => (Ok (f w), w)).

(** * Hub registry *)
Definition registered (id : string) (hs : list HubRecord) : bool := existsb (fun h => String.eqb (hub_id h) id) hs.

Definition find_hub (id : string) (hs : list HubRecord) : option HubRecord :=
  find (fun h => String.eqb (hub_id h) id) hs.

(** [hub_id] is unique, [parent_hub_id] refers to a hub (which may be the row itself). *)
Definition insert_hub (r : HubRecord) : job unit :=
  sql (fun w =>
    if registered (hub_id r) (hubs w) then (Raise DbError, w)
    else match parent_hub_id r with
         | Some p => if registered p (hubs w ++ [r]) then (Ok tt, with_hubs (hubs w ++ [r]) w) else (Raise DbError, w)
         | None => (Ok tt, with_hubs (hubs w ++ [r]) w)
         end).

Definition get_by_hub_id (id : string) : job (option HubRecord) := select (fun w => find_hub id (hubs w)).

Definition children_of (parent : string) (hs : list HubRecord) : list HubRecord :=
  filter (fun h => parent_hub_id h = Some parent) hs.

Definition list_children (parent : string) : job (list HubRecord) := select (fun w => children_of parent (hubs w)).

Local Open Scope task_scope.

Definition bootstrap_local_hub (id name url key : string) (parent : option string) : job HubRecord :=
  existing <- get_by_hub_id id;;
  match existing with
  | Some r => tret r
  | None =>
      let r := {| hub_id := id; hub_name := name; base_url := url; public_key := key; parent_hub_id := parent;
                  consent_status := active |} in
      insert_hub r;; tret r
  end.

Definition register_child (id name url key parent : string) (initial : ConsentStatus) : job HubRecord :=
  let r := {| hub_id := id; hub_name := name; base_url := url; public_key := key; parent_hub_id := Some parent;
              consent_status := initial |} in
  insert_hub r;; tret r.

Definition set_status_of (s : ConsentStatus) (h : HubRecord) : HubRecord :=
  {| hub_id := hub_id h; hub_name := hub_name h; base_url := base_url h; public_key := public_key h;
     parent_hub_id := parent_hub_id h; consent_status := s |}.

Definition set_consent_status (id : string) (s : ConsentStatus) : job unit :=
  res <- sql (fun w =>
    (Ok (registered id (hubs w)),
     with_hubs (map (fun h => if String.eqb (hub_id h) id then set_status_of s h else h) (hubs w)) w));;
  if res then tret tt else traise HubNotFound.

(** * Consent *)
Record MandatoryClass := { m_class : value; m_rationale : value }.

(** The entries of [mandatory_upward]; an entry that is not an object has no [get]. *)
Fixpoint mandatory_entries (l : list value) : outcome exn (list MandatoryClass) :=
  match l with
  | [] => Ok []
  | VDict raw :: l' =>
      let c := get "class" raw in
      let r := py_or (get "rationale" raw) (VStr "") in
      if negb (truthy c) then mandatory_entries l'
      else if negb (truthy r) then Raise ValueError
      else es ← mandatory_entries l'; Ok ({| m_class := c; m_rationale := r |} :: es)
  | _ :: _ => Raise OtherError
  end.

Definition from_bundle_policy (policy : dict) : outcome exn (list MandatoryClass) :=
  match py_or (get "consent" policy) (VDict []) with
  | VDict block =>
      match py_or (get "mandatory_upward" block) (VList []) with
      | VList l => mandatory_entries l
      | _ => Raise OtherError
      end
  | _ => Raise OtherError
  end.

Definition consent_between (cls peer : string) (c : ConsentRecord) : bool :=
  String.eqb (consent_class c) cls && (String.eqb (child_hub c) peer || String.eqb (parent_hub c) peer).

Section Hub.
(** This hub, its bundle's mandatory classes, and the outside world. *)
Context (local_hub_id : string) (mandatory_upward : list MandatoryClass).
Context (sanity_smoke : string → datetime → outcome exn bool) (send : request → datetime → outcome exn json).
Context (uuid4 : nat → string).

Definition is_mandatory (cls : string) : bool := existsb (fun m => is_str (m_class m) cls) mandatory_upward.

Definition mandatory_rationale (cls : string) : option value :=
  m_rationale <$> find (fun m => is_str (m_class m) cls) mandatory_upward.

Definition may_push (cls peer : string) (cs : list ConsentRecord) : bool :=
  is_mandatory cls || existsb (consent_between cls peer) cs.

Definition is_allowed (peer cls : string) : job bool :=
  if is_mandatory cls then tret true else select (fun w => existsb (consent_between cls peer) (consents w)).

Definition grant (child parent cls by_ : string) (scope : list (string * json)) : job unit :=
  if String.eqb by_ "" then traise ValueError
  else sql (fun w =>
         if registered child (hubs w) && registered parent (hubs w)
         then (Ok tt, with_consents (consents w ++ [{| child_hub := child; parent_hub := parent; consent_class := cls;
                                                      granted_by := by_; scope_jsonb := JObj scope |}]) w)
         else (Raise DbError, w)).

Definition revoke (child parent cls : string) : job unit :=
  if is_mandatory cls then traise MandatoryFlowDenied
  else sql (fun w =>
         (Ok tt, with_consents (filter (fun c => ¬ (child_hub c = child ∧ parent_hub c = parent ∧ consent_class c = cls))
                                       (consents w)) w)).

(** * Calls to a child *)
Definition call_child (child method path cls : string) (body : option json) : job json :=
  rec <- get_by_hub_id child;;
  match rec with
  | None => traise RoutingError
  | Some h =>
      if negb (bool_decide (consent_status h = active)) then traise RoutingError
      else
        ok <- is_allowed child cls;;
        if negb ok then traise RoutingError
        else
          let r := {| r_url := base_url h; r_method := method; r_path := path; r_json := body |} in
          attempt (fun w => (send r (now w), with_sent (sent w ++ [r]) w))
  end.

(** A broadcast begins one of these for each child; none ends another.  The child and
    what it answered, when it did. *)
Definition broadcast_one (child : HubRecord) (method path cls : string) (body : option json) : job (string * option json) :=
  tcatch (data <- call_child (hub_id child) method path cls body;; tret (hub_id child, Some data))
         (fun _ => tret (hub_id child, None)).

(** * The update cascade *)
Definition fetch_update (id : string) : job UpdateRecord :=
  row <- select (fun w => find (fun u => String.eqb (update_id u) id) (updates w));;
  match row with Some u => tret u | None => traise CascadeError end.

Definition pull_pending : job (list UpdateRecord) :=
  select (fun w => filter (fun u => target_hub_id u = local_hub_id ∧ rollout_status u = pending) (updates w)).

(** The two statements of [_set_status] on one row. *)
Definition put_status (s : RolloutStatus) (at_ : option datetime) (by_ : option string) (u : UpdateRecord) : UpdateRecord :=
  let stamp := match at_, by_ with None, None => false | _, _ => true end in
  {| update_id := update_id u; source_hub_id := source_hub_id u; target_hub_id := target_hub_id u;
     bundle_version := bundle_version u; signature := signature u; rollout_status := s;
     approved_at := if stamp then at_ else approved_at u; approved_by := if stamp then by_ else approved_by u |}.

Definition set_status (id : string) (s : RolloutStatus) (at_ : option datetime) (by_ : option string) : job unit :=
  sql (fun w =>
    (Ok tt, with_updates (map (fun u => if String.eqb (update_id u) id then put_status s at_ by_ u else u) (updates w)) w)).

Definition clock : job datetime := act (fun w => (now w, w)).
Definition new_uuid : job string := act (fun w => (uuid4 (drawn w), with_drawn (S (drawn w)) w)).

Definition child_update (id source target : string) (parent : UpdateRecord) : UpdateRecord :=
  {| update_id := id; source_hub_id := source; target_hub_id := target; bundle_version := bundle_version parent;
     signature := signature parent; rollout_status := pending; approved_at := None; approved_by := None |}.

Definition has_update (id : string) (us : list UpdateRecord) : bool := existsb (fun u => String.eqb (update_id u) id) us.

(** [id] is the primary key; both hubs are registered. *)
Definition insert_child_update (id source target : string) (parent : UpdateRecord) : job unit :=
  sql (fun w =>
    if has_update id (updates w) || negb (registered source (hubs w)) || negb (registered target (hubs w))
    then (Raise DbError, w)
    else (Ok tt, with_updates (updates w ++ [child_update id source target parent]) w)).

Definition notify_body (new_id : string) (rec : UpdateRecord) : json :=
  JObj [("update_id", JStr new_id); ("bundle_version", JStr (bundle_version rec)); ("source_hub_id", JStr local_hub_id)].

(** The row of one child, then the call that tells it, whose failure is ignored; whether
    the row was written. *)
Definition push_child (child : HubRecord) (rec : UpdateRecord) : job bool :=
  new_id <- new_uuid;;
  tcatch
    (insert_child_update new_id local_hub_id (hub_id child) rec;;
     tcatch (call_child (hub_id child) "POST" "/api/v2/federation/cascade/notify" "update_push"
               (Some (notify_body new_id rec));; tret tt)
            (fun _ => tret tt);;
     tret true)
    (fun _ => tret false).

Fixpoint cascade (rec : UpdateRecord) (by_ : string) (children : list HubRecord) (n ok bad : Z) : job CascadeOutcome :=
  match children with
  | [] => tret {| local_update_id := update_id rec; local_status := completed; children_attempted := n;
                  children_succeeded := ok; children_failed := bad; notes := "approved_by=" +:+ by_ |}
  | child :: rest =>
      if negb (bool_decide (consent_status child = active)) then cascade rec by_ rest n ok bad
      else
        allowed <- is_allowed (hub_id child) "update_push";;
        if negb allowed then cascade rec by_ rest n ok bad
        else
          written <- push_child child rec;;
          if (written : bool) then cascade rec by_ rest (n + 1) (ok + 1) bad else cascade rec by_ rest (n + 1) ok (bad + 1)
  end.

Definition cascade_to_children (rec : UpdateRecord) (by_ : string) : job CascadeOutcome :=
  children <- list_children local_hub_id;;
  cascade rec by_ children 0 0 0.

Definition approve_and_apply (id by_ rationale : string) : job CascadeOutcome :=
  if String.eqb by_ "" then traise ApprovalRequired
  else if String.eqb rationale "" then traise ApprovalRequired
  else
    rec <- fetch_update id;;
    if negb (bool_decide (rollout_status rec = pending)) then traise CascadeError
    else
      t <- clock;;
      set_status id in_progress (Some t) (Some by_);;
      ok <- tcatch (attempt (fun w => (sanity_smoke (bundle_version rec) (now w), w)))
                   (fun _ => set_status id failed None None;; traise CascadeError);;
      if negb ok then (set_status id failed None None;; traise CascadeError)
      else
        set_status id completed None None;;
        cascade_to_children rec by_.

Definition reject (id by_ rationale : string) : job CascadeOutcome :=
  if String.eqb by_ "" || String.eqb rationale "" then traise ApprovalRequired
  else
    t <- clock;;
    set_status id rolled_back (Some t) (Some by_);;
    tret {| local_update_id := id; local_status := rolled_back; children_attempted := 0; children_succeeded := 0;
            children_failed := 0; notes := "rejected by " +:+ by_ +:+ ": " +:+ rationale |}.

(** * Operations side by side *)
Definition void {A} (m : job A) : job unit := m;; tret tt.

(** What an administrator, a peer or the hub itself may begin. *)
Inductive begins : job unit → Prop :=
| begin_approve id by_ why : begins (void (approve_and_apply id by_ why))
| begin_reject id by_ why : begins (void (reject id by_ why))
| begin_pull : begins (void pull_pending)
| begin_bootstrap id name url key parent : begins (void (bootstrap_local_hub id name url key parent))
| begin_register id name url key parent s : begins (void (register_child id name url key parent s))
| begin_set_consent id s : begins (void (set_consent_status id s))
| begin_grant child parent cls by_ scope : begins (grant child parent cls by_ scope)
| begin_revoke child parent cls : begins (revoke child parent cls)
| begin_call child method path cls body : begins (void (call_child child method path cls body))
| begin_broadcast child method path cls body : begins (void (broadcast_one child method path cls body)).

(** The world around the hub: time passes, statements start or stop failing, the tier above
    files an update. *)
Inductive outside : world → world → Prop :=
| out_time t w : outside w (Build_world (hubs w) (consents w) (updates w) (sent w) t (drawn w) (faults w))
| out_faults fs w : outside w (with_faults fs w)
| out_update u w : has_update (update_id u) (updates w) = false → rollout_status u = pending →
    outside w (with_updates (updates w ++ [u]) w).

Abbreviation fed_step := (pool_step begins outside).

(** A decision on the row that names who took it and when. *)
Definition signed_row (u : UpdateRecord) : Prop := ∃ t by_, approved_at u = Some t ∧ approved_by u = Some by_ ∧ by_ ≠ "".

Definition attributed (w : world) : Prop := ∀ u, u ∈ updates w → rollout_status u ≠ pending → signed_row u.

Definition signed (id : string) (w : world) : Prop :=
  has_update id (updates w) = true ∧ ∀ u, u ∈ updates w → update_id u = id → signed_row u.

Definition grows (w w' : world) : Prop :=
  (∀ id, has_update id (updates w) = true → has_update id (updates w') = true) ∧ (∀ id, signed id w → signed id w').

Lemma grows_refl w : grows w w.
Proof. done. Qed.

Lemma grows_trans w1 w2 w3 : grows w1 w2 → grows w2 w3 → grows w1 w3.
Proof. intros [H1 H2] [H3 H4]. split; auto. Qed.

#[local] Instance grows_preorder : PreOrder grows.
Proof. split; [exact grows_refl|exact grows_trans]. Qed.

Lemma has_update_app id us vs : has_update id (us ++ vs) = has_update id us || has_update id vs.
Proof. apply existsb_app. Qed.

Lemma add_pending w u :
  has_update (update_id u) (updates w) = false → rollout_status u = pending → attributed w →
  attributed (with_updates (updates w ++ [u]) w) ∧ grows w (with_updates (updates w ++ [u]) w).
Proof.
  intros Hn Hp Ha. split; [|split].
  - intros v Hv Hs. cbn in Hv. apply elem_of_app in Hv as [Hv|Hv%list_elem_of_singleton]; [by apply Ha|by subst].
  - intros id Hid. cbn [updates with_updates]. by rewrite has_update_app, Hid.
  - intros id [He Hs]. split; cbn [updates with_updates]; [by rewrite has_update_app, He|]. intros v [Hv|Hv%list_elem_of_singleton]%elem_of_app Hi;
      [by apply Hs|]. subst v. exfalso. rewrite Hi in Hn. congruence.
Qed.

Definition restatus id s at_ by_ (w : world) : world :=
  with_updates (map (fun u => if String.eqb (update_id u) id then put_status s at_ by_ u else u) (updates w)) w.

Lemma has_update_restatus id' id s at_ by_ w :
  has_update id' (updates (restatus id s at_ by_ w)) = has_update id' (updates w).
Proof.
  unfold restatus. cbn [updates with_updates]. unfold has_update. induction (updates w) as [|u us IH]; [done|]. cbn. rewrite IH.
  by destruct (String.eqb (update_id u) id).
Qed.

(** A status with a signature, or on a signed row. *)
Lemma restatus_ok id s at_ by_ w :
  (∀ u, u ∈ updates w → update_id u = id → signed_row (put_status s at_ by_ u)) → attributed w →
  attributed (restatus id s at_ by_ w) ∧ grows w (restatus id s at_ by_ w).
Proof.
  intros Hs Ha.
  assert (Hin : ∀ v, v ∈ updates (restatus id s at_ by_ w) → (update_id v = id ∧ signed_row v) ∨ (update_id v ≠ id ∧ v ∈ updates w)).
  { intros v Hv. cbn in Hv. apply list_elem_of_fmap in Hv as (u & -> & Hu). destruct (String.eqb_spec (update_id u) id) as [E|E].
    - left. split; [done|]. by apply Hs.
    - by right. }
  split; [|split].
  - intros v Hv Hp. apply Hin in Hv as [[_ Hv]|[_ Hv]]; [done|by apply Ha].
  - intros id'. by rewrite has_update_restatus.
  - intros id' [He Hr]. split; [by rewrite has_update_restatus|]. intros v Hv Hi.
    apply Hin in Hv as [[_ Hv]|[_ Hv]]; [done|by apply Hr].
Qed.

Abbreviation fed_wp := (wp attributed grows).

Lemma wp_sql {A} (f : world → outcome exn A * world) Q w :
  (∀ w1, grows w w1 → attributed w1 → attributed (f w1).2 ∧ grows w1 (f w1).2 ∧ Q (f w1).1 (f w1).2) →
  (∀ w1, grows w w1 → Q (Raise DbError) w1) → fed_wp (sql f) Q w.
Proof.
  intros Hf Hd. apply wp_attempt. intros w1 Hg Ha. destruct (faults w1) as [|[] fs]; cbn [fst snd].
  - by apply Hf.
  - split; [exact Ha|]. split; [exact (grows_refl w1)|]. by apply Hd.
  - apply (Hf (with_faults fs w1)); [exact Hg|exact Ha].
Qed.

(** A computation that can run between any two others. *)
Definition harmless {A} (m : job A) : Prop := ∀ w Q, (∀ r w1, grows w w1 → Q r w1) → fed_wp m Q w.

Lemma harmless_done {A} (r : outcome exn A) : harmless (Done r).
Proof. intros w Q H. apply H, grows_refl. Qed.

Lemma harmless_sql {A} (f : world → outcome exn A * world) :
  (∀ w, attributed w → attributed (f w).2 ∧ grows w (f w).2) → harmless (sql f).
Proof.
  intros Hf w Q HQ. apply wp_sql; [|by intros w1 Hg; apply HQ]. intros w1 Hg Ha. destruct (Hf w1 Ha) as [H1 H2].
  split_and!; [done..|]. apply HQ. by etrans.
Qed.

(** Statements and actions that leave the updates as they are. *)
Lemma harmless_keep {A} (f : world → outcome exn A * world) : (∀ w, updates (f w).2 = updates w) → harmless (sql f).
Proof. intros Hf. apply harmless_sql. intros w Ha. unfold attributed, grows, signed. rewrite (Hf w). done. Qed.

Lemma harmless_attempt {A} (f : world → outcome exn A * world) : (∀ w, updates (f w).2 = updates w) → harmless (attempt f).
Proof.
  intros Hf w Q HQ. apply wp_attempt. intros w1 Hg Ha. unfold attributed, grows, signed. rewrite (Hf w1).
  split_and!; [done..|]. apply HQ. unfold grows, signed. by rewrite (Hf w1).
Qed.

Lemma harmless_act {A} (f : world → A * world) : (∀ w, updates (f w).2 = updates w) → harmless (act f).
Proof.
  intros Hf w Q HQ. apply wp_act. intros w1 Hg Ha. unfold attributed, grows, signed. rewrite (Hf w1).
  split_and!; [done..|]. apply HQ. unfold grows, signed. by rewrite (Hf w1).
Qed.

Lemma harmless_bind {A B} (m : job A) (f : A → job B) : harmless m → (∀ a, harmless (f a)) → harmless (tbind m f).
Proof.
  intros Hm Hf w Q HQ. apply wp_bind; [apply grows_preorder|]. apply Hm. intros [a|e] w1 Hg; [|by apply HQ].
  apply Hf. intros r w2 Hg2. apply HQ. by etrans.
Qed.

Lemma harmless_catch {A} (m : job A) (h : exn → job A) : harmless m → (∀ e, harmless (h e)) → harmless (tcatch m h).
Proof.
  intros Hm Hf w Q HQ. apply wp_catch; [apply grows_preorder|]. apply Hm. intros [a|e] w1 Hg; [by apply HQ|].
  apply Hf. intros r w2 Hg2. apply HQ. by etrans.
Qed.

(** One statement, bind or branch at a time. *)
Create HintDb fed.
Ltac harmless_steps :=
  repeat first
    [ solve [auto with fed nocore]
    | apply harmless_done
    | apply harmless_bind; [|intros ?]
    | apply harmless_catch; [|intros ?]
    | apply harmless_keep; intros ?; reflexivity
    | apply harmless_attempt; intros ?; reflexivity
    | apply harmless_act; intros ?; reflexivity
    | progress unfold call_child, is_allowed, get_by_hub_id, select, new_uuid, clock, tret, traise, pull_pending,
        set_consent_status
    | match goal with |- context [match ?x with _ => _ end] => destruct x end ].

Lemma harmless_call child method path cls body : harmless (call_child child method path cls body).
Proof. harmless_steps. Qed.

Lemma harmless_is_allowed peer cls : harmless (is_allowed peer cls).
Proof. harmless_steps. Qed.

Lemma harmless_insert id source target parent : harmless (insert_child_update id source target parent).
Proof.
  apply harmless_sql. intros w Ha. destruct (has_update id (updates w)) eqn:Hu; [by split|].
  destruct (_ || _); [by split|]. by apply add_pending.
Qed.
Lemma harmless_insert_hub r : harmless (insert_hub r).
Proof. apply harmless_keep. intros w. by repeat case_match. Qed.
#[local] Hint Resolve harmless_call harmless_is_allowed harmless_insert harmless_insert_hub : fed.

Lemma harmless_push child rec : harmless (push_child child rec).
Proof. unfold push_child. harmless_steps. Qed.
#[local] Hint Resolve harmless_push : fed.

Lemma harmless_cascade rec by_ children n ok bad : harmless (cascade rec by_ children n ok bad).
Proof.
  revert n ok bad. induction children as [|c cs IH]; intros n ok bad; cbn [cascade]; harmless_steps.
Qed.

Lemma harmless_stamp id s t by_ : by_ ≠ "" → harmless (set_status id s (Some t) (Some by_)).
Proof.
  intros Hb. apply harmless_sql. intros w Ha. apply restatus_ok; [|done]. intros u _ _. by exists t, by_.
Qed.

(** A status on a row that is signed already. *)
Lemma wp_restatus id s Q w :
  signed id w → (∀ r w1, grows w w1 → Q r w1) → fed_wp (set_status id s None None) Q w.
Proof.
  intros Hs HQ. apply wp_sql; [|by intros w1; apply HQ]. intros w1 Hg Ha. apply (proj2 Hg) in Hs.
  destruct (restatus_ok id s None None w1) as [H1 H2]; [|done|].
  - intros u Hu Hi. exact (proj2 Hs u Hu Hi).
  - split_and!; [exact H1|exact H2|]. apply HQ. by etrans.
Qed.

Lemma found_update id us u : find (fun u => String.eqb (update_id u) id) us = Some u → has_update id us = true ∧ update_id u = id ∧ u ∈ us.
Proof.
  intros H. apply find_some in H as [Hin He]. pose proof He as He'. apply String.eqb_eq in He'. split_and!; [|done|by apply list_elem_of_In].
  unfold has_update. apply existsb_exists. by exists u.
Qed.

Lemma approve_keeps id by_ why w : fed_wp (approve_and_apply id by_ why) anything w.
Proof.
  unfold approve_and_apply. destruct (String.eqb_spec by_ "") as [|Hb]; [done|]. destruct (String.eqb why ""); [done|].
  apply wp_bind; [apply grows_preorder|]. unfold fetch_update. apply wp_bind; [apply grows_preorder|].
  apply wp_sql; [|done]. intros w1 Hg1 Ha1. split_and!; [done..|]. cbn [fst snd].
  destruct (find _ (updates w1)) as [rec|] eqn:Hf; [|done]. apply found_update in Hf as (He & _ & _).
  unfold tret at 1. cbn [wp].
  destruct (bool_decide (rollout_status rec = pending)); cbn [negb]; [|exact I]. apply wp_bind; [apply grows_preorder|]. apply wp_act. intros w2 Hg2 Ha2.
  split_and!; [done..|]. cbn [fst snd]. set (t := now w2). apply wp_bind; [apply grows_preorder|].
  apply wp_sql; [|done]. intros w3 Hg3 Ha3. cbn [fst snd]. fold (restatus id in_progress (Some t) (Some by_) w3).
  destruct (restatus_ok id in_progress (Some t) (Some by_) w3) as [H1 H2]; [intros u _ _; by exists t, by_|done|].
  split_and!; [done..|].
  assert (Hs : signed id (restatus id in_progress (Some t) (Some by_) w3)).
  { split; [rewrite has_update_restatus; by apply (proj1 Hg3), (proj1 Hg2)|]. intros u Hu Hi. cbn in Hu.
    apply list_elem_of_fmap in Hu as (v & -> & Hv). destruct (String.eqb_spec (update_id v) id); [by exists t, by_|done]. }
  revert Hs. generalize (restatus id in_progress (Some t) (Some by_) w3). intros w4 Hs.
  apply wp_bind; [apply grows_preorder|]. apply wp_catch; [apply grows_preorder|].
  apply harmless_attempt; [done|]. intros r w5 Hg5. apply (proj2 Hg5) in Hs. destruct r as [[]|e]; cbn [negb].
  - apply wp_bind; [apply grows_preorder|]. apply wp_restatus; [done|]. intros [[]|e'] w6 _; [|done].
    unfold cascade_to_children. apply harmless_bind; [by apply harmless_keep| |done]. intros children. apply harmless_cascade.
  - apply wp_bind; [apply grows_preorder|]. apply wp_restatus; [done|]. by intros [[]|e'] w6 _.
  - apply wp_bind; [apply grows_preorder|]. apply wp_restatus; [done|]. by intros [[]|e'] w6 _.
Qed.

Lemma harmless_void {A} (m : job A) w : harmless m → fed_wp (void m) anything w.
Proof. intros Hm. apply harmless_bind; [done| |done]. intros; apply harmless_done. Qed.

Lemma begins_keeps t w : begins t → fed_wp t anything w.
Proof.
  destruct 1.
  - apply wp_bind; [apply grows_preorder|]. eapply wp_mono; [apply grows_preorder| |apply approve_keeps]. intros [] w1 _ _; exact I.
  - apply harmless_void. unfold reject. destruct (String.eqb_spec by_ ""); [apply harmless_done|].
    harmless_steps. by apply harmless_stamp.
  - apply harmless_void. harmless_steps.
  - apply harmless_void. unfold bootstrap_local_hub. harmless_steps.
  - apply harmless_void. unfold register_child. harmless_steps.
  - apply harmless_void. harmless_steps.
  - unfold grant. destruct (String.eqb by_ ""); [done|]. apply harmless_keep; [|done]. intros w1. by destruct (_ && _).
  - unfold revoke. destruct (is_mandatory cls); [done|]. by apply harmless_keep.
  - apply harmless_void, harmless_call.
  - apply harmless_void. unfold broadcast_one. harmless_steps.
Qed.

(** C20: however the operations of the hub interleave, fail and die, every update that is
    past [pending] names who decided on it and when. *)
Theorem decided_updates_are_attributed w w' l :
  attributed w → rtc fed_step (w, []) (w', l) → attributed w'.
Proof.
  intros Ha Hr. apply (pool_invariant attributed grows begins outside (w, []) (w', l)); try done.
  - intros t w1 Hb _. by apply begins_keeps.
  - intros w1 w2 Ho Ha1. destruct Ho; [done|done|by apply add_pending].
  - intros t Ht. by apply not_elem_of_nil in Ht.
Qed.

(** * An approval that nothing disturbs *)

(** The children an update goes to, the rows and the calls it makes. *)
Definition pushable (cs : list ConsentRecord) (h : HubRecord) : bool :=
  bool_decide (consent_status h = active) && may_push "update_push" (hub_id h) cs.

Definition row_of (rec : UpdateRecord) (n : nat) (h : HubRecord) : UpdateRecord :=
  child_update (uuid4 n) local_hub_id (hub_id h) rec.

Definition call_of (rec : UpdateRecord) (n : nat) (h : HubRecord) : request :=
  {| r_url := base_url h; r_method := "POST"; r_path := "/api/v2/federation/cascade/notify";
     r_json := Some (notify_body (uuid4 n) rec) |}.

Fixpoint numbered {A} (f : nat → HubRecord → A) (n : nat) (hs : list HubRecord) : list A :=
  match hs with [] => [] | h :: hs' => f n h :: numbered f (S n) hs' end.

Definition pushed (rec : UpdateRecord) (hs : list HubRecord) (w : world) : world :=
  Build_world (hubs w) (consents w) (updates w ++ numbered (row_of rec) (drawn w) hs)
    (sent w ++ numbered (call_of rec) (drawn w) hs) (now w) (drawn w + length hs) (faults w).

Lemma pushed_cons rec h hs w : pushed rec (h :: hs) w = pushed rec hs (pushed rec [h] w).
Proof.
  unfold pushed. cbn [numbered hubs consents updates sent now drawn faults length]. rewrite <-!app_assoc. cbn [app].
  rewrite <-!plus_n_Sm, <-!plus_n_O. done.
Qed.

Lemma pushed_nil rec w : pushed rec [] w = w.
Proof. unfold pushed. cbn. rewrite !app_nil_r, <-plus_n_O. by destruct w. Qed.

Lemma elem_of_children c p hs : c ∈ children_of p hs → c ∈ hs.
Proof. unfold children_of. by intros [_ H]%list_elem_of_filter. Qed.

Lemma find_hub_elem c hs : NoDup (hub_id <$> hs) → c ∈ hs → find_hub (hub_id c) hs = Some c.
Proof.
  unfold find_hub. induction hs as [|h hs IH]; [by intros _ ?%not_elem_of_nil|].
  rewrite fmap_cons, NoDup_cons. intros [Hn Hd] [->|Hc]%elem_of_cons; cbn [find]; [by rewrite String.eqb_refl|].
  destruct (String.eqb_spec (hub_id h) (hub_id c)) as [E|]; [|by apply IH]. exfalso. apply Hn. rewrite E.
  by apply list_elem_of_fmap_2.
Qed.

Lemma run_sql {A} (f : world → outcome exn A * world) w : faults w = [] → run (sql f) w = f w.
Proof. intros Hw. unfold sql, attempt. cbn [run]. rewrite Hw. by destruct (f w). Qed.

Lemma run_select {A} (f : world → A) w : faults w = [] → run (select f) w = (Ok (f w), w).
Proof. intros Hw. unfold select. by rewrite run_sql. Qed.

Lemma run_is_allowed peer cls w : faults w = [] → run (is_allowed peer cls) w = (Ok (may_push cls peer (consents w)), w).
Proof. intros Hw. unfold is_allowed, may_push. destruct (is_mandatory cls); [done|]. by rewrite run_select. Qed.

(** No identifier drawn from now on is in use. *)
Definition fresh_from (n : nat) (us : list UpdateRecord) : Prop := ∀ i, (n ≤ i)%nat → has_update (uuid4 i) us = false.

Lemma run_push_child c rec w :
  faults w = [] → registered local_hub_id (hubs w) = true → find_hub (hub_id c) (hubs w) = Some c →
  pushable (consents w) c = true → has_update (uuid4 (drawn w)) (updates w) = false →
  run (push_child c rec) w = (Ok true, pushed rec [c] w).
Proof.
  intros Hw Hl Hc Hp Hn. pose proof Hp as Hp'. unfold pushable in Hp'. apply andb_true_iff in Hp' as [Ha%bool_decide_eq_true Hm].
  unfold push_child, new_uuid. rewrite run_bind. cbn [run act tret]. rewrite run_catch, run_bind. unfold insert_child_update.
  rewrite run_sql by done. cbn [updates with_drawn hubs]. rewrite Hn, Hl.
  assert (registered (hub_id c) (hubs w) = true) as ->.
  { apply find_some in Hc as [Hin _]. apply existsb_exists. exists c. by rewrite String.eqb_refl. }
  cbn [negb orb]. rewrite run_bind, run_catch, run_bind. unfold call_child. rewrite run_bind. unfold get_by_hub_id.
  rewrite run_select by done. cbn [hubs with_drawn with_updates]. rewrite Hc, bool_decide_eq_true_2 by done. cbn [negb].
  rewrite run_bind, run_is_allowed by done. cbn [consents with_drawn with_updates]. rewrite Hm. cbn [negb run attempt].
  assert (E : ∀ o : outcome exn json, run (match o with Ok _ => tret true | Raise _ => tret true end : job bool) (pushed rec [c] w)
    = (Ok true, pushed rec [c] w)) by (by intros []).
  unfold pushed. cbn [numbered length now sent drawn hubs consents updates faults with_updates with_drawn with_sent].
  rewrite <-plus_n_Sm, <-plus_n_O. by destruct (send _ _).
Qed.

Lemma run_cascade rec by_ cs n ok bad w :
  faults w = [] → registered local_hub_id (hubs w) = true →
  (∀ c, c ∈ cs → find_hub (hub_id c) (hubs w) = Some c) → (∀ i j, uuid4 i = uuid4 j → i = j) →
  fresh_from (drawn w) (updates w) →
  let hs := List.filter (pushable (consents w)) cs in
  run (cascade rec by_ cs n ok bad) w =
  (Ok {| local_update_id := update_id rec; local_status := completed; children_attempted := n + Z.of_nat (length hs);
         children_succeeded := ok + Z.of_nat (length hs); children_failed := bad; notes := "approved_by=" +:+ by_ |},
   pushed rec hs w).
Proof.
  cbv zeta. intros Hw Hl Hc Hi Hf. revert n ok w Hw Hl Hc Hf. induction cs as [|c cs IH]; intros n ok w Hw Hl Hc Hf.
  { cbn [List.filter length cascade]. by rewrite pushed_nil, !Z.add_0_r. }
  assert (Hcs : ∀ x, x ∈ cs → find_hub (hub_id x) (hubs w) = Some x) by (intros x Hx; apply Hc; by right).
  cbn [cascade List.filter].
  rewrite (eq_refl : pushable (consents w) c = bool_decide (consent_status c = active) &&
                       may_push "update_push" (hub_id c) (consents w)).
  destruct (bool_decide (consent_status c = active)) eqn:Ha; cbn [negb andb]; [|by apply IH].
  rewrite run_bind, run_is_allowed by done. destruct (may_push _ _ _) eqn:Hm; cbn [negb]; [|by apply IH].
  assert (Hfr : has_update (uuid4 (drawn w)) (updates w) = false) by (apply Hf; lia).
  rewrite run_bind, run_push_child; [|done|done|apply Hc; by left|unfold pushable; by rewrite Ha, Hm|done]. cbv beta iota.
  rewrite IH.
  - change (consents (pushed rec [c] w)) with (consents w). rewrite (pushed_cons rec c (List.filter _ cs)). cbn [length]. rewrite Nat2Z.inj_succ, <-!Z.add_assoc, !(Z.add_comm 1). done.
  - done.
  - done.
  - done.
  - intros i Hle. cbn [drawn pushed length] in Hle. cbn [updates pushed numbered]. rewrite has_update_app, Hf by lia.
    cbn [has_update existsb row_of child_update update_id]. rewrite orb_false_r. apply String.eqb_neq. intros E. apply Hi in E. lia.
Qed.

(** C21: an approval with a working database and a passing smoke completes the update under
    the approver's name and gives each active child that may be pushed to, and no other,
    one new pending row and one call. *)
Theorem approval_reaches_consenting_children id by_ why rec w :
  faults w = [] → by_ ≠ "" → why ≠ "" →
  find (fun u => String.eqb (update_id u) id) (updates w) = Some rec → rollout_status rec = pending →
  sanity_smoke (bundle_version rec) (now w) = Ok true →
  registered local_hub_id (hubs w) = true → NoDup (hub_id <$> hubs w) →
  (∀ i j, uuid4 i = uuid4 j → i = j) → fresh_from (drawn w) (updates w) →
  let hs := List.filter (pushable (consents w)) (children_of local_hub_id (hubs w)) in
  let count := Z.of_nat (length hs) in
  ∃ w', run (approve_and_apply id by_ why) w =
          (Ok {| local_update_id := id; local_status := completed; children_attempted := count;
                 children_succeeded := count; children_failed := 0; notes := "approved_by=" +:+ by_ |}, w') ∧
        updates w' =
          map (fun u => if String.eqb (update_id u) id
                        then put_status completed (Some (now w)) (Some by_) u else u) (updates w) ++
          numbered (row_of rec) (drawn w) hs ∧
        sent w' = sent w ++ numbered (call_of rec) (drawn w) hs ∧
        hubs w' = hubs w ∧ consents w' = consents w.
Proof.
  cbv zeta. intros Hw Hb Hy Hfind Hp Hs Hl Hnd Hi Hf. pose proof (found_update _ _ _ Hfind) as (_ & Hid & _).
  unfold approve_and_apply. rewrite (proj2 (String.eqb_neq _ _) Hb), (proj2 (String.eqb_neq _ _) Hy).
  unfold fetch_update, clock, set_status. rewrite !run_bind, run_select by done. rewrite Hfind. cbn [run tret].
  rewrite bool_decide_eq_true_2 by done. cbn [negb]. rewrite run_bind. cbn [run act tret]. rewrite run_bind, run_sql by done.
  fold (restatus id in_progress (Some (now w)) (Some by_) w). rewrite run_bind, run_catch. cbn [run attempt].
  change (now (restatus _ _ _ _ _)) with (now w). rewrite Hs. cbn [negb run]. rewrite run_bind, run_sql by done.
  fold (restatus id completed None None (restatus id in_progress (Some (now w)) (Some by_) w)). 
  set (w2 := restatus id completed _ _ _). unfold cascade_to_children. rewrite run_bind. unfold list_children.
  rewrite run_select by done. rewrite run_cascade; [|done|done| |done|].
  - rewrite Hid, !Z.add_0_l. eexists. split; [reflexivity|]. split_and!; [|done..]. cbn [updates pushed]. f_equal.
    cbn [w2 restatus updates with_updates]. rewrite map_map. apply map_ext. intros u.
    destruct (String.eqb (update_id u) id) eqn:E; cbn [update_id put_status]; by rewrite E.
  - intros c Hc. apply find_hub_elem; [done|]. by apply elem_of_children in Hc.
  - intros i Hle. unfold w2. rewrite !has_update_restatus. by apply Hf.
Qed.

(** Only a pending update is approved; an update left [in_progress] by a crash stays so. *)
Lemma only_pending_is_approved id by_ why rec w :
  faults w = [] → find (fun u => String.eqb (update_id u) id) (updates w) = Some rec → rollout_status rec ≠ pending →
  ∃ e, run (approve_and_apply id by_ why) w = (Raise e, w).
Proof.
  intros Hw Hf Hp. unfold approve_and_apply. destruct (String.eqb by_ ""); [by eexists|].
  destruct (String.eqb why ""); [by eexists|]. unfold fetch_update. rewrite !run_bind, run_select, Hf by done. cbn [run tret].
  rewrite bool_decide_eq_false_2 by done. by eexists.
Qed.

(** A rejection looks at no status: a completed update is rolled back by it. *)
Lemma any_update_is_rejected id by_ why rec w :
  faults w = [] → by_ ≠ "" → why ≠ "" → find (fun u => String.eqb (update_id u) id) (updates w) = Some rec →
  ∃ o w', run (reject id by_ why) w = (Ok o, w') ∧
          put_status rolled_back (Some (now w)) (Some by_) rec ∈ updates w'.
Proof.
  intros Hw Hb Hy Hf. apply found_update in Hf as (_ & Hi & Hin). unfold reject.
  rewrite (proj2 (String.eqb_neq _ _) Hb), (proj2 (String.eqb_neq _ _) Hy). cbn [orb]. unfold clock, set_status.
  rewrite run_bind. cbn [run act tret]. rewrite run_bind, run_sql by done. eexists _, _. split; [reflexivity|].
  cbn [updates with_updates]. apply list_elem_of_fmap. exists rec. by rewrite Hi, String.eqb_refl.
Qed.
End Hub.

(** * A hub with two children *)
Definition demo_hub (id url : string) (parent : option string) (s : ConsentStatus) : HubRecord :=
  {| hub_id := id; hub_name := id; base_url := url; public_key := "pem"; parent_hub_id := parent; consent_status := s |}.

Definition demo_update (id : string) : UpdateRecord :=
  {| update_id := id; source_hub_id := "vendor"; target_hub_id := "hq"; bundle_version := "1.4.0"; signature := "sig";
     rollout_status := pending; approved_at := None; approved_by := None |}.

Definition demo_world : world :=
  {| hubs := [demo_hub "vendor" "https://vendor" None active; demo_hub "hq" "https://hq" (Some "vendor") active;
              demo_hub "emea" "https://emea" (Some "hq") active; demo_hub "apac" "https://apac" (Some "hq") active];
     consents := [{| child_hub := "emea"; parent_hub := "hq"; consent_class := "update_push"; granted_by := "ana";
                     scope_jsonb := JObj [] |}];
     updates := [demo_update "u1"]; sent := []; now := 1767225600000000; drawn := 0; faults := [] |}.

Definition demo_uuid (n : nat) : string := String.string_of_list_ascii (replicate n "x"%char).

Lemma demo_uuid_inj i j : demo_uuid i = demo_uuid j → i = j.
Proof.
  intros H%(f_equal String.length). unfold demo_uuid in H.
  assert (L : ∀ n, String.length (String.string_of_list_ascii (replicate n "x"%char)) = n) by (induction n; cbn; congruence).
  by rewrite !L in H.
Qed.

Definition demo_smoke (version : string) (t : datetime) : outcome exn bool := Ok true.
Definition demo_send (r : request) (t : datetime) : outcome exn json := Raise UpstreamCallError.

Definition demo_approve (by_ : string) : job unit :=
  void (approve_and_apply "hq" [] demo_smoke demo_send demo_uuid "u1" by_ "monthly release").

Definition demo_run : pool := interleave (replicate 30 0%nat) (demo_world, [demo_approve "ana"]).

Lemma decided_updates_are_attributed_witness : attributed demo_run.1 ∧ (rollout_status <$> updates demo_run.1) = [completed; pending].
Proof.
  split; [|vm_compute; reflexivity].
  apply (decided_updates_are_attributed "hq" [] demo_smoke demo_send demo_uuid demo_world demo_run.1 demo_run.2).
  - intros u [->|H]%elem_of_cons Hp; [by destruct Hp|by apply not_elem_of_nil in H].
  - eapply rtc_l; [apply (step_begin _ _ demo_world []), begin_approve|].
    rewrite <-surjective_pairing. apply interleave_steps.
Defined.

Lemma approval_reaches_consenting_children_witness :
  ∃ o w', run (approve_and_apply "hq" [] demo_smoke demo_send demo_uuid "u1" "ana" "monthly release") demo_world = (Ok o, w') ∧
          (target_hub_id <$> updates w') = ["hq"; "emea"] ∧ (r_url <$> sent w') = ["https://emea"].
Proof.
  edestruct (approval_reaches_consenting_children "hq" [] demo_smoke demo_send demo_uuid "u1" "ana" "monthly release"
               (demo_update "u1") demo_world) as (w' & H & Hu & Hs & _); try reflexivity; try discriminate.
  - vm_compute. repeat (constructor; [set_solver|]). constructor.
  - apply demo_uuid_inj.
  - intros i _. destruct i; reflexivity.
  - eexists _, w'. split; [exact H|]. rewrite Hu, Hs. split; reflexivity.
Defined.

(** Two administrators who both read the update as pending both approve it, and the child
    gets the update twice. *)
Definition race : pool :=
  interleave ([0; 1]%nat ++ replicate 30 0%nat ++ replicate 30 1%nat) (demo_world, [demo_approve "ana"; demo_approve "bo"]).

Example approved_twice :
  (target_hub_id <$> updates race.1) = ["hq"; "emea"; "emea"] ∧ (approved_by <$> updates race.1) = [Some "bo"; None; None].
Proof. split; vm_compute; reflexivity. Qed.

(** A statement that fails between two children ends the cascade with the update already
    completed: the children after it never get theirs. *)
Example cascade_cut_short :
  let w := with_faults (replicate 4 false ++ [true]) demo_world in
  let '(r, w') := run (approve_and_apply "hq" [] demo_smoke demo_send demo_uuid "u1" "ana" "monthly release") w in
  r = Raise DbError ∧ (rollout_status <$> updates w') = [completed].
Proof. vm_compute. done. Qed.
End Federation.
