(* ===== verification/Manifest.v ===== *)
(** The resolved pipeline and the capabilities it grants: [plan/pipeline/manifest_loader.py]
    and [plan/pipeline/capability_checker.py].

    A YAML document is a [json] value: its keys are strings, and an instant is the text
    [json.dumps] gives it.  Reading a file is a parameter, as is the order of a float among
    the other numbers; the checks of pydantic on the resolved manifest are left out, so a
    manifest is the object handed to [PipelineManifest].  [ShapeError] stands for the
    TypeError and AttributeError of a value of the wrong shape. *)

From S2P Require Import Prelude PyValue Datetime Json Crypto.
From Stdlib Require Import Ascii.
Local Open Scope Z_scope.

Module Manifest.
Import Json Crypto.

Abbreviation jdict := (list (string * json)).

Inductive exn := ShapeError | CapabilityDenied (actor capability : string).

Abbreviation fallible := (outcome exn).

(** * Python on these values *)
Definition jget (k : string) (d : jdict) : json := default JNull (dict_lookup k d).

Definition jtruthy (v : json) : bool :=
  match v with
  | JNull => false
  | JBool b => b
  | JInt n => negb (n =? 0)
  | JFloat t => negb (String.eqb t "0.0" || String.eqb t "-0.0")
  | JStr s => negb (String.eqb s "")
  | JList l => negb (Nat.eqb (length l) 0)
  | JObj d => negb (Nat.eqb (length d) 0)
  end.

Definition jor (a b : json) : json := if jtruthy a then a else b.

Definition as_obj (v : json) : fallible jdict := match v with JObj d => Ok d | _ => Raise ShapeError end.

(** The characters of a text. *)
Definition text_chars (s : string) : list json := map (fun n => JStr (utf8_char n)) (code_points s).

(** [for x in v]. *)
Definition iter (v : json) : fallible (list json) :=
  match v with
  | JList l => Ok l
  | JStr s => Ok (text_chars s)
  | JObj d => Ok (map (fun kv => JStr kv.1) d)
  | _ => Raise ShapeError
  end.

Definition hashable (v : json) : bool := match v with JList _ | JObj _ => false | _ => true end.

(** [f] on each element, left to right. *)
Fixpoint traverse {A B} (f : A → fallible B) (l : list A) : fallible (list B) :=
  match l with
  | [] => Ok []
  | x :: l' => y ← f x; ys ← traverse f l'; Ok (y :: ys)
  end.

(** Some element satisfies [f], asked left to right until one does. *)
Fixpoint any {A} (f : A → fallible bool) (l : list A) : fallible bool :=
  match l with
  | [] => Ok false
  | x :: l' => b ← f x; if (b : bool) then Ok true else any f l'
  end.

(** The elements that satisfy [f]. *)
Fixpoint select {A} (f : A → fallible bool) (l : list A) : fallible (list A) :=
  match l with
  | [] => Ok []
  | x :: l' => b ← f x; ys ← select f l'; Ok (if (b : bool) then x :: ys else ys)
  end.

(** [_deep_merge(dst, src)]: of two objects under one key the merge, else the source. *)
Fixpoint merge_value (old : option json) (v : json) : json :=
  match v, old with
  | JObj s, Some (JObj d) =>
      JObj (fold_left (fun d kv => dict_set kv.1 (merge_value (dict_lookup kv.1 d) kv.2) d) s d)
  | _, _ => v
  end.

Definition deep_merge (d s : jdict) : jdict :=
  fold_left (fun d kv => dict_set kv.1 (merge_value (dict_lookup kv.1 d) kv.2) d) s d.

(** [_deep_merge] on values as they come: [src or {}] is walked, [dst] is an object once
    there is something to set. *)
Definition merge_into (dst src : json) : fallible json :=
  if jtruthy src then s ← as_obj src; d ← as_obj dst; Ok (JObj (deep_merge d s)) else Ok dst.

Section Compare.
(** A float against a number. *)
Context (float_eq : string → json → bool).

Definition as_int (v : json) : option Z :=
  match v with JBool b => Some (if b then 1 else 0) | JInt n => Some n | _ => None end.

(** [a == b]; objects are equal whatever the order of their items. *)
Fixpoint py_eq (a b : json) : bool :=
  match a, b with
  | JNull, JNull => true
  | JFloat t, (JBool _ | JInt _ | JFloat _) => float_eq t b
  | (JBool _ | JInt _), JFloat t => float_eq t a
  | (JBool _ | JInt _), (JBool _ | JInt _) => bool_decide (as_int a = as_int b)
  | JStr s, JStr t => String.eqb s t
  | JList l, JList m =>
      (fix go l m := match l, m with
                     | [], [] => true
                     | x :: l', y :: m' => py_eq x y && go l' m'
                     | _, _ => false
                     end) l m
  | JObj d, JObj e =>
      Nat.eqb (length d) (length e) &&
      forallb (fun kv => match dict_lookup kv.1 e with Some w => py_eq kv.2 w | None => false end) d
  | _, _ => false
  end.

(** [v in set(l)]: everything in the set and [v] is hashed. *)
Definition in_set (v : json) (l : list json) : fallible bool :=
  if forallb hashable l && hashable v then Ok (existsb (py_eq v) l) else Raise ShapeError.

(** * Overlays *)
Definition id_of (p : json) : fallible json := d ← as_obj p; Ok (jget "id" d).

(** Merge [patch] into every phase with this id. *)
Definition modify_phases (pid : string) (patch : json) (ps : list json) : fallible (list json) :=
  traverse (fun p => i ← id_of p; if py_eq i (JStr pid) then merge_into p patch else Ok p) ps.

Fixpoint modify_all (mods : jdict) (ps : list json) : fallible (list json) :=
  match mods with
  | [] => Ok ps
  | (pid, patch) :: rest => ps' ← modify_phases pid patch ps; modify_all rest ps'
  end.

Fixpoint append_all (news ps : list json) : fallible (list json) :=
  match news with
  | [] => Ok ps
  | new :: rest =>
      known ← any (fun p => i ← id_of p; j ← id_of new; Ok (py_eq i j)) ps;
      append_all rest (if (known : bool) then ps else ps ++ [new])
  end.

Definition phases_apply (base : list json) (po : json) : fallible (list json) :=
  po ← as_obj (jor po (JObj []));
  kept ← select (fun p => i ← id_of p; gone ← iter (jor (jget "remove" po) (JList []));
                          b ← in_set i gone; Ok (negb b)) base;
  mods ← as_obj (jor (jget "modify" po) (JObj []));
  modified ← modify_all mods kept;
  news ← iter (jor (jget "append" po) (JList []));
  append_all news modified.

(** The gate of every phase with this id. *)
Definition patch_gate (pid : string) (patch : json) (p : json) : fallible json :=
  d ← as_obj p;
  if py_eq (jget "id" d) (JStr pid) then
    let d := if dict_has "gate" d then d else dict_set "gate" (JObj []) d in
    g ← merge_into (jget "gate" d) patch;
    Ok (JObj (dict_set "gate" g d))
  else Ok p.

Fixpoint gates_apply (gates : jdict) (ps : list json) : fallible (list json) :=
  match gates with
  | [] => Ok ps
  | (pid, patch) :: rest => ps' ← traverse (patch_gate pid patch) ps; gates_apply rest ps'
  end.

(** An appended type; one without an id, or with a known one, is passed over.  An id that is
    no text is out of the model, like every key that is none. *)
Definition append_type (out : jdict) (new : json) : fallible jdict :=
  match new with
  | JObj d =>
      let tid := jget "id" d in
      if negb (jtruthy tid) then Ok out
      else match tid with
           | JStr t => if dict_has t out then Ok out
                       else Ok (dict_set t (JObj (List.filter (fun kv => negb (String.eqb kv.1 "id")) d)) out)
           | _ => Raise ShapeError
           end
  | _ => Ok out
  end.

Fixpoint append_types (news : list json) (out : jdict) : fallible jdict :=
  match news with [] => Ok out | new :: rest => out' ← append_type out new; append_types rest out' end.

Fixpoint modify_types (mods : jdict) (out : jdict) : fallible jdict :=
  match mods with
  | [] => Ok out
  | (tid, patch) :: rest =>
      let out := if dict_has tid out then out else dict_set tid (JObj []) out in
      t ← merge_into (jget tid out) patch;
      modify_types rest (dict_set tid t out)
  end.

Definition project_types_apply (base po : json) : fallible jdict :=
  out ← as_obj (jor base (JObj []));
  po ← as_obj (jor po (JObj []));
  news ← iter (jor (jget "append" po) (JList []));
  out ← append_types news out;
  mods ← as_obj (jor (jget "modify" po) (JObj []));
  modify_types mods out.

(** The grants of a capabilities section. *)
Definition grants_of (caps : json) : fallible jdict :=
  d ← as_obj (jor caps (JObj []));
  as_obj (jor (jget "grants" d) (JObj [])).

(** [cap in over] and then [over[cap]], on whatever the overlay has for grants. *)
Definition grant_in (cap : string) (over : json) : fallible (option json) :=
  match over with
  | JObj d => Ok (dict_lookup cap d)
  | JList l => if existsb (py_eq (JStr cap)) l then Raise ShapeError else Ok None
  | JStr s => if contains cap s then Raise ShapeError else Ok None
  | _ => Raise ShapeError
  end.

(** One capability of the base under the grants of the overlay. *)
Definition narrow_one (over : json) (cap : string) (principals : json) : fallible (string * json) :=
  ps ← iter (jor principals (JList []));
  kept ← grant_in cap over;
  match kept with
  | None => Ok (cap, JList ps)
  | Some kept =>
      ks ← iter (jor kept (JList []));
      if forallb hashable ks then ps' ← select (fun p => in_set p ks) ps; Ok (cap, JList ps')
      else Raise ShapeError
  end.

Definition capabilities_narrow (base overlay : json) : fallible json :=
  if negb (jtruthy overlay) then Ok (jor base (JObj []))
  else
    out ← as_obj (jor base (JObj []));
    base_grants ← grants_of base;
    o ← as_obj overlay;
    let over := jor (jget "grants" o) (JObj []) in
    narrowed ← traverse (fun kv => narrow_one over kv.1 kv.2) base_grants;
    Ok (JObj (dict_set "grants" (JObj narrowed) out)).

(** A section of the overlay, applied when it is truthy. *)
Definition section (k : string) (po : jdict) (f : json → fallible jdict) (merged : jdict) : fallible jdict :=
  if jtruthy (jget k po) then f (jget k po) else Ok merged.

Definition phases_section (merged : jdict) (po : json) : fallible jdict :=
  base ← iter (jor (jget "phases" merged) (JList []));
  ps ← phases_apply base po;
  Ok (dict_set "phases" (JList ps) merged).

Definition types_section (merged : jdict) (po : json) : fallible jdict :=
  ts ← project_types_apply (jor (jget "project_types" merged) (JObj [])) po;
  Ok (dict_set "project_types" (JObj ts) merged).

Definition tier_section (merged : jdict) (po : json) : fallible jdict :=
  let merged := if dict_has "tier_routing" merged then merged else dict_set "tier_routing" (JObj []) merged in
  t ← merge_into (jget "tier_routing" merged) po;
  Ok (dict_set "tier_routing" t merged).

Definition gates_section (merged : jdict) (po : json) : fallible jdict :=
  base ← iter (jor (jget "phases" merged) (JList []));
  gates ← as_obj po;
  ps ← gates_apply gates base;
  Ok (dict_set "phases" (JList ps) merged).

(** [_apply_overlay], without the chain of tags. *)
Definition apply_overlay (merged : jdict) (overlay : json) : fallible jdict :=
  if negb (jtruthy overlay) then Ok merged
  else
    o ← as_obj overlay;
    po ← as_obj (jor (jget "pipeline_overrides" o) overlay);
    merged ← section "phases" po (phases_section merged) merged;
    merged ← section "project_types" po (types_section merged) merged;
    merged ← section "tier_routing" po (tier_section merged) merged;
    merged ← section "gates" po (gates_section merged) merged;
    match dict_lookup "capabilities" o with
    | None => Ok merged
    | Some c => caps ← capabilities_narrow (jor (jget "capabilities" merged) (JObj [])) c;
                Ok (dict_set "capabilities" caps merged)
    end.

(** * Resolution *)
Section Load.
(** [_read_yaml] of a path under the Spine home, [str] of a value that is no text, and the
    manifest that ships with the program. *)
Context (read_yaml : list string → fallible json) (str_of : json → string) (shipped : jdict).

Definition text_of (v : json) : string := match v with JStr s => s | _ => str_of v end.

Definition active_bundle (bundle_id : option string) : fallible json :=
  match default "" bundle_id with
  | EmptyString => read_yaml ["active"; "bundle.yaml"]
  | b => read_yaml ["bundles"; b; "bundle.yaml"]
  end.

Definition team_overrides (project_id : option string) : fallible json :=
  match default "" project_id with
  | EmptyString => Ok (JObj [])
  | pid =>
      meta ← read_yaml ["active"; "project"; pid; "meta.yaml"];
      let team := match meta with JObj d => jget "team_id" d | _ => JNull end in
      if negb (jtruthy team) then Ok (JObj [])
      else match team with
           | JStr t => read_yaml ["active"; "team"; t; "pipeline_overrides.yaml"]
           | _ => Raise ShapeError
           end
  end.

(** One overlay and its tag, when there is one. *)
Definition overlay_step (st : jdict * list string) (overlay : json) (tag : string) : fallible (jdict * list string) :=
  if jtruthy overlay then m ← apply_overlay st.1 overlay; Ok (m, st.2 ++ [tag]) else Ok st.

Definition bundle_tag (bundle : json) (bundle_id : option string) : fallible string :=
  b ← as_obj bundle;
  i ← as_obj (jor (jget "identity" b) (JObj []));
  Ok ("org-bundle:" +:+ text_of (jor (jor (jget "bundle_id" i) (JStr (default "" bundle_id))) (JStr "active"))).

Definition derived : list string := ["resolved_version"; "inheritance_chain"].

(** The text whose digest is a pipeline's version. *)
Definition version_of (body : jdict) : string :=
  "sha256:" +:+ hex_of (sha256 (canonical (JObj (List.filter (fun kv => negb (in_strs kv.1 derived)) body)))).

Definition load_pipeline (project_id bundle_id : option string) (project_overrides : json) : fallible jdict :=
  bundle ← active_bundle bundle_id;
  st ← (if jtruthy bundle
        then tag ← bundle_tag bundle bundle_id; overlay_step (shipped, ["default:sdlc-pipeline-default.yaml"]) bundle tag
        else Ok (shipped, ["default:sdlc-pipeline-default.yaml"]));
  team ← team_overrides project_id;
  st ← overlay_step st team ("team:" +:+ default "" project_id);
  st ← overlay_step st project_overrides
         ("project:" +:+ match default "" project_id with EmptyString => "inline" | pid => pid end);
  Ok (dict_set "inheritance_chain" (JList (map JStr st.2))
        (dict_set "resolved_version" (JStr (version_of st.1)) st.1)).
End Load.
End Compare.

(** * Capabilities *)
Definition KNOWN_CAPABILITIES : list string :=
  ["can_modify_sdlc_pipeline"; "can_modify_cost_policy"; "can_grant_capabilities"; "can_override_security"].

Definition principal_kinds : list string := ["role"; "user"; "group"].

(** [s.partition(":")], when there is one. *)
Fixpoint partition_colon (s : string) : option (string * string) :=
  match s with
  | EmptyString => None
  | String c s' =>
      if Ascii.eqb c ":" then Some ("", s')
      else match partition_colon s' with Some (a, b) => Some (String c a, b) | None => None end
  end.

Definition parse_actor (actor : string) : option (string * string) :=
  if String.eqb actor "" then None
  else match partition_colon actor with
       | Some (kind, name) => if in_strs kind principal_kinds then Some (kind, name) else None
       | None => Some ("user", actor)
       end.

Definition is_word (c : ascii) : bool :=
  let n := code c in
  ((65 <=? n) && (n <=? 90)) || ((97 <=? n) && (n <=? 122)) || ((48 <=? n) && (n <=? 57)) || (n =? 95) || (n =? 45) || (n =? 42).

(** A text without a final newline, which [$] leaves room for. *)
Fixpoint chop_newline (s : string) : string :=
  match s with
  | EmptyString => EmptyString
  | String c EmptyString => if Ascii.eqb c (chr 10) then EmptyString else s
  | String c s' => String c (chop_newline s')
  end.

(** [PRINCIPAL_RE] and then the two halves of the principal. *)
Definition parse_principal (p : string) : option (string * string) :=
  match partition_colon p with
  | Some (kind, name) =>
      let body := chop_newline name in
      if in_strs kind principal_kinds && negb (String.eqb body "") && all_chars is_word body then Some (kind, name) else None
  | None => None
  end.

Definition principal_matches (actor : string * string) (p : json) : fallible bool :=
  match p with
  | JStr s =>
      match parse_principal s with
      | Some (kind, name) => Ok (String.eqb kind actor.1 && (String.eqb name "*" || String.eqb name actor.2))
      | None => Ok false
      end
  | _ => Raise ShapeError
  end.

(** The principals a manifest grants a capability. *)
Definition principals_of (capability : string) (m : jdict) : fallible (list json) :=
  g ← grants_of (jget "capabilities" m);
  iter (jor (jget capability g) (JList [])).

Definition check_capability (actor capability : string) (m : jdict) : fallible bool :=
  if negb (in_strs capability KNOWN_CAPABILITIES) then Ok false
  else match parse_actor actor with
       | None => Ok false
       | Some a => ps ← principals_of capability m; any (principal_matches a) ps
       end.

Definition require_capability (actor capability : string) (m : jdict) : fallible unit :=
  if negb (in_strs capability KNOWN_CAPABILITIES) then Raise (CapabilityDenied actor capability)
  else ok ← check_capability actor capability m;
       if (ok : bool) then Ok tt else Raise (CapabilityDenied actor capability).

(** Every known or declared capability with its principals, by name. *)
Definition list_grants (m : jdict) : fallible (list (string * list json)) :=
  g ← grants_of (jget "capabilities" m);
  let caps := (sort_items (map (fun k => (k, tt)) (remove_dups (map fst g ++ KNOWN_CAPABILITIES)))).*1 in
  traverse (fun cap => ps ← iter (jor (jget cap g) (JList [])); Ok (cap, ps)) caps.

Definition assert_rationale (actor capability : string) (rationale : option string) : fallible string :=
  match rationale with
  | None => Raise (CapabilityDenied actor capability)
  | Some r => if (text_length (strip r) <? 8)%nat then Raise (CapabilityDenied actor capability) else Ok (strip r)
  end.

(** * Narrowing *)

(** Walk through the steps of a fallible computation that returns. *)
Ltac split_steps H :=
  repeat match type of H with
  | mbind _ ?x = Ok _ => let E := fresh "E" in destruct x eqn:E; cbn [mbind outcome_bind] in H; [|discriminate H]
  | (if ?b then _ else _) = Ok _ => let E := fresh "E" in destruct b eqn:E; try discriminate H
  end.

(** A section of capabilities grants [cap] to [p]. *)
Definition grants (caps : json) (cap : string) (p : json) : Prop :=
  ∃ g ps, grants_of caps = Ok g ∧ iter (jor (jget cap g) (JList [])) = Ok ps ∧ p ∈ ps.

Definition no_wider (caps base : json) : Prop := ∀ cap p, grants caps cap p → grants base cap p.

#[local] Instance no_wider_preorder : PreOrder no_wider.
Proof. split; [by intros c cap p H|]. intros a b c H1 H2 cap p H. by apply H2, H1. Qed.

Lemma jor_idem a : jor (jor a (JObj [])) (JObj []) = jor a (JObj []).
Proof. unfold jor. destruct (jtruthy a) eqn:E; [by rewrite E|done]. Qed.

Lemma no_wider_jor a : no_wider (jor a (JObj [])) a.
Proof. intros cap p (g & ps & H & ?). exists g, ps. unfold grants_of in *. by rewrite jor_idem in H. Qed.

Lemma select_elem {A} (f : A → fallible bool) l l' x : select f l = Ok l' → x ∈ l' → x ∈ l.
Proof.
  revert l'. induction l as [|y l IH]; intros l'; cbn; [by intros [= <-]|].
  destruct (f y) as [b|]; [|done]. cbn. destruct (select f l) as [ys|]; [|done]. cbn. intros [= <-] Hx.
  destruct b; [apply elem_of_cons in Hx as [->|Hx]; [by left|right; by eapply IH]|right; by eapply IH].
Qed.

(** The narrowed grants, key by key. *)
Lemma traverse_lookup (f : string → json → fallible (string * json)) g g' cap v' :
  (∀ k v r, f k v = Ok r → r.1 = k) → traverse (fun kv => f kv.1 kv.2) g = Ok g' → dict_lookup cap g' = Some v' →
  ∃ v, dict_lookup cap g = Some v ∧ f cap v = Ok (cap, v').
Proof.
  intros Hk. revert g'. induction g as [|[k v] g IH]; intros g'; cbn; [by intros [= <-]|].
  destruct (f k v) as [[k' w]|] eqn:Hf; [|done]. cbn. destruct (traverse _ g) as [ys|] eqn:Ht; [|done]. cbn. intros [= <-].
  pose proof (Hk _ _ _ Hf) as E. cbn in E. subst k'. cbn [dict_lookup]. destruct (String.eqb_spec cap k) as [->|].
  - intros [= ->]. eauto.
  - intros Hl. by apply (IH ys).
Qed.

Lemma narrow_one_key float_eq over k v r : narrow_one float_eq over k v = Ok r → r.1 = k.
Proof. unfold narrow_one. intros H. split_steps H. destruct a0; split_steps H; by injection H as <-. Qed.

Lemma narrow_one_elem float_eq over k v w ps' p :
  narrow_one float_eq over k v = Ok (k, w) → iter (jor w (JList [])) = Ok ps' → p ∈ ps' →
  ∃ ps, iter (jor v (JList [])) = Ok ps ∧ p ∈ ps.
Proof.
  unfold narrow_one. destruct (iter (jor v (JList []))) as [ps|]; [|done]. cbn [mbind outcome_bind].
  assert (Hj : ∀ l, iter (jor (JList l) (JList [])) = Ok l) by (by intros []).
  destruct (grant_in float_eq k over) as [[kept|]|]; [| |done]; cbn [mbind outcome_bind].
  - destruct (iter (jor kept (JList []))) as [ks|]; [|done]. cbn [mbind outcome_bind]. destruct (forallb hashable ks); [|done].
    destruct (select _ ps) as [ps2|] eqn:Hs; [|done]. cbn [mbind outcome_bind]. intros [= <-]. rewrite Hj. intros [= <-] Hp.
    exists ps. split; [done|]. by eapply select_elem.
  - intros [= <-]. rewrite Hj. intros [= <-] Hp. by exists ps.
Qed.

Lemma grants_of_set narrowed out : grants_of (JObj (dict_set "grants" (JObj narrowed) out)) = Ok narrowed.
Proof.
  unfold grants_of.
  assert (jor (JObj (dict_set "grants" (JObj narrowed) out)) (JObj []) = JObj (dict_set "grants" (JObj narrowed) out)) as ->.
  { destruct out as [|[k v] out]; [done|]. cbn [dict_set]. by destruct (String.eqb "grants" k). }
  cbn [as_obj mbind outcome_bind]. unfold jget. rewrite dict_lookup_set_eq. by destruct narrowed.
Qed.

Lemma narrow_no_wider float_eq base overlay caps :
  capabilities_narrow float_eq base overlay = Ok caps → no_wider caps base.
Proof.
  unfold capabilities_narrow. destruct (jtruthy overlay); cbn [negb]; [|intros [= <-]; apply no_wider_jor].
  destruct (as_obj (jor base (JObj []))) as [out|]; [|done]. destruct (grants_of base) as [g|] eqn:Hg; [|done].
  destruct (as_obj overlay) as [o|]; [|done]. cbn [mbind outcome_bind].
  destruct (traverse _ g) as [narrowed|] eqn:Ht; [|done]. cbn [mbind outcome_bind]. intros [= <-] cap p (g' & ps & Hg' & Hi & Hp).
  rewrite grants_of_set in Hg'. injection Hg' as <-. exists g.
  unfold jget in Hi. destruct (dict_lookup cap narrowed) as [w|] eqn:Hl; [|cbn in Hi; injection Hi as <-; by apply not_elem_of_nil in Hp].
  destruct (traverse_lookup _ _ _ _ _ (narrow_one_key _ _) Ht Hl) as (v & Hv & Hn).
  destruct (narrow_one_elem _ _ _ _ _ _ p Hn Hi Hp) as (ps0 & Hi0 & Hp0). exists ps0. unfold jget. by rewrite Hv.
Qed.

(** The steps of an overlay that set another section. *)
Definition leaves_caps (f : fallible jdict) (m : jdict) : Prop :=
  ∀ r, f = Ok r → jget "capabilities" r = jget "capabilities" m.

Lemma jget_set_ne k k' v m : k' ≠ k → jget k (dict_set k' v m) = jget k m.
Proof. intros Hk. unfold jget. rewrite dict_lookup_set_ne; [done|congruence]. Qed.

Lemma section_caps k po f m : (∀ x, leaves_caps (f x) m) → leaves_caps (section k po f m) m.
Proof. intros Hf r. unfold section. destruct (jtruthy _); [apply Hf|by intros [= <-]]. Qed.

Lemma phases_caps fe m x : leaves_caps (phases_section fe m x) m.
Proof. intros r H. unfold phases_section in H. split_steps H. injection H as <-. by apply jget_set_ne. Qed.
Lemma types_caps m x : leaves_caps (types_section m x) m.
Proof. intros r H. unfold types_section in H. split_steps H. injection H as <-. by apply jget_set_ne. Qed.
Lemma tier_caps m x : leaves_caps (tier_section m x) m.
Proof.
  intros r H. unfold tier_section in H. split_steps H. injection H as <-. rewrite jget_set_ne by done.
  destruct (dict_has _ _); [done|by apply jget_set_ne].
Qed.
Lemma gates_caps fe m x : leaves_caps (gates_section fe m x) m.
Proof. intros r H. unfold gates_section in H. split_steps H. injection H as <-. by apply jget_set_ne. Qed.

Lemma apply_overlay_no_wider fe m overlay m' :
  apply_overlay fe m overlay = Ok m' → no_wider (jget "capabilities" m') (jget "capabilities" m).
Proof.
  intros H. unfold apply_overlay in H. split_steps H; [by injection H as <-|].
  repeat match goal with
         | Hs : section _ _ _ _ = Ok _ |- _ =>
             apply section_caps in Hs; [|intros ?; first [apply phases_caps | apply types_caps | apply tier_caps | apply gates_caps]]
         end.
  match type of H with context [jget "capabilities" ?m4] =>
    assert (Hc : jget "capabilities" m4 = jget "capabilities" m) by congruence end.
  destruct (dict_lookup "capabilities" a) as [c|]; [|injection H as <-; by rewrite Hc].
  split_steps H. injection H as <-. unfold jget at 1. rewrite dict_lookup_set_eq. cbn [default from_option id].
  rewrite <-Hc. etrans; [eapply narrow_no_wider; eassumption|]. apply no_wider_jor.
Qed.

Lemma overlay_step_no_wider fe st overlay tag st' :
  overlay_step fe st overlay tag = Ok st' → no_wider (jget "capabilities" st'.1) (jget "capabilities" st.1).
Proof.
  unfold overlay_step. destruct (jtruthy overlay); [|by intros [= <-]]. intros H. split_steps H. injection H as <-.
  by eapply apply_overlay_no_wider.
Qed.

Lemma load_no_wider fe read_yaml str_of shipped pid bid over m :
  load_pipeline fe read_yaml str_of shipped pid bid over = Ok m → no_wider (jget "capabilities" m) (jget "capabilities" shipped).
Proof.
  intros H. unfold load_pipeline in H. split_steps H. injection H as <-. rewrite !jget_set_ne by done.
  repeat match goal with
         | Hs : overlay_step _ _ _ _ = Ok _ |- _ => apply overlay_step_no_wider in Hs
         | Hs : (if ?b then _ else _) = Ok _ |- _ => destruct b; [split_steps Hs|injection Hs as <-]
         end; cbn [fst] in *; repeat (etrans; [eassumption|]); reflexivity.
Qed.

Lemma any_true {A} (f : A → fallible bool) l : any f l = Ok true → ∃ x, x ∈ l ∧ f x = Ok true.
Proof.
  induction l as [|x l IH]; cbn; [done|]. destruct (f x) as [[]|] eqn:Hf; cbn; [intros _; exists x; split; [by left|done]| |done].
  intros H. destruct (IH H) as (y & Hy & ?). exists y. split; [by right|done].
Qed.

Lemma any_false {A} (f : A → fallible bool) l x : any f l = Ok false → x ∈ l → f x = Ok false.
Proof.
  induction l as [|y l IH]; cbn; [by intros _ ?%not_elem_of_nil|]. destruct (f y) as [[]|] eqn:Hf; cbn; [done| |done].
  intros H [->|Hx]%elem_of_cons; [done|by apply IH].
Qed.

(** A passed check names its principal. *)
Lemma check_granted actor cap m :
  check_capability actor cap m = Ok true →
  in_strs cap KNOWN_CAPABILITIES = true ∧
  ∃ a p, parse_actor actor = Some a ∧ grants (jget "capabilities" m) cap p ∧ principal_matches a p = Ok true.
Proof.
  unfold check_capability. destruct (in_strs cap KNOWN_CAPABILITIES); cbn [negb]; [|done]. intros H. split; [done|].
  destruct (parse_actor actor) as [a|]; [|done]. destruct (principals_of cap m) as [ps|] eqn:Hps; [|done].
  destruct (any_true _ _ H) as (p & Hp & Hm). exists a, p. split_and!; [done| |done].
  unfold principals_of in Hps. split_steps Hps. by exists a0, ps.
Qed.

(** Whatever the bundle, the team and the project declare, an actor passes a capability
    check of the resolved pipeline only where the manifest that ships does not deny him. *)
Theorem resolved_never_widens fe read_yaml str_of shipped pid bid over m actor cap :
  load_pipeline fe read_yaml str_of shipped pid bid over = Ok m →
  check_capability actor cap m = Ok true → check_capability actor cap shipped ≠ Ok false.
Proof.
  intros Hl Hc. destruct (check_granted _ _ _ Hc) as (Hk & a & p & Ha & Hg & Hm).
  apply (load_no_wider _ _ _ _ _ _ _ _ Hl) in Hg as (g & ps & Hg & Hi & Hp).
  unfold check_capability. rewrite Hk, Ha. cbn [negb]. unfold principals_of. rewrite Hg. cbn [mbind outcome_bind]. rewrite Hi.
  cbn [mbind outcome_bind]. intros Hf. rewrite (any_false _ _ _ Hf Hp) in Hm. done.
Qed.

(** The capabilities section of [plan/artifacts/sdlc-pipeline-default.yaml]: it says which
    capability guards which section and grants none. *)
Definition guards (capability scope : string) : json := JObj [("capability", JStr capability); ("scope", JStr scope)].
Definition shipped_capabilities : json :=
  JObj [("phases", guards "can_modify_sdlc_pipeline" "org"); ("project_types", guards "can_modify_sdlc_pipeline" "team");
        ("tier_routing", guards "can_modify_cost_policy" "team"); ("overrides", guards "can_modify_sdlc_pipeline" "project");
        ("audit", guards "system_only" "org")].

(** ** Without grants in the base there are none anywhere *)
Definition no_grants (m : jdict) : Prop := grants_of (jget "capabilities" m) = Ok [].

Lemma narrow_no_grants fe base overlay caps :
  grants_of base = Ok [] → capabilities_narrow fe base overlay = Ok caps → grants_of caps = Ok [].
Proof.
  intros Hg. unfold capabilities_narrow. destruct (jtruthy overlay); cbn [negb].
  - destruct (as_obj (jor base (JObj []))) as [out|]; [|done]. rewrite Hg. cbn [mbind outcome_bind].
    destruct (as_obj overlay) as [o|]; [|done]. cbn [mbind outcome_bind traverse]. intros [= <-]. apply grants_of_set.
  - intros [= <-]. unfold grants_of in *. by rewrite jor_idem.
Qed.

Lemma apply_overlay_no_grants fe m overlay m' :
  no_grants m → apply_overlay fe m overlay = Ok m' → no_grants m'.
Proof.
  intros Hn H. unfold apply_overlay in H. split_steps H; [by injection H as <-|].
  repeat match goal with
         | Hs : section _ _ _ _ = Ok _ |- _ =>
             apply section_caps in Hs; [|intros ?; first [apply phases_caps | apply types_caps | apply tier_caps | apply gates_caps]]
         end.
  unfold no_grants in *. match type of H with context [jget "capabilities" ?m4] =>
    assert (Hc : jget "capabilities" m4 = jget "capabilities" m) by congruence end.
  destruct (dict_lookup "capabilities" a) as [c|]; [|injection H as <-; by rewrite Hc].
  split_steps H. injection H as <-. unfold jget at 1. rewrite dict_lookup_set_eq. cbn [default from_option id].
  eapply narrow_no_grants; [|eassumption]. unfold grants_of in *. by rewrite jor_idem, Hc.
Qed.

Lemma load_no_grants fe read_yaml str_of shipped pid bid over m :
  no_grants shipped → load_pipeline fe read_yaml str_of shipped pid bid over = Ok m → no_grants m.
Proof.
  intros Hn H.
  assert (Hstep : ∀ st overlay tag st', overlay_step fe st overlay tag = Ok st' → no_grants st.1 → no_grants st'.1).
  { intros st overlay tag st'. unfold overlay_step. destruct (jtruthy overlay); [|by intros [= <-]]. intros Hs Hg. split_steps Hs.
    injection Hs as <-. by eapply apply_overlay_no_grants. }
  unfold load_pipeline in H. split_steps H. injection H as <-. unfold no_grants in *. rewrite !jget_set_ne by done.
  do 2 (eapply Hstep; [eassumption|]).
  match goal with Hs : (if ?b then _ else _) = Ok _ |- _ => destruct b; [split_steps Hs; eapply Hstep; eassumption|by injection Hs as <-] end.
Qed.

(** C22: with the manifest that ships nobody has any capability.  Its capabilities section
    declares no grants, and an overlay can only narrow grants that are there: whatever
    grants the organisation's bundle, the team and the project declare, every actor fails
    every capability check of every resolved pipeline, and a change that requires one is
    denied.  The module means the organisation's bundle to be authoritative. *)
Theorem nobody_is_granted fe read_yaml str_of shipped pid bid over m actor cap :
  jget "capabilities" shipped = shipped_capabilities →
  load_pipeline fe read_yaml str_of shipped pid bid over = Ok m →
  check_capability actor cap m = Ok false ∧ require_capability actor cap m = Raise (CapabilityDenied actor cap).
Proof.
  intros Hs Hl. assert (Hn : no_grants m).
  { eapply load_no_grants; [|exact Hl]. unfold no_grants. rewrite Hs. reflexivity. }
  assert (Hc : check_capability actor cap m = Ok false).
  { unfold check_capability. destruct (in_strs cap KNOWN_CAPABILITIES); [|done]. cbn [negb].
    destruct (parse_actor actor) as [a|]; [|done]. unfold principals_of. rewrite Hn. reflexivity. }
  split; [done|]. unfold require_capability. rewrite Hc. by destruct (in_strs cap KNOWN_CAPABILITIES).
Qed.

(** * A bundle *)
Definition no_float (t : string) (v : json) : bool := false.

Definition demo_shipped : jdict :=
  [("phases", JList [JObj [("id", JStr "intake")]]);
   ("capabilities", JObj [("grants", JObj [("can_modify_sdlc_pipeline", JList [JStr "role:architect"; JStr "user:ana"])])])].

(** The organisation keeps one principal and names another, and adds a phase. *)
Definition demo_yaml (path : list string) : fallible json :=
  match path with
  | ["active"; "bundle.yaml"] =>
      Ok (JObj [("identity", JObj [("bundle_id", JStr "acme")]);
                ("pipeline_overrides", JObj [("phases", JObj [("append", JList [JObj [("id", JStr "pilot")]])])]);
                ("capabilities", JObj [("grants", JObj [("can_modify_sdlc_pipeline", JList [JStr "user:ana"; JStr "user:bo"])])])])
  | _ => Ok (JObj [])
  end.

Definition demo_manifest : fallible jdict := load_pipeline no_float demo_yaml (fun _ => "?") demo_shipped None None JNull.

Lemma resolved_never_widens_example :
  ∃ m, demo_manifest = Ok m ∧ check_capability "user:ana" "can_modify_sdlc_pipeline" m = Ok true ∧
       check_capability "user:bo" "can_modify_sdlc_pipeline" m = Ok false ∧
       check_capability "user:ana" "can_modify_sdlc_pipeline" demo_shipped ≠ Ok false.
Proof.
  exists (match demo_manifest with Ok m => m | Raise _ => [] end).
  split; [vm_compute; reflexivity|]. split; [vm_compute; reflexivity|]. split; [vm_compute; reflexivity|].
  apply (resolved_never_widens no_float demo_yaml (fun _ => "?") demo_shipped None None JNull
           (match demo_manifest with Ok m => m | Raise _ => [] end) "user:ana" "can_modify_sdlc_pipeline");
    vm_compute; reflexivity.
Defined.

(** The same bundle over the capabilities that ship: its grants are gone. *)
Definition demo_default : jdict :=
  [("phases", JList [JObj [("id", JStr "intake")]]); ("capabilities", shipped_capabilities)].
Definition demo_resolved : fallible jdict := load_pipeline no_float demo_yaml (fun _ => "?") demo_default None None JNull.

Lemma nobody_is_granted_witness :
  ∃ m, demo_resolved = Ok m ∧ dict_has "grants" (match jget "capabilities" m with JObj d => d | _ => [] end) = true ∧
       check_capability "user:ana" "can_modify_sdlc_pipeline" m = Ok false.
Proof.
  exists (match demo_resolved with Ok m => m | Raise _ => [] end).
  split; [vm_compute; reflexivity|]. split; [vm_compute; reflexivity|].
  apply (nobody_is_granted no_float demo_yaml (fun _ => "?") demo_default None None JNull
           (match demo_resolved with Ok m => m | Raise _ => [] end) "user:ana" "can_modify_sdlc_pipeline");
    vm_compute; reflexivity.
Defined.

(** A partial manifest, which [_apply_overlay] means to accept, has its phases as a list:
    that is no object with [append], [modify] and [remove]. *)
Example partial_manifest_refused :
  apply_overlay no_float demo_shipped (JObj [("phases", JList [JObj [("id", JStr "pilot")]])]) = Raise ShapeError.
Proof. reflexivity. Qed.
End Manifest.
