(* ===== verification/PipelineLock.v ===== *)
(** A project's lock on its pipeline: [plan/pipeline/project_lock.py] and the version of
    [plan/pipeline/versioning.py].

    The statements run on the rows of spine_lifecycle.project.  What [psql] takes as the
    value of a quoted [\set] argument and what PostgreSQL keeps of a jsonb are parameters
    with the laws their manuals give; the best-effort audit record is left out. *)

From S2P Require Import Prelude PyValue Datetime Json Crypto Manifest.
From Stdlib Require Import Ascii.
Local Open Scope Z_scope.

Module PipelineLock.
Import Json Crypto Manifest.

Inductive exn :=
| Shape | Denied (actor capability : string) | PsqlError | LookupError | DecodeError.

Definition lift {A} (m : Manifest.fallible A) : outcome exn A :=
  match m with
  | Ok a => Ok a
  | Raise ShapeError => Raise Shape
  | Raise (CapabilityDenied a c) => Raise (Denied a c)
  end.

(** * Versions *)

(** The fields a manifest has even when the document has not. *)
Definition with_defaults (m : jdict) : jdict :=
  fold_left (fun m k => if dict_has k m then m else dict_set k (JObj []) m)
            ["project_types"; "tier_routing"; "overrides"; "capabilities"; "audit"] m.

(** [model_dump] without the derived fields. *)
Definition body_of (m : jdict) : jdict := List.filter (fun kv => negb (in_strs kv.1 derived)) (with_defaults m).

(** [_snapshot]. *)
Definition snapshot_text (m : jdict) : string := canonical (JObj (body_of m)).

Definition compute_pipeline_version (m : jdict) : string := "sha256:" +:+ hex_of (sha256 (snapshot_text m)).

(** * Statements through psql *)
Definition quoted (text : string) : string := str1 squote +:+ text +:+ str1 squote.

Definition doubled (value : string) : string := str_replace value (str1 squote) (str1 squote +:+ str1 squote).

(** The lines of the script but for the first: one for each bind, then the query. *)
Definition set_line (name value : string) : string := str1 backslash +:+ "set " +:+ name +:+ " " +:+ quoted (doubled value).

Definition script (binds : list (string * string)) (sql : string) : string :=
  join newline ((str1 backslash +:+ "set ON_ERROR_STOP 1") :: map (fun b => set_line b.1 b.2) binds ++ [sql]) +:+ newline.

(** A backslash in a quoted argument starts one of these, or quotes the next character. *)
Definition escape_letter (c : ascii) : bool := is_digit c || has_char c "ntbrfx".

(** [read_set text]: the value of a variable set to the quoted [text]. *)
Class PsqlLaws (read_set : string → option string) : Prop := {
  set_literal v : has_char backslash v = false → has_char (chr 10) v = false → read_set (quoted (doubled v)) = Some v;
  set_backslash a c b : has_char backslash a = false → has_char squote a = false → has_char (chr 10) a = false →
    escape_letter c = false →
    read_set (str1 squote +:+ a +:+ str1 backslash +:+ str1 c +:+ b) =
    (fun r => a +:+ str1 c +:+ r) <$> read_set (str1 squote +:+ b)
}.

(** A number in plain digits, the way [repr] writes a float that is neither large nor
    small: one with an exponent comes back from a numeric in digits, and -0.0 as 0.0. *)
Definition plain_digits (t : string) : bool := all_chars (fun c => is_digit c || Ascii.eqb c ".") t.

Definition plain_float (t : string) : bool :=
  (String.length t <=? 32)%nat &&
  match t with
  | String c t' => if Ascii.eqb c "-" then plain_digits t' && negb (all_chars (fun c => Ascii.eqb c "0" || Ascii.eqb c ".") t')
                   else plain_digits t
  | EmptyString => false
  end.

(** The values a numeric keeps as they are written. *)
Fixpoint keeps_numbers (j : json) : bool :=
  match j with
  | JFloat t => plain_float t
  | JInt n => Z.abs n <? 2 ^ 4096
  | JList l => forallb keeps_numbers l
  | JObj d => forallb (fun kv => keeps_numbers kv.2) d
  | _ => true
  end.

(** [jsonb text]: what [json.loads] makes of the text of [text::jsonb]: the same value, the
    order of the members of its objects aside. *)
Class JsonbLaws (jsonb : string → option json) : Prop := {
  jsonb_same j : valid (sorted j) = true → keeps_numbers j = true → has_char backslash (canonical j) = false →
    ∃ j', jsonb (canonical j) = Some j' ∧ sorted j' = sorted j
}.

Record project_row := {
  project_uuid : option string; row_id : Z; pipeline_version : option string; manifest_snapshot : option json;
  row_status : string; row_phase : string
}.

Definition named (pid : string) (r : project_row) : bool :=
  match project_uuid r with Some u => String.eqb u pid | None => false end || String.eqb (str_of_Z (row_id r)) pid.

Definition with_lock (version : string) (snap : json) (r : project_row) : project_row :=
  {| project_uuid := project_uuid r; row_id := row_id r; pipeline_version := Some version;
     manifest_snapshot := Some snap; row_status := row_status r; row_phase := row_phase r |}.

Section Database.
Context (read_set : string → option string) (jsonb : string → option json).

(** The value a bind has in the query.  What [psql] runs for a value with a newline, whose
    later lines are lines of the script, is not modelled further: here it fails. *)
Definition bound (value : string) : outcome exn string :=
  if has_char (chr 10) value then Raise PsqlError
  else match read_set (quoted (doubled value)) with Some v => Ok v | None => Raise PsqlError end.

(** The update of no row is no error. *)
Definition lock_project_to_pipeline (pid : string) (m : jdict) (rows : list project_row) : outcome exn (string * list project_row) :=
  let version := compute_pipeline_version m in
  version' ← bound version;
  snap ← bound (snapshot_text m);
  pid' ← bound pid;
  match jsonb snap with
  | None => Raise PsqlError
  | Some j => Ok (version, map (fun r => if named pid' r then with_lock version' j r else r) rows)
  end.

Definition setdefault (k : string) (v : json) (d : jdict) : jdict := if dict_has k d then d else dict_set k v d.

Definition get_locked_pipeline (pid : string) (rows : list project_row) : outcome exn jdict :=
  pid' ← bound pid;
  match find (named pid') rows with
  | None => Raise LookupError
  | Some r =>
      match manifest_snapshot r with
      | None => Raise LookupError
      | Some (JObj d) =>
          Ok (setdefault "inheritance_chain" (JList [])
                (setdefault "resolved_version" (JStr (default "" (pipeline_version r))) d))
      | Some _ => Raise Shape
      end
  end.

Definition is_pipeline_drifted (pid : string) (current : jdict) (rows : list project_row) : outcome exn bool :=
  locked ← get_locked_pipeline pid rows;
  Ok (negb (String.eqb (compute_pipeline_version locked) (compute_pipeline_version current))).

(** * Migration *)
Section Migrate.
Context (float_eq : string → json → bool).

Definition phase_id (p : json) : outcome exn string :=
  match p with
  | JObj d => match jget "id" d with JStr i => Ok i | _ => Raise Shape end
  | _ => Raise Shape
  end.

(** [{p.get("id"): p for p in phases}]; an id that is no text is out of the model. *)
Fixpoint phases_by_id (ps : list json) (acc : jdict) : outcome exn jdict :=
  match ps with
  | [] => Ok acc
  | p :: rest => i ← phase_id p; phases_by_id rest (dict_set i p acc)
  end.

Definition sorted_keys (l : list string) : list string := (sort_items (map (fun k => (k, tt)) l)).*1.

Record manifest_diff := {
  phases_added : list string; phases_removed : list string; phases_modified : list string;
  tier_routing_changed : bool; capabilities_changed : bool
}.

Definition phase_list (m : jdict) : outcome exn (list json) := lift (iter (jget "phases" m)).

Definition diff_manifests (old new : jdict) : outcome exn manifest_diff :=
  ops ← phase_list old; nps ← phase_list new;
  o ← phases_by_id ops []; n ← phases_by_id nps [];
  Ok {| phases_added := sorted_keys (List.filter (fun k => negb (dict_has k o)) (map fst n));
        phases_removed := sorted_keys (List.filter (fun k => negb (dict_has k n)) (map fst o));
        phases_modified := sorted_keys (List.filter (fun k => dict_has k n && negb (py_eq float_eq (jget k o) (jget k n))) (map fst o));
        tier_routing_changed := negb (py_eq float_eq (jget "tier_routing" (with_defaults old)) (jget "tier_routing" (with_defaults new)));
        capabilities_changed := negb (py_eq float_eq (jget "capabilities" (with_defaults old)) (jget "capabilities" (with_defaults new))) |}.

Record migration_result := { from_version : string; to_version : string; diff : manifest_diff }.

Definition migrate_locked_project (pid : string) (new : jdict) (actor : string) (rationale : option string)
    (rows : list project_row) : outcome exn (migration_result * list project_row) :=
  _ ← lift (assert_rationale actor "can_modify_sdlc_pipeline" rationale);
  _ ← lift (require_capability actor "can_modify_sdlc_pipeline" new);
  old ← get_locked_pipeline pid rows;
  d ← diff_manifests old new;
  l ← lock_project_to_pipeline pid new rows;
  Ok ({| from_version := compute_pipeline_version old; to_version := l.1; diff := d |}, l.2).
End Migrate.
End Database.

(** * Keys *)
Lemma dict_has_app {V} k (a b : list (string * V)) : dict_has k (a ++ b) = dict_has k a || dict_has k b.
Proof. unfold dict_has. induction a as [|[k' v] a IH]; cbn; [done|]. by destruct (String.eqb k k'). Qed.

Lemma dict_has_cons {V} k k' (v : V) d : dict_has k ((k', v) :: d) = String.eqb k k' || dict_has k d.
Proof. unfold dict_has. cbn. by destruct (String.eqb k k'). Qed.

Lemma dict_has_set {V} k k' (v : V) d : dict_has k (dict_set k' v d) = String.eqb k k' || dict_has k d.
Proof. unfold dict_has. rewrite dict_lookup_set. by destruct (String.eqb k k'). Qed.

Lemma dict_has_sort {V} k (d : list (string * V)) : dict_has k (sort_items d) = dict_has k d.
Proof.
  assert (Hi : ∀ k' (v : V) d, dict_has k (insert_key k' v d) = String.eqb k k' || dict_has k d).
  { intros k' v d'. induction d' as [|[k2 v2] d' IH]; cbn [insert_key]; [by rewrite dict_has_cons|].
    destruct (String.leb k' k2); rewrite !dict_has_cons; [done|]. rewrite IH.
    by destruct (String.eqb k k2), (String.eqb k k'). }
  induction d as [|[k' v] d IH]; [done|]. cbn [sort_items]. by rewrite Hi, IH, dict_has_cons.
Qed.

Lemma dict_has_map {V W} k (f : V → W) (d : list (string * V)) : dict_has k (map (fun kv => (kv.1, f kv.2)) d) = dict_has k d.
Proof. induction d as [|[k' v] d IH]; [done|]. cbn [map fst snd]. by rewrite !dict_has_cons, IH. Qed.

Lemma dict_has_filter {V} k (p : string → bool) (d : list (string * V)) :
  dict_has k (List.filter (fun kv => p kv.1) d) = p k && dict_has k d.
Proof.
  induction d as [|[k' v] d IH]; [by rewrite andb_false_r|]. cbn [List.filter fst]. rewrite dict_has_cons.
  destruct (String.eqb_spec k k') as [<-|Hk].
  - destruct (p k); [by rewrite dict_has_cons, String.eqb_refl|]. by rewrite IH.
  - destruct (p k'); [rewrite dict_has_cons; by destruct (String.eqb_spec k k')|by rewrite IH].
Qed.

Lemma dict_set_absent {V} k (v : V) d : dict_has k d = false → dict_set k v d = d ++ [(k, v)].
Proof.
  unfold dict_has. induction d as [|[k' v'] d IH]; [done|]. cbn. destruct (String.eqb k k'); [done|]. intros H. by rewrite IH.
Qed.

Lemma dict_has_elem {V} k (v : V) d : (k, v) ∈ d → dict_has k d = true.
Proof.
  induction d as [|[k' v'] d IH]; [by intros ?%not_elem_of_nil|]. rewrite dict_has_cons.
  intros [[= <- <-]|H]%elem_of_cons; [by rewrite String.eqb_refl|]. rewrite IH by done. by rewrite orb_true_r.
Qed.

(** * A body *)
Definition sections : list string := ["project_types"; "tier_routing"; "overrides"; "capabilities"; "audit"].

Lemma defaults_have m k : in_strs k sections = true → dict_has k (with_defaults m) = true.
Proof.
  unfold with_defaults. intros Hk%in_strs_true. set (step := fun m k => if dict_has k m then m else dict_set k (JObj []) m).
  change (fold_left step sections m) with (fold_left step sections m).
  assert (Hm : ∀ l m, dict_has k m = true → dict_has k (fold_left step l m) = true).
  { induction l as [|x l IH]; [done|]. intros m' H. cbn. apply IH. unfold step. destruct (dict_has x m'); [done|].
    by rewrite dict_has_set, H, orb_true_r. }
  unfold sections in *. revert m Hk. generalize ["project_types"; "tier_routing"; "overrides"; "capabilities"; "audit"].
  induction l as [|x l IH]; intros m; [by intros ?%not_elem_of_nil|]. intros [<-|Hk]%elem_of_cons; cbn [fold_left]; [|by apply IH].
  apply Hm. unfold step. destruct (dict_has k m) eqn:E; [done|]. by rewrite dict_has_set, String.eqb_refl.
Qed.

Lemma defaults_id m : (∀ k, in_strs k sections = true → dict_has k m = true) → with_defaults m = m.
Proof.
  intros H. unfold with_defaults. cbn [fold_left]. by rewrite !H by reflexivity.
Qed.

(** A document with the keys of a body, and derived fields at its end, is that body. *)
Lemma body_of_locked m d v1 v2 :
  (∀ k, dict_has k d = dict_has k (body_of m)) →
  body_of (setdefault "inheritance_chain" v2 (setdefault "resolved_version" v1 d)) = d.
Proof.
  intros Hk.
  assert (Hd : ∀ k, in_strs k derived = true → dict_has k d = false).
  { intros k Hin. rewrite Hk. unfold body_of. rewrite (dict_has_filter k (fun k => negb (in_strs k derived))). by rewrite Hin. }
  assert (Hs : ∀ k, in_strs k sections = true → dict_has k d = true).
  { intros k Hin. rewrite Hk. unfold body_of. rewrite (dict_has_filter k (fun k => negb (in_strs k derived))), defaults_have by done.
    apply in_strs_true in Hin. repeat (apply elem_of_cons in Hin as [->|Hin]; [done|]). by apply not_elem_of_nil in Hin. }
  unfold setdefault at 2. rewrite Hd by done. rewrite dict_set_absent by by apply Hd.
  unfold setdefault. rewrite dict_has_app, Hd by done. cbn [orb dict_has dict_lookup String.eqb]. 
  change (dict_has "inheritance_chain" [("resolved_version", v1)]) with false. cbv iota.
  rewrite dict_set_absent by (rewrite dict_has_app, Hd; done). unfold body_of. rewrite defaults_id.
  - rewrite !List.filter_app. cbn [List.filter fst]. change (in_strs "resolved_version" derived) with true.
    change (in_strs "inheritance_chain" derived) with true. cbn [negb]. rewrite !app_nil_r. apply filter_all.
    intros [k v] Hin. cbn. apply dict_has_elem in Hin. destruct (in_strs k derived) eqn:E; [|done]. by rewrite Hd in Hin.
  - intros k Hin. by rewrite !dict_has_app, Hs.
Qed.

Lemma same_text m d : sorted (JObj d) = sorted (JObj (body_of m)) → ∀ k, dict_has k d = dict_has k (body_of m).
Proof.
  cbn [sorted]. intros [= H] k. apply (f_equal (dict_has k)) in H. by rewrite !dict_has_sort, !dict_has_map in H.
Qed.

(** * The lock *)
Lemma printable_no_newline x : all_chars printable x = true → has_char (chr 10) x = false.
Proof.
  induction x as [|c x IH]; [done|]. cbn [all_chars has_char]. intros [Hc Hx]%andb_true_iff. rewrite IH by done.
  rewrite orb_false_r. apply Ascii.eqb_neq. intros E. subst c. done.
Qed.

Section Laws.
Context (read_set : string → option string) (jsonb : string → option json) `{!PsqlLaws read_set} `{!JsonbLaws jsonb}.

Lemma bound_plain v : has_char backslash v = false → has_char (chr 10) v = false → bound read_set v = Ok v.
Proof. intros Hb Hn. unfold bound. by rewrite Hn, set_literal. Qed.

Lemma bound_version m : bound read_set (compute_pipeline_version m) = Ok (compute_pipeline_version m).
Proof.
  unfold compute_pipeline_version. apply bound_plain; rewrite has_char_app, hex_without; done.
Qed.

(** A manifest whose text [psql] and jsonb take as it is: its keys are its own once, its
    numbers are written in plain digits, and its JSON has no backslash, which means that its
    texts are printable ASCII with neither a double quote nor a backslash. *)
Definition lockable (m : jdict) : Prop :=
  valid (sorted (JObj (body_of m))) = true ∧ keeps_numbers (JObj (body_of m)) = true ∧ has_char backslash (snapshot_text m) = false.

(** C23: a project named by its row locked to a lockable pipeline has that pipeline: its
    locked version is the one [lock_project_to_pipeline] returned, and it has not drifted
    from it.  [escaped_quote_is_lost] is what happens to one that is not lockable. *)
Theorem locked_pipeline_is_read_back pid m rows :
  has_char backslash pid = false → has_char (chr 10) pid = false → lockable m → (∃ r, r ∈ rows ∧ named pid r = true) →
  ∃ rows' locked, lock_project_to_pipeline read_set jsonb pid m rows = Ok (compute_pipeline_version m, rows') ∧
    get_locked_pipeline read_set pid rows' = Ok locked ∧ compute_pipeline_version locked = compute_pipeline_version m ∧
    is_pipeline_drifted read_set pid m rows' = Ok false.
Proof.
  intros Hb Hn (Hv & Hf & Hs) (r & Hr & Hnr). unfold lock_project_to_pipeline. rewrite bound_version.
  cbn [mbind outcome_bind]. rewrite (bound_plain (snapshot_text m)); [|done|by apply printable_no_newline, dumps_printable].
  cbn [mbind outcome_bind]. rewrite (bound_plain pid) by done. cbn [mbind outcome_bind].
  destruct (jsonb_same (JObj (body_of m)) Hv Hf Hs) as (j & Hj & Hsame). unfold snapshot_text in *. rewrite Hj.
  destruct j as [| | | | | |d]; try discriminate Hsame. set (version := compute_pipeline_version m).
  set (locked := setdefault "inheritance_chain" (JList []) (setdefault "resolved_version" (JStr version) d)).
  assert (Hver : compute_pipeline_version locked = version).
  { unfold version, compute_pipeline_version, snapshot_text, locked.
    rewrite (body_of_locked m) by by apply same_text. unfold canonical. by rewrite Hsame. }
  assert (Hget : get_locked_pipeline read_set pid (map (fun r => if named pid r then with_lock version (JObj d) r else r) rows) = Ok locked).
  { unfold get_locked_pipeline. rewrite bound_plain by done. cbn [mbind outcome_bind].
    assert (∃ r', find (named pid) (map (fun r => if named pid r then with_lock version (JObj d) r else r) rows)
                         = Some (with_lock version (JObj d) r')) as [r' ->]; [|done].
    { clear -Hr Hnr. induction rows as [|x rows IH]; [by apply not_elem_of_nil in Hr|]. cbn [map find].
      destruct (named pid x) eqn:Hx; [change (named pid (with_lock version (JObj d) x)) with (named pid x); rewrite Hx; by exists x|].
      rewrite Hx. apply elem_of_cons in Hr as [->|Hr]; [congruence|]. by apply IH. } }
  eexists _, locked. split_and!; [reflexivity|exact Hget|exact Hver|].
  unfold is_pipeline_drifted. rewrite Hget. cbn [mbind outcome_bind]. by rewrite Hver, String.eqb_refl.
Qed.

Lemma startswith_ne c d s : c ≠ d → startswith (String d s) (str1 c) = false.
Proof. intros H. unfold startswith. cbn. by destruct (ascii_dec c d). Qed.

Lemma replace_absent c new s : has_char c s = false → str_replace s (str1 c) new = s.
Proof.
  unfold str_replace. induction s as [|d s IH]; [done|]. cbn [has_char replace_from]. intros [Hc Hs]%orb_false_iff.
  rewrite startswith_ne by (by apply Ascii.eqb_neq). by rewrite IH.
Qed.

Lemma doubled_absent s : has_char squote s = false → doubled s = s.
Proof. apply replace_absent. Qed.

(** A double quote in a manifest is escaped by [json.dumps] and loses its backslash in
    [psql]: what is cast to jsonb is another text. *)
Lemma escaped_quote_is_lost a b :
  has_char backslash a = false → has_char squote a = false → has_char (chr 10) a = false →
  has_char backslash b = false → has_char squote b = false → has_char (chr 10) b = false →
  bound read_set (a +:+ str1 backslash +:+ str1 dquote +:+ b) = Ok (a +:+ str1 dquote +:+ b).
Proof.
  intros Ha1 Ha2 Ha3 Hb1 Hb2 Hb3. unfold bound. rewrite !has_char_app, Ha3, Hb3. cbn [orb].
  change (has_char (chr 10) (str1 backslash)) with false. change (has_char (chr 10) (str1 dquote)) with false. cbn [orb].
  rewrite doubled_absent by (rewrite !has_char_app, Ha2, Hb2; done). unfold quoted. rewrite !app_assoc_str.
  rewrite (set_backslash a dquote (b +:+ str1 squote)) by done.
  rewrite <-(doubled_absent b) by done. fold (quoted (doubled b)). rewrite set_literal by done. cbn. by rewrite doubled_absent.
Qed.

(** A project id with a backslash before a quote ends its argument early: its later lines
    are lines of the script, and so commands of [psql]. *)
Lemma project_id_breaks_out cmd sql :
  has_char squote cmd = false →
  let pid := str1 "x" +:+ str1 backslash +:+ str1 squote +:+ newline +:+ cmd in
  let first := str1 squote +:+ str1 "x" +:+ str1 backslash +:+ str1 squote +:+ str1 squote in
  script [("pid", pid)] sql =
    join newline [str1 backslash +:+ "set ON_ERROR_STOP 1"; str1 backslash +:+ "set pid " +:+ first;
                  cmd +:+ str1 squote; sql] +:+ newline ∧
  read_set first = Some (str1 "x" +:+ str1 squote).
Proof.
  intros Hc pid first. split.
  - unfold script, set_line, quoted. cbn [map app fst snd join].
    assert (Hd : doubled pid = str1 "x" +:+ str1 backslash +:+ str1 squote +:+ str1 squote +:+ newline +:+ cmd).
    { unfold pid, doubled, str_replace. rewrite <-(replace_absent squote (str1 squote +:+ str1 squote) cmd Hc) at 2. reflexivity. }
    rewrite Hd. unfold first. by rewrite !app_assoc_str.
  - unfold first. rewrite (set_backslash (str1 "x") squote (str1 squote)) by done.
    rewrite (set_literal "" eq_refl eq_refl : read_set (str1 squote +:+ str1 squote) = Some ""). done.
Qed.
End Laws.

(** A caller's manifest is asked whether the caller may migrate to it: one that grants its
    author the capability is enough. *)
Lemma target_grants_its_author read_set jsonb fe pid new actor rationale rows r :
  migrate_locked_project read_set jsonb fe pid new actor rationale rows = Ok r →
  check_capability actor "can_modify_sdlc_pipeline" new = Ok true.
Proof.
  unfold migrate_locked_project, require_capability. destruct (lift (assert_rationale _ _ _)); [|done].
  change (in_strs "can_modify_sdlc_pipeline" KNOWN_CAPABILITIES) with true. cbn [negb mbind outcome_bind].
  destruct (check_capability actor _ new) as [[]|e]; cbn; [done|discriminate|by destruct e].
Qed.

(** * A reader of arguments and a project *)
Fixpoint read_quoted (s : string) : option string :=
  match s with
  | EmptyString => None
  | String c s' =>
      if Ascii.eqb c squote then
        match s' with
        | EmptyString => Some ""
        | String d s'' => if Ascii.eqb d squote then String squote <$> read_quoted s'' else None
        end
      else if Ascii.eqb c backslash then
        match s' with
        | EmptyString => None
        | String d s'' => String (if Ascii.eqb d "n" then chr 10 else d) <$> read_quoted s''
        end
      else String c <$> read_quoted s'
  end.

Definition read_argument (s : string) : option string :=
  match s with String c s' => if Ascii.eqb c squote then read_quoted s' else None | EmptyString => None end.

#[local] Instance read_argument_laws : PsqlLaws read_argument.
Proof.
  split.
  - intros v Hb _. unfold quoted. rewrite app_str1. unfold read_argument. rewrite Ascii.eqb_refl.
    unfold doubled, str_replace. induction v as [|c v IH]; [done|]. cbn [has_char] in Hb. apply orb_false_iff in Hb as [Hc Hb].
    cbn [replace_from]. destruct (Ascii.eqb_spec c squote) as [->|Hs].
    + assert (startswith (String squote v) (str1 squote) = true) as -> by (by destruct v).
      change (read_quoted (String squote (String squote (replace_from 0 (str1 squote) (str1 squote +:+ str1 squote) v +:+
        str1 squote))) = Some (String squote v)). cbn [read_quoted]. rewrite !Ascii.eqb_refl, IH by done. done.
    + rewrite startswith_ne by congruence.
      rewrite app_cons. cbn [read_quoted]. rewrite (proj2 (Ascii.eqb_neq c squote) Hs).
      rewrite Ascii.eqb_sym in Hc. rewrite Hc, IH by done. done.
  - intros a c b Hb Hs _ Hc. rewrite !app_str1. unfold read_argument. rewrite Ascii.eqb_refl.
    assert (Hn : Ascii.eqb c "n" = false) by (destruct (Ascii.eqb_spec c "n") as [->|]; [discriminate Hc|done]).
    induction a as [|x a IH].
    + rewrite app_empty. cbn [read_quoted]. change (Ascii.eqb backslash squote) with false.
      rewrite Ascii.eqb_refl, Hn. by destruct (read_quoted b).
    + cbn [has_char] in *. apply orb_false_iff in Hb as [Hb1 Hb], Hs as [Hs1 Hs]. rewrite app_cons. cbn [read_quoted].
      rewrite Ascii.eqb_sym, Hs1, Ascii.eqb_sym, Hb1. rewrite IH by done. by destruct (read_quoted b).
Qed.

#[local] Instance loads_laws : JsonbLaws loads.
Proof.
  split. intros j Hv _ _. exists (sorted j). unfold canonical. rewrite loads_dumps by done. by rewrite sorted_sorted.
Qed.

Definition demo_project : project_row :=
  {| project_uuid := Some "3f2b0c6e-0000-4000-8000-000000000001"; row_id := 7; pipeline_version := None;
     manifest_snapshot := None; row_status := "active"; row_phase := "intake" |}.

(** Of the manifest that ships: a phase with a cost cap, the routing with its budget, the
    audit section with the times as [str] writes them; and a label with a quote. *)
Definition demo_pipeline : jdict :=
  [("$schema", JStr "spine.sdlc-pipeline/v1"); ("version", JInt 1); ("org_bundle", JStr "spine-default");
   ("phases", JList [JObj [("id", JStr "intake"); ("label", JStr "Client's intake")];
                     JObj [("id", JStr "verify_in_progress"); ("ownership", JStr "verify");
                           ("verify_config", JObj [("mcp_tool", JStr "verify_audit"); ("cost_cap_usd", JFloat "5.0")])]]);
   ("tier_routing", JObj [("budget_caps", JObj [("per_user", JNull);
                             ("per_project", JObj [("amount", JFloat "5.0"); ("currency", JStr "USD")])])]);
   ("audit", JObj [("created_at", JStr "2026-05-16 00:00:00+00:00"); ("rationale_required", JBool true)])].

Lemma locked_pipeline_is_read_back_witness :
  ∃ rows' locked, lock_project_to_pipeline read_argument loads "7" demo_pipeline [demo_project]
                    = Ok (compute_pipeline_version demo_pipeline, rows') ∧
    get_locked_pipeline read_argument "7" rows' = Ok locked ∧
    compute_pipeline_version locked = compute_pipeline_version demo_pipeline ∧
    is_pipeline_drifted read_argument "7" demo_pipeline rows' = Ok false.
Proof.
  apply (locked_pipeline_is_read_back read_argument loads "7" demo_pipeline [demo_project]).
  - reflexivity.
  - reflexivity.
  - repeat split; vm_compute; reflexivity.
  - exists demo_project. split; [by left|reflexivity].
Defined.
End PipelineLock.
