(* ===== verification/Evolution.v ===== *)
(** What changes between two pipelines: [plan/pipeline/phase_evolution.py].

    The order in which Python walks a set of texts is a parameter, as is [str] of a value
    that is no text.  An id that is no text is out of the model. *)

From S2P Require Import Prelude PyValue Datetime Json Crypto Manifest PipelineLock.
From Stdlib Require Import Ascii.
Local Open Scope Z_scope.

Module Evolution.
Import Json Manifest PipelineLock.

Inductive evolution_type :=
| phase_added | phase_removed | phase_renamed | phase_reordered | gate_changed | rollback_changed.

#[export] Instance evolution_type_eq_dec : EqDecision evolution_type.
Proof. solve_decision. Defined.

Record event := {
  event_type : evolution_type; version_old : string; version_new : string; event_phase : string;
  auto_migratable : bool; rationale : string; detail : jdict
}.

Record migration_plan := {
  plan_project : string; plan_event : event; steps : list string; requires_user_action : bool; blockers : list string
}.

Abbreviation phase := (string * jdict)%type.

(** * Phases by id *)

(** A phase with its id; one whose id is missing or empty is dropped. *)
Definition with_id (p : json) : outcome PipelineLock.exn (option phase) :=
  match p with
  | JObj d => match jget "id" d with
              | JStr i => Ok (if String.eqb i "" then None else Some (i, d))
              | v => if jtruthy v then Raise Shape else Ok None
              end
  | _ => Raise Shape
  end.

Fixpoint with_ids (ps : list json) : outcome PipelineLock.exn (list phase) :=
  match ps with
  | [] => Ok []
  | p :: rest => o ← with_id p; l ← with_ids rest; Ok (match o with Some x => x :: l | None => l end)
  end.

Definition phases_of (m : jdict) : outcome PipelineLock.exn (list phase) := ps ← phase_list m; with_ids ps.

(** [_phase_map]: the last phase of an id, at the place of the first. *)
Definition phase_map (ps : list phase) : list phase := fold_left (fun acc p => dict_set p.1 p.2 acc) ps [].

Definition phase_order (ps : list phase) : list string := map fst ps.

Section Evolution.
Context (float_eq : string → json → bool) (str_of : json → string) (set_order : list string → list string).

Definition text_or_empty (v : json) : string :=
  if jtruthy v then strip (match v with JStr s => s | _ => str_of v end) else "".

(** [_label_for]. *)
Definition label_for (p : phase) : string :=
  let nonblank v := match v with JStr s => negb (String.eqb (strip s) "") | _ => false end in
  let text v := match v with JStr s => strip s | _ => "" end in
  if nonblank (jget "label" p.2) then text (jget "label" p.2)
  else if nonblank (jget "name" p.2) then text (jget "name" p.2)
  else strip p.1.

Definition signature (p : phase) : string * string * string :=
  (label_for p, text_or_empty (jget "subsystem" p.2), text_or_empty (jget "artifact" p.2)).

(** The first phase with a signature, and the others. *)
Fixpoint take_signature (sig : string * string * string) (ps : list phase) : option (phase * list phase) :=
  match ps with
  | [] => None
  | p :: rest => if bool_decide (signature p = sig) then Some (p, rest)
                 else match take_signature sig rest with Some (q, others) => Some (q, p :: others) | None => None end
  end.

(** The renames (old, new), what is left of the added and of the removed. *)
Fixpoint detect_renames (adds rems : list phase) : list (phase * phase) * list phase * list phase :=
  match adds with
  | [] => ([], [], rems)
  | a :: adds' =>
      match (if bool_decide (signature a = ("", "", "")) then None else take_signature (signature a) rems) with
      | Some (r, rems') => let '(renames, left_, rest) := detect_renames adds' rems' in ((r, a) :: renames, left_, rest)
      | None => let '(renames, left_, rest) := detect_renames adds' rems in (renames, a :: left_, rest)
      end
  end.

Definition can_auto_migrate (t : evolution_type) : bool :=
  match t with phase_added | phase_reordered => true | _ => false end.

Definition mk (t : evolution_type) (vo vn pid : string) (d : jdict) (why : string) : event :=
  {| event_type := t; version_old := vo; version_new := vn; event_phase := pid; auto_migratable := can_auto_migrate t;
     rationale := why; detail := d |}.

Definition renamed_event (vo vn : string) (r : phase * phase) : event :=
  let '(old, new) := r in
  mk phase_renamed vo vn new.1
    [("from", JStr old.1); ("to", JStr new.1); ("label", JStr (label_for new)); ("from_label", JStr (label_for old));
     ("subsystem", JStr (text_or_empty (jget "subsystem" new.2))); ("artifact", JStr (text_or_empty (jget "artifact" new.2)))]
    ("phase id changed (" +:+ repr_str old.1 +:+ " -> " +:+ repr_str new.1 +:+ "); label=" +:+ repr_str (label_for new) +:+
     ", subsystem/artifact unchanged").

(** The first place where the common order differs. *)
Fixpoint first_moved (old new : list string) : option string :=
  match new, old with
  | [], _ => None
  | pid :: _, [] => Some pid
  | pid :: new', o :: old' => if String.eqb o pid then first_moved old' new' else Some pid
  end.

Definition reorder_events (vo vn : string) (o_order n_order : list string) : list event :=
  if negb (bool_decide (o_order = n_order)) && negb (bool_decide (o_order = [])) && negb (bool_decide (n_order = []))
  then match first_moved o_order n_order with
       | Some pid => [mk phase_reordered vo vn pid
                        [("old_order", JList (map JStr o_order)); ("new_order", JList (map JStr n_order))]
                        ("phase order changed at " +:+ repr_str pid)]
       | None => []
       end
  else [].

(** One field of a phase that both manifests have. *)
Definition field_event (t : evolution_type) (vo vn field from to : string) (omap nmap : list phase) (pid : string) : list event :=
  let old := jget field (default [] (dict_lookup pid omap)) in
  let new := jget field (default [] (dict_lookup pid nmap)) in
  if py_eq float_eq old new then []
  else [mk t vo vn pid [(from, old); (to, new)] (field +:+ " on " +:+ repr_str pid +:+ " changed")].

Definition change_events (vo vn : string) (omap nmap : list phase) (pid : string) : list event :=
  field_event gate_changed vo vn "gate" "old_gate" "new_gate" omap nmap pid ++
  field_event rollback_changed vo vn "rollback_to" "old_rollback_to" "new_rollback_to" omap nmap pid.

Definition absent_from (m : list phase) (p : phase) : bool := negb (dict_has p.1 m).

Definition evolution_events (vo vn : string) (ops nps : list phase) : list event :=
  let omap := phase_map ops in
  let nmap := phase_map nps in
  let '(renames, adds_left, rems_left) :=
    detect_renames (List.filter (absent_from omap) nmap) (List.filter (absent_from nmap) omap) in
  map (renamed_event vo vn) renames ++
  map (fun p => mk phase_added vo vn p.1 [] ("new phase " +:+ repr_str p.1)) adds_left ++
  map (fun p => mk phase_removed vo vn p.1 [] ("phase " +:+ repr_str p.1 +:+ " removed")) rems_left ++
  reorder_events vo vn (List.filter (fun i => dict_has i nmap) (phase_order ops))
                       (List.filter (fun i => dict_has i omap) (phase_order nps)) ++
  flat_map (change_events vo vn omap nmap) (set_order (List.filter (fun i => dict_has i nmap) (map fst omap))).

Definition detect_evolution_events (old new : jdict) : outcome PipelineLock.exn (list event) :=
  let vo := compute_pipeline_version old in
  let vn := compute_pipeline_version new in
  if String.eqb vo vn then Ok []
  else ops ← phases_of old; nps ← phases_of new; Ok (evolution_events vo vn ops nps).
End Evolution.

(** * Projects *)
Section Plans.
Context (read_set : string → option string) (jsonb : string → option json).

Definition in_flight (s : string) : bool := in_strs s ["active"; "paused"].

(** [affected_projects]: blank ids are dropped. *)
Definition affected_projects (e : event) (rows : list project_row) : outcome PipelineLock.exn (list string) :=
  ver ← bound read_set (version_old e);
  let hit r := match pipeline_version r with Some v => String.eqb v ver | None => false end && in_flight (row_status r) in
  Ok (List.filter (fun i => negb (String.eqb (strip i) ""))
        (map (fun r => match project_uuid r with Some u => u | None => str_of_Z (row_id r) end) (List.filter hit rows))).

Definition current_phase_of (pid : string) (rows : list project_row) : outcome PipelineLock.exn string :=
  pid' ← bound read_set pid;
  Ok (match find (named pid') rows with Some r => strip (row_phase r) | None => "" end).

Definition detail_text (k : string) (e : event) : string := match jget k (detail e) with JStr s => s | _ => "None" end.

Definition plan_migration (e : event) (pid : string) (rows : list project_row) : outcome PipelineLock.exn migration_plan :=
  cur ← current_phase_of pid rows;
  let from := detail_text "from" e in
  let to := detail_text "to" e in
  let rename := bool_decide (event_type e = phase_renamed) in
  let gate := bool_decide (event_type e = gate_changed) in
  Ok {| plan_project := pid; plan_event := e;
        steps := ["capability_check actor (require can_modify_sdlc_pipeline)";
                  "diff lock vs target version " +:+ version_new e] ++
                 (if rename && String.eqb cur from
                  then ["rewrite project.current_phase: " +:+ from +:+ " -> " +:+ to;
                        "rewrite phase_history.phase rows for this project (same swap)"] else []) ++
                 (if gate then ["surface gate change for " +:+ repr_str (event_phase e) +:+ " to operator"] else []) ++
                 ["project_lock.migrate_locked_project(...) writes lock + audit"];
        requires_user_action := negb (auto_migratable e) || rename || gate;
        blockers := if bool_decide (event_type e = phase_removed) && String.eqb cur (event_phase e)
                    then ["project is currently in '" +:+ event_phase e +:+ "', which the new manifest removes"] else [] |}.

Inductive execution := DryRun (project : string) (type : evolution_type) (todo : list string) | Migrated (r : migration_result).

Inductive plan_exn := Blocked (l : list string) | Failed (e : PipelineLock.exn).

(** [execute_migration]; the manifest it migrates to is the currently resolved one. *)
Definition execute_migration (float_eq : string → json → bool) (load : string → outcome PipelineLock.exn jdict)
    (p : migration_plan) (actor : string) (why : option string) (dry_run : bool) (rows : list project_row)
    : outcome plan_exn (execution * list project_row) :=
  match blockers p with
  | _ :: _ => Raise (Blocked (blockers p))
  | [] =>
      if dry_run then Ok (DryRun (plan_project p) (event_type (plan_event p)) (steps p), rows)
      else match (m ← load (plan_project p);
                  migrate_locked_project read_set jsonb float_eq (plan_project p) m actor why rows) with
           | Ok r => Ok (Migrated r.1, r.2)
           | Raise e => Raise (Failed e)
           end
  end.
End Plans.

(** * Every phase is accounted for *)
Definition of_type (t : evolution_type) (evs : list event) : list event := List.filter (fun e => bool_decide (event_type e = t)) evs.

Lemma of_type_app t a b : of_type t (a ++ b) = of_type t a ++ of_type t b.
Proof. apply List.filter_app. Qed.

(** A segment whose events have one type. *)
Lemma of_type_all {A} t t' (f : A → event) l :
  (∀ x, event_type (f x) = t') → of_type t (map f l) = if bool_decide (t' = t) then map f l else [].
Proof.
  intros Hf. unfold of_type. induction l as [|x l IH]; cbn; [by destruct (bool_decide _)|]. rewrite Hf, IH. by destruct (bool_decide _).
Qed.

Lemma of_type_none t evs : (∀ e, e ∈ evs → event_type e ≠ t) → of_type t evs = [].
Proof.
  intros H. unfold of_type. induction evs as [|e evs IH]; [done|]. cbn. rewrite bool_decide_eq_false_2 by (apply H; by left).
  apply IH. intros e' He. apply H. by right.
Qed.

Lemma of_type_elem t evs e : e ∈ of_type t evs ↔ e ∈ evs ∧ event_type e = t.
Proof. unfold of_type. by rewrite !list_elem_of_In, filter_In, bool_decide_eq_true. Qed.

Lemma phase_map_id ps : NoDup (map fst ps) → phase_map ps = ps.
Proof.
  assert (H : ∀ acc, NoDup (map fst (acc ++ ps)) → fold_left (fun acc p => dict_set p.1 p.2 acc) ps acc = acc ++ ps);
    [|by intros Hn; apply (H [])].
  induction ps as [|[i d] ps IH]; intros acc Hn; [by rewrite app_nil_r|]. cbn [fold_left fst snd].
  rewrite set_app_end.
  - rewrite IH; rewrite <-app_assoc; done.
  - rewrite map_app in Hn. apply NoDup_app in Hn as (_ & Hn & _). intros Hi. by apply (Hn i Hi); left.
Qed.

Section Accounts.
Context (float_eq : string → json → bool) (str_of : json → string) (set_order : list string → list string).

Lemma take_signature_perm sig ps p rest :
  take_signature str_of sig ps = Some (p, rest) → map fst ps ≡ₚ p.1 :: map fst rest ∧ signature str_of p = sig.
Proof.
  revert rest. induction ps as [|q ps IH]; intros rest; [done|]. cbn. destruct (bool_decide _) eqn:Hs.
  - intros [= -> ->]. split; [done|by apply bool_decide_eq_true in Hs].
  - destruct (take_signature _ _ ps) as [[x others]|] eqn:Ht; [|done]. intros [= -> <-].
    destruct (IH _ eq_refl) as [Hp He]. split; [|done]. cbn. rewrite Hp. apply Permutation_swap.
Qed.

Lemma detect_renames_perm adds rems renames left_ rest :
  detect_renames str_of adds rems = (renames, left_, rest) →
  map fst adds ≡ₚ map (fun r => r.2.1) renames ++ map fst left_ ∧
  map fst rems ≡ₚ map (fun r => r.1.1) renames ++ map fst rest.
Proof.
  revert rems renames left_ rest. induction adds as [|a adds IH]; intros rems renames left_ rest; [by intros [= <- <- <-]|].
  cbn [detect_renames]. destruct (if bool_decide _ then None else take_signature _ _ rems) as [[r rems']|] eqn:Ht.
  - destruct (bool_decide _); [done|]. apply take_signature_perm in Ht as [Hp _].
    destruct (detect_renames _ adds rems') as [[rn lf] rs] eqn:Hd. intros [= <- <- <-]. destruct (IH _ _ _ _ Hd) as [H1 H2].
    cbn. split; [by rewrite H1|by rewrite Hp, H2].
  - destruct (detect_renames _ adds rems) as [[rn lf] rs] eqn:Hd. intros [= <- <- <-]. destruct (IH _ _ _ _ Hd) as [H1 H2].
    cbn. split; [rewrite H1; apply Permutation_middle|done].
Qed.

Lemma take_signature_elem sig ps :
  match take_signature str_of sig ps with
  | Some (p, rest) => p ∈ ps ∧ (∀ x, x ∈ rest → x ∈ ps)
  | None => ∀ x, x ∈ ps → signature str_of x ≠ sig
  end.
Proof.
  induction ps as [|q ps IH]; cbn; [by intros x ?%not_elem_of_nil|]. destruct (bool_decide _) eqn:Hs.
  - split; [by left|by right].
  - apply bool_decide_eq_false in Hs. destruct (take_signature _ _ ps) as [[x others]|].
    + destruct IH as [Hx Ho]. split; [by right|]. intros y [->|Hy]%elem_of_cons; [by left|right; by apply Ho].
    + intros y [->|Hy]%elem_of_cons; [done|by apply IH].
Qed.

(** A rename pairs two phases of one signature, and no pair of that kind is left. *)
Lemma detect_renames_match adds rems renames left_ rest :
  detect_renames str_of adds rems = (renames, left_, rest) →
  (∀ r a, (r, a) ∈ renames → r ∈ rems ∧ a ∈ adds ∧ signature str_of r = signature str_of a ∧ signature str_of a ≠ ("", "", "")) ∧
  (∀ a r, a ∈ left_ → r ∈ rest → signature str_of r = signature str_of a → signature str_of a = ("", "", "")) ∧
  (∀ r, r ∈ rest → r ∈ rems) ∧ (∀ a, a ∈ left_ → a ∈ adds).
Proof.
  revert rems renames left_ rest. induction adds as [|a adds IH]; intros rems renames left_ rest; cbn [detect_renames].
  { intros [= <- <- <-]. split_and!; [by intros ?? ?%not_elem_of_nil..|done|done]. }
  destruct (bool_decide (signature str_of a = _)) eqn:He; [|pose proof (take_signature_elem (signature str_of a) rems) as Ht;
    pose proof (take_signature_perm (signature str_of a) rems) as Hs; destruct (take_signature _ _ rems) as [[r rems']|]].
  2: { destruct Ht as [Hr Hsub], (Hs _ _ eq_refl) as [_ Hsig]. apply bool_decide_eq_false in He.
    destruct (detect_renames _ adds rems') as [[rn lf] rs] eqn:Hd. intros [= <- <- <-]. destruct (IH _ _ _ _ Hd) as (H1 & H2 & H3 & H4).
    split_and!; [|done|by intros x Hx; apply Hsub, H3|by right; apply H4]. intros r' a' [[= -> ->]|Hin]%elem_of_cons; [split_and!; [done|by left|done..]|].
    destruct (H1 _ _ Hin) as (?&?&?&?). split_and!; [by apply Hsub|by right|done..]. }
  all: destruct (detect_renames _ adds rems) as [[rn lf] rs] eqn:Hd; intros [= <- <- <-]; destruct (IH _ _ _ _ Hd) as (H1 & H2 & H3 & H4).
  all: split_and!; [by intros r' a' (?&?&?&?)%H1; split_and!; [|right| |]| |done|by intros x [->|Hx]%elem_of_cons; [left|right; apply H4]].
  all: intros a' r' [->|Ha]%elem_of_cons Hr Hq; [|by eapply H2].
  - by apply bool_decide_eq_true in He.
  - by destruct (Ht r' (H3 _ Hr)).
Qed.

(** The first place where two orders of the same length part. *)
Lemma first_moved_spec o n pid :
  length o = length n → first_moved o n = Some pid →
  ∃ before x o' n', o = before ++ x :: o' ∧ n = before ++ pid :: n' ∧ x ≠ pid.
Proof.
  revert n. induction o as [|x o IH]; intros [|y n] Hl; try done. cbn. destruct (String.eqb_spec x y) as [->|Hx].
  - intros Hf. destruct (IH n) as (b & x' & o' & n' & -> & -> & Hne); [by injection Hl|done|]. by exists (y :: b), x', o', n'.
  - intros [= ->]. by exists [], x, o, n.
Qed.

Lemma first_moved_same o n : length o = length n → first_moved o n = None ↔ o = n.
Proof.
  revert n. induction o as [|x o IH]; intros [|y n] Hl; try done. cbn. destruct (String.eqb_spec x y) as [->|Hx].
  - rewrite IH by (by injection Hl). split; [by intros ->|by intros [= ->]].
  - split; [done|]. by intros [= -> ->].
Qed.

Definition filter_ids (keep : string → bool) (ps : list phase) : list string := List.filter keep (map fst ps).

Lemma map_fst_filter (keep : string → bool) (ps : list phase) :
  map fst (List.filter (fun p => keep p.1) ps) = filter_ids keep ps.
Proof. unfold filter_ids. induction ps as [|p ps IH]; [done|]. cbn. destruct (keep p.1); cbn; by rewrite IH. Qed.

Lemma dict_has_in (k : string) (ps : list phase) : dict_has k ps = true ↔ k ∈ map fst ps.
Proof.
  induction ps as [|[i d] ps IH]; [split; [done|by intros ?%not_elem_of_nil]|]. rewrite dict_has_cons, orb_true_iff, IH.
  cbn. rewrite elem_of_cons, String.eqb_eq. done.
Qed.

(** The common ids of two manifests without a double id are the same, up to order. *)
Lemma common_ids ops nps : NoDup (map fst ops) → NoDup (map fst nps) →
  filter_ids (fun i => dict_has i nps) ops ≡ₚ filter_ids (fun i => dict_has i ops) nps.
Proof.
  intros Ho Hn. apply NoDup_Permutation; [by apply NoDup_ListNoDup, List.NoDup_filter, NoDup_ListNoDup..|].
  intros i. unfold filter_ids. rewrite !list_elem_of_In, !filter_In, <-!list_elem_of_In, !dict_has_in. tauto.
Qed.

Lemma change_types vo vn omap nmap pid e :
  e ∈ change_events float_eq vo vn omap nmap pid → event_type e = gate_changed ∨ event_type e = rollback_changed.
Proof.
  unfold change_events, field_event. intros [He|He]%elem_of_app; destruct (py_eq _ _ _);
    try (by apply not_elem_of_nil in He); apply list_elem_of_singleton in He as ->; [by left|by right].
Qed.

Lemma reorder_types vo vn o n e : e ∈ reorder_events vo vn o n → event_type e = phase_reordered.
Proof.
  unfold reorder_events. destruct (_ && _); [|by intros ?%not_elem_of_nil]. destruct (first_moved o n); [|by intros ?%not_elem_of_nil].
  by intros ->%list_elem_of_singleton.
Qed.

(** An event about one field of a phase. *)
Lemma change_event_elem t vo vn field from to omap nmap pid e :
  e ∈ field_event float_eq t vo vn field from to omap nmap pid →
  event_type e = t ∧ event_phase e = pid ∧
  py_eq float_eq (jget field (default [] (dict_lookup pid omap))) (jget field (default [] (dict_lookup pid nmap))) = false.
Proof.
  unfold field_event. destruct (py_eq _ _ _) eqn:Hp; [by intros ?%not_elem_of_nil|]. intros ->%list_elem_of_singleton. done.
Qed.

(** The events of a changed field are those of the common ids whose field changed. *)
Lemma field_events_spec t field from to vo vn omap nmap ids pid :
  (t, field, from, to) ∈ [(gate_changed, "gate", "old_gate", "new_gate");
                          (rollback_changed, "rollback_to", "old_rollback_to", "new_rollback_to")] →
  (∃ e, e ∈ flat_map (change_events float_eq vo vn omap nmap) ids ∧ event_type e = t ∧ event_phase e = pid) ↔
  pid ∈ ids ∧ py_eq float_eq (jget field (default [] (dict_lookup pid omap))) (jget field (default [] (dict_lookup pid nmap))) = false.
Proof.
  intros Ht. split.
  - intros (e & He & Hte & Hpe). apply list_elem_of_In, in_flat_map in He as (i & Hi & He).
    apply list_elem_of_In in Hi. apply list_elem_of_In in He. unfold change_events in He. apply elem_of_app in He as [He|He];
      apply change_event_elem in He as (H1 & H2 & H3); subst i t; rewrite H1 in Ht;
      apply elem_of_cons in Ht as [[= -> -> ->]|[[= -> -> ->]|Hn%not_elem_of_nil]%elem_of_cons]; try done; by rewrite <-Hpe.
  - intros [Hi Hp]. exists (mk t vo vn pid [(from, jget field (default [] (dict_lookup pid omap)));
        (to, jget field (default [] (dict_lookup pid nmap)))] (field +:+ " on " +:+ repr_str pid +:+ " changed")).
    split; [|done]. apply list_elem_of_In, in_flat_map. exists pid. split; [by apply list_elem_of_In|]. apply list_elem_of_In.
    unfold change_events. apply elem_of_app. unfold field_event.
    apply elem_of_cons in Ht as [[= -> -> -> ->]|[[= -> -> -> ->]|Hn%not_elem_of_nil]%elem_of_cons]; [left|right|done];
      rewrite Hp; by left.
Qed.

Lemma changed_field vo vn ops nps pid t field :
  (∀ l, set_order l ≡ₚ l) → (t, field) ∈ [(gate_changed, "gate"); (rollback_changed, "rollback_to")] →
  (∃ e, e ∈ flat_map (change_events float_eq vo vn ops nps) (set_order (List.filter (fun i => dict_has i nps) (map fst ops))) ∧
        event_type e = t ∧ event_phase e = pid) ↔
  dict_has pid ops = true ∧ dict_has pid nps = true ∧
  py_eq float_eq (jget field (default [] (dict_lookup pid ops))) (jget field (default [] (dict_lookup pid nps))) = false.
Proof.
  intros Hset Ht.
  assert (Hids : pid ∈ set_order (List.filter (fun i => dict_has i nps) (map fst ops)) ↔ dict_has pid ops = true ∧ dict_has pid nps = true).
  { rewrite Hset, list_elem_of_In, filter_In, <-list_elem_of_In, <-dict_has_in. done. }
  assert (Hf : ∃ from to, (t, field, from, to) ∈ [(gate_changed, "gate", "old_gate", "new_gate");
                        (rollback_changed, "rollback_to", "old_rollback_to", "new_rollback_to")]).
  { apply elem_of_cons in Ht as [[= -> ->]|[[= -> ->]|Hx%not_elem_of_nil]%elem_of_cons]; [| |done];
      eexists _, _; [by left|by right; left]. }
  destruct Hf as (from & to & Hf). rewrite (field_events_spec t field from to) by done. rewrite Hids. tauto.
Qed.

(** The events of the five kinds, side by side. *)
Lemma segments {A B C} (f1 : A → event) (f2 : B → event) (f3 : C → event) l1 l2 l3 orders changes :
  (∀ x, event_type (f1 x) = phase_renamed) → (∀ x, event_type (f2 x) = phase_added) → (∀ x, event_type (f3 x) = phase_removed) →
  (∀ e, e ∈ orders → event_type e = phase_reordered) →
  (∀ e, e ∈ changes → event_type e = gate_changed ∨ event_type e = rollback_changed) →
  let evs := map f1 l1 ++ map f2 l2 ++ map f3 l3 ++ orders ++ changes in
  of_type phase_renamed evs = map f1 l1 ∧ of_type phase_added evs = map f2 l2 ∧ of_type phase_removed evs = map f3 l3 ∧
  of_type phase_reordered evs = of_type phase_reordered orders ∧
  ∀ e, event_type e = gate_changed ∨ event_type e = rollback_changed → e ∈ evs ↔ e ∈ changes.
Proof.
  intros H1 H2 H3 Ho Hc. cbv zeta. rewrite !of_type_app.
  assert (Hno : ∀ t, t ≠ phase_reordered → of_type t orders = []).
  { intros t Ht. apply of_type_none. intros e He. by rewrite (Ho e He). }
  assert (Hnc : ∀ t, t ≠ gate_changed → t ≠ rollback_changed → of_type t changes = []).
  { intros t Hg Hr. apply of_type_none. intros e He. by destruct (Hc e He) as [-> | ->]. }
  rewrite !Hno, !Hnc, !(of_type_all _ _ f1 l1 H1), !(of_type_all _ _ f2 l2 H2), !(of_type_all _ _ f3 l3 H3) by done.
  cbn. rewrite !app_nil_r. split_and!; try done. intros e He. rewrite !elem_of_app. split; [|tauto].
  intros [Hx|[Hx|[Hx|[Hx|Hx]]]]; [| | | |done]; exfalso.
  1-3: apply list_elem_of_fmap in Hx as (x & -> & _); rewrite ?H1, ?H2, ?H3 in He.
  4: rewrite (Ho e Hx) in He.
  all: by destruct He.
Qed.

Lemma reorder_spec vo vn o n : o ≡ₚ n →
  let evs := of_type phase_reordered (reorder_events vo vn o n) in
  (o = n ∧ evs = []) ∨
  (∃ e before x o' n', evs = [e] ∧ o = before ++ x :: o' ∧ n = before ++ event_phase e :: n' ∧ x ≠ event_phase e).
Proof.
  intros Hp. cbv zeta. unfold reorder_events. destruct (decide (o = n)) as [->|Hne]; [left; by rewrite bool_decide_eq_true_2|].
  right. rewrite bool_decide_eq_false_2 by done.
  rewrite (bool_decide_eq_false_2 (o = [])) by (intros ->; by apply Permutation_nil_l in Hp).
  rewrite (bool_decide_eq_false_2 (n = [])) by (intros ->; by apply Permutation_nil_r in Hp). cbn [negb andb].
  destruct (first_moved o n) eqn:Hf; [|by apply first_moved_same in Hf; [|apply Permutation_length]].
  apply first_moved_spec in Hf as (b & x & o' & n' & Ho & Hn & Hx); [|by apply Permutation_length]. by eexists _, b, x, o', n'.
Qed.

Lemma absent_elem m ps p : p ∈ List.filter (absent_from m) ps → p ∈ ps ∧ dict_has p.1 m = false.
Proof. rewrite list_elem_of_In, filter_In, <-list_elem_of_In. unfold absent_from. rewrite negb_true_iff. done. Qed.

Lemma same_id (ps : list phase) p q : NoDup (map fst ps) → p ∈ ps → q ∈ ps → p.1 = q.1 → p = q.
Proof.
  intros Hn Hp Hq He. destruct p as [i d], q as [j d']; cbn in He; subst j. f_equal.
  apply list_elem_of_lookup in Hp as [a Ha], Hq as [b Hb].
  assert (a = b) as -> by (eapply (NoDup_lookup _ a b i Hn); by rewrite list_lookup_fmap, ?Ha, ?Hb). congruence.
Qed.

(** A phase of a manifest, by the id an event names. *)
Definition is_phase (ps : list phase) (id : string) (p : phase) : Prop := p ∈ ps ∧ p.1 = id.

(** C24: between two manifests without a double id, every phase that is new appears in one
    event, as added or as the new side of a rename; every phase that is gone in one, as
    removed or as the old side; a rename joins a phase that is gone and one that is new with
    the same label, subsystem and artifact, and no added and removed phase that agree on
    them are left apart; a phase both have has a gate event exactly when its gate changed,
    and so for its rollback; and one event names the first of the common phases that moved,
    when one did. *)
Theorem evolution_accounts_for_every_phase old new ops nps evs :
  detect_evolution_events float_eq str_of set_order old new = Ok evs →
  compute_pipeline_version old ≠ compute_pipeline_version new →
  phases_of old = Ok ops → phases_of new = Ok nps → NoDup (map fst ops) → NoDup (map fst nps) →
  (∀ l, set_order l ≡ₚ l) →
  map event_phase (of_type phase_renamed evs ++ of_type phase_added evs) ≡ₚ filter_ids (fun i => negb (dict_has i ops)) nps ∧
  map (detail_text "from") (of_type phase_renamed evs) ++ map event_phase (of_type phase_removed evs)
    ≡ₚ filter_ids (fun i => negb (dict_has i nps)) ops ∧
  (∀ e, e ∈ of_type phase_renamed evs → ∃ r a,
     is_phase ops (detail_text "from" e) r ∧ is_phase nps (event_phase e) a ∧
     dict_has r.1 nps = false ∧ dict_has a.1 ops = false ∧
     signature str_of r = signature str_of a ∧ signature str_of a ≠ ("", "", "")) ∧
  (∀ e e' a r, e ∈ of_type phase_added evs → e' ∈ of_type phase_removed evs →
     is_phase nps (event_phase e) a → is_phase ops (event_phase e') r →
     signature str_of r = signature str_of a → signature str_of a = ("", "", "")) ∧
  (∀ pid t field, (t, field) ∈ [(gate_changed, "gate"); (rollback_changed, "rollback_to")] →
     (∃ e, e ∈ evs ∧ event_type e = t ∧ event_phase e = pid) ↔
     dict_has pid ops = true ∧ dict_has pid nps = true ∧
     py_eq float_eq (jget field (default [] (dict_lookup pid ops))) (jget field (default [] (dict_lookup pid nps))) = false) ∧
  (let o := filter_ids (fun i => dict_has i nps) ops in
   let n := filter_ids (fun i => dict_has i ops) nps in
   (o = n ∧ of_type phase_reordered evs = []) ∨
   (∃ e before x o' n', of_type phase_reordered evs = [e] ∧
      o = before ++ x :: o' ∧ n = before ++ event_phase e :: n' ∧ x ≠ event_phase e)).
Proof.
  intros Hev Hver Hops Hnps Ho Hn Hset. unfold detect_evolution_events in Hev.
  rewrite (proj2 (String.eqb_neq _ _) Hver), Hops, Hnps in Hev. injection Hev as <-. unfold evolution_events.
  rewrite !phase_map_id by done.
  set (vo := compute_pipeline_version old). set (vn := compute_pipeline_version new).
  destruct (detect_renames str_of _ _) as [[renames adds] rems] eqn:Hd. pose proof (detect_renames_match _ _ _ _ _ Hd) as Hm.
  apply detect_renames_perm in Hd as [Ha Hr]. unfold absent_from in Ha, Hr.
  rewrite (map_fst_filter (fun i => negb (dict_has i ops))) in Ha. rewrite (map_fst_filter (fun i => negb (dict_has i nps))) in Hr.
  set (orders := reorder_events _ _ _ _). set (changes := flat_map _ _).
  destruct (segments (renamed_event str_of vo vn) (fun p : phase => mk phase_added vo vn p.1 [] ("new phase " +:+ repr_str p.1))
    (fun p : phase => mk phase_removed vo vn p.1 [] ("phase " +:+ repr_str p.1 +:+ " removed")) renames adds rems orders changes)
    as (-> & -> & -> & -> & Hch); try done.
  { by intros []. } { intros e He. by eapply reorder_types. }
  { intros e He. apply list_elem_of_In, in_flat_map in He as (i & _ & He). apply list_elem_of_In in He. by eapply change_types. }
  split_and!.
  - rewrite map_app, !map_map, Ha. apply Permutation_app; [|reflexivity]. by rewrite (map_ext _ (fun r => r.2.1)) by (by intros [[] []]).
  - rewrite !map_map, Hr. apply Permutation_app; [|reflexivity]. by rewrite (map_ext _ (fun r => r.1.1)) by (by intros [[] []]).
  - intros e ([r a] & -> & Hin)%list_elem_of_fmap. destruct Hm as [Hm _]. destruct (Hm r a Hin) as (Hr' & Ha' & Hs & Hne).
    apply absent_elem in Hr' as [], Ha' as []. by exists r, a.
  - intros e e' a r (pa & -> & Hpa)%list_elem_of_fmap (pr & -> & Hpr)%list_elem_of_fmap [Hia Hea] [Hir Her] Hs. cbn in Hea, Her.
    destruct Hm as (_ & Hm & Hsub & Hleft).
    assert (a = pa) as -> by (eapply same_id; [exact Hn|done|apply Hleft in Hpa; by apply absent_elem in Hpa as []|done]).
    assert (r = pr) as -> by (eapply same_id; [exact Ho|done|apply Hsub in Hpr; by apply absent_elem in Hpr as []|done]).
    by eapply Hm.
  - intros pid t field Ht. rewrite <-(changed_field vo vn ops nps pid t field) by done.
    assert (Hg : t = gate_changed ∨ t = rollback_changed).
    { apply elem_of_cons in Ht as [[= -> ->]|[[= -> ->]|Hx%not_elem_of_nil]%elem_of_cons]; auto. done. }
    split; intros (e & He & Hte & Hpe); exists e; (split; [|done]); apply Hch in He; congruence || done.
  - exact (reorder_spec vo vn _ _ (common_ids ops nps Ho Hn)).
Qed.
End Accounts.

Ltac returns H :=
  repeat match type of H with
         | mbind _ ?x = Ok _ => let E := fresh "E" in destruct x eqn:E; cbn [mbind outcome_bind] in H; [|discriminate H]
         | match ?x with _ => _ end = Ok _ => let E := fresh "E" in destruct x eqn:E; try discriminate H
         end.

Lemma lock_keeps read_set jsonb pid m rows v rows' :
  lock_project_to_pipeline read_set jsonb pid m rows = Ok (v, rows') → map row_phase rows' = map row_phase rows.
Proof.
  unfold lock_project_to_pipeline. intros H. returns H. injection H as <- <-. rewrite map_map. apply map_ext.
  intros r. by destruct (named _ r).
Qed.

Lemma migrate_keeps read_set jsonb fe pid m actor why rows r rows' :
  migrate_locked_project read_set jsonb fe pid m actor why rows = Ok (r, rows') → map row_phase rows' = map row_phase rows.
Proof.
  unfold migrate_locked_project. intros H. returns H. injection H as _ <-.
  match goal with Hl : lock_project_to_pipeline _ _ _ _ _ = Ok ?a |- _ => destruct a; by eapply lock_keeps end.
Qed.

(** A migration leaves every project in the phase it was in, also where its plan announces
    to rewrite the id of a renamed one. *)
Lemma migration_keeps_phases read_set jsonb fe load p actor why dry rows x rows' :
  execute_migration read_set jsonb fe load p actor why dry rows = Ok (x, rows') → map row_phase rows' = map row_phase rows.
Proof.
  unfold execute_migration. destruct (blockers p); [|done]. destruct dry; [by intros [= <- <-]|].
  destruct (load _) as [m|]; [|done]. cbn [mbind outcome_bind]. destruct (migrate_locked_project _ _ _ _ _ _ _ _) as [[r rs]|] eqn:Hm; [|done].
  intros [= <- <-]. by eapply migrate_keeps.
Qed.

(** * Two versions of a pipeline *)
Definition demo_phase (id label : string) (gate : json) : json :=
  JObj [("id", JStr id); ("label", JStr label); ("subsystem", JStr "plan"); ("artifact", JStr "Doc"); ("gate", gate)].
Definition demo_doc (ps : list json) : jdict := [("version", JInt 1); ("org_bundle", JStr "acme"); ("phases", JList ps)].

(** A phase renamed, one added, one removed, a gate changed, two swapped. *)
Definition demo_old : jdict :=
  demo_doc [demo_phase "intake" "Intake" (JStr "auto"); demo_phase "plan" "Plan" (JStr "user"); demo_phase "build" "Build" (JStr "auto");
            demo_phase "retro" "Retro" (JStr "auto")].
Definition demo_new : jdict :=
  demo_doc [demo_phase "build" "Build" (JStr "user"); demo_phase "intake" "Intake" (JStr "auto"); demo_phase "design" "Plan" (JStr "user");
            demo_phase "audit" "Audit" (JStr "user")].

Definition demo_events : outcome PipelineLock.exn (list event) := detect_evolution_events no_float (fun _ => "?") id demo_old demo_new.

Lemma evolution_accounts_for_every_phase_witness :
  ∃ evs, demo_events = Ok evs ∧
    map (fun e => (event_type e, event_phase e)) evs =
      [(phase_renamed, "design"); (phase_added, "audit"); (phase_removed, "retro"); (phase_reordered, "build"); (gate_changed, "build")] ∧
    map event_phase (of_type phase_renamed evs ++ of_type phase_added evs) ≡ₚ ["design"; "audit"].
Proof.
  eexists. split; [vm_compute; reflexivity|]. split; [reflexivity|].
  edestruct (evolution_accounts_for_every_phase no_float (fun _ => "?") id demo_old demo_new) as [H _].
  - vm_compute. reflexivity.
  - vm_compute. discriminate.
  - vm_compute. reflexivity.
  - vm_compute. reflexivity.
  - vm_compute. repeat (constructor; [set_solver|]). constructor.
  - vm_compute. repeat (constructor; [set_solver|]). constructor.
  - done.
  - exact H.
Defined.
End Evolution.
