(* ===== verification/Dependencies.v ===== *)
(** plan/decomposer/dependency_detection.py: the edges between stories found in their
    titles, and the search for cycles among them.  The knowledge graph is outside: whether
    it answers, and the impact of a set of names.  A Python set is a list without
    duplicates. *)

From stdpp Require Import sorting relations.
From S2P Require Import Prelude PyValue Regex.
From Stdlib Require Import Ascii.
Local Open Scope Z_scope.

Module Dependencies.
Import Regex.

(** [sorted] of texts. *)
Fixpoint insert_str (s : string) (l : list string) : list string :=
  match l with
  | [] => [s]
  | t :: l' => if String.leb s t then s :: l else t :: insert_str s l'
  end.
Definition sort_strs (l : list string) : list string := foldr insert_str [] l.

Lemma insert_str_perm s l : insert_str s l ≡ₚ s :: l.
Proof.
  induction l as [|t l IH]; [done|]. cbn [insert_str]. destruct (String.leb s t); [done|].
  rewrite IH. apply Permutation_swap.
Qed.

Lemma sort_strs_perm l : sort_strs l ≡ₚ l.
Proof. induction l as [|s l IH]; [done|]. cbn. by rewrite insert_str_perm, IH. Qed.

(** * Names in a title *)
Definition upper_re := Chr is_upper.
Definition alnum_re := Chr (fun c => is_upper c || is_lower c || is_digit c).
Definition snake_start := Chr (fun c => is_lower c || Ascii.eqb c "_").
Definition snake_char := Chr (fun c => is_lower c || is_digit c || Ascii.eqb c "_").
Definition dot := lit_char ".".
Definition camel := Seq upper_re (plus alnum_re).
Definition snake := Seq snake_start (plus snake_char).

Definition IDENT_RE : re :=
  alts [Seq camel (Star (Seq dot camel));
        Seq snake (plus (Seq dot snake));
        Seq snake_start (seqs [snake_char; snake_char; snake_char; Star snake_char]);
        seqs [plus (Chr (fun c => is_word c || Ascii.eqb c "/")); dot; upto 4 (Chr is_lower)]].
Definition TEST_KW : re :=
  Seq Bound (Seq (alts [ilit "test"; ilit "spec"; ilit "coverage"; ilit "fixture"]) (Seq (opt (ilit "s")) Bound)).
Definition SCHEMA_KW : re := keywords [ilit "schema"; ilit "model"; ilit "table"; ilit "migration"; ilit "entity"].

Definition extract_refs (text : string) : list string := remove_dups (map lower (findall IDENT_RE text)).

Example refs_of_title :
  extract_refs "Wire AuthService to app.db.models via lib/io.py" = ["wire"; "authservice"; "app.db.models"; "lib/io.py"].
Proof. vm_compute. reflexivity. Qed.

(** * Edges *)
Record story := { s_id : string; s_title : string }.
Record dependency := { d_from : string; d_to : string; d_reason : string; d_confidence : string }.

(** [f"{label}: {sorted(names)[:3]}"]. *)
Definition reason (label : string) (names : list string) : string :=
  label +:+ repr (VList (map VStr (take 3 (sort_strs names)))).

Definition common (a b : list string) : list string := List.filter (fun x => in_strs x b) a.

Definition edge_between (a b : story) (a_refs b_refs a_impact : list string) (have_kg : bool) : option dependency :=
  let mk r c := Some {| d_from := s_id a; d_to := s_id b; d_reason := r; d_confidence := c |} in
  let hit := common b_refs a_impact in
  if negb (Nat.eqb (length hit) 0) then mk (reason "kg_impact: " hit) "high"
  else
    let overlap := common a_refs b_refs in
    if Nat.eqb (length overlap) 0 then None
    else
      let conf := if have_kg then "high" else "medium" in
      if search TEST_KW (s_title b) && negb (search TEST_KW (s_title a)) then mk (reason "b_tests_a: shared refs " overlap) conf
      else if search SCHEMA_KW (s_title a) && negb (search SCHEMA_KW (s_title b)) then
        mk (reason "b_uses_a_schema: shared refs " overlap) conf
      else if negb have_kg then mk (reason "text_overlap: " overlap) "low"
      else None.

(** * Cycles *)
Section Graph.
Context (edges : list dependency) (nodes : list string).

(** [graph[u]]: the targets of the edges that leave a node, in their order. *)
Definition succs (u : string) : list string :=
  map d_to (List.filter (fun e => String.eqb (d_from e) u && in_strs (d_from e) nodes && in_strs (d_to e) nodes) edges).

Record search_state := { cycles : list (list string); visiting : list string; visited : list string; stack : list string }.

(** [visiting.add(u); stack.append(u)] and [stack.pop(); visiting.discard(u); visited.add(u)]. *)
Definition enter (u : string) (st : search_state) : search_state :=
  {| cycles := cycles st; visiting := u :: visiting st; visited := visited st; stack := stack st ++ [u] |}.
Definition leave (u : string) (st : search_state) : search_state :=
  {| cycles := cycles st; visiting := List.filter (fun v => negb (String.eqb v u)) (visiting st);
     visited := u :: visited st; stack := removelast (stack st) |}.

(** [stack[stack.index(v):]]. *)
Fixpoint from_first (v : string) (l : list string) : list string :=
  match l with [] => [] | x :: l' => if String.eqb x v then l else from_first v l' end.

Definition add_cycle (v : string) (st : search_state) : search_state :=
  {| cycles := cycles st ++ [from_first v (stack st) ++ [v]]; visiting := visiting st; visited := visited st; stack := stack st |}.

(** [dfs], to the depth [n]; [None] when that is not enough. *)
Fixpoint dfs (n : nat) (u : string) (st : search_state) : option search_state :=
  match n with
  | O => None
  | S n' =>
      let each := fix each (vs : list string) (st : search_state) : option search_state :=
        match vs with
        | [] => Some st
        | v :: vs' =>
            if in_strs v (visiting st) then each vs' (add_cycle v st)
            else if in_strs v (visited st) then each vs' st
            else st' ← dfs n' v st; each vs' st'
        end in
      st' ← each (succs u) (enter u st); Some (leave u st')
  end.

Fixpoint dfs_all (n : nat) (us : list string) (st : search_state) : option search_state :=
  match us with
  | [] => Some st
  | u :: us' => if in_strs u (visited st) then dfs_all n us' st else st' ← dfs n u st; dfs_all n us' st'
  end.

Definition find_cycles : option (list (list string)) :=
  cycles <$> dfs_all (length nodes) nodes {| cycles := []; visiting := []; visited := []; stack := [] |}.
End Graph.

(** The dict [refs]: of two stories with the same id the later one counts. *)
Definition refs (stories : list story) : list (string * list string) :=
  dict_update [] (map (fun s => (s_id s, extract_refs (s_title s))) stories).
Definition refs_at (table : list (string * list string)) (id : string) : list string := default [] (dict_lookup id table).

(** [_kg_impact_for]: the paths and nodes that the tool [impact_radius] names for at most
    eight of the names, in the order in which the set gives them; [None]: it raised. *)
Definition kg_impact_for (set_order : list string → list string) (impact_radius : string → option (list (string * string)))
    (project_id repo : option string) (refs : list string) : list string :=
  let missing o := match o with Some s => String.eqb s "" | None => true end in
  if missing project_id || missing repo then []
  else
    let named node := List.filter (fun x => negb (String.eqb x "")) [lower node.1; lower node.2] in
    remove_dups (concat (map (fun ref => concat (map named (default [] (impact_radius ref)))) (take 8 (set_order refs)))).

(** [detect_dependencies], with the impacts the knowledge graph answers. *)
Definition edges_of (have_kg : bool) (kg_impact : list string → list string) (stories : list story) : list dependency :=
  let indexed := imap pair stories in
  let table := refs stories in
  concat (map (fun '(i, a) =>
    let a_refs := refs_at table (s_id a) in
    if Nat.eqb (length a_refs) 0 then []
    else
      let a_impact := if have_kg then kg_impact a_refs else [] in
      concat (map (fun '(j, b) =>
        let b_refs := refs_at table (s_id b) in
        if Nat.eqb i j || Nat.eqb (length b_refs) 0 then []
        else match edge_between a b a_refs b_refs a_impact have_kg with Some e => [e] | None => [] end) indexed)) indexed).

Definition cycle_edge (c : list string) : dependency :=
  {| d_from := default "" (head c); d_to := default "" (last c); d_reason := "cycle: " +:+ join " -> " c; d_confidence := "high" |}.

Definition detect_dependencies (have_kg : bool) kg_impact (stories : list story) : option (list dependency) :=
  let edges := edges_of have_kg kg_impact stories in
  cs ← find_cycles edges (map s_id stories); Some (edges ++ map cycle_edge cs).

(** The impact counts as a set. *)
Lemma edges_same have_kg kg kg' stories :
  (∀ names x, x ∈ kg' names ↔ x ∈ kg names) → edges_of have_kg kg' stories = edges_of have_kg kg stories.
Proof.
  intros Hkg. assert (Hc : ∀ names l, common l (kg' names) = common l (kg names)).
  { intros names l. unfold common. induction l as [|x l IH]; [done|]. cbn. rewrite IH.
    replace (in_strs x (kg' names)) with (in_strs x (kg names)); [done|].
    apply Bool.eq_iff_eq_true. by rewrite !in_strs_true, Hkg. }
  unfold edges_of. f_equal. apply map_ext. intros [i a]. destruct (Nat.eqb _ 0); [done|]. f_equal. apply map_ext.
  intros [j b]. destruct (_ || _); [done|]. unfold edge_between. destruct have_kg; [by rewrite Hc|done].
Qed.

(** * The search is right *)
Section Correct.
Context (edges : list dependency) (nodes : list string).

Definition arrow (u v : string) : Prop := v ∈ succs edges nodes u.

(** Consecutive elements are joined by edges. *)
Fixpoint chain (l : list string) : Prop :=
  match l with
  | x :: (y :: _) as l' => arrow x y ∧ chain l'
  | _ => True
  end.

(** A closed walk along edges. *)
Definition is_cycle (c : list string) : Prop := ∃ v q, c = v :: q ++ [v] ∧ chain c.

(** Every element's targets come after it. *)
Fixpoint topo (l : list string) : Prop :=
  match l with [] => True | x :: l' => (∀ v, arrow x v → v ∈ l') ∧ topo l' end.

Lemma chain_app_r a l : chain (a ++ l) → chain l.
Proof. induction a as [|x a IH]; [done|]. cbn [app]. intros H. apply IH. destruct (a ++ l); [done|]. by destruct H. Qed.

Lemma chain_snoc l x y : chain (l ++ [x]) → arrow x y → chain (l ++ [x; y]).
Proof.
  induction l as [|a l IH]; intros H Hxy; [done|]. destruct l as [|b l]; cbn in *.
  - by destruct H.
  - destruct H as [Hab H]. split; [done|]. by apply IH.
Qed.

Lemma from_first_spec v l : v ∈ l → ∃ p q, l = p ++ v :: q ∧ from_first v l = v :: q.
Proof.
  induction l as [|x l IH]; [by intros ?%elem_of_nil|]. cbn [from_first]. destruct (String.eqb_spec x v) as [->|Hne].
  - intros _. by exists [], l.
  - intros [|Hin]%elem_of_cons; [congruence|]. destruct (IH Hin) as (p & q & -> & E). by exists (x :: p), q.
Qed.

Lemma arrow_node u v : arrow u v → v ∈ nodes.
Proof.
  unfold arrow, succs. intros (e & -> & He)%list_elem_of_fmap.
  apply list_elem_of_In, List.filter_In in He as [_ [_ H]%andb_true_iff]. by apply in_strs_true in H.
Qed.

(** The nodes not yet reached. *)
Definition fresh (st : search_state) : nat :=
  length (List.filter (fun u => negb (in_strs u (stack st)) && negb (in_strs u (visited st))) nodes).

Definition consistent (st : search_state) : Prop := ∀ x, x ∈ visiting st ↔ x ∈ stack st.

(** What a search step leaves behind. *)
Record grows (st st' : search_state) : Prop := {
  g_stack : stack st' = stack st;
  g_consistent : consistent st';
  g_visited : visited st ⊆ visited st';
  g_cycles : ∃ cs, cycles st' = cycles st ++ cs ∧ Forall is_cycle cs ∧ (cs = [] → topo (visited st) → topo (visited st'))
}.

Lemma search_grows_refl st : consistent st → grows st st.
Proof. intros H. split; [done..|]. exists []. by rewrite app_nil_r. Qed.

Lemma search_grows_trans a b c : grows a b → grows b c → grows a c.
Proof.
  intros [Hs1 _ Hv1 (cs1 & E1 & F1 & T1)] [Hs2 Hc2 Hv2 (cs2 & E2 & F2 & T2)]. split; [congruence|done|set_solver|].
  exists (cs1 ++ cs2). rewrite E2, E1, app_assoc. split_and!; [done|by apply Forall_app|].
  intros [-> ->]%app_nil H. auto.
Qed.

Lemma filter_le {A} (f g : A → bool) l :
  (∀ x, x ∈ l → f x = true → g x = true) → (length (List.filter f l) <= length (List.filter g l))%nat.
Proof.
  induction l as [|x l IH]; [done|]. intros H. assert (Hl := IH ltac:(intros y Hy; apply H; by right)). cbn.
  destruct (f x) eqn:Hf; [rewrite (H x ltac:(left) Hf); cbn; lia|]. destruct (g x); cbn; lia.
Qed.

Lemma filter_lt {A} (f g : A → bool) l x :
  (∀ x, x ∈ l → f x = true → g x = true) → x ∈ l → f x = false → g x = true →
  (length (List.filter f l) < length (List.filter g l))%nat.
Proof.
  intros H Hx Hf Hg. induction l as [|y l IH]; [by apply elem_of_nil in Hx|]. cbn.
  assert (Hl := filter_le f g l ltac:(intros z Hz; apply H; by right)).
  apply elem_of_cons in Hx as [->|Hx]; [rewrite Hf, Hg; cbn; lia|].
  specialize (IH ltac:(intros z Hz; apply H; by right) Hx).
  destruct (f y) eqn:Hy; [rewrite (H y ltac:(left) Hy); cbn; lia|]. destruct (g y); cbn; lia.
Qed.

Lemma fresh_mono st st' : stack st' = stack st → visited st ⊆ visited st' → (fresh st' <= fresh st)%nat.
Proof.
  intros Hs Hv. apply filter_le. intros x _. rewrite Hs, !andb_true_iff, !negb_true_iff, !in_strs_false. set_solver.
Qed.

Lemma fresh_enter u st : u ∈ nodes → u ∉ stack st → u ∉ visited st → (fresh (enter u st) < fresh st)%nat.
Proof.
  intros Hu Hs Hv. apply (filter_lt _ _ _ u); [|done|..]; cbn [enter stack visited].
  - intros x _. rewrite !andb_true_iff, !negb_true_iff, !in_strs_false. set_solver.
  - apply andb_false_iff. left. apply negb_false_iff, in_strs_true. set_solver.
  - by rewrite !(proj2 (in_strs_false _ _)).
Qed.

Lemma dfs_spec n u st :
  u ∈ nodes → u ∉ stack st → u ∉ visited st → consistent st → (fresh st <= n)%nat → chain (stack st ++ [u]) →
  ∃ st', dfs edges nodes n u st = Some st' ∧ grows st st' ∧ u ∈ visited st'.
Proof.
  revert u st. induction n as [|n IH]; intros u st Hu Hs Hv Hc Hn Hch.
  { pose proof (fresh_enter u st Hu Hs Hv). lia. }
  cbn [dfs].
  set (each := fix each (vs : list string) (st : search_state) : option search_state :=
        match vs with
        | [] => Some st
        | v :: vs' =>
            if in_strs v (visiting st) then each vs' (add_cycle v st)
            else if in_strs v (visited st) then each vs' st
            else st' ← dfs edges nodes n v st; each vs' st'
        end).
  assert (Heach : ∀ vs st1, (∀ v, v ∈ vs → arrow u v) → stack st1 = stack st ++ [u] → consistent st1 → (fresh st1 <= n)%nat →
    ∃ st', each vs st1 = Some st' ∧ grows st1 st' ∧ (cycles st' = cycles st1 → ∀ v, v ∈ vs → v ∈ visited st')).
  { induction vs as [|v vs IHvs]; intros st1 Hvs Hst1 Hc1 Hn1; cbn [each].
    - exists st1. split_and!; [done|by apply search_grows_refl|]. intros _ v Hv'. by apply elem_of_nil in Hv'.
    - assert (Hv' : ∀ w, w ∈ vs → arrow u w) by (intros w Hw; apply Hvs; by right).
      destruct (in_strs v (visiting st1)) eqn:Hvis.
      + apply in_strs_true, Hc1 in Hvis.
        destruct (IHvs (add_cycle v st1) Hv' Hst1 Hc1 Hn1) as (st' & E & Hg & Hall). exists st'.
        destruct Hg as [Gs Gc Gv (cs & Ec & Fc & Tc)]. cbn [add_cycle cycles] in Ec. split_and!; [done| |].
        * split; [done..|]. exists ((from_first v (stack st1) ++ [v]) :: cs). rewrite Ec, <- app_assoc. split_and!; [done| |done].
          constructor; [|done]. destruct (from_first_spec v _ Hvis) as (p & q & Es & ->). exists v, q. split; [done|].
          assert (Hcv : chain (stack st1 ++ [v])).
          { rewrite Hst1, <- app_assoc. apply chain_snoc; [done|]. apply Hvs. by left. }
          rewrite Es, <- app_assoc in Hcv. by apply chain_app_r in Hcv.
        * intros Eq. rewrite Ec in Eq. apply (f_equal length) in Eq. rewrite !length_app in Eq. cbn in Eq. lia.
      + destruct (in_strs v (visited st1)) eqn:Hvd.
        * apply in_strs_true in Hvd. destruct (IHvs st1 Hv' Hst1 Hc1 Hn1) as (st' & E & Hg & Hall). exists st'.
          split_and!; [done..|]. intros Eq w [->|Hw]%elem_of_cons; [by apply (g_visited _ _ Hg)|by apply Hall].
        * apply in_strs_false in Hvis, Hvd.
          destruct (IH v st1) as (st2 & E2 & G2 & Hv2); [by eapply arrow_node, Hvs; left|by rewrite <- (Hc1 v)|done..| |].
          { rewrite Hst1, <- app_assoc. apply chain_snoc; [done|]. apply Hvs. by left. }
          rewrite E2. cbn [mbind option_bind]. pose proof (fresh_mono st1 st2 (g_stack _ _ G2) (g_visited _ _ G2)).
          destruct (IHvs st2 Hv') as (st' & E & Hg & Hall); [by rewrite (g_stack _ _ G2)|by apply (g_consistent _ _ G2)|lia|].
          exists st'. split_and!; [done|by eapply search_grows_trans|].
          destruct (g_cycles _ _ G2) as (c1 & Ec1 & _), (g_cycles _ _ Hg) as (c2 & Ec2 & _).
          intros Eq. assert (c2 = []) as ->.
          { rewrite Ec2, Ec1 in Eq. apply (f_equal length) in Eq. rewrite !length_app in Eq. destruct c2; [done|cbn in Eq; lia]. }
          rewrite app_nil_r in Ec2. intros w [->|Hw]%elem_of_cons; [by apply (g_visited _ _ Hg)|by apply Hall]. }
  destruct (Heach (succs edges nodes u) (enter u st)) as (st' & E & [Gs Gc Gv (cs & Ec & Fc & Tc)] & Hall).
  - done.
  - done.
  - intros x. cbn [enter visiting stack]. rewrite elem_of_cons, elem_of_app, list_elem_of_singleton, (Hc x). tauto.
  - pose proof (fresh_enter u st Hu Hs Hv). lia.
  - rewrite E. cbn [mbind option_bind]. exists (leave u st'). split_and!; [done| |by left].
    split; cbn [leave stack visited cycles].
    + rewrite Gs. cbn [enter stack]. apply removelast_last.
    + intros x. cbn [leave visiting stack]. rewrite Gs. cbn [enter stack]. rewrite removelast_last.
      rewrite list_elem_of_In, List.filter_In, <- list_elem_of_In, (Gc x), Gs. cbn [enter stack].
      rewrite elem_of_app, list_elem_of_singleton, negb_true_iff, String.eqb_neq. split; [tauto|]. intros Hx. split; [by left|]. by intros ->.
    + cbn [enter visited] in Gv. set_solver.
    + exists cs. split_and!; [done..|]. intros -> Ht. cbn [topo]. cbn [enter cycles visited] in *. rewrite app_nil_r in Ec.
      split; [|by apply Tc]. intros v Hv'. by apply Hall.
Qed.

Lemma dfs_all_spec n us st :
  us ⊆ nodes → consistent st → stack st = [] → (fresh st <= n)%nat →
  ∃ st', dfs_all edges nodes n us st = Some st' ∧ grows st st' ∧ us ⊆ visited st'.
Proof.
  revert st. induction us as [|u us IH]; intros st Hus Hc Hs Hn; cbn [dfs_all].
  { exists st. split_and!; [done|by apply search_grows_refl|set_solver]. }
  destruct (in_strs u (visited st)) eqn:Hv.
  - apply in_strs_true in Hv. destruct (IH st) as (st' & E & G & Hi); [set_solver|done..|].
    exists st'. split_and!; [done..|]. pose proof (g_visited _ _ G). set_solver.
  - apply in_strs_false in Hv. destruct (dfs_spec n u st) as (st1 & E1 & G1 & Hu1); [set_solver|rewrite Hs; set_solver|done..|by rewrite Hs|].
    rewrite E1. cbn [mbind option_bind]. pose proof (fresh_mono _ _ (g_stack _ _ G1) (g_visited _ _ G1)).
    destruct (IH st1) as (st' & E & G & Hi); [set_solver|by apply (g_consistent _ _ G1)|by rewrite (g_stack _ _ G1)|lia|].
    exists st'. split_and!; [done|by eapply search_grows_trans|]. pose proof (g_visited _ _ G). set_solver.
Qed.

(** What a walk reaches from an element of a list whose targets come later is in the list. *)
Lemma topo_closed l p w : topo l → w ∈ l → chain (w :: p) → ∀ y, y ∈ w :: p → y ∈ l.
Proof.
  intros Ht. assert (Hstep : ∀ a b, a ∈ l → arrow a b → b ∈ l).
  { induction l as [|z l IH]; [by intros a b ?%elem_of_nil|]. destruct Ht as [Hz Ht].
    intros a b [->|Ha]%elem_of_cons Hab; right; [by apply Hz|by eapply IH]. }
  clear Ht. revert w. induction p as [|b p IH]; intros w Hw Hp y.
  - by intros ->%list_elem_of_singleton.
  - destruct Hp as [Hwb Hp]. intros [->|Hy]%elem_of_cons; [done|]. eapply (IH b); eauto.
Qed.

(** Such a list holds no closed walk. *)
Lemma topo_no_cycle l c : topo l → (∀ x, x ∈ c → x ∈ l) → ¬ is_cycle c.
Proof.
  revert c. induction l as [|x l IH]; intros c Ht Hc (v & q & -> & Hch).
  { by specialize (Hc v ltac:(left)) as ?%elem_of_nil. }
  destruct Ht as [Hx Ht]. destruct (decide (v ∈ l)) as [Hv|Hv].
  - apply (IH (v :: q ++ [v]) Ht); [|by exists v, q]. by apply topo_closed.
  - assert (v = x) as -> by (specialize (Hc v ltac:(left)); set_solver).
    destruct q as [|y q]; cbn [app] in Hch; destruct Hch as [Hxy Hch]; [by apply Hv, Hx|].
    apply Hv. eapply (topo_closed l (q ++ [x]) y); [done|by apply Hx|done|]. set_solver.
Qed.

(** The whole search: it ends, and reports a cycle only, and none only when the nodes can be
    put in an order in which every edge goes forward. *)
Lemma find_cycles_spec :
  ∃ cs, find_cycles edges nodes = Some cs ∧ Forall is_cycle cs ∧ (cs = [] → ∃ l, topo l ∧ nodes ⊆ l).
Proof.
  unfold find_cycles. set (st0 := {| cycles := []; visiting := []; visited := []; stack := [] |}).
  destruct (dfs_all_spec (length nodes) nodes st0) as (st & E & [_ _ _ (cs & Ec & Fc & Tc)] & Hi); [set_solver|done|done| |].
  { unfold fresh. etrans; [apply (filter_le _ (fun _ => true)); done|].
    clear. induction nodes as [|x l IH]; [done|]. cbn [List.filter length]. lia. }
  rewrite E. cbn [fmap option_fmap option_map]. exists cs. split_and!; [by rewrite Ec|done|].
  intros ->. exists (visited st). split; [by apply Tc|done].
Qed.

Lemma cycle_nodes c : is_cycle c → c ⊆ nodes.
Proof.
  intros (v & q & -> & Hch). assert (Hv : v ∈ nodes).
  { assert (∃ p u, v :: q ++ [v] = p ++ [u; v]) as (p & u & Ep).
    { destruct q as [|z q _] using rev_ind; [by exists [], v|]. exists (v :: q), z. cbn. by rewrite <- app_assoc. }
    rewrite Ep in Hch. apply chain_app_r in Hch as [Huv _]. by eapply arrow_node. }
  revert Hv Hch. generalize (q ++ [v]) as p. clear q. revert v.
  intros v p. revert v. induction p as [|b p IH]; intros w Hw Hp y; [by intros ->%list_elem_of_singleton|].
  destruct Hp as [Hwb Hp]. intros [->|Hy]%elem_of_cons; [done|]. eapply (IH b); eauto using arrow_node.
Qed.
End Correct.

(** C39: [_find_cycles] is a correct cycle search.  For every list of edges and of nodes it
    comes to an end (a depth of one call per node is enough); each path it reports is a closed
    walk along the edges, ending at the node it starts from; and it reports nothing exactly
    when the edges between the nodes form no closed walk at all. *)
Theorem find_cycles_correct edges nodes :
  ∃ cs, find_cycles edges nodes = Some cs ∧
        Forall (is_cycle edges nodes) cs ∧
        (cs = [] ↔ ∀ c, ¬ is_cycle edges nodes c).
Proof.
  destruct (find_cycles_spec edges nodes) as (cs & E & Hall & Hn). exists cs. split_and!; [done..|]. split.
  - intros ->. destruct Hn as (l & Ht & Hl); [done|]. intros c Hc. apply (topo_no_cycle _ _ l c Ht); [|done].
    intros x Hx. apply Hl, (cycle_nodes edges nodes c Hc), Hx.
  - intros Hno. destruct cs as [|c cs]; [done|]. inversion_clear Hall as [|?? Hc _]. by destruct (Hno c).
Qed.
End Dependencies.
