(* ===== verification/Sprints.v ===== *)
(** plan/decomposer/decomposer.py, the last steps of [decompose]: the dependencies written into
    the stories, the topological order of the stories and the sprints cut from it. *)

From stdpp Require Import gmap strings sorting.
From S2P Require Import Prelude PyValue Regex Dependencies.
Local Open Scope Z_scope.

Module Sprints.
Import Dependencies.

Record sprint := { number : Z; name : string; goal : string; members : list string }.

Definition cyclic (e : dependency) : bool := String.prefix "cycle:" (d_reason e).

(** [_apply_dependencies]: the dependencies a story ends up with. *)
Definition apply_dependencies (ids : list string) (edges : list dependency) (id : string) : list string :=
  fold_left (fun deps e =>
    if cyclic e || negb (String.eqb (d_to e) id) || negb (in_strs (d_from e) ids) || in_strs (d_from e) deps
    then deps else deps ++ [d_from e]) edges [].

Section Sequence.
Context (ids : list string) (edges : list dependency).

Definition plain : list dependency := List.filter (fun e => negb (cyclic e)) edges.

(** [adj[u]]. *)
Definition adj (u : string) : list string := succs plain ids u.

(** [in_deg] before the loop. *)
Definition in_deg : gmap string Z :=
  fold_left (fun (deg : gmap string Z) e =>
    if in_strs (d_from e) ids && in_strs (d_to e) ids then <[d_to e := default 0 (deg !! d_to e) + 1]> deg else deg)
    plain (list_to_map (map (fun i => (i, 0)) ids)).

Definition zero (deg : gmap string Z) (v : string) : bool := Z.eqb (default 0 (deg !! v)) 0.

(** [for v in sorted(adj[nxt])]. *)
Fixpoint release (vs : list string) (deg : gmap string Z) (ready : list string) : gmap string Z * list string :=
  match vs with
  | [] => (deg, ready)
  | v :: vs' =>
      let deg' := <[v := default 0 (deg !! v) - 1]> deg in
      release vs' deg' (if zero deg' v then sort_strs (ready ++ [v]) else ready)
  end.

(** [while ready]; [None] when [n] turns are not enough. *)
Fixpoint drain (n : nat) (deg : gmap string Z) (ready ordered : list string) : option (list string) :=
  match ready with
  | [] => Some ordered
  | nxt :: rest =>
      match n with
      | O => None
      | S n' => let '(deg', ready') := release (sort_strs (adj nxt)) deg rest in drain n' deg' ready' (ordered ++ [nxt])
      end
  end.

(** The stories a cycle holds back, at the end. *)
Definition survivors (ordered : list string) : list string :=
  fold_left (fun o i => if in_strs i o then o else o ++ [i]) ids ordered.

Definition order : option (list string) :=
  survivors <$> drain (length ids) in_deg (sort_strs (List.filter (zero in_deg) (remove_dups ids))) [].
End Sequence.

Definition MAX_STORIES_PER_SPRINT : nat := 8.
Definition DEFAULT_SPRINT_COUNT : nat := 3.

Definition slice (i : nat) (ordered : list string) : list string :=
  take MAX_STORIES_PER_SPRINT (drop (i * MAX_STORIES_PER_SPRINT) ordered).

(** [for i in range(_DEFAULT_SPRINT_COUNT)], from [i], with [n] turns left. *)
Fixpoint cut_sprints (n i : nat) (ordered : list string) : list sprint :=
  match n with
  | O => []
  | S n' =>
      match slice i ordered with
      | [] => []
      | chunk =>
          {| number := Z.of_nat i + 1; name := "Sprint " +:+ str_of_Z (Z.of_nat i + 1);
             goal := "Deliver " +:+ str_of_Z (Z.of_nat (length chunk)) +:+ " stories (slice " +:+ str_of_Z (Z.of_nat i + 1) +:+
                     "/" +:+ str_of_Z (Z.of_nat DEFAULT_SPRINT_COUNT) +:+ ").";
             members := chunk |} :: cut_sprints n' (S i) ordered
      end
  end.

Definition sprints_of (ordered : list string) : list sprint :=
  let sprints := cut_sprints DEFAULT_SPRINT_COUNT 0 ordered in
  match drop (DEFAULT_SPRINT_COUNT * MAX_STORIES_PER_SPRINT) ordered with
  | [] => sprints
  | tail =>
      sprints ++ [{| number := Z.of_nat (length sprints) + 1; name := "Backlog overflow";
                     goal := "Stories beyond default " +:+ str_of_Z (Z.of_nat DEFAULT_SPRINT_COUNT) +:+ "-sprint horizon.";
                     members := tail |}]
  end.

(** [_sequence_sprints]. *)
Definition sequence_sprints (ids : list string) (edges : list dependency) : option (list sprint) :=
  sprints_of <$> order ids edges.

(** * The order *)
Section Correct.
Context (ids : list string) (edges : list dependency).

Definition into (v : string) (done_ : list string) (e : dependency) : bool :=
  in_strs (d_from e) ids && in_strs (d_to e) ids && String.eqb (d_to e) v && negb (in_strs (d_from e) done_).

(** The edges into [v] whose source is not done. *)
Definition waiting (es : list dependency) (done_ : list string) (v : string) : Z := Z.of_nat (length (List.filter (into v done_) es)).
Definition times (v : string) (l : list string) : Z := Z.of_nat (length (List.filter (String.eqb v) l)).

Lemma times_cons v w l : times v (w :: l) = (if String.eqb v w then 1 else 0) + times v l.
Proof. unfold times. cbn. destruct (String.eqb v w); cbn [length]; lia. Qed.

Lemma times_perm v l l' : l ≡ₚ l' → times v l = times v l'.
Proof. induction 1; rewrite ?times_cons; lia. Qed.

Lemma times_elem v l : times v l = 0 ↔ v ∉ l.
Proof.
  induction l as [|w l IH]; [split; [set_solver|done]|]. rewrite times_cons, not_elem_of_cons, <- IH.
  unfold times. destruct (String.eqb_spec v w); intuition (try congruence); lia.
Qed.

Lemma times_nonneg v l : 0 <= times v l.
Proof. unfold times. lia. Qed.

(** Finishing [u] takes away the edges from [u]. *)
Lemma waiting_done es done_ u v :
  u ∉ done_ → waiting es done_ v = waiting es (done_ ++ [u]) v + times v (succs es ids u).
Proof.
  intros Hu. unfold waiting, times, succs. induction es as [|e es IH]; [done|].
  cbn [List.filter].
  assert (∀ d, into v d e = in_strs (d_from e) ids && in_strs (d_to e) ids && String.eqb (d_to e) v && negb (in_strs (d_from e) d))
    as Hinto by done. rewrite !Hinto. clear Hinto.
  rewrite <- (andb_assoc (String.eqb (d_from e) u)).
  destruct (in_strs (d_from e) ids && in_strs (d_to e) ids); rewrite ?andb_false_r, ?andb_true_r; cbn [andb]; [|exact IH].
  assert (in_strs (d_from e) (done_ ++ [u]) = in_strs (d_from e) done_ || String.eqb (d_from e) u) as ->.
  { apply eq_bool_prop_intro. rewrite orb_True, !Is_true_true, in_strs_true, in_strs_true, String.eqb_eq, elem_of_app, list_elem_of_singleton. done. }
  destruct (String.eqb_spec (d_from e) u) as [Hfu|Hfu].
  - rewrite Hfu, (proj2 (in_strs_false u done_) Hu). rewrite (String.eqb_sym (d_to e) v). cbn [negb orb andb map List.filter].
    destruct (String.eqb v (d_to e)); cbn [andb List.filter length]; lia.
  - rewrite orb_false_r. destruct (String.eqb (d_to e) v && negb (in_strs (d_from e) done_)); cbn [length]; lia.
Qed.

Let ordinary := plain edges.
Let next := adj ids edges.

(** What the loop keeps: [ready] and [ordered] hold each id that has nothing left to wait
    for, once, and the sources of an ordered id stand before it. *)
Record kahn (deg : gmap string Z) (todo ready ordered : list string) : Prop := {
  k_nodup : NoDup (ordered ++ ready);
  k_ids : ordered ++ ready ⊆ ids;
  k_deg : ∀ v, v ∈ ids → deg !! v = Some (waiting ordinary ordered v + times v todo);
  k_zero : ∀ v, v ∈ ids → (v ∈ ordered ++ ready ↔ deg !! v = Some 0);
  k_before : ∀ l v r, ordered = l ++ v :: r → ∀ u, v ∈ next u → u ∈ l
}.

Lemma waiting_nonneg es d v : 0 <= waiting es d v.
Proof. unfold waiting. lia. Qed.

Lemma waiting_zero es d v : v ∈ ids → waiting es d v = 0 → ∀ u, v ∈ succs es ids u → u ∈ d.
Proof.
  intros Hv Hz u (e & -> & He)%list_elem_of_fmap.
  apply list_elem_of_In, List.filter_In in He as [He [[<-%String.eqb_eq Hf]%andb_true_iff Ht]%andb_true_iff].
  destruct (in_strs (d_from e) d) eqn:Hd; [by apply in_strs_true in Hd|]. exfalso.
  unfold waiting in Hz. assert (In e (List.filter (into (d_to e) d) es)) as Hin.
  { apply List.filter_In. split; [done|]. unfold into. by rewrite Hf, Ht, Hd, String.eqb_refl. }
  destruct (List.filter _ es); [done|cbn in Hz; lia].
Qed.

Lemma zero_spec deg v : deg !! v = Some (default 0 (deg !! v)) → zero deg v = true ↔ deg !! v = Some 0.
Proof. unfold zero. intros ->. cbn. rewrite Z.eqb_eq. split; [by intros ->|congruence]. Qed.

Lemma release_spec vs deg ready ordered :
  kahn deg vs ready ordered → (∀ v, v ∈ vs → v ∈ ids) →
  kahn (fst (release vs deg ready)) [] (snd (release vs deg ready)) ordered.
Proof.
  revert deg ready. induction vs as [|v vs IH]; intros deg ready [Hnd Hids Hdeg Hz Hb] Hvs; [done|].
  cbn [release]. assert (Hv : v ∈ ids) by (apply Hvs; left).
  assert (Hdv := Hdeg v Hv). rewrite times_cons, String.eqb_refl in Hdv.
  assert (Hnot : v ∉ ordered ++ ready).
  { rewrite (Hz v Hv), Hdv. pose proof (waiting_nonneg ordinary ordered v). pose proof (times_nonneg v vs). intros [= Heq]. lia. }
  assert (Hdv' : zero (<[v := default 0 (deg !! v) - 1]> deg) v = Z.eqb (waiting ordinary ordered v + times v vs) 0).
  { unfold zero. rewrite lookup_insert_eq, Hdv. cbn. f_equal. lia. }
  rewrite Hdv'. rewrite Hdv. cbn [default from_option id].
  replace (waiting ordinary ordered v + (1 + times v vs) - 1) with (waiting ordinary ordered v + times v vs) by lia.
  assert (Hdeg' : ∀ w, w ∈ ids → <[v := waiting ordinary ordered v + times v vs]> deg !! w = Some (waiting ordinary ordered w + times w vs)).
  { intros w Hw. destruct (decide (w = v)) as [->|Hne]; [by rewrite lookup_insert_eq|].
    rewrite lookup_insert_ne by done. rewrite (Hdeg w Hw), times_cons. apply String.eqb_neq in Hne. by rewrite Hne. }
  assert (Hvs' : ∀ w, w ∈ vs → w ∈ ids) by (intros w Hw; apply Hvs; by right).
  destruct (Z.eqb_spec (waiting ordinary ordered v + times v vs) 0) as [E|E]; apply IH; try done.
  - assert (Hp : ordered ++ sort_strs (ready ++ [v]) ≡ₚ v :: ordered ++ ready).
    { rewrite sort_strs_perm, app_assoc. symmetry. apply Permutation_cons_append. }
    split; [rewrite Hp; by constructor|intros x; rewrite Hp; set_solver|done| |done].
    intros w Hw. rewrite Hp, elem_of_cons. destruct (decide (w = v)) as [->|Hne].
    + rewrite lookup_insert_eq, E. tauto.
    + rewrite lookup_insert_ne by done. rewrite <- (Hz w Hw). tauto.
  - split; [done..| |done]. intros w Hw. destruct (decide (w = v)) as [->|Hne].
    + rewrite lookup_insert_eq. split; [done|intros [= Heq]; lia].
    + rewrite lookup_insert_ne by done. by apply Hz.
Qed.

Lemma kahn_pop deg nxt rest ordered :
  kahn deg [] (nxt :: rest) ordered → kahn deg (sort_strs (next nxt)) rest (ordered ++ [nxt]).
Proof.
  intros [Hnd Hids Hdeg Hz Hb].
  assert (Hnxt : nxt ∉ ordered) by (apply NoDup_app in Hnd as (_ & Hd & _); intros Hin; by apply (Hd nxt Hin); left).
  split.
  - by rewrite <- app_assoc.
  - by rewrite <- app_assoc.
  - intros v Hv. rewrite (Hdeg v Hv), (waiting_done ordinary ordered nxt v Hnxt), (times_perm v _ _ (sort_strs_perm _)). f_equal.
    unfold next, adj. fold ordinary. change (times v []) with 0. lia.
  - intros v Hv. rewrite <- app_assoc. by apply Hz.
  - intros l v r E u Hu. destruct r as [|w r _] using rev_ind.
    + apply app_inj_tail in E as [<- <-]. assert (Hv : nxt ∈ ids) by (apply Hids; set_solver).
      apply (waiting_zero ordinary _ _ Hv); [|done].
      assert (H0 : deg !! nxt = Some 0) by (apply Hz; [done|set_solver]). rewrite (Hdeg nxt Hv) in H0. injection H0.
      pose proof (waiting_nonneg ordinary ordered nxt). unfold times. cbn. lia.
    + rewrite app_comm_cons, app_assoc in E. apply app_inj_tail in E as [E _]. by eapply Hb.
Qed.

Lemma drain_spec n deg ready ordered :
  kahn deg [] ready ordered → (length ids <= n + length ordered)%nat →
  ∃ o deg', drain ids edges n deg ready ordered = Some o ∧ kahn deg' [] [] o.
Proof.
  revert deg ready ordered. induction n as [|n IH]; intros deg ready ordered Hk Hn; (destruct ready as [|nxt rest]; [by exists ordered, deg|]).
  - exfalso. pose proof (submseteq_length _ _ (NoDup_submseteq _ _ (k_nodup _ _ _ _ Hk) (k_ids _ _ _ _ Hk))) as Hl.
    rewrite length_app in Hl. cbn in Hl, Hn. lia.
  - cbn [drain]. apply kahn_pop, release_spec in Hk.
    + destruct (release _ _ _) as [deg' ready']. apply IH in Hk; [done|]. rewrite length_app. cbn. lia.
    + intros v Hv. rewrite sort_strs_perm in Hv. unfold adj in Hv. by eapply arrow_node.
Qed.

Lemma in_deg_from es (deg : gmap string Z) (x : string → Z) :
  (∀ v, v ∈ ids → deg !! v = Some (x v)) →
  ∀ v, v ∈ ids → fold_left (fun (deg : gmap string Z) e =>
    if in_strs (d_from e) ids && in_strs (d_to e) ids then <[d_to e := default 0 (deg !! d_to e) + 1]> deg else deg) es deg !! v
    = Some (x v + waiting es [] v).
Proof.
  revert deg x. induction es as [|e es IH]; intros deg x Hd v Hv.
  - rewrite Z.add_0_r. by apply Hd.
  - cbn [fold_left]. destruct (in_strs (d_from e) ids && in_strs (d_to e) ids) eqn:Hb.
    + rewrite (IH _ (fun w => x w + (if String.eqb (d_to e) w then 1 else 0))); [|clear v Hv; intros w Hw|done].
      * f_equal. unfold waiting. cbn [List.filter].
        assert (into v [] e = String.eqb (d_to e) v) as -> by (unfold into; rewrite Hb; cbn; by rewrite andb_true_r).
        destruct (String.eqb (d_to e) v); cbn [length]; lia.
      * destruct (String.eqb_spec (d_to e) w) as [->|Hne]; [by rewrite lookup_insert_eq, (Hd w Hw)|].
        rewrite lookup_insert_ne by done. rewrite (Hd w Hw). f_equal. lia.
    + rewrite (IH _ x Hd v Hv). unfold waiting. cbn [List.filter].
      assert (into v [] e = false) as -> by (unfold into; by rewrite Hb). done.
Qed.

Lemma kahn_start : kahn (in_deg ids edges) [] (sort_strs (List.filter (zero (in_deg ids edges)) (remove_dups ids))) [].
Proof.
  assert (Hdeg : ∀ v, v ∈ ids → in_deg ids edges !! v = Some (waiting ordinary [] v)).
  { intros v Hv. unfold in_deg. rewrite (in_deg_from _ _ (fun _ => 0)); [done| |done].
    clear. intros v. induction ids as [|i l IH]; [by intros ?%elem_of_nil|]. cbn.
    destruct (decide (v = i)) as [->|Hne]; [by rewrite lookup_insert_eq|].
    intros [|Hv]%elem_of_cons; [done|]. rewrite lookup_insert_ne by done. by apply IH. }
  assert (Hin : ∀ v, v ∈ sort_strs (List.filter (zero (in_deg ids edges)) (remove_dups ids)) ↔ v ∈ ids ∧ in_deg ids edges !! v = Some 0).
  { intros v. rewrite sort_strs_perm, list_elem_of_In, List.filter_In, <- list_elem_of_In, elem_of_remove_dups.
    split; intros [Hv H]; (split; [done|]); [apply zero_spec in H|apply zero_spec]; try done; by rewrite (Hdeg v Hv). }
  split; cbn [app].
  - rewrite sort_strs_perm. apply NoDup_ListNoDup, List.NoDup_filter, NoDup_ListNoDup, NoDup_remove_dups.
  - intros v Hv. by apply Hin in Hv as [Hv _].
  - intros v Hv. rewrite (Hdeg v Hv). f_equal. unfold times. cbn. lia.
  - intros v Hv. rewrite Hin. tauto.
  - intros [|]; discriminate.
Qed.

Lemma survivors_spec l ordered :
  NoDup ordered → ∃ rest, survivors l ordered = ordered ++ rest ∧ NoDup (ordered ++ rest) ∧ (∀ i, i ∈ ordered ++ rest ↔ i ∈ ordered ∨ i ∈ l)
    ∧ (l ⊆ ordered → rest = []).
Proof.
  unfold survivors. revert ordered. induction l as [|i l IH]; intros ordered Hnd.
  - exists []. cbn. rewrite app_nil_r. set_solver.
  - cbn [fold_left]. destruct (in_strs i ordered) eqn:Hi.
    + apply in_strs_true in Hi. destruct (IH ordered Hnd) as (rest & -> & Hn & He & Hs). exists rest. split_and!; [done..| |].
      * intros j. rewrite He. set_solver.
      * intros H. apply Hs. set_solver.
    + apply in_strs_false in Hi. destruct (IH (ordered ++ [i])) as (rest & -> & Hn & He & _).
      { apply NoDup_app. split_and!; [done| |apply NoDup_singleton]. by intros x Hx ->%list_elem_of_singleton. }
      exists (i :: rest). rewrite <- app_assoc in *. cbn [app] in *. split_and!; [done..| |].
      * intros j. rewrite He. set_solver.
      * intros H. exfalso. apply Hi, H. by left.
Qed.

(** When the ids lie in a list whose targets come later, nothing is held back. *)
Lemma kahn_complete deg o l : kahn deg [] [] o → topo ordinary ids l → ids ⊆ l → ids ⊆ o.
Proof.
  intros Hk Ht Hl. assert (Hw : ∀ v, v ∈ ids → (∀ u, v ∈ next u → u ∈ o) → v ∈ o).
  { intros v Hv Hall. pose proof (proj2 (k_zero _ _ _ _ Hk v Hv)) as Hz. rewrite app_nil_r in Hz. apply Hz.
    rewrite (k_deg _ _ _ _ Hk v Hv). f_equal. unfold times, waiting. cbn [List.filter length].
    destruct (List.filter (into v o) ordinary) as [|e es] eqn:Ef; [done|]. exfalso.
    assert (In e (List.filter (into v o) ordinary)) as Hin by (rewrite Ef; by left).
    apply List.filter_In in Hin as [He Hi]. unfold into in Hi. rewrite !andb_true_iff in Hi. destruct Hi as [[[Hf Hto] <-%String.eqb_eq] Hd].
    apply negb_true_iff, in_strs_false in Hd. apply Hd, Hall. unfold next, adj, succs.
    apply list_elem_of_fmap. exists e. split; [done|]. apply list_elem_of_In, List.filter_In. by rewrite Hf, Hto, String.eqb_refl. }
  assert (H : ∀ a b, l = a ++ b → ∀ v, v ∈ ids → v ∈ a → v ∉ b → v ∈ o).
  { intros a. induction a as [|x a IH] using rev_ind; intros b E v Hv Ha Hb; [by apply elem_of_nil in Ha|].
    rewrite <- app_assoc in E. cbn in E. destruct (decide (v = x)) as [->|Hne]; [|eapply IH; [exact E|..]; set_solver].
    apply Hw; [done|]. intros u Hu. assert (Hui : u ∈ ids).
    { unfold next, adj, succs in Hu. apply list_elem_of_fmap in Hu as (e & _ & He).
      apply list_elem_of_In, List.filter_In in He as [_ He]. rewrite !andb_true_iff, String.eqb_eq, !in_strs_true in He.
      destruct He as [[<- ?] ?]. done. }
    (* the last time [u] occurs is before the last time [x] does *)
    assert (Hafter : ∀ c d, l = c ++ u :: d → x ∈ d).
    { intros c d El. revert Ht. rewrite El. clear -Hu. induction c as [|y c IH]; intros [Hy Ht]; [by apply Hy|by apply IH]. }
    assert (Hub : u ∉ x :: b).
    { intros Hin. apply list_elem_of_split in Hin as (c & d & Ecd). pose proof (Hafter (a ++ c) d) as Hd.
      rewrite <- app_assoc, <- Ecd in Hd. specialize (Hd E). destruct c as [|y c]; injection Ecd as -> ->; [by apply Hb|].
      apply Hb. set_solver. }
    eapply (IH (x :: b)); [done..| |done]. specialize (Hl u Hui). rewrite E in Hl. apply elem_of_app in Hl as [|]; done. }
  intros v Hv. apply (H l []); [by rewrite app_nil_r|done|by apply Hl|by intros ?%elem_of_nil].
Qed.

Lemma order_spec :
  ∃ o, order ids edges = Some o ∧ NoDup o ∧ (∀ i, i ∈ o ↔ i ∈ ids) ∧
       (∀ l, topo ordinary ids l → ids ⊆ l → ∀ p v r, o = p ++ v :: r → ∀ u, v ∈ next u → u ∈ p).
Proof.
  destruct (drain_spec (length ids) _ _ _ kahn_start) as (o & deg & E & Hk); [cbn; lia|].
  unfold order. rewrite E. cbn [fmap option_fmap option_map].
  assert (Hnd := k_nodup _ _ _ _ Hk). assert (Hi := k_ids _ _ _ _ Hk). rewrite app_nil_r in Hnd, Hi.
  destruct (survivors_spec ids o Hnd) as (rest & -> & Hn & He & Hs). exists (o ++ rest). split_and!; [done..| |].
  - intros i. rewrite He. split; [intros [|]; [by apply Hi|done]|by right].
  - intros l Ht Hl p v r Eo u Hu. rewrite (Hs (kahn_complete _ _ _ Hk Ht Hl)), app_nil_r in Eo. by eapply (k_before _ _ _ _ Hk).
Qed.
End Correct.

(** * The sprints *)
Definition all_members (plan : list sprint) : list string := concat (map members plan).

Lemma cut_sprints_members n i o : all_members (cut_sprints n i o) = take (n * 8) (drop (i * 8) o).
Proof.
  revert i. induction n as [|n IH]; intros i; [done|]. cbn [cut_sprints]. unfold slice. fold MAX_STORIES_PER_SPRINT.
  change MAX_STORIES_PER_SPRINT with 8%nat. destruct (take 8 (drop (i * 8) o)) as [|x chunk] eqn:E.
  - assert (drop (i * 8) o = []) as -> by (destruct (drop (i * 8) o); [done|discriminate]). by rewrite take_nil.
  - unfold all_members in *. cbn [map concat members]. rewrite IH, <- E.
    replace (S i * 8)%nat with (i * 8 + 8)%nat by lia. rewrite <- drop_drop.
    by rewrite take_take_drop.
Qed.

Lemma cut_sprints_each n i o k s :
  cut_sprints n i o !! k = Some s → number s = Z.of_nat (i + k) + 1 ∧ members s ≠ [] ∧ (length (members s) <= 8)%nat.
Proof.
  revert i k. induction n as [|n IH]; intros i k; [done|]. cbn [cut_sprints].
  assert (Hl : (length (slice i o) <= 8)%nat) by (unfold slice; rewrite length_take; change MAX_STORIES_PER_SPRINT with 8%nat; lia).
  destruct (slice i o) as [|x chunk]; [done|]. destruct k as [|k].
  - intros [= <-]. rewrite Nat.add_0_r. done.
  - cbn. intros H. apply IH in H. replace (i + S k)%nat with (S i + k)%nat by lia. done.
Qed.

Lemma cut_sprints_length n i o : (length (cut_sprints n i o) <= n)%nat.
Proof.
  revert i. induction n as [|n IH]; intros i; [done|]. cbn [cut_sprints]. destruct (slice i o); [cbn; lia|].
  cbn. specialize (IH (S i)). lia.
Qed.

Lemma cut_sprints_full n i o : ((i + n) * 8 <= length o)%nat → length (cut_sprints n i o) = n.
Proof.
  revert i. induction n as [|n IH]; intros i H; [done|]. cbn [cut_sprints].
  assert (Hl : length (slice i o) = 8%nat).
  { unfold slice. rewrite length_take, length_drop. change MAX_STORIES_PER_SPRINT with 8%nat. lia. }
  destruct (slice i o); [done|]. cbn. f_equal. apply IH. lia.
Qed.

(** The sprints cut the order into pieces, without losing a story. *)
Lemma sprints_of_spec o :
  let plan := sprints_of o in
  all_members plan = o ∧ (length plan <= 4)%nat ∧
  ∀ k s, plan !! k = Some s → number s = Z.of_nat k + 1 ∧ members s ≠ [] ∧ ((k < 3)%nat → (length (members s) <= 8)%nat).
Proof.
  cbn zeta. unfold sprints_of. change DEFAULT_SPRINT_COUNT with 3%nat. change (3 * MAX_STORIES_PER_SPRINT)%nat with 24%nat.
  pose proof (cut_sprints_members 3 0 o) as Hm. pose proof (cut_sprints_length 3 0 o) as Hl.
  change (0 * 8)%nat with 0%nat in Hm. rewrite drop_0 in Hm. change (3 * 8)%nat with 24%nat in Hm.
  destruct (drop 24 o) as [|x tail] eqn:E.
  - split_and!; [|lia|].
    + rewrite Hm. rewrite <- (take_drop 24 o) at 2. by rewrite E, app_nil_r.
    + intros k s H. apply cut_sprints_each in H as (? & ? & ?). by split_and!.
  - assert (Hlen : length (cut_sprints 3 0 o) = 3%nat).
    { apply cut_sprints_full. apply (f_equal length) in E. rewrite length_drop in E. cbn in E |- *. lia. }
    rewrite Hlen. split_and!.
    + unfold all_members in *. rewrite map_app, concat_app, Hm. cbn. rewrite app_nil_r. rewrite <- E. apply take_drop.
    + rewrite length_app, Hlen. cbn. lia.
    + intros k s H. apply lookup_app_Some in H as [H|[Hk H]].
      * apply cut_sprints_each in H as (? & ? & ?). by split_and!.
      * rewrite Hlen in *. apply list_lookup_singleton_Some in H as [Hk0 <-]. assert (k = 3%nat) as -> by lia. split_and!; [done..|lia].
Qed.

(** * The edges of the detection *)
Lemma in_concat_map {A B} (f : A → list B) l y : y ∈ concat (map f l) ↔ ∃ x, x ∈ l ∧ y ∈ f x.
Proof. rewrite <- flat_map_concat_map, !list_elem_of_In, in_flat_map. by setoid_rewrite list_elem_of_In. Qed.

Lemma indexed_elem (stories : list story) i a : (i, a) ∈ imap pair stories → a ∈ stories.
Proof.
  intros H. apply list_elem_of_lookup in H as [k H]. rewrite list_lookup_imap in H.
  destruct (stories !! k) as [b|] eqn:E; [|done]. injection H as <- <-. by eapply list_elem_of_lookup_2.
Qed.

(** An edge goes from a story to a story, and is not marked as a cycle. *)
Lemma edges_of_spec have_kg kg_impact stories e :
  e ∈ edges_of have_kg kg_impact stories → d_from e ∈ map s_id stories ∧ d_to e ∈ map s_id stories ∧ cyclic e = false.
Proof.
  unfold edges_of. rewrite in_concat_map. intros ([i a] & Ha & He). apply indexed_elem in Ha.
  destruct (Nat.eqb _ 0); [by apply elem_of_nil in He|]. apply in_concat_map in He as ([j b] & Hb & He). apply indexed_elem in Hb.
  destruct (Nat.eqb i j || _); [by apply elem_of_nil in He|].
  assert (Hab : s_id a ∈ map s_id stories ∧ s_id b ∈ map s_id stories) by (split; by apply list_elem_of_fmap_2).
  unfold edge_between in He.
  repeat case_match; rewrite ?elem_of_nil, ?list_elem_of_singleton in He; simplify_eq/=; destruct Hab; by split_and!.
Qed.

Lemma edge_arrow have_kg kg_impact stories e :
  let edges := edges_of have_kg kg_impact stories in e ∈ edges → arrow edges (map s_id stories) (d_from e) (d_to e).
Proof.
  intros edges He. destruct (edges_of_spec _ _ _ _ He) as (Hf & Ht & _). apply list_elem_of_fmap. exists e. split; [done|].
  apply list_elem_of_In, List.filter_In. split; [by apply list_elem_of_In|].
  by rewrite String.eqb_refl, (proj2 (in_strs_true _ _) Hf), (proj2 (in_strs_true _ _) Ht).
Qed.

Lemma apply_dependencies_spec ids edges id :
  NoDup (apply_dependencies ids edges id) ∧
  ∀ u, u ∈ apply_dependencies ids edges id ↔ ∃ e, e ∈ edges ∧ cyclic e = false ∧ d_from e = u ∧ d_to e = id ∧ u ∈ ids.
Proof.
  unfold apply_dependencies.
  set (recorded (seen : list dependency) u := ∃ e, e ∈ seen ∧ cyclic e = false ∧ d_from e = u ∧ d_to e = id ∧ u ∈ ids).
  enough (H : ∀ deps seen, NoDup deps → (∀ u, u ∈ deps ↔ recorded seen u) →
    let r := fold_left (fun deps e =>
      if cyclic e || negb (String.eqb (d_to e) id) || negb (in_strs (d_from e) ids) || in_strs (d_from e) deps
      then deps else deps ++ [d_from e]) edges deps in NoDup r ∧ ∀ u, u ∈ r ↔ recorded (seen ++ edges) u).
  { apply (H [] []); [constructor|]. intros u. split; [by intros ?%elem_of_nil|]. by intros (e & ?%elem_of_nil & _). }
  induction edges as [|e es IH]; intros deps seen Hnd Hin.
  { cbn. by rewrite app_nil_r. }
  cbn [fold_left]. replace (seen ++ e :: es) with ((seen ++ [e]) ++ es) by by rewrite <- app_assoc.
  destruct (cyclic e || _ || _ || _) eqn:Eb; apply IH; try done.
  - intros u. rewrite (Hin u). split; [intros (x & Hx & Hr); exists x; split; [apply elem_of_app; by left|done]|].
    intros (x & [Hx| ->%list_elem_of_singleton]%elem_of_app & Hc & <- & Ht & Hu); [by exists x|].
    rewrite Hc, Ht, String.eqb_refl, (proj2 (in_strs_true _ _) Hu) in Eb. cbn in Eb. by apply in_strs_true, Hin in Eb.
  - apply orb_false_iff in Eb as [_ Hd]. apply in_strs_false in Hd. apply NoDup_app. split_and!; [done| |apply NoDup_singleton].
    by intros x Hx ->%list_elem_of_singleton.
  - apply orb_false_iff in Eb as [[[Hc Ht]%orb_false_iff Hf]%orb_false_iff Hd].
    apply negb_false_iff, String.eqb_eq in Ht. apply negb_false_iff, in_strs_true in Hf.
    intros u. rewrite elem_of_app, list_elem_of_singleton, (Hin u). split.
    + intros [(x & Hx & Hr)| ->]; [exists x|exists e]; (split; [apply elem_of_app; rewrite ?list_elem_of_singleton; tauto|done]).
    + intros (x & [Hx| ->%list_elem_of_singleton]%elem_of_app & Hr); [left; by exists x|right]. by destruct Hr as (_ & <- & _).
Qed.

(** The plan made for a list of stories. *)
Definition planned have_kg kg_impact (stories : list story) : option (list dependency * list sprint) :=
  deps ← detect_dependencies have_kg kg_impact stories;
  plan ← sequence_sprints (map s_id stories) deps;
  Some (deps, plan).

(** A plan that was made is the computed one. *)
Lemma planned_spec have_kg kg_impact stories :
  let edges := edges_of have_kg kg_impact stories in
  let ids := map s_id stories in
  ∃ cs o, planned have_kg kg_impact stories = Some (edges ++ map cycle_edge cs, sprints_of o) ∧
    all_members (sprints_of o) = o ∧ NoDup o ∧ (∀ i, i ∈ o ↔ i ∈ ids) ∧ (cs = [] → ∃ l, topo edges ids l ∧ ids ⊆ l) ∧
    (∀ l, topo (plain (edges ++ map cycle_edge cs)) ids l → ids ⊆ l →
          ∀ p v r, o = p ++ v :: r → ∀ u, v ∈ adj ids (edges ++ map cycle_edge cs) u → u ∈ p).
Proof.
  intros edges ids. destruct (find_cycles_spec edges ids) as (cs & Ec & _ & Hn).
  destruct (order_spec ids (edges ++ map cycle_edge cs)) as (o & Eo & Hnd & Hin & Hord).
  exists cs, o. unfold planned, detect_dependencies. fold edges ids. rewrite Ec. cbn [mbind option_bind].
  unfold sequence_sprints. rewrite Eo. split_and!; try done. apply sprints_of_spec.
Qed.

Lemma plan_facts have_kg kg_impact stories deps plan :
  planned have_kg kg_impact stories = Some (deps, plan) →
  NoDup (all_members plan) ∧ ∀ i, i ∈ all_members plan ↔ i ∈ map s_id stories.
Proof.
  intros H. destruct (planned_spec have_kg kg_impact stories) as (cs & o & E & Hm & Hnd & Hin & _).
  rewrite H in E. injection E as -> ->. by rewrite Hm.
Qed.

Lemma plan_numbers have_kg kg_impact stories deps plan :
  planned have_kg kg_impact stories = Some (deps, plan) → ∀ sp, sp ∈ plan → 1 <= number sp.
Proof.
  intros H sp Hsp. destruct (planned_spec have_kg kg_impact stories) as (cs & o & E & _). rewrite H in E. injection E as -> ->.
  destruct (sprints_of_spec o) as (_ & _ & Hk). apply list_elem_of_lookup in Hsp as [k Hk']. destruct (Hk k sp Hk') as (-> & _). lia.
Qed.

(** C38: the sprint plan of any list of stories is a plan of exactly those stories, and keeps
    the dependencies it can.  The computation ends; the sprints are numbered from one, none is
    empty, there are at most four and the first three hold at most eight stories; every story
    is in exactly one place of the plan; and unless a cycle was reported, every story comes
    after each story recorded as its dependency. *)
Theorem plan_respects_dependencies have_kg kg_impact stories :
  ∃ deps plan, planned have_kg kg_impact stories = Some (deps, plan) ∧
    (length plan <= 4)%nat ∧
    (∀ k s, plan !! k = Some s → number s = Z.of_nat k + 1 ∧ members s ≠ [] ∧ ((k < 3)%nat → (length (members s) <= 8)%nat)) ∧
    NoDup (all_members plan) ∧
    (∀ i, i ∈ all_members plan ↔ i ∈ map s_id stories) ∧
    ((∀ e, e ∈ deps → cyclic e = false) →
     ∀ before v after, all_members plan = before ++ v :: after →
     ∀ u, u ∈ apply_dependencies (map s_id stories) deps v → u ∈ before).
Proof.
  destruct (planned_spec have_kg kg_impact stories) as (cs & o & E & Hm & Hnd & Hin & Hn & Hord).
  destruct (sprints_of_spec o) as (_ & Hl & Hk). eexists _, _. rewrite Hm. split_and!; [exact E|done..|]. intros Hcyc p v r Eo u Hu.
  assert (cs = []) as ->.
  { destruct cs as [|c cs]; [done|]. specialize (Hcyc (cycle_edge c) ltac:(set_solver)). done. }
  destruct Hn as (l & Ht & Hids); [done|]. cbn [map] in *. rewrite app_nil_r in *.
  assert (Hplain : plain (edges_of have_kg kg_impact stories) = edges_of have_kg kg_impact stories).
  { apply filter_all. intros e He. by rewrite (proj2 (proj2 (edges_of_spec _ _ _ _ He))). }
  rewrite Hplain in Hord. apply (Hord l Ht Hids p v r Eo). unfold adj, succs. rewrite Hplain.
  apply apply_dependencies_spec in Hu as (e & He & _ & <- & <- & _). by apply edge_arrow.
Qed.

(** Three stories, the first of which is tested by the last, when the knowledge graph is
    there but knows of no impact. *)
Definition three_stories : list story :=
  [{| s_id := "B"; s_title := "Add Parser tests" |}; {| s_id := "A"; s_title := "Parser schema" |}; {| s_id := "C"; s_title := "Fix UI" |}].

Definition shown (r : option (list dependency * list sprint)) :=
  (fun r => (map (fun e => (d_from e, d_to e)) (fst r), map members (snd r))) <$> r.

Example plan_of_three : shown (planned true (fun _ => []) three_stories) = Some ([("A", "B")], [["A"; "B"; "C"]]).
Proof. vm_compute. reflexivity. Qed.

(** Without it the same stories wait for each other. *)
Example plan_of_three_text_only :
  shown (planned false (fun _ => []) three_stories) = Some ([("B", "A"); ("A", "B"); ("B", "B")], [["C"; "B"; "A"]]).
Proof. vm_compute. reflexivity. Qed.

(** * Without the knowledge graph *)
Lemma common_sym a b : common a b ≠ [] → common b a ≠ [].
Proof.
  unfold common. intros H E. destruct (List.filter _ a) as [|x l] eqn:Ef; [done|].
  assert (In x (List.filter (fun x => in_strs x b) a)) as Hx by (rewrite Ef; by left). apply List.filter_In in Hx as [Ha Hb].
  assert (In x (List.filter (fun y => in_strs y a) b)) as Hy; [|by rewrite E in Hy].
  apply List.filter_In. split; [by apply list_elem_of_In, in_strs_true|by apply in_strs_true, list_elem_of_In].
Qed.

Lemma common_nil_r a : common a [] = [].
Proof. unfold common. induction a as [|x a IH]; [done|]. exact IH. Qed.

(** Any shared name is an edge, whichever of the rules names it. *)
Lemma edge_between_text a b a_refs b_refs :
  match edge_between a b a_refs b_refs [] false with
  | Some e => d_from e = s_id a ∧ d_to e = s_id b ∧ common a_refs b_refs ≠ []
  | None => common a_refs b_refs = []
  end.
Proof.
  unfold edge_between. rewrite common_nil_r. cbn [length Nat.eqb negb].
  destruct (common a_refs b_refs) as [|x l]; [done|]. cbn [length Nat.eqb negb].
  destruct (_ && _); [done|]. by destruct (_ && _).
Qed.

Lemma edges_of_text kg_impact stories x y :
  (∃ e, e ∈ edges_of false kg_impact stories ∧ d_from e = x ∧ d_to e = y) ↔
  ∃ i j a b, stories !! i = Some a ∧ stories !! j = Some b ∧ i ≠ j ∧ s_id a = x ∧ s_id b = y ∧
             common (refs_at (refs stories) x) (refs_at (refs stories) y) ≠ [].
Proof.
  assert (Hindexed : ∀ i a, (i, a) ∈ imap pair stories ↔ stories !! i = Some a).
  { intros i a. rewrite list_elem_of_lookup. setoid_rewrite list_lookup_imap. split.
    - intros (k & H). destruct (stories !! k) as [c|] eqn:E; [|done]. cbn in H. by injection H as -> ->.
    - intros H. exists i. by rewrite H. }
  unfold edges_of. split.
  - intros (e & He & Hx & Hy). apply in_concat_map in He as ([i a] & Ha%Hindexed & He).
    destruct (Nat.eqb _ 0); [by apply elem_of_nil in He|]. apply in_concat_map in He as ([j b] & Hb%Hindexed & He).
    destruct (Nat.eqb i j || _) eqn:Eij; [by apply elem_of_nil in He|]. apply orb_false_iff in Eij as [Eij%Nat.eqb_neq _].
    pose proof (edge_between_text a b (refs_at (refs stories) (s_id a)) (refs_at (refs stories) (s_id b))) as Hedge.
    destruct (edge_between _ _ _ _ _ _) as [e'|]; [|by apply elem_of_nil in He]. apply list_elem_of_singleton in He as ->.
    destruct Hedge as (Hf & Ht & Hc). exists i, j, a, b. split_and!; try done; try congruence.
  - intros (i & j & a & b & Ha & Hb & Hij & <- & <- & Hc).
    pose proof (edge_between_text a b (refs_at (refs stories) (s_id a)) (refs_at (refs stories) (s_id b))) as Hedge.
    destruct (edge_between a b _ _ [] false) as [e|] eqn:Ee; [|done]. destruct Hedge as (Hf & Ht & _). exists e. split; [|done].
    assert (Hne : ∀ l l', common l l' ≠ [] → length l ≠ 0%nat).
    { intros l l' H E. apply H. by destruct l. }
    apply in_concat_map. exists (i, a). split; [by apply Hindexed|].
    rewrite (proj2 (Nat.eqb_neq _ _) (Hne _ _ Hc)). apply in_concat_map. exists (j, b). split; [by apply Hindexed|].
    rewrite (proj2 (Nat.eqb_neq _ _) Hij), (proj2 (Nat.eqb_neq _ _) (Hne _ _ (common_sym _ _ Hc))), Ee. by apply list_elem_of_singleton.
Qed.

Lemma text_edge_back kg_impact stories e :
  e ∈ edges_of false kg_impact stories →
  ∃ e', e' ∈ edges_of false kg_impact stories ∧ d_from e' = d_to e ∧ d_to e' = d_from e.
Proof.
  intros He. destruct (proj1 (edges_of_text kg_impact stories (d_from e) (d_to e))) as (i & j & a & b & Ha & Hb & Hij & Hx & Hy & Hs).
  { by exists e. }
  apply edges_of_text. exists j, i, b, a. split_and!; [done..|congruence|done|done|by apply common_sym].
Qed.

(** C40: without the knowledge graph the detection never yields an order.  Two stories that
    share a name get an edge in both directions, whatever the titles say of tests and schemas,
    so as soon as there is one dependency a cycle is reported as well. *)
Theorem text_only_always_cyclic kg_impact stories deps :
  detect_dependencies false kg_impact stories = Some deps →
  (∀ e, e ∈ deps → cyclic e = false → ∃ e', e' ∈ deps ∧ cyclic e' = false ∧ d_from e' = d_to e ∧ d_to e' = d_from e) ∧
  (deps ≠ [] → ∃ c, c ∈ deps ∧ cyclic c = true).
Proof.
  unfold detect_dependencies. set (edges := edges_of false kg_impact stories). intros Hd.
  destruct (find_cycles_correct edges (map s_id stories)) as (cs & Ec & _ & Hno). rewrite Ec in Hd. injection Hd as <-.
  split.
  - intros e [He|He]%elem_of_app Hc; [|by apply list_elem_of_fmap in He as (c & -> & _)].
    destruct (text_edge_back kg_impact stories e He) as (e' & He' & Hb). exists e'.
    split; [apply elem_of_app; by left|]. split; [|exact Hb]. by apply edges_of_spec in He' as (_ & _ & ?).
  - intros Hne. destruct cs as [|c cs]; [exfalso|exists (cycle_edge c); split; [set_solver|done]].
    cbn in Hne. rewrite app_nil_r in Hne. destruct edges as [|e l] eqn:El; [done|].
    assert (He : e ∈ edges_of false kg_impact stories) by (fold edges; rewrite El; by left).
    destruct (text_edge_back _ _ _ He) as (e' & He' & Hf & Ht). apply edge_arrow in He, He'. fold edges in He, He'.
    rewrite <- El in Hno. destruct (proj1 Hno eq_refl [d_from e; d_to e; d_from e]).
    exists (d_from e), [d_to e]. split; [done|]. rewrite Hf, Ht in He'. by split_and!.
Qed.

Lemma text_only_always_cyclic_witness :
  ∃ deps, detect_dependencies false (fun _ => []) three_stories = Some deps ∧ deps ≠ [] ∧ ∃ c, c ∈ deps ∧ cyclic c = true.
Proof.
  eexists. split_and!; [vm_compute; reflexivity|done|].
  eapply (text_only_always_cyclic (fun _ => []) three_stories); [vm_compute; reflexivity|done].
Defined.
End Sprints.
