(* ===== verification/Ids.v ===== *)
(** The roadmap artifact (plan/artifacts/roadmap_v1.py, _base.py) and the ids of its
    initiatives, epics and stories (plan/decomposer/id_allocator.py). *)

From S2P Require Import Prelude PyValue Text Crypto Regex.
From Stdlib Require Import Ascii.
Local Open Scope Z_scope.

Module Ids.
Import Regex Crypto.

(** * The artifact *)
Inductive Priority := P0 | P1 | P2 | P3.
Inductive Size := XS | S_ | M | L | XL.

Record Story := {
  s_id : string; s_title : string; s_priority : Priority; s_size : Size; s_cost : Z; s_duration : string;
  s_dependencies : list string
}.
Record Epic := { e_id : string; e_title : string; e_description : string; e_stories : list Story }.
Record Initiative := {
  i_id : string; i_title : string; i_tier : Z; i_priority : Priority; i_why : string; i_epics : list Epic
}.

Inductive exn := KeyError | IndexError | ValueError | ValidationError | OutOfFuel.

Definition EMPTY_SENTINELS : list string := [""; "tbd"; "todo"; "fixme"; "n/a"; "na"; "?"; "..."].
Definition is_empty_or_tbd (value : string) : bool := in_strs (lower (strip value)) EMPTY_SENTINELS.

Definition digits := plus (Chr is_digit).
Definition INIT_RE := seqs [Start; lit "INIT-"; digits; End_].
Definition EPIC_RE := seqs [Start; lit "EPIC-"; digits; lit_char "."; digits; End_].
Definition STORY_RE := seqs [Start; lit "STORY-"; digits; lit_char "."; digits; lit_char "."; digits; End_].

Definition check_id (value : string) (pattern : re) : outcome exn unit :=
  if match_ pattern value then Ok tt else Raise ValidationError.
Definition check_text (value : string) : outcome exn unit :=
  if is_empty_or_tbd value then Raise ValidationError else Ok tt.

(** [str_strip_whitespace=True]. *)
Definition trimmed (s : string) : string := strip_by is_c_space s.

Definition mk_story (id title : string) p size cost (duration : string) deps : outcome exn Story :=
  _ ← check_id (trimmed id) STORY_RE; _ ← check_text (trimmed title); _ ← check_text (trimmed duration);
  Ok {| s_id := trimmed id; s_title := trimmed title; s_priority := p; s_size := size; s_cost := cost;
        s_duration := trimmed duration; s_dependencies := deps |}.
Definition mk_epic (id title description : string) stories : outcome exn Epic :=
  _ ← check_id (trimmed id) EPIC_RE; _ ← check_text (trimmed title); _ ← check_text (trimmed description);
  Ok {| e_id := trimmed id; e_title := trimmed title; e_description := trimmed description; e_stories := stories |}.
Definition mk_initiative (id title : string) tier p (why : string) epics : outcome exn Initiative :=
  _ ← check_id (trimmed id) INIT_RE; _ ← check_text (trimmed title); _ ← check_text (trimmed why);
  Ok {| i_id := trimmed id; i_title := trimmed title; i_tier := tier; i_priority := p; i_why := trimmed why; i_epics := epics |}.

(** * Candidates *)
Inductive Kind := component | integration | nfr | default_.
Record epic_candidate := { c_title : string; c_description : string; c_stories : list string; c_kind : Kind }.
Record init_candidate := {
  n_title : string; n_why : string; n_tier : Z; n_priority : Priority; n_epics : list epic_candidate
}.

(** * Allocation *)
Definition dict := list (string * string).
Record Allocation := { assigned : dict; retired_ids : list string }.

Definition canonical_hash (parts : list string) : string :=
  hex_of (sha256 (join (str1 (chr 31)) (map (fun p => lower (strip p)) parts))).

Definition init_key (title why : string) : string := canonical_hash ["init"; title; why].
Definition epic_key (init_id title description : string) : string := canonical_hash ["epic"; init_id; title; description].
Definition story_key (epic_id title : string) : string := canonical_hash ["story"; epic_id; title].

(** The bindings [_existing_index] makes, in their order. *)
Definition story_entries (e : Epic) : dict := map (fun s => (story_key (e_id e) (s_title s), s_id s)) (e_stories e).
Definition epic_entries (init_id : string) (e : Epic) : dict :=
  (epic_key init_id (e_title e) (e_description e), e_id e) :: story_entries e.
Definition init_entries (i : Initiative) : dict :=
  (init_key (i_title i) (i_why i), i_id i) :: concat (map (epic_entries (i_id i)) (i_epics i)).
Definition entries (inits : list Initiative) : dict := concat (map init_entries inits).

Definition existing_index (existing : option (list Initiative)) : dict :=
  match existing with None => [] | Some inits => dict_update [] (entries inits) end.

Definition max_index (prior : dict) (prefix : string) : Z :=
  fold_left (fun out '(_, sid) =>
    match drop_prefix prefix sid with
    | None => out
    | Some rest => match int_of_str 10 (before "." rest) with Some n => Z.max out n | None => out end
    end) prior 0.

(** [init_id.split("-")[1]]. *)
Definition after_dash (id : string) : outcome exn string :=
  match split_on "-" id with _ :: n :: _ => Ok n | _ => Raise IndexError end.
(** [n2, m = epic_id.split("-")[1].split(".")]. *)
Definition epic_numbers (id : string) : outcome exn (string * string) :=
  n ← after_dash id; match split_on "." n with [n2; m] => Ok (n2, m) | _ => Raise ValueError end.

(** [prior.get(h) or minted]. *)
Definition id_for (prior : dict) (h minted : string) : string :=
  match dict_lookup h prior with Some id => if String.eqb id "" then minted else id | None => minted end.
(** The next slot after a candidate. *)
Definition bump (prior : dict) (h : string) (next : Z) : Z := if dict_has h prior then next else next + 1.

(** What the loops carry: [seen] and [assigned]. *)
Record ledger := { seen : list string; given : dict }.
Definition give (h id : string) (l : ledger) : ledger := {| seen := h :: seen l; given := dict_set h id (given l) |}.

Section Allocate.
Context (prior : dict).

Fixpoint alloc_stories (epic_id n2 m : string) (next : Z) (titles : list string) (l : ledger) : ledger :=
  match titles with
  | [] => l
  | title :: titles' =>
      let sh := story_key epic_id title in
      let sid := id_for prior sh ("STORY-" +:+ n2 +:+ "." +:+ m +:+ "." +:+ str_of_Z next) in
      alloc_stories epic_id n2 m (bump prior sh next) titles' (give sh sid l)
  end.

Fixpoint alloc_epics (init_id n : string) (next : Z) (epics : list epic_candidate) (l : ledger) : outcome exn ledger :=
  match epics with
  | [] => Ok l
  | e :: epics' =>
      let eh := epic_key init_id (c_title e) (c_description e) in
      let epic_id := id_for prior eh ("EPIC-" +:+ n +:+ "." +:+ str_of_Z next) in
      '(n2, m) ← epic_numbers epic_id;
      let next_story := max_index prior ("STORY-" +:+ n2 +:+ "." +:+ m +:+ ".") + 1 in
      alloc_epics init_id n (bump prior eh next) epics'
        (alloc_stories epic_id n2 m next_story (c_stories e) (give eh epic_id l))
  end.

Fixpoint alloc_inits (next : Z) (inits : list init_candidate) (l : ledger) : outcome exn ledger :=
  match inits with
  | [] => Ok l
  | i :: inits' =>
      let ih := init_key (n_title i) (n_why i) in
      let init_id := id_for prior ih ("INIT-" +:+ str_of_Z next) in
      n ← after_dash init_id;
      l' ← alloc_epics init_id n (max_index prior ("EPIC-" +:+ n +:+ ".") + 1) (n_epics i) (give ih init_id l);
      alloc_inits (bump prior ih next) inits' l'
  end.
End Allocate.

(** The loops of [allocate_ids]. *)
Definition run_loops (inits : list init_candidate) (prior : dict) : outcome exn ledger :=
  alloc_inits prior (max_index prior "INIT-" + 1) inits {| seen := []; given := [] |}.

Definition allocate_ids (inits : list init_candidate) (existing : option (list Initiative)) : outcome exn Allocation :=
  let prior := existing_index existing in
  l ← run_loops inits prior;
  Ok {| assigned := given l;
        retired_ids := map snd (List.filter (fun '(h, _) => negb (in_strs h (seen l))) prior) |}.

(** * Lemmas *)

(** Bindings that agree with a function give back its values. *)
Lemma dict_update_functional (f : string → option string) (d es : dict) :
  (∀ h id, In (h, id) es → f h = Some id) → (∀ h id, dict_lookup h d = Some id → f h = Some id) →
  ∀ h, dict_lookup h (dict_update d es) = if bool_decide (h ∈ map fst es) then f h else dict_lookup h d.
Proof.
  revert d. induction es as [|[k v] es IH]; intros d Hes Hd h; [done|]. cbn [dict_update map fst].
  rewrite IH; [|intros; apply Hes; by right|].
  - destruct (decide (h = k)) as [->|Hne].
    + rewrite (bool_decide_eq_true_2 (k ∈ k :: _)) by by left. rewrite dict_lookup_set_eq, (Hes k v) by by left. by case_match.
    + rewrite dict_lookup_set_ne by done. by rewrite (bool_decide_ext (h ∈ k :: _) (h ∈ map fst es)) by set_solver.
  - intros k' id. destruct (decide (k' = k)) as [->|Hne].
    + rewrite dict_lookup_set_eq. intros [= <-]. apply Hes. by left.
    + rewrite dict_lookup_set_ne by done. apply Hd.
Qed.

(** Every key of a dict made of bindings is a key of one of them. *)
Lemma dict_update_keys (d es : dict) h v : In (h, v) (dict_update d es) → h ∈ map fst d ∨ h ∈ map fst es.
Proof.
  revert d. induction es as [|[k w] es IH]; intros d Hin; cbn [dict_update] in Hin.
  - left. apply list_elem_of_In, in_map_iff. by exists (h, v).
  - apply IH in Hin as [Hin|Hin]; [|right; by right]. clear IH.
    assert (H : h ∈ map fst d ∨ h = k); [|destruct H as [| ->]; [by left|right; by left]].
    induction d as [|[k1 v1] d IH]; cbn in *; [set_solver|]. destruct (String.eqb_spec k k1) as [->|]; cbn in Hin; set_solver.
Qed.

(** Stripping what pydantic stripped. *)
Lemma lstrip_by_lstrip p s : (∀ c, p c = true → is_space c = true) → lstrip (lstrip_by p s) = lstrip s.
Proof.
  intros Hp. induction s as [|c s IH]; [done|]. cbn [lstrip_by]. destruct (p c) eqn:Hc; [|done].
  rewrite IH. cbn [lstrip]. by rewrite (Hp c Hc).
Qed.

Lemma lstrip_rstrip_by p s : (∀ c, p c = true → is_space c = true) → lstrip (rstrip_by p s) = rstrip_by p (lstrip s).
Proof.
  intros Hp. induction s as [|c s IH]; [done|]. cbn [rstrip_by lstrip]. destruct (is_space c) eqn:Hc.
  - rewrite <- IH. destruct (rstrip_by p s) as [|d t]; [|cbn [lstrip]; by rewrite Hc]. destruct (p c); [done|]. cbn. by rewrite Hc.
  - assert (p c = false) as Hpc by (destruct (p c) eqn:E; [apply Hp in E; congruence|done]).
    cbn [rstrip_by]. rewrite Hpc. destruct (rstrip_by p s); cbn [lstrip str1]; by rewrite Hc.
Qed.

Lemma rstrip_rstrip_by p s : (∀ c, p c = true → is_space c = true) → rstrip (rstrip_by p s) = rstrip s.
Proof.
  intros Hp. induction s as [|c s IH]; [done|]. cbn [rstrip_by rstrip]. rewrite <- IH.
  destruct (rstrip_by p s) as [|d t]; [|done]. cbn [rstrip]. destruct (p c) eqn:E; [by rewrite (Hp c E)|]. done.
Qed.

Lemma strip_trimmed s : strip (trimmed s) = strip s.
Proof.
  assert (Hp : ∀ c, is_c_space c = true → is_space c = true).
  { intros c. unfold is_c_space, is_space. lia. }
  unfold strip, trimmed, strip_by. by rewrite (lstrip_rstrip_by _ _ Hp), (lstrip_by_lstrip _ _ Hp), (rstrip_rstrip_by _ _ Hp).
Qed.

Lemma hash_trimmed_2 a x y : canonical_hash [a; trimmed x; trimmed y] = canonical_hash [a; x; y].
Proof. unfold canonical_hash. cbn [map]. by rewrite !strip_trimmed. Qed.
Lemma story_key_trimmed e t : story_key (trimmed e) (trimmed t) = story_key e t.
Proof. apply hash_trimmed_2. Qed.
Lemma init_key_trimmed t w : init_key (trimmed t) (trimmed w) = init_key t w.
Proof. apply hash_trimmed_2. Qed.
Lemma epic_key_trimmed i t d : epic_key (trimmed i) (trimmed t) (trimmed d) = epic_key i t d.
Proof. unfold epic_key, canonical_hash. cbn [map]. by rewrite !strip_trimmed. Qed.

(** * The shape of a valid id *)
Lemma matches_lit w s t : matches (lit w) s t → rest s = w +:+ rest t.
Proof.
  revert s. induction w as [|c w IH]; intros s H; cbn [lit] in H; inversion H; subst; [done|].
  match goal with H : matches (lit_char _) _ _ |- _ => inversion H; subst end.
  cbn [rest]. rewrite app_cons. f_equal; [symmetry; by apply Ascii.eqb_eq|].
  by match goal with H : matches (lit w) _ _ |- _ => apply IH in H end.
Qed.

Lemma matches_digits s t : matches digits s t → ∃ d, rest s = d +:+ rest t ∧ all_chars is_digit d = true ∧ d ≠ "".
Proof.
  assert (Hstar : ∀ r s t, matches r s t → r = Star (Chr is_digit) → ∃ d, rest s = d +:+ rest t ∧ all_chars is_digit d = true).
  { clear. intros r s t H. induction H; intros E; try discriminate.
    - by exists "".
    - injection E as ->. destruct IHmatches2 as (d & Ed & Hd); [done|].
      match goal with H : matches (Chr _) _ _ |- _ => inversion H; subst end. cbn [rest] in *.
      exists (String c d). rewrite Ed. split; [done|]. cbn. by rewrite H3, Hd. }
  intros H. inversion H; subst. match goal with H : matches (Chr _) _ _ |- _ => inversion H; subst end.
  match goal with H : matches (Star _) _ _ |- _ => destruct (Hstar _ _ _ H eq_refl) as (d & Ed & Hd) end.
  match goal with H : is_digit ?c = true |- _ => exists (String c d); cbn [rest all_chars] in *; rewrite Ed, H, Hd; by split_and! end.
Qed.

Lemma matches_seqs a b c l s t : matches (seqs (a :: b :: l)) s t → c = seqs (b :: l) → ∃ u, matches a s u ∧ matches c u t.
Proof. intros H ->. inversion H; subst. eauto. Qed.

Lemma no_char c s : all_chars (fun x => negb (Ascii.eqb c x)) s = true → has_char c s = false.
Proof. induction s as [|d s IH]; [done|]. cbn. intros [H%negb_true_iff Hs]%andb_true_iff. rewrite H. by apply IH. Qed.

Lemma digits_no_char c d : is_digit c = false → all_chars is_digit d = true → has_char c d = false.
Proof.
  intros Hc H. apply no_char. apply (all_chars_impl is_digit); [|done]. intros x Hx. apply negb_true_iff.
  destruct (Ascii.eqb_spec c x); [congruence|done].
Qed.

(** What is left after the last digit: nothing or a newline. *)
Lemma matches_end s t : matches End_ s t → rest s = "" ∨ rest s = newline.
Proof.
  intros H. inversion H; subst. match goal with H : at_end _ = true |- _ => unfold at_end in H; apply orb_true_iff in H as [E|E] end;
    apply String.eqb_eq in E; auto.
Qed.

Lemma split_max_one n c s : has_char c s = false → split_max n c s = [s].
Proof. intros H. destruct n; [done|]. cbn. by rewrite cut_none. Qed.

Lemma split_on_two c a b : has_char c a = false → ∃ n, split_on c (a +:+ String c b) = a :: split_max n c b.
Proof.
  intros Ha. unfold split_on. rewrite length_app_str. cbn [String.length]. rewrite Nat.add_succ_r, split_max_cons by done. by eexists.
Qed.

Lemma split_max_nonempty n c s : ∃ x l, split_max n c s = x :: l.
Proof. destruct n; [by exists s, []|]. cbn. destruct (cut c s) as [[a b]|]; by eexists _, _. Qed.

Lemma after_dash_of a b : has_char "-" a = false → ∃ n, after_dash (a +:+ String "-" b) = Ok n ∧ (has_char "-" b = false → n = b).
Proof.
  intros Ha. unfold after_dash. destruct (split_on_two "-" a b Ha) as (k & ->).
  destruct (split_max_nonempty k "-" b) as (x & l & E). rewrite E. exists x. split; [done|].
  intros Hb. rewrite split_max_one in E by done. by injection E.
Qed.

Lemma init_id_numbers id : match_ INIT_RE id = true → ∃ n, after_dash id = Ok n ∧ id = "INIT-" +:+ n.
Proof.
  unfold match_. destruct (run INIT_RE Some _) as [t|] eqn:E; [|done]. intros _. apply run_sound in E as (u & Hm & _).
  eapply matches_seqs in Hm as (s1 & H1 & Hm); [|done]. inversion H1; subst.
  eapply matches_seqs in Hm as (s2 & H2 & Hm); [|done]. apply matches_lit in H2. cbn [rest] in H2.
  eapply matches_seqs in Hm as (s3 & H3 & Hm); [|done]. apply matches_digits in H3 as (d & H3 & Hd & _). apply matches_end in Hm.
  rewrite H2, H3. destruct (after_dash_of "INIT" (d +:+ rest s3)) as (n & Hn & Heq); [done|].
  exists n. assert (n = d +:+ rest s3) as -> by (apply Heq; rewrite has_char_app, (digits_no_char "-" d) by done; by destruct Hm as [-> | ->]).
  by split.
Qed.

Lemma epic_id_numbers id : match_ EPIC_RE id = true → ∃ n m, epic_numbers id = Ok (n, m) ∧ id = "EPIC-" +:+ n +:+ "." +:+ m.
Proof.
  unfold match_. destruct (run EPIC_RE Some _) as [t|] eqn:E; [|done]. intros _. apply run_sound in E as (u & Hm & _).
  eapply matches_seqs in Hm as (s1 & H1 & Hm); [|done]. inversion H1; subst.
  eapply matches_seqs in Hm as (s2 & H2 & Hm); [|done]. apply matches_lit in H2. cbn [rest] in H2.
  eapply matches_seqs in Hm as (s3 & H3 & Hm); [|done]. apply matches_digits in H3 as (d1 & H3 & Hd1 & _).
  eapply matches_seqs in Hm as (s4 & H4 & Hm); [|done]. inversion H4; subst.
  match goal with H : Ascii.eqb _ _ = true |- _ => apply Ascii.eqb_eq in H; subst end. cbn [rest] in *.
  eapply matches_seqs in Hm as (s5 & H5 & Hm); [|done]. apply matches_digits in H5 as (d2 & H5 & Hd2 & _). cbn [rest] in H5.
  apply matches_end in Hm.
  assert (Htail : ∀ c, is_digit c = false → Ascii.eqb c (chr 10) = false → has_char c (d2 +:+ rest s5) = false).
  { intros c Hc Hn. rewrite has_char_app, (digits_no_char c d2 Hc Hd2). destruct Hm as [-> | ->]; [done|]. unfold newline, str1. cbn [has_char orb].
    by rewrite Hn. }
  unfold epic_numbers. rewrite ?H2, ?H3, ?H5. exists d1, (d2 +:+ rest s5).
  destruct (after_dash_of "EPIC" (d1 +:+ String "." (d2 +:+ rest s5))) as (n & Hn & Heq); [done|].
  change ("EPIC-" +:+ ?x) with ("EPIC" +:+ String "-" x). rewrite Hn. cbn [mbind outcome_bind].
  rewrite Heq; [|rewrite has_char_app; cbn [has_char]; by rewrite (digits_no_char "-" d1), Htail].
  destruct (split_on_two "." d1 (d2 +:+ rest s5)) as (k & ->); [by apply digits_no_char|].
  by rewrite split_max_one by by apply Htail.
Qed.

Lemma numbers_nonempty id : (∃ n, after_dash id = Ok n ∧ id = "INIT-" +:+ n) → id ≠ "".
Proof. intros (n & Hn & _) ->. done. Qed.

(** * A roadmap made from candidates *)

(** The candidates' texts, stripped, and ids that passed their checks. *)
Definition story_built (title : string) (s : Story) : Prop := s_title s = trimmed title ∧ s_id s ≠ "".
Record epic_built (c : epic_candidate) (e : Epic) : Prop := {
  eb_title : e_title e = trimmed (c_title c);
  eb_description : e_description e = trimmed (c_description c);
  eb_id : match_ EPIC_RE (e_id e) = true;
  eb_stories : Forall2 story_built (c_stories c) (e_stories e)
}.
Record init_built (c : init_candidate) (i : Initiative) : Prop := {
  ib_title : i_title i = trimmed (n_title c);
  ib_why : i_why i = trimmed (n_why c);
  ib_id : match_ INIT_RE (i_id i) = true;
  ib_epics : Forall2 epic_built (n_epics c) (i_epics i)
}.

Section Known.
Context (prior : dict).

Definition known (es : dict) : Prop := ∀ h id, In (h, id) es → dict_lookup h prior = Some id.

Definition give_all (es : dict) (l : ledger) : ledger := fold_left (fun l '(h, id) => give h id l) es l.

Lemma known_app es es' : known (es ++ es') ↔ known es ∧ known es'.
Proof. unfold known. setoid_rewrite in_app_iff. naive_solver. Qed.

Lemma id_for_known h id minted : dict_lookup h prior = Some id → id ≠ "" → id_for prior h minted = id.
Proof. unfold id_for. intros ->. by destruct (String.eqb_spec id ""). Qed.

Lemma bump_known h id next : dict_lookup h prior = Some id → bump prior h next = next.
Proof. unfold bump, dict_has. by intros ->. Qed.

Lemma alloc_stories_known eid n2 m next titles stories l :
  Forall2 story_built titles stories → known (map (fun s => (story_key eid (s_title s), s_id s)) stories) →
  alloc_stories prior eid n2 m next titles l = give_all (map (fun s => (story_key eid (s_title s), s_id s)) stories) l.
Proof.
  intros H. revert next l. induction H as [|t s ts ss [Ht Hid] _ IH]; intros next l Hk; [done|]. cbn [alloc_stories map give_all fold_left].
  assert (Hkey : story_key eid t = story_key eid (s_title s)).
  { rewrite Ht, <- (story_key_trimmed eid (trimmed t)), <- (story_key_trimmed eid t).
    unfold story_key, canonical_hash. cbn [map]. by rewrite !strip_trimmed. }
  assert (Hl : dict_lookup (story_key eid t) prior = Some (s_id s)) by (rewrite Hkey; apply Hk; by left).
  rewrite (id_for_known _ _ _ Hl Hid), (bump_known _ _ _ Hl), Hkey. apply IH. intros h id Hin. apply Hk. by right.
Qed.

Lemma alloc_epics_known init_id n next cs es l :
  Forall2 epic_built cs es → known (concat (map (epic_entries init_id) es)) →
  alloc_epics prior init_id n next cs l = Ok (give_all (concat (map (epic_entries init_id) es)) l).
Proof.
  intros H. revert next l. induction H as [|c e cs es [Ht Hd Hid Hs] _ IH]; intros next l Hk; [done|].
  cbn [map concat] in Hk |- *. apply known_app in Hk as [Hke Hk]. cbn [alloc_epics].
  assert (Hkey : epic_key init_id (c_title c) (c_description c) = epic_key init_id (e_title e) (e_description e)).
  { rewrite Ht, Hd. unfold epic_key, canonical_hash. cbn [map]. by rewrite !strip_trimmed. }
  assert (Hl : dict_lookup (epic_key init_id (c_title c) (c_description c)) prior = Some (e_id e)) by (rewrite Hkey; apply Hke; by left).
  destruct (epic_id_numbers _ Hid) as (n2 & m & Hn & _).
  assert (Hne : e_id e ≠ "") by (intros E; rewrite E in Hn; done).
  rewrite (id_for_known _ _ _ Hl Hne), (bump_known _ _ _ Hl), Hn. cbn [mbind outcome_bind].
  rewrite (alloc_stories_known _ _ _ _ _ (e_stories e)) by (try done; intros h id Hin; apply Hke; by right).
  rewrite IH by done. unfold give_all. rewrite fold_left_app. unfold epic_entries at 3. cbn [fold_left]. by rewrite Hkey.
Qed.

Lemma alloc_inits_known next cs is_ l :
  Forall2 init_built cs is_ → known (entries is_) → alloc_inits prior next cs l = Ok (give_all (entries is_) l).
Proof.
  intros H. revert next l. induction H as [|c i cs is_ [Ht Hw Hid He] _ IH]; intros next l Hk; [done|].
  unfold entries in *. cbn [map concat] in Hk |- *. apply known_app in Hk as [Hki Hk]. cbn [alloc_inits].
  assert (Hkey : init_key (n_title c) (n_why c) = init_key (i_title i) (i_why i)) by by rewrite Ht, Hw, init_key_trimmed.
  assert (Hl : dict_lookup (init_key (n_title c) (n_why c)) prior = Some (i_id i)) by (rewrite Hkey; apply Hki; by left).
  destruct (init_id_numbers _ Hid) as (n & Hn & Hdash).
  assert (Hne : i_id i ≠ "") by (apply numbers_nonempty; eauto).
  rewrite (id_for_known _ _ _ Hl Hne), (bump_known _ _ _ Hl), Hn. cbn [mbind outcome_bind].
  rewrite (alloc_epics_known _ _ _ _ (i_epics i)) by (try done; intros h id Hin; apply Hki; by right). cbn [mbind outcome_bind].
  rewrite IH by done. unfold give_all. rewrite fold_left_app. unfold init_entries at 2. cbn [fold_left]. by rewrite Hkey.
Qed.
End Known.

Lemma give_all_given es l : given (give_all es l) = dict_update (given l) es.
Proof. revert l. induction es as [|[h id] es IH]; intros l; [done|]. cbn. by rewrite IH. Qed.

Lemma give_all_seen es l h : h ∈ seen (give_all es l) ↔ h ∈ map fst es ∨ h ∈ seen l.
Proof. revert l. induction es as [|[k id] es IH]; intros l; cbn; [set_solver|]. rewrite IH. cbn. set_solver. Qed.

(** Allocating against a roadmap made from the same candidates gives its own ids back, and
    retires none. *)
Lemma allocate_known cs is_ (f : string → option string) :
  Forall2 init_built cs is_ → (∀ h id, In (h, id) (entries is_) → f h = Some id) →
  allocate_ids cs (Some is_) = Ok {| assigned := dict_update [] (entries is_); retired_ids := [] |}.
Proof.
  intros Hb Hf. unfold allocate_ids, run_loops. set (prior := existing_index (Some is_)).
  assert (Hlook : ∀ h, dict_lookup h prior = if bool_decide (h ∈ map fst (entries is_)) then f h else None).
  { intros h. exact (dict_update_functional f [] (entries is_) Hf ltac:(done) h). }
  assert (Hknown : known prior (entries is_)).
  { intros h id Hin. rewrite Hlook, bool_decide_eq_true_2; [by apply Hf|]. apply list_elem_of_In, in_map_iff. by exists (h, id). }
  rewrite (alloc_inits_known _ _ _ is_) by done. cbn [mbind outcome_bind]. rewrite give_all_given. f_equal. f_equal.
  destruct (List.filter _ prior) as [|[h id] r] eqn:Ef; [done|]. exfalso.
  assert (Hin : In (h, id) (List.filter (fun '(h, _) => negb (in_strs h (seen (give_all (entries is_) {| seen := []; given := [] |})))) prior))
    by (rewrite Ef; by left).
  apply List.filter_In in Hin as [Hin Hns]. apply negb_true_iff, in_strs_false in Hns. apply Hns, give_all_seen. left.
  by apply dict_update_keys in Hin as [Hin|Hin]; [by apply elem_of_nil in Hin|].
Qed.
End Ids.
