(* ===== verification/Decomposer.v ===== *)
(** plan/decomposer/decomposer.py and sizing.py: from a PRD and a TRD to a roadmap.  The
    knowledge graph is outside: whether it answers, and what it says names reach. *)

From S2P Require Import Prelude PyValue Text Crypto Regex Dependencies Sprints Ids.
From Stdlib Require Import Ascii.
Local Open Scope Z_scope.

Module Decomposer.
Import Ids.

(** * The documents, as far as they are read *)
Record Component := { p_name : string; p_responsibility : string; p_technology : option string }.
Inductive IntegrationDirection := INBOUND | OUTBOUND | BIDIRECTIONAL.
Definition direction_text (d : IntegrationDirection) : string :=
  match d with INBOUND => "inbound" | OUTBOUND => "outbound" | BIDIRECTIONAL => "bidirectional" end.
Record Integration := { g_name : string; g_direction : IntegrationDirection; g_protocol : string; g_auth : string }.
Record NonFunctionalRequirements := {
  performance : string; security : string; scalability : string; observability : string; cost : string
}.
Record TRDv1 := {
  t_project : string; t_overview : string; t_components : list Component; t_data_flow : string;
  t_integrations : list Integration; t_nfrs : NonFunctionalRequirements
}.
(** A goal is its statement. *)
Record PRDv1 := {
  q_project : string; q_name : string; q_problem : string;
  q_must : list string; q_should : list string; q_could : list string
}.

(** * Sizing *)
Definition dash_or_space := Regex.one_of "- ".
Definition iwords (ws : list string) : Regex.re := Regex.keywords (map Regex.ilit ws).
Definition SECURITY_KW := iwords
  ["auth"; "oauth"; "jwt"; "password"; "secret"; "encrypt"; "decrypt"; "tls"; "mtls"; "rbac"; "acl";
   "permission"; "capability"; "vault"; "kms"; "pii"; "gdpr"; "hipaa"; "compliance"].
Definition NOVEL_MODEL_KW := Regex.keywords
  (map Regex.ilit ["schema"; "migration"; "entity"; "table"; "column"; "index"; "partition"] ++
   [Regex.seqs [Regex.ilit "foreign"; dash_or_space; Regex.ilit "key"];
    Regex.seqs [Regex.ilit "new"; Regex.opt dash_or_space; Regex.ilit "model"]]).
Definition INTEGRATION_KW := Regex.keywords
  (map Regex.ilit ["webhook"; "api"; "rest"; "grpc"; "sqs"; "kafka"; "pubsub"; "sns"; "s3"; "stripe"; "twilio"; "sendgrid";
                   "slack"; "github"; "jira"; "linear"; "integration"] ++
   [Regex.seqs [Regex.ilit "third"; dash_or_space; Regex.ilit "party"]]).
Definition DISTRIBUTED_KW := iwords
  ["distributed"; "async"; "queue"; "saga"; "consensus"; "leader"; "shard"; "replica"; "raft"; "paxos"].

Definition SIZE_COST_USD (s : Size) : Z := match s with XS => 1 | S_ => 5 | M => 25 | L => 100 | XL => 500 end.
Definition SIZE_HOURS (s : Size) : Z := match s with XS => 4 | S_ => 16 | M => 60 | L => 180 | XL => 600 end.
Definition SIZE_DURATION (s : Size) : string :=
  match s with XS => "<1 day" | S_ => "1-3 days" | M => "1-2 weeks" | L => "3-6 weeks" | XL => "release-scale" end.

Record SizingResult := {
  z_size : Size; estimated_cost_usd : Z; estimated_duration_hours : Z; estimated_duration_label : string; rationale : list string
}.

Definition points_to_size (points : Z) : Size :=
  if points <=? 0 then XS else if points <=? 2 then S_ else if points <=? 5 then M else if points <=? 9 then L else XL.

(** What each heuristic adds: points and a line of the rationale. *)
Definition signal := (Z * list string)%type.
Definition brief_signal (word_count : Z) : signal :=
  if 200 <? word_count then (3, ["long brief (" +:+ str_of_Z word_count +:+ " words)"])
  else if 80 <? word_count then (1, ["medium brief (" +:+ str_of_Z word_count +:+ " words)"])
  else (0, []).
Definition impact_signal (impact_count : Z) : signal :=
  let nodes := "KG impact: " +:+ str_of_Z impact_count +:+ " nodes" in
  if 50 <? impact_count then (5, [nodes +:+ " (large blast radius)"])
  else if 15 <? impact_count then (3, [nodes])
  else if 3 <? impact_count then (1, [nodes])
  else (0, []).
Definition keyword_signal (kw : Regex.re) (points : Z) (line haystack : string) : signal :=
  if Regex.search kw haystack then (points, [line]) else (0, []).

(** [estimate_size], with the texts of the TRD slice. *)
Definition estimate_size (story_text : string) (trd_section : list string) (kg_impact : list string) : SizingResult :=
  let text := strip story_text in
  let haystack := text +:+ " " +:+ join " " trd_section in
  let signals :=
    [brief_signal (Z.of_nat (length (words_by is_space text)));
     impact_signal (Z.of_nat (length kg_impact));
     keyword_signal SECURITY_KW 2 "security/auth touch" haystack;
     keyword_signal NOVEL_MODEL_KW 2 "novel data model" haystack;
     keyword_signal INTEGRATION_KW 2 "external integration" haystack;
     keyword_signal DISTRIBUTED_KW 3 "distributed / async" haystack] in
  let size := points_to_size (foldr Z.add 0 (map fst signals)) in
  let lines := concat (map snd signals) in
  {| z_size := size; estimated_cost_usd := SIZE_COST_USD size; estimated_duration_hours := SIZE_HOURS size;
     estimated_duration_label := SIZE_DURATION size;
     rationale := match lines with [] => ["base heuristic (no strong signals)"] | _ => lines end |}.

(** * Epic candidates *)

(** [s[:60]]. *)
Definition first60 (s : string) : string := take_text 60 s.

Definition epic_from_component (c : Component) : epic_candidate :=
  let tech := match p_technology c with Some t => if String.eqb t "" then None else Some t | None => None end in
  {| c_title := "Build " +:+ p_name c +:+ match tech with Some t => " (" +:+ t +:+ ")" | None => "" end;
     c_description := p_responsibility c;
     c_stories := ["Scaffold " +:+ p_name c +:+ " module + interfaces";
                   "Implement " +:+ p_name c +:+ " core: " +:+ strip (first60 (p_responsibility c));
                   "Add " +:+ p_name c +:+ " unit + integration tests"] ++
                  match tech with Some t => ["Wire " +:+ p_name c +:+ " to " +:+ t] | None => [] end;
     c_kind := component |}.

Definition epic_from_integration (i : Integration) : epic_candidate :=
  let dir := direction_text (g_direction i) in
  {| c_title := "Integrate " +:+ g_name i +:+ " (" +:+ dir +:+ ")";
     c_description := g_protocol i +:+ " integration, auth=" +:+ g_auth i;
     c_stories := ["Wire " +:+ g_name i +:+ " " +:+ dir +:+ " client + auth (" +:+ g_auth i +:+ ")";
                   "Add " +:+ g_name i +:+ " integration tests + retries"];
     c_kind := integration |}.

Definition concerns (n : NonFunctionalRequirements) : list (string * string) :=
  [("performance", performance n); ("security", security n); ("scalability", scalability n);
   ("observability", observability n); ("cost", cost n)].

Definition epics_from_nfrs (n : NonFunctionalRequirements) : list epic_candidate :=
  concat (map (fun '(concern, text) =>
    let val := strip text in
    if String.eqb val "" then []
    else [{| c_title := "NFR: " +:+ concern; c_description := val;
             c_stories := ["Implement " +:+ concern +:+ " controls — " +:+ first60 val;
                           "Add " +:+ concern +:+ " test/coverage and dashboards"];
             c_kind := nfr |}]) (concerns n)).

Definition default_epic : epic_candidate :=
  {| c_title := "Initial scaffolding"; c_description := "Bootstrap repo, CI, and skeleton modules.";
     c_stories := ["Bootstrap repository + CI pipeline"]; c_kind := default_ |}.

Definition epic_candidates_from_trd (trd : TRDv1) : list epic_candidate :=
  match map epic_from_component (t_components trd) ++ map epic_from_integration (t_integrations trd) ++ epics_from_nfrs (t_nfrs trd) with
  | [] => [default_epic]
  | out => out
  end.

(** * Initiatives *)

(** [[goals[i : i + 4] for i in range(0, len(goals), 4)]]; [n] bounds the chunks. *)
Fixpoint chunks (n : nat) (goals : list string) : list (list string) :=
  match n, goals with
  | O, _ | _, [] => []
  | S n', _ => take 4 goals :: chunks n' (drop 4 goals)
  end.
Definition cluster_goals (goals : list string) : list (list string) :=
  if (length goals <=? 4)%nat then [goals] else chunks (length goals) goals.

Definition initiative_title (label : string) (cluster : list string) (cidx ctotal : Z) : string :=
  let statement := take_text 60 (before "." (default "" (head cluster))) in
  let head := strip (if String.eqb statement "" then "initiative" else statement) in
  let suffix := if 1 <? ctotal then " (" +:+ str_of_Z cidx +:+ "/" +:+ str_of_Z ctotal +:+ ")" else "" in
  "[" +:+ label +:+ "] " +:+ head +:+ suffix.

Definition initiative_why (prd : PRDv1) (cluster : list string) : string :=
  q_problem prd +:+ " — covers: " +:+ join "; " (take 3 cluster).

Definition TIER_BY_PRIORITY (p : Priority) : Z := match p with P0 => 1 | P1 => 2 | P2 => 3 | P3 => 4 end.

Section Shape.
Context (prd : PRDv1) (pool : list epic_candidate).

Definition tiers : list (string * list string * Priority) :=
  [("MUST", q_must prd, P0); ("SHOULD", q_should prd, P1); ("COULD", q_could prd, P2)].

Definition nonempty : nat :=
  Nat.max 1 (length (List.filter (fun '(_, goals, _) => match goals with [] => false | _ => true end) tiers)).

(** The clusters of one tier, the first of which is number [cidx]. *)
Fixpoint tier_candidates (label : string) (prio : Priority) (take_ : nat) (cidx ctotal : Z) (clusters : list (list string))
    (cursor : nat) : list init_candidate * nat :=
  match clusters with
  | [] => ([], cursor)
  | cluster :: clusters' =>
      let '(rest, cursor') := tier_candidates label prio take_ (cidx + 1) ctotal clusters' (cursor + take_) in
      ({| n_title := initiative_title label cluster cidx ctotal; n_why := initiative_why prd cluster;
          n_tier := TIER_BY_PRIORITY prio; n_priority := prio;
          n_epics := take take_ (drop cursor pool) |} :: rest, cursor')
  end.

Fixpoint all_tiers (ts : list (string * list string * Priority)) (cursor : nat) : list init_candidate * nat :=
  match ts with
  | [] => ([], cursor)
  | (label, goals, prio) :: ts' =>
      match goals with
      | [] => all_tiers ts' cursor
      | _ =>
          let clusters := cluster_goals goals in
          let take_ := Nat.max 1 (length pool / Nat.max 1 (length clusters * nonempty)) in
          let '(here, cursor1) := tier_candidates label prio take_ 1 (Z.of_nat (length clusters)) clusters cursor in
          let '(rest, cursor2) := all_tiers ts' cursor1 in
          (here ++ rest, cursor2)
      end
  end.

Definition with_epics (i : init_candidate) (es : list epic_candidate) : init_candidate :=
  {| n_title := n_title i; n_why := n_why i; n_tier := n_tier i; n_priority := n_priority i; n_epics := es |}.

Definition shape_of : list init_candidate :=
  let '(shape, cursor) := all_tiers tiers 0 in
  match shape with
  | [] =>
      [{| n_title := q_name prd +:+ " delivery";
          n_why := if String.eqb (q_problem prd) "" then "Initial decomposition." else q_problem prd;
          n_tier := 1; n_priority := P0;
          n_epics := match pool with [] => [default_epic] | _ => pool end |}]
  | i :: shape' => with_epics i (n_epics i ++ drop cursor pool) :: shape'
  end.
End Shape.

Definition initiatives_from_prd (prd : PRDv1) (trd : TRDv1) : list init_candidate := shape_of prd (epic_candidates_from_trd trd).

(** * The roadmap *)
Definition component_texts (c : Component) : list string :=
  [p_name c; p_responsibility c] ++ match p_technology c with Some t => [t] | None => [] end.

(** The texts [_flatten_trd] finds in the slice of an epic. *)
Definition trd_slice_for (kind : Kind) (trd : TRDv1) : list string :=
  let components := concat (map component_texts (t_components trd)) in
  match kind with
  | component => components
  | integration => concat (map (fun i => [g_name i; direction_text (g_direction i); g_protocol i; g_auth i]) (t_integrations trd))
  | nfr => map snd (concerns (t_nfrs trd))
  | default_ => [t_overview trd] ++ components ++ [t_data_flow trd]
  end.

Definition lookup_id (assigned : dict) (h : string) : outcome exn string :=
  match dict_lookup h assigned with Some id => Ok id | None => Raise KeyError end.

Section Materialise.
Context (given : dict) (trd : TRDv1).

Fixpoint mat_stories (epic_id : string) (priority : Priority) (kind : Kind) (titles : list string) : outcome exn (list Story) :=
  match titles with
  | [] => Ok []
  | title :: titles' =>
      id ← lookup_id given (story_key epic_id title);
      let sz := estimate_size title (trd_slice_for kind trd) [] in
      s ← mk_story id title priority (z_size sz) (estimated_cost_usd sz) (estimated_duration_label sz) [];
      rest ← mat_stories epic_id priority kind titles';
      Ok (s :: rest)
  end.

Fixpoint mat_epics (init_id : string) (priority : Priority) (epics : list epic_candidate) : outcome exn (list Epic) :=
  match epics with
  | [] => Ok []
  | c :: epics' =>
      epic_id ← lookup_id given (epic_key init_id (c_title c) (c_description c));
      stories ← mat_stories epic_id priority (c_kind c) (c_stories c);
      e ← mk_epic epic_id (c_title c) (c_description c) stories;
      rest ← mat_epics init_id priority epics';
      Ok (e :: rest)
  end.

Fixpoint materialise (shape : list init_candidate) : outcome exn (list Initiative) :=
  match shape with
  | [] => Ok []
  | c :: shape' =>
      init_id ← lookup_id given (init_key (n_title c) (n_why c));
      epics ← mat_epics init_id (n_priority c) (n_epics c);
      i ← mk_initiative init_id (n_title c) (n_tier c) (n_priority c) (n_why c) epics;
      rest ← materialise shape';
      Ok (i :: rest)
  end.
End Materialise.

(** * [decompose] *)
Record RoadmapV1 := {
  r_project : string; r_prd_ref : string; r_trd_ref : string; r_initiatives : list Initiative;
  r_epics : list Epic; r_stories : list Story; r_sprints : list Sprints.sprint; r_created_by : string
}.

Definition epics_of (is_ : list Initiative) : list Epic := concat (map i_epics is_).
Definition stories_of (is_ : list Initiative) : list Story := concat (map e_stories (epics_of is_)).
Definition brief (s : Story) : Dependencies.story := {| Dependencies.s_id := s_id s; Dependencies.s_title := s_title s |}.

(** [_apply_dependencies] on the stories in place: of stories with one id the last is changed. *)
Section Annotate.
Context (deps : string → list string).

Definition with_deps (s : Story) (ds : list string) : Story :=
  {| s_id := s_id s; s_title := s_title s; s_priority := s_priority s; s_size := s_size s; s_cost := s_cost s;
     s_duration := s_duration s; s_dependencies := ds |}.

Fixpoint annotate_stories (later : list string) (ss : list Story) : list Story :=
  match ss with
  | [] => []
  | s :: ss' =>
      with_deps s (if in_strs (s_id s) (map s_id ss' ++ later) then s_dependencies s else deps (s_id s)) :: annotate_stories later ss'
  end.
Fixpoint annotate_epics (later : list string) (es : list Epic) : list Epic :=
  match es with
  | [] => []
  | e :: es' =>
      {| e_id := e_id e; e_title := e_title e; e_description := e_description e;
         e_stories := annotate_stories (map s_id (concat (map e_stories es')) ++ later) (e_stories e) |} :: annotate_epics later es'
  end.
Fixpoint annotate (is_ : list Initiative) : list Initiative :=
  match is_ with
  | [] => []
  | i :: is' =>
      {| i_id := i_id i; i_title := i_title i; i_tier := i_tier i; i_priority := i_priority i; i_why := i_why i;
         i_epics := annotate_epics (map s_id (stories_of is')) (i_epics i) |} :: annotate is'
  end.
End Annotate.

(** [Sprint]'s check of its stories. *)
Definition check_sprint (sp : Sprints.sprint) : outcome exn unit :=
  if forallb (Regex.match_ STORY_RE) (Sprints.members sp) then Ok tt else Raise ValidationError.
Fixpoint check_sprints (sps : list Sprints.sprint) : outcome exn unit :=
  match sps with [] => Ok tt | sp :: sps' => _ ← check_sprint sp; check_sprints sps' end.

Section Decompose.
Context (have_kg : bool) (kg_impact : list string → list string).

(** The roadmap around the initiatives. *)
Definition finish (prd : PRDv1) (trd : TRDv1) (initiatives : list Initiative) (retired : list string) : outcome exn RoadmapV1 :=
  let stories := map brief (stories_of initiatives) in
  match Sprints.planned have_kg kg_impact stories with
  | None => Raise OutOfFuel
  | Some (deps, sprints) =>
      let initiatives := annotate (Sprints.apply_dependencies (map Dependencies.s_id stories) deps) initiatives in
      _ ← check_sprints sprints;
      _ ← check_text (q_project prd);
      Ok {| r_project := trimmed (q_project prd); r_prd_ref := trimmed ("prd-v1:" +:+ q_project prd);
            r_trd_ref := trimmed ("trd-v1:" +:+ q_project prd);
            r_initiatives := initiatives; r_epics := epics_of initiatives; r_stories := stories_of initiatives;
            r_sprints := sprints;
            r_created_by := match retired with
                            | [] => "planner"
                            | _ => "planner (retired=" +:+ join "," retired +:+ ")"
                            end |}
  end.

Definition decompose (prd : PRDv1) (trd : TRDv1) (existing_roadmap : option RoadmapV1) : outcome exn RoadmapV1 :=
  if negb (String.eqb (q_project prd) (t_project trd)) then Raise ValueError
  else
    let shape := initiatives_from_prd prd trd in
    alloc ← allocate_ids shape (r_initiatives <$> existing_roadmap);
    initiatives ← materialise (assigned alloc) trd shape;
    finish prd trd initiatives (retired_ids alloc).
End Decompose.

(** * Nothing of the TRD is lost *)
Lemma tier_candidates_epics prd pool label prio k cidx ctotal clusters cursor :
  let '(is_, cursor') := tier_candidates prd pool label prio k cidx ctotal clusters cursor in
  (cursor <= cursor')%nat ∧ concat (map n_epics is_) = take (cursor' - cursor) (drop cursor pool) ∧ length is_ = length clusters.
Proof.
  revert cidx cursor. induction clusters as [|c cs IH]; intros cidx cursor; cbn [tier_candidates].
  - by rewrite Nat.sub_diag, take_0.
  - specialize (IH (cidx + 1) (cursor + k)%nat). destruct (tier_candidates _ _ _ _ _ _ _ cs _) as [rest cursor'].
    destruct IH as (Hle & Heq & Hlen). split_and!; [lia| |cbn; by rewrite Hlen]. cbn [map concat n_epics].
    rewrite Heq, <- drop_drop, take_take_drop. f_equal. lia.
Qed.

Lemma all_tiers_epics prd pool ts cursor :
  let '(is_, cursor') := all_tiers prd pool ts cursor in
  (cursor <= cursor')%nat ∧ concat (map n_epics is_) = take (cursor' - cursor) (drop cursor pool).
Proof.
  revert cursor. induction ts as [|[[label goals] prio] ts IH]; intros cursor; cbn [all_tiers].
  - by rewrite Nat.sub_diag, take_0.
  - destruct goals as [|g gs]; [apply IH|]. set (k := Nat.max 1 _).
    pose proof (tier_candidates_epics prd pool label prio k 1 (Z.of_nat (length (cluster_goals (g :: gs)))) (cluster_goals (g :: gs)) cursor) as Ht.
    destruct (tier_candidates _ _ _ _ _ _ _ _ _) as [here c1]. specialize (IH c1). destruct (all_tiers _ _ ts c1) as [rest c2].
    destruct Ht as (Hle & Heq & _), IH as (Hle2 & Heq2). split; [lia|]. rewrite map_app, concat_app, Heq, Heq2.
    replace (drop c1 pool) with (drop (c1 - cursor) (drop cursor pool)) by (rewrite drop_drop; f_equal; lia).
    rewrite take_take_drop. f_equal. lia.
Qed.

Lemma shape_epics prd pool : pool ≠ [] → concat (map n_epics (shape_of prd pool)) ≡ₚ pool.
Proof.
  intros Hp. unfold shape_of. pose proof (all_tiers_epics prd pool (tiers prd) 0) as H.
  destruct (all_tiers _ _ _ _) as [[|i is_] cursor].
  - cbn. rewrite app_nil_r. by destruct pool.
  - destruct H as (_ & H). rewrite Nat.sub_0_r, drop_0 in H. cbn [map concat] in *. unfold with_epics at 1. cbn [n_epics].
    rewrite <- app_assoc, (Permutation_app_comm (drop cursor pool)), app_assoc, H. by rewrite take_drop.
Qed.

(** * What materialising gives *)
Lemma trimmed_idem s : trimmed (trimmed s) = trimmed s.
Proof. apply strip_by_idem. Qed.

(** The id under a key, as the artifact has it. *)
Definition id_at (given : dict) (h : string) : option string := trimmed <$> dict_lookup h given.

Lemma checked {A} (b : outcome exn unit) (k : outcome exn A) r : (_ ← b; k) = Ok r → b = Ok tt ∧ k = Ok r.
Proof. destruct b as [[]|]; [done|discriminate]. Qed.

Lemma check_id_ok v p : check_id v p = Ok tt → Regex.match_ p v = true.
Proof. unfold check_id. by destruct (Regex.match_ p v). Qed.

Lemma story_id_ne s : Regex.match_ STORY_RE s = true → s ≠ "".
Proof. by intros H ->. Qed.

(** Made with the ids of one dict, remade with any dict that has the roadmap's own ids. *)
Lemma mat_stories_spec given trd eid prio kind titles ss :
  mat_stories given trd eid prio kind titles = Ok ss →
  Forall2 story_built titles ss ∧
  (∀ s, In s ss → id_at given (story_key eid (s_title s)) = Some (s_id s)) ∧
  ∀ given', (∀ s, In s ss → dict_lookup (story_key eid (s_title s)) given' = Some (s_id s)) →
    mat_stories given' trd (trimmed eid) prio kind titles = Ok ss.
Proof.
  revert ss. induction titles as [|t ts IH]; intros ss H; [injection H as <-; by split_and!|]. cbn [mat_stories] in *.
  unfold lookup_id at 1 in H. destruct (dict_lookup _ given) as [id|] eqn:Hl; [|done]. cbn [mbind outcome_bind] in H.
  destruct (mk_story id t _ _ _ _ _) as [s|] eqn:Hs; [|done]. cbn [mbind outcome_bind] in H.
  destruct (mat_stories given trd eid prio kind ts) as [rest|] eqn:Hr; [|done]. injection H as <-.
  destruct (IH rest eq_refl) as (Hb & Hid & Hre). clear IH.
  pose proof Hs as Hs'. unfold mk_story in Hs'. apply checked in Hs' as [Hc1 Hs'], Hs' as [Hc2 Hs'], Hs' as [Hc3 Hs'].
  injection Hs' as Es. apply check_id_ok in Hc1.
  assert (Hkey : story_key eid (s_title s) = story_key eid t).
  { rewrite <- Es. cbn [s_title]. unfold story_key, canonical_hash. cbn [map]. by rewrite strip_trimmed. }
  split_and!.
  - constructor; [|done]. rewrite <- Es. split; [done|]. by apply story_id_ne.
  - intros x [<-|Hx]; [|by apply Hid]. unfold id_at. rewrite Hkey, Hl, <- Es. done.
  - intros given' Hg. rewrite <- (story_key_trimmed (trimmed eid) t), trimmed_idem, story_key_trimmed.
    unfold lookup_id. rewrite <- Hkey, (Hg s) by by left. cbn [mbind outcome_bind].
    assert (mk_story (s_id s) t prio (z_size (estimate_size t (trd_slice_for kind trd) []))
      (estimated_cost_usd (estimate_size t (trd_slice_for kind trd) [])) (estimated_duration_label (estimate_size t (trd_slice_for kind trd) [])) [] = Ok s) as ->.
    { rewrite <- Hs. unfold mk_story. rewrite <- Es. cbn [s_id]. by rewrite trimmed_idem. }
    cbn [mbind outcome_bind]. rewrite Hre; [done|]. intros x Hx. apply Hg. by right.
Qed.

Lemma mat_epics_spec given trd iid prio cs es :
  mat_epics given trd iid prio cs = Ok es →
  Forall2 epic_built cs es ∧
  (∀ h id, In (h, id) (concat (map (epic_entries (trimmed iid)) es)) → id_at given h = Some id) ∧
  ∀ given', (∀ h id, In (h, id) (concat (map (epic_entries (trimmed iid)) es)) → dict_lookup h given' = Some id) →
    mat_epics given' trd (trimmed iid) prio cs = Ok es.
Proof.
  revert es. induction cs as [|c cs IH]; intros es H; [injection H as <-; by split_and!|]. cbn [mat_epics] in *.
  unfold lookup_id at 1 in H. destruct (dict_lookup _ given) as [id|] eqn:Hl; [|done]. cbn [mbind outcome_bind] in H.
  destruct (mat_stories _ _ _ _ _ _) as [ss|] eqn:Hss; [|done]. cbn [mbind outcome_bind] in H.
  destruct (mk_epic id _ _ _) as [e|] eqn:He; [|done]. cbn [mbind outcome_bind] in H.
  destruct (mat_epics given trd iid prio cs) as [rest|] eqn:Hr; [|done]. injection H as <-.
  destruct (IH rest eq_refl) as (Hb & Hid & Hre). clear IH. apply mat_stories_spec in Hss as (Hsb & Hsid & Hsre).
  pose proof He as He'. unfold mk_epic in He'. apply checked in He' as [Hc1 He'], He' as [Hc2 He'], He' as [Hc3 He'].
  injection He' as Ee. apply check_id_ok in Hc1.
  assert (Hkey : epic_key (trimmed iid) (e_title e) (e_description e) = epic_key iid (c_title c) (c_description c)).
  { rewrite <- Ee. cbn [e_title e_description]. apply epic_key_trimmed. }
  assert (Hstory : ∀ s, In s ss → story_key (e_id e) (s_title s) = story_key id (s_title s)).
  { intros s _. rewrite <- Ee. cbn [e_id]. unfold story_key, canonical_hash. cbn [map]. by rewrite strip_trimmed. }
  assert (Hess : e_stories e = ss) by by rewrite <- Ee.
  cbn [map concat]. split_and!.
  - constructor; [|done]. rewrite <- Ee. by split.
  - intros h x [Hin|Hin]%in_app_iff; [|by apply Hid]. destruct Hin as [[= <- <-]|Hin].
    + unfold id_at. rewrite Hkey, Hl, <- Ee. done.
    + unfold story_entries in Hin. rewrite Hess in Hin. apply in_map_iff in Hin as (s & [= <- <-] & Hs). rewrite Hstory by done. by apply Hsid.
  - intros given' Hg. rewrite <- (epic_key_trimmed (trimmed iid) (c_title c)), trimmed_idem, epic_key_trimmed.
    unfold lookup_id. rewrite <- Hkey, (Hg _ (e_id e)) by by left. cbn [mbind outcome_bind].
    assert (Hi : e_id e = trimmed id) by by rewrite <- Ee. rewrite Hi, Hsre.
    + cbn [mbind outcome_bind]. assert (mk_epic (trimmed id) (c_title c) (c_description c) ss = Ok e) as ->.
      { rewrite <- He. unfold mk_epic. by rewrite trimmed_idem. }
      cbn [mbind outcome_bind]. rewrite Hre; [done|]. intros h x Hin. apply Hg, in_app_iff. by right.
    + intros s Hs. rewrite <- Hstory by done. apply Hg, in_app_iff. left. right. unfold story_entries. rewrite Hess. apply in_map_iff. by exists s.
Qed.

Lemma materialise_spec given trd cs is_ :
  materialise given trd cs = Ok is_ →
  Forall2 init_built cs is_ ∧ (∀ h id, In (h, id) (entries is_) → id_at given h = Some id) ∧
  ∀ given', (∀ h id, In (h, id) (entries is_) → dict_lookup h given' = Some id) → materialise given' trd cs = Ok is_.
Proof.
  unfold entries. revert is_. induction cs as [|c cs IH]; intros is_ H; [injection H as <-; by split_and!|]. cbn [materialise] in *.
  unfold lookup_id at 1 in H. destruct (dict_lookup _ given) as [id|] eqn:Hl; [|done]. cbn [mbind outcome_bind] in H.
  destruct (mat_epics _ _ _ _ _) as [es|] eqn:Hes; [|done]. cbn [mbind outcome_bind] in H.
  destruct (mk_initiative id _ _ _ _ _) as [i|] eqn:Hi; [|done]. cbn [mbind outcome_bind] in H.
  destruct (materialise given trd cs) as [rest|] eqn:Hr; [|done]. injection H as <-.
  destruct (IH rest eq_refl) as (Hb & Hid & Hre). clear IH. apply mat_epics_spec in Hes as (Heb & Heid & Here).
  pose proof Hi as Hi'. unfold mk_initiative in Hi'. apply checked in Hi' as [Hc1 Hi'], Hi' as [Hc2 Hi'], Hi' as [Hc3 Hi'].
  injection Hi' as Ei. apply check_id_ok in Hc1.
  assert (Hkey : init_key (i_title i) (i_why i) = init_key (n_title c) (n_why c)) by (rewrite <- Ei; apply init_key_trimmed).
  assert (Hii : i_id i = trimmed id) by by rewrite <- Ei. assert (Hes : i_epics i = es) by by rewrite <- Ei.
  cbn [map concat]. unfold init_entries at 1 3. rewrite Hkey, Hii, Hes. split_and!.
  - constructor; [|done]. rewrite <- Ei. by split.
  - intros h x [Hin|Hin]%in_app_iff; [|by apply Hid]. destruct Hin as [[= <- <-]|Hin]; [|by apply Heid]. unfold id_at. by rewrite Hl.
  - intros given' Hg. unfold lookup_id. rewrite (Hg _ (trimmed id)) by by left. cbn [mbind outcome_bind].
    rewrite Here by (intros h x Hin; apply Hg, in_app_iff; left; by right). cbn [mbind outcome_bind].
    assert (mk_initiative (trimmed id) (n_title c) (n_tier c) (n_priority c) (n_why c) es = Ok i) as ->.
    { rewrite <- Hi. unfold mk_initiative. by rewrite trimmed_idem. }
    cbn [mbind outcome_bind]. rewrite Hre; [done|]. intros h x Hin. apply Hg, in_app_iff. by right.
Qed.

(** Dependencies do not enter the keys. *)
Lemma entries_annotate deps is_ : entries (annotate deps is_) = entries is_.
Proof.
  assert (Hs : ∀ eid later ss, map (fun s => (story_key eid (s_title s), s_id s)) (annotate_stories deps later ss) =
                               map (fun s => (story_key eid (s_title s), s_id s)) ss).
  { intros eid later ss. induction ss as [|s ss IH]; [done|]. cbn. by rewrite IH. }
  assert (He : ∀ iid later es, concat (map (epic_entries iid) (annotate_epics deps later es)) = concat (map (epic_entries iid) es)).
  { intros iid later es. induction es as [|e es IH]; [done|]. cbn [annotate_epics map concat]. rewrite IH. f_equal.
    unfold epic_entries, story_entries. cbn [e_id e_title e_description e_stories]. by rewrite Hs. }
  unfold entries. induction is_ as [|i is_ IH]; [done|]. cbn [annotate map concat]. rewrite IH. f_equal.
  unfold init_entries. cbn [i_title i_why i_id i_epics]. by rewrite He.
Qed.

Lemma finish_retired hk kg prd trd is_ retired r :
  finish hk kg prd trd is_ retired = Ok r →
  (∃ deps, r_initiatives r = annotate deps is_) ∧
  finish hk kg prd trd is_ [] =
    Ok {| r_project := r_project r; r_prd_ref := r_prd_ref r; r_trd_ref := r_trd_ref r; r_initiatives := r_initiatives r;
          r_epics := r_epics r; r_stories := r_stories r; r_sprints := r_sprints r; r_created_by := "planner" |}.
Proof.
  unfold finish. destruct (Sprints.planned _ _ _) as [[deps sprints]|]; [|done].
  intros [H1 [H2 H]%checked]%checked. rewrite H1. cbn [mbind outcome_bind]. rewrite H2. cbn [mbind outcome_bind].
  injection H as <-. split; [by eexists|done].
Qed.

(** An epic as its title and the titles of its stories. *)
Definition epic_texts (e : Epic) : string * list string := (e_title e, map s_title (e_stories e)).
Definition candidate_texts (c : epic_candidate) : string * list string := (trimmed (c_title c), map trimmed (c_stories c)).

Lemma built_texts cs es : Forall2 epic_built cs es → map epic_texts es = map candidate_texts cs.
Proof.
  induction 1 as [|c e cs es [Ht _ _ Hs] _ IH]; [done|]. cbn [map]. rewrite IH. f_equal. unfold epic_texts, candidate_texts. rewrite Ht. f_equal.
  induction Hs as [|t s ts ss [Hst _] _ IHs]; [done|]. cbn [map]. by rewrite Hst, IHs.
Qed.

Lemma annotate_texts deps is_ : map epic_texts (epics_of (annotate deps is_)) = map epic_texts (epics_of is_).
Proof.
  assert (Hs : ∀ later ss, map s_title (annotate_stories deps later ss) = map s_title ss).
  { intros later ss. induction ss as [|s ss IH]; [done|]. cbn. by rewrite IH. }
  assert (He : ∀ later es, map epic_texts (annotate_epics deps later es) = map epic_texts es).
  { intros later es. induction es as [|e es IH]; [done|]. cbn [annotate_epics map]. rewrite IH. f_equal. unfold epic_texts. cbn [e_title e_stories]. by rewrite Hs. }
  unfold epics_of. induction is_ as [|i is_ IH]; [done|]. cbn [annotate map concat i_epics]. by rewrite !map_app, IH, He.
Qed.

Lemma finish_parts hk kg prd trd is_ retired r :
  finish hk kg prd trd is_ retired = Ok r →
  r_epics r = epics_of (r_initiatives r) ∧ r_stories r = stories_of (r_initiatives r) ∧
  ∃ deps, Sprints.planned hk kg (map brief (stories_of is_)) = Some (deps, r_sprints r).
Proof.
  unfold finish. destruct (Sprints.planned _ _ _) as [[deps sprints]|]; [|done]. intros [_ [_ H]%checked]%checked. injection H as <-. split_and!; [done..|].
  by exists deps.
Qed.

Lemma annotate_ids deps is_ : map s_id (stories_of (annotate deps is_)) = map s_id (stories_of is_).
Proof.
  assert (Hs : ∀ later ss, map s_id (annotate_stories deps later ss) = map s_id ss).
  { intros later ss. induction ss as [|s ss IH]; [done|]. cbn. by rewrite IH. }
  assert (He : ∀ later es, map s_id (concat (map e_stories (annotate_epics deps later es))) = map s_id (concat (map e_stories es))).
  { intros later es. induction es as [|e es IH]; [done|]. cbn [annotate_epics map concat e_stories]. by rewrite !map_app, IH, Hs. }
  unfold stories_of, epics_of. induction is_ as [|i is_ IH]; [done|]. cbn [annotate map concat i_epics].
  by rewrite !map_app, !concat_app, !map_app, IH, He.
Qed.

(** C37: Decomposing loses nothing and adds nothing.  The epics of a roadmap, with their
    stories, are exactly those the TRD's components, integrations and requirements call for,
    each once, whatever the clusters of goals they were dealt to; and the sprint plan holds
    exactly the ids of those stories. *)
Theorem decompose_complete hk kg prd trd existing r :
  decompose hk kg prd trd existing = Ok r →
  map epic_texts (r_epics r) ≡ₚ map candidate_texts (epic_candidates_from_trd trd) ∧
  r_epics r = epics_of (r_initiatives r) ∧ r_stories r = stories_of (r_initiatives r) ∧
  ∀ id, id ∈ Sprints.all_members (r_sprints r) ↔ id ∈ map s_id (r_stories r).
Proof.
  unfold decompose. destruct (negb _); [done|]. set (shape := initiatives_from_prd prd trd).
  destruct (allocate_ids shape _) as [alloc|]; [|done]. cbn [mbind outcome_bind].
  destruct (materialise (assigned alloc) trd shape) as [is_|] eqn:Hm; [|done]. cbn [mbind outcome_bind]. intros Hf.
  destruct (finish_parts _ _ _ _ _ _ _ Hf) as (Hre & Hrs & deps & Hplan). apply finish_retired in Hf as ((ds & Hr) & _).
  apply materialise_spec in Hm as (Hb & _ & _). split_and!; [|done..|].
  - rewrite Hre, Hr, annotate_texts, (built_texts (concat (map n_epics shape))).
    + apply Permutation_map, shape_epics. unfold epic_candidates_from_trd. by destruct (_ ++ _ ++ _).
    + unfold epics_of. clear -Hb. induction Hb as [|c i cs js [_ _ _ He] _ IH]; [constructor|]. cbn [map concat]. by apply Forall2_app.
  - intros id. rewrite Hrs, Hr, annotate_ids.
    destruct (Sprints.plan_facts hk kg (map brief (stories_of is_)) deps (r_sprints r) Hplan) as (_ & Hin). rewrite Hin, map_map. done.
Qed.

(** * The artifact's checks *)

(** What the validators of [Story], [Epic] and [Initiative] ask for; the dependencies are
    written after the checks ran. *)
Definition valid_story (ids : list string) (s : Story) : bool :=
  Regex.match_ STORY_RE (s_id s) && negb (is_empty_or_tbd (s_title s)) && negb (is_empty_or_tbd (s_duration s)) && (0 <=? s_cost s) &&
  forallb (fun d => Regex.match_ STORY_RE d && in_strs d ids) (s_dependencies s).
Definition valid_epic (ids : list string) (e : Epic) : bool :=
  Regex.match_ EPIC_RE (e_id e) && negb (is_empty_or_tbd (e_title e)) && negb (is_empty_or_tbd (e_description e)) &&
  forallb (valid_story ids) (e_stories e).
Definition valid_initiative (ids : list string) (i : Initiative) : bool :=
  Regex.match_ INIT_RE (i_id i) && negb (is_empty_or_tbd (i_title i)) && negb (is_empty_or_tbd (i_why i)) &&
  (1 <=? i_tier i) && (i_tier i <=? 4) && forallb (valid_epic ids) (i_epics i).
Definition valid_roadmap (r : RoadmapV1) : bool :=
  let ids := map s_id (r_stories r) in
  negb (is_empty_or_tbd (r_project r)) && forallb (valid_initiative ids) (r_initiatives r) &&
  forallb (fun sp => (1 <=? Sprints.number sp) && forallb (fun id => Regex.match_ STORY_RE id && in_strs id ids) (Sprints.members sp)) (r_sprints r).

Lemma check_text_ok v : check_text v = Ok tt → negb (is_empty_or_tbd v) = true.
Proof. unfold check_text. by destruct (is_empty_or_tbd v). Qed.

Lemma mat_stories_valid given trd eid prio kind titles ss ids :
  mat_stories given trd eid prio kind titles = Ok ss → forallb (valid_story ids) ss = true.
Proof.
  revert ss. induction titles as [|t ts IH]; intros ss H; [by injection H as <-|]. cbn [mat_stories] in H.
  destruct (lookup_id _ _) as [id|]; [|done]. cbn [mbind outcome_bind] in H.
  assert (Hcost : (0 <=? estimated_cost_usd (estimate_size t (trd_slice_for kind trd) [])) = true).
  { unfold estimate_size. cbn [estimated_cost_usd]. by destruct (points_to_size _). }
  revert H Hcost. generalize (estimate_size t (trd_slice_for kind trd) []) as sz. intros sz H Hcost.
  destruct (mk_story id t _ _ _ _ _) as [s|] eqn:Hs; [|done]. cbn [mbind outcome_bind] in H.
  destruct (mat_stories given trd eid prio kind ts) as [rest|]; [|done]. injection H as <-. cbn [forallb]. rewrite (IH rest eq_refl), andb_true_r.
  unfold mk_story in Hs. apply checked in Hs as [Hc1%check_id_ok Hs], Hs as [Hc2%check_text_ok Hs], Hs as [Hc3%check_text_ok Hs]. injection Hs as <-.
  unfold valid_story. cbn [s_id s_title s_duration s_dependencies s_cost forallb]. by rewrite Hc1, Hc2, Hc3, Hcost.
Qed.

Lemma mat_epics_valid given trd iid prio cs es ids :
  mat_epics given trd iid prio cs = Ok es → forallb (valid_epic ids) es = true.
Proof.
  revert es. induction cs as [|c cs IH]; intros es H; [by injection H as <-|]. cbn [mat_epics] in H.
  destruct (lookup_id _ _) as [id|]; [|done]. cbn [mbind outcome_bind] in H.
  destruct (mat_stories _ _ _ _ _ _) as [ss|] eqn:Hss; [|done]. cbn [mbind outcome_bind] in H.
  destruct (mk_epic id _ _ _) as [e|] eqn:He; [|done]. cbn [mbind outcome_bind] in H.
  destruct (mat_epics given trd iid prio cs) as [rest|]; [|done]. injection H as <-. cbn [forallb]. rewrite (IH rest eq_refl), andb_true_r.
  unfold mk_epic in He. apply checked in He as [Hc1%check_id_ok He], He as [Hc2%check_text_ok He], He as [Hc3%check_text_ok He]. injection He as <-.
  unfold valid_epic. cbn [e_id e_title e_description e_stories]. by rewrite Hc1, Hc2, Hc3, (mat_stories_valid _ _ _ _ _ _ _ ids Hss).
Qed.

(** Every candidate's tier is one of four. *)
Definition tier_ok (c : init_candidate) : bool := (1 <=? n_tier c) && (n_tier c <=? 4).

Lemma materialise_valid given trd cs is_ ids :
  forallb tier_ok cs = true → materialise given trd cs = Ok is_ → forallb (valid_initiative ids) is_ = true.
Proof.
  revert is_. induction cs as [|c cs IH]; intros is_ Ht H; [by injection H as <-|]. cbn [materialise forallb] in *.
  apply andb_true_iff in Ht as [[Ht1 Ht2]%andb_true_iff Ht]. destruct (lookup_id _ _) as [id|]; [|done]. cbn [mbind outcome_bind] in H.
  destruct (mat_epics _ _ _ _ _) as [es|] eqn:Hes; [|done]. cbn [mbind outcome_bind] in H.
  destruct (mk_initiative id _ _ _ _ _) as [i|] eqn:Hi; [|done]. cbn [mbind outcome_bind] in H.
  destruct (materialise given trd cs) as [rest|]; [|done]. injection H as <-. cbn [forallb]. rewrite (IH rest Ht eq_refl), andb_true_r.
  unfold mk_initiative in Hi. apply checked in Hi as [Hc1%check_id_ok Hi], Hi as [Hc2%check_text_ok Hi], Hi as [Hc3%check_text_ok Hi]. injection Hi as <-.
  unfold valid_initiative. cbn [i_id i_title i_why i_tier i_epics]. by rewrite Hc1, Hc2, Hc3, Ht1, Ht2, (mat_epics_valid _ _ _ _ _ _ ids Hes).
Qed.

Lemma tier_candidates_ok prd pool label prio k cidx ctotal clusters cursor :
  forallb tier_ok (tier_candidates prd pool label prio k cidx ctotal clusters cursor).1 = true.
Proof.
  revert cidx cursor. induction clusters as [|c cs IH]; intros cidx cursor; [done|]. cbn [tier_candidates].
  specialize (IH (cidx + 1) (cursor + k)%nat). destruct (tier_candidates _ _ _ _ _ _ _ cs _) as [rest c']. cbn [fst forallb] in *.
  rewrite IH, andb_true_r. by destruct prio.
Qed.

Lemma shape_tiers_ok prd pool : forallb tier_ok (shape_of prd pool) = true.
Proof.
  assert (H : ∀ ts cursor, forallb tier_ok (all_tiers prd pool ts cursor).1 = true).
  { induction ts as [|[[label goals] prio] ts IH]; intros cursor; cbn [all_tiers]; [done|]. destruct goals as [|g gs]; [apply IH|]. set (k := Nat.max 1 _).
    pose proof (tier_candidates_ok prd pool label prio k 1 (Z.of_nat (length (cluster_goals (g :: gs)))) (cluster_goals (g :: gs)) cursor) as Ht.
    destruct (tier_candidates _ _ _ _ _ _ _ _ _) as [here c1]. specialize (IH c1). destruct (all_tiers _ _ ts c1) as [rest c2]. cbn [fst] in *.
    by rewrite forallb_app, Ht, IH. }
  unfold shape_of. specialize (H (tiers prd) 0%nat). destruct (all_tiers _ _ _ _) as [[|i is_] cursor]; [done|]. cbn [fst forallb] in *. exact H.
Qed.

(** Writing dependencies that are story ids keeps the checks. *)
Lemma annotate_valid deps is_ ids :
  (∀ id d, d ∈ deps id → Regex.match_ STORY_RE d = true ∧ d ∈ ids) →
  forallb (valid_initiative ids) is_ = true → forallb (valid_initiative ids) (annotate deps is_) = true.
Proof.
  intros Hd. assert (Hs : ∀ later ss, forallb (valid_story ids) ss = true → forallb (valid_story ids) (annotate_stories deps later ss) = true).
  { intros later ss. induction ss as [|s ss IH]; [done|]. cbn [annotate_stories forallb]. intros [Hv Hss]%andb_true_iff.
    rewrite (IH Hss), andb_true_r. unfold valid_story in *. cbn [with_deps s_id s_title s_duration s_cost s_dependencies].
    apply andb_true_iff in Hv as [-> Hv]. cbn [andb]. destruct (in_strs _ _); [exact Hv|]. apply forallb_forall. intros d Hin.
    apply list_elem_of_In, Hd in Hin as [-> Hin]. by apply in_strs_true in Hin as ->. }
  assert (He : ∀ later es, forallb (valid_epic ids) es = true → forallb (valid_epic ids) (annotate_epics deps later es) = true).
  { intros later es. induction es as [|e es IH]; [done|]. cbn [annotate_epics forallb]. intros [Hv Hes]%andb_true_iff. rewrite (IH Hes), andb_true_r.
    unfold valid_epic in *. cbn [e_id e_title e_description e_stories]. apply andb_true_iff in Hv as [-> Hv]. by rewrite (Hs _ _ Hv). }
  induction is_ as [|i is_ IH]; [done|]. cbn [annotate forallb]. intros [Hv His]%andb_true_iff. rewrite (IH His), andb_true_r.
  unfold valid_initiative in *. cbn [i_id i_title i_why i_tier i_epics]. apply andb_true_iff in Hv as [-> Hv]. by rewrite (He _ _ Hv).
Qed.

Lemma stories_valid ids is_ s : forallb (valid_initiative ids) is_ = true → s ∈ stories_of is_ → Regex.match_ STORY_RE (s_id s) = true.
Proof.
  intros H Hs. unfold stories_of, epics_of in Hs. apply Sprints.in_concat_map in Hs as (e & He & Hs).
  rewrite <- (map_id (map i_epics is_)) in He. apply Sprints.in_concat_map in He as (es & (i & -> & Hi)%list_elem_of_fmap & He).
  rewrite forallb_forall in H. apply list_elem_of_In, H in Hi. unfold valid_initiative in Hi. apply andb_true_iff in Hi as [_ Hi].
  rewrite forallb_forall in Hi. apply list_elem_of_In, Hi in He. unfold valid_epic in He. apply andb_true_iff in He as [_ He].
  rewrite forallb_forall in He. apply list_elem_of_In, He in Hs. unfold valid_story in Hs. rewrite !andb_true_iff in Hs. by destruct_and!.
Qed.

(** The initiatives without the dependencies of their stories. *)
Definition bare_epic (e : Epic) : Epic :=
  {| e_id := e_id e; e_title := e_title e; e_description := e_description e; e_stories := map (fun s => with_deps s []) (e_stories e) |}.
Definition bare (is_ : list Initiative) : list Initiative :=
  map (fun i => {| i_id := i_id i; i_title := i_title i; i_tier := i_tier i; i_priority := i_priority i; i_why := i_why i;
                   i_epics := map bare_epic (i_epics i) |}) is_.

Lemma bare_annotate deps is_ : bare (annotate deps is_) = bare is_.
Proof.
  assert (Hs : ∀ later ss, map (fun s => with_deps s []) (annotate_stories deps later ss) = map (fun s => with_deps s []) ss).
  { intros later ss. induction ss as [|s ss IH]; [done|]. cbn. by rewrite IH. }
  assert (He : ∀ later es, map bare_epic (annotate_epics deps later es) = map bare_epic es).
  { intros later es. induction es as [|e es IH]; [done|]. cbn [annotate_epics map]. rewrite IH. f_equal.
    unfold bare_epic. cbn [e_id e_title e_description e_stories]. by rewrite Hs. }
  unfold bare. induction is_ as [|i is_ IH]; [done|]. cbn [annotate map i_epics i_id i_title i_tier i_priority i_why]. by rewrite IH, He.
Qed.

Lemma check_sprints_ok sps :
  (∀ id, id ∈ Sprints.all_members sps → Regex.match_ STORY_RE id = true) → check_sprints sps = Ok tt.
Proof.
  unfold Sprints.all_members. induction sps as [|sp sps IH]; [done|]. cbn [map concat check_sprints]. intros H.
  assert (check_sprint sp = Ok tt) as ->.
  { unfold check_sprint. assert (forallb (Regex.match_ STORY_RE) (Sprints.members sp) = true) as ->; [|done].
    apply forallb_forall. intros id Hid%list_elem_of_In. apply H, elem_of_app. by left. }
  cbn [mbind outcome_bind]. apply IH. intros id Hid. apply H, elem_of_app. by right.
Qed.

(** Initiatives one knowledge graph has finished can be finished with any. *)
Lemma finish_again hk kg hk' kg' prd trd is_ r :
  (∀ s, s ∈ stories_of is_ → Regex.match_ STORY_RE (s_id s) = true) →
  finish hk kg prd trd is_ [] = Ok r →
  ∃ r', finish hk' kg' prd trd is_ [] = Ok r' ∧ bare (r_initiatives r') = bare (r_initiatives r) ∧
    r_project r' = r_project r ∧ r_prd_ref r' = r_prd_ref r ∧ r_trd_ref r' = r_trd_ref r ∧ r_created_by r' = "planner" ∧
    (hk' = hk → (∀ names x, x ∈ kg' names ↔ x ∈ kg names) → r' = r).
Proof.
  intros Hids Hf.
  destruct (Sprints.planned_spec hk' kg' (map brief (stories_of is_))) as (cs & o & Hp & _).
  pose proof (Sprints.plan_facts _ _ _ _ _ Hp) as (_ & Hin).
  assert (Hc : check_sprints (Sprints.sprints_of o) = Ok tt).
  { apply check_sprints_ok. intros id. rewrite Hin, map_map. intros (s & -> & Hs)%list_elem_of_fmap. by apply Hids. }
  assert (Hsame : hk' = hk → (∀ names x, x ∈ kg' names ↔ x ∈ kg names) → finish hk' kg' prd trd is_ [] = finish hk kg prd trd is_ []).
  { intros -> Hkg. unfold finish, Sprints.planned, Dependencies.detect_dependencies. by rewrite (Dependencies.edges_same hk kg kg'). }
  pose proof Hf as Hf0. unfold finish in Hf. destruct (Sprints.planned hk kg _) as [[deps sprints]|]; [|done].
  apply checked in Hf as [_ Hf], Hf as [Ht Hf]. injection Hf as <-.
  eexists. split; [unfold finish; rewrite Hp, Hc; cbn [mbind outcome_bind]; by rewrite Ht|].
  cbn. rewrite !bare_annotate. split_and!; [done..|]. intros Hh Hkg. specialize (Hsame Hh Hkg). rewrite Hf0 in Hsame.
  unfold finish in Hsame. rewrite Hp, Hc in Hsame. cbn [mbind outcome_bind] in Hsame. rewrite Ht in Hsame. cbn [mbind outcome_bind] in Hsame.
  apply (f_equal (fun o => match o with Ok x => Some x | Raise _ => None end)) in Hsame. by apply (inj Some) in Hsame.
Qed.

(** C35: Decomposing is stable.  When the PRD and the TRD have a roadmap, whatever roadmap it
    started from, decomposing them again with it as the existing roadmap succeeds, whatever
    the knowledge graph says this time, and gives the same initiatives, epics and stories
    with the same ids and sizes, and retires no id.  When the graph is asked in both runs or
    in neither, and gives for every set of names the same set, the dependencies and the
    sprints are the same as well. *)
Theorem decompose_again hk kg prd trd existing r :
  decompose hk kg prd trd existing = Ok r → ∀ hk' kg',
  ∃ r', decompose hk' kg' prd trd (Some r) = Ok r' ∧ bare (r_initiatives r') = bare (r_initiatives r) ∧
    r_project r' = r_project r ∧ r_prd_ref r' = r_prd_ref r ∧ r_trd_ref r' = r_trd_ref r ∧ r_created_by r' = "planner" ∧
    (hk' = hk → (∀ names x, x ∈ kg' names ↔ x ∈ kg names) →
     r' = {| r_project := r_project r; r_prd_ref := r_prd_ref r; r_trd_ref := r_trd_ref r; r_initiatives := r_initiatives r;
             r_epics := r_epics r; r_stories := r_stories r; r_sprints := r_sprints r; r_created_by := "planner" |}).
Proof.
  unfold decompose. destruct (negb _); [done|]. set (shape := initiatives_from_prd prd trd).
  destruct (allocate_ids shape _) as [alloc|] eqn:Ha; [|done]. cbn [mbind outcome_bind].
  destruct (materialise (assigned alloc) trd shape) as [is_|] eqn:Hm; [|done]. cbn [mbind outcome_bind]. intros Hf hk' kg'.
  assert (Hids : ∀ s, s ∈ stories_of is_ → Regex.match_ STORY_RE (s_id s) = true).
  { intros s. apply (stories_valid []), (materialise_valid _ _ _ _ [] (shape_tiers_ok prd _) Hm). }
  apply finish_retired in Hf as ((deps & Hr) & Hf). apply materialise_spec in Hm as (Hb & Hid & Hre).
  assert (allocate_ids shape (r_initiatives <$> Some r) = allocate_ids shape (Some is_)) as ->.
  { unfold allocate_ids, existing_index. cbn [fmap option_fmap option_map]. by rewrite Hr, entries_annotate. }
  rewrite (allocate_known _ _ (id_at (assigned alloc)) Hb Hid). cbn [mbind outcome_bind assigned retired_ids].
  rewrite Hre; [exact (finish_again hk kg hk' kg' prd trd is_ _ Hids Hf)|]. intros h id Hin.
  pose proof (dict_update_functional (id_at (assigned alloc)) [] (entries is_) Hid ltac:(done) h) as Hd.
  rewrite bool_decide_eq_true_2 in Hd; [|apply list_elem_of_In, in_map_iff; by exists (h, id)]. rewrite <- (Hid h id Hin). exact Hd.
Qed.

(** C36: A roadmap is well-formed.  Whatever roadmap [decompose] returns passes every check of
    the artifact, also the checks of the dependencies, which are written into the stories
    after those ran: every id has its pattern, no text is empty or to be done, tiers and costs
    are in range, and each dependency and each entry of a sprint is the id of a story of the
    roadmap. *)
Theorem decompose_well_formed hk kg prd trd existing r :
  decompose hk kg prd trd existing = Ok r → valid_roadmap r = true.
Proof.
  unfold decompose. destruct (negb _); [done|]. destruct (allocate_ids _ _) as [alloc|]; [|done]. cbn [mbind outcome_bind].
  destruct (materialise (assigned alloc) trd _) as [is_|] eqn:Hm; [|done]. cbn [mbind outcome_bind]. intros Hf.
  set (ids := map s_id (stories_of is_)). apply (materialise_valid _ _ _ _ ids (shape_tiers_ok prd _)) in Hm.
  destruct (finish_parts _ _ _ _ _ _ _ Hf) as (_ & Hrs & deps' & Hplan').
  unfold finish in Hf. rewrite Hplan' in Hf. apply checked in Hf as [_ Hf], Hf as [Hp%check_text_ok Hf].
  set (ds := Sprints.apply_dependencies _ _) in Hf.
  assert (Hids : map s_id (r_stories r) = ids) by (rewrite Hrs; injection Hf as <-; apply annotate_ids).
  assert (Hmem : ∀ x, x ∈ ids → Regex.match_ STORY_RE x = true).
  { intros x (s & -> & Hs)%list_elem_of_fmap. by eapply stories_valid. }
  unfold valid_roadmap. rewrite Hids. assert (r_initiatives r = annotate ds is_ ∧ r_project r = trimmed (q_project prd)) as [-> ->] by (by injection Hf as <-).
  rewrite (annotate_valid ds is_ ids); [| |done].
  - unfold is_empty_or_tbd in *. rewrite strip_trimmed, Hp. cbn [andb]. apply forallb_forall. intros sp Hsp%list_elem_of_In.
    pose proof (Sprints.plan_numbers hk kg _ deps' (r_sprints r) Hplan' sp Hsp) as Hnum. apply andb_true_iff. split; [lia|].
    apply forallb_forall. intros x Hx%list_elem_of_In. assert (Hin : x ∈ ids).
    { destruct (Sprints.plan_facts hk kg _ deps' (r_sprints r) Hplan') as (_ & Hin). rewrite map_map in Hin. apply Hin.
      apply Sprints.in_concat_map. by exists sp. }
    by rewrite (Hmem x Hin), (proj2 (in_strs_true _ _) Hin).
  - intros id d Hd. apply Sprints.apply_dependencies_spec in Hd as (e & _ & _ & _ & _ & Hd). rewrite map_map in Hd. split; [by apply Hmem|done].
Qed.

(** * An example *)
Definition demo_prd : PRDv1 :=
  {| q_project := "acme"; q_name := "Acme"; q_problem := "Slow invoices"; q_must := ["Send invoices fast. Really."]; q_should := []; q_could := [] |}.
Definition trd_of (components : list Component) (integrations : list Integration) (performance_ : string) : TRDv1 :=
  {| t_project := "acme"; t_overview := "A web app"; t_data_flow := "Browser to API"; t_components := components; t_integrations := integrations;
     t_nfrs := {| performance := performance_; security := ""; scalability := ""; observability := ""; cost := "" |} |}.
Definition part (name : string) (technology : option string) : Component :=
  {| p_name := name; p_responsibility := "Keeps accounts"; p_technology := technology |}.
Definition stripe : Integration := {| g_name := "Stripe"; g_direction := OUTBOUND; g_protocol := "REST"; g_auth := "key" |}.
Definition demo_trd : TRDv1 := trd_of [part "Ledger" None] [stripe] "".

Definition ids_of (r : outcome exn RoadmapV1) : list (string * Size) :=
  match r with Ok r => map (fun s => (s_id s, s_size s)) (r_stories r) | Raise _ => [] end.

Definition demo_ids : list (string * Size) :=
  [("STORY-1.1.1", XS); ("STORY-1.1.2", XS); ("STORY-1.1.3", S_); ("STORY-1.2.1", M); ("STORY-1.2.2", S_)].

(** What the demo decomposes to. *)
Definition demo_result : outcome exn RoadmapV1 := Eval vm_compute in decompose true (fun _ => []) demo_prd demo_trd None.
Definition demo_roadmap : RoadmapV1 := Eval vm_compute in
  match demo_result with
  | Ok r => r
  | Raise _ => {| r_project := ""; r_prd_ref := ""; r_trd_ref := ""; r_initiatives := []; r_epics := []; r_stories := [];
                  r_sprints := []; r_created_by := "" |}
  end.

Lemma demo_decomposed : decompose true (fun _ => []) demo_prd demo_trd None = Ok demo_roadmap.
Proof. vm_compute. reflexivity. Qed.

Lemma decompose_again_witness :
  ids_of (Ok demo_roadmap) = demo_ids ∧ decompose true (fun _ => []) demo_prd demo_trd (Some demo_roadmap) = Ok demo_roadmap.
Proof.
  split; [reflexivity|].
  destruct (decompose_again true (fun _ => []) demo_prd demo_trd None demo_roadmap demo_decomposed true (fun _ => []))
    as (r' & H & _ & _ & _ & _ & _ & Hsame).
  rewrite H, (Hsame eq_refl (fun _ _ => iff_refl _)). reflexivity.
Defined.

Lemma decompose_well_formed_witness :
  decompose true (fun _ => []) demo_prd demo_trd None = Ok demo_roadmap ∧ valid_roadmap demo_roadmap = true.
Proof. split; [exact demo_decomposed|]. exact (decompose_well_formed true (fun _ => []) demo_prd demo_trd None demo_roadmap demo_decomposed). Defined.

Lemma decompose_complete_witness :
  decompose true (fun _ => []) demo_prd demo_trd None = Ok demo_roadmap ∧
  map epic_texts (r_epics demo_roadmap) ≡ₚ map candidate_texts (epic_candidates_from_trd demo_trd).
Proof. split; [exact demo_decomposed|]. exact (proj1 (decompose_complete true (fun _ => []) demo_prd demo_trd None demo_roadmap demo_decomposed)). Defined.

(** The knowledge graph is asked for at most eight of a story's names, the first ones in an
    order that Python gives to the set: another order gives other dependencies. *)
Example another_order :
  let names := ["n1"; "n2"; "n3"; "n4"; "n5"; "n6"; "n7"; "n8"; "n9"] in
  let ask name := if String.eqb name "n9" then Some [("app/ledger.py", "")] else Some [] in
  let impact order := Dependencies.kg_impact_for order ask (Some "acme") (Some "acme/app") names in
  impact id = [] ∧ impact (@rev string) = ["app/ledger.py"].
Proof. vm_compute. split; reflexivity. Qed.

(** Two components whose names differ in case only get the same ids: six stories, three ids. *)
Example twins_share_ids :
  map fst (ids_of (decompose true (fun _ => []) demo_prd (trd_of [part "API" None; part "Api" None] [] "") None)) =
  ["STORY-1.2.1"; "STORY-1.2.2"; "STORY-1.2.3"; "STORY-1.2.1"; "STORY-1.2.2"; "STORY-1.2.3"].
Proof. vm_compute. reflexivity. Qed.

(** Two components with the same epic title and different stories: the lookup fails. *)
Example twins_raise :
  decompose true (fun _ => []) demo_prd (trd_of [part "API" (Some "Go"); part "API (Go)" None] [] "") None = Raise KeyError.
Proof. vm_compute. reflexivity. Qed.

(** A TRD may leave a non-functional requirement open; the roadmap then fails its checks. *)
Example open_requirement_raises : decompose true (fun _ => []) demo_prd (trd_of [] [] "TBD") None = Raise ValidationError.
Proof. vm_compute. reflexivity. Qed.
End Decomposer.
