(* ===== verification/IdsUnique.v ===== *)
(** The ids the allocation gives: what an allocation is row by row, and that no id is given
    twice or reused.  Continues [Ids] and [Decomposer]. *)

From S2P Require Import Prelude PyValue Text Crypto Regex Sprints Ids Decomposer.
From Stdlib Require Import Ascii.
Local Open Scope Z_scope.

Module IdsUnique.
Import Ids Decomposer.

Lemma app_str_inj_r (p a b : string) : a +:+ p = b +:+ p → a = b.
Proof.
  revert b. induction a as [|c a IH]; intros [|d b] E; rewrite ?app_empty, ?app_cons in E.
  - done.
  - exfalso. apply (f_equal String.length) in E. cbn in E. rewrite length_app_str in E. lia.
  - exfalso. apply (f_equal String.length) in E. cbn in E. rewrite length_app_str in E. lia.
  - injection E as -> E. f_equal. by apply IH.
Qed.

(** * One loop of the allocation *)
Section Mint.
Context (prior : dict).

(** The ids a loop gives to the keys [hs]. *)
Fixpoint mint (p : string) (next : Z) (hs : list string) : list string :=
  match hs with
  | [] => []
  | h :: hs' => id_for prior h (p +:+ str_of_Z next) :: mint p (bump prior h next) hs'
  end.

(** No two keys of [prior] share an id, and none has the empty one. *)
Definition one_key : Prop := ∀ h h' id, dict_lookup h prior = Some id → dict_lookup h' prior = Some id → h = h'.
Definition no_empty : Prop := ∀ h id, dict_lookup h prior = Some id → id ≠ "".

Lemma max_index_ge0 p : 0 <= max_index prior p.
Proof.
  unfold max_index. set (f := fun (out : Z) '(_, sid) => match drop_prefix p sid with
    | None => out | Some rest => match int_of_str 10 (before "." rest) with Some n => Z.max out n | None => out end end).
  enough (H : ∀ l (z : Z), z <= fold_left f l z) by apply H.
  induction l as [|[h sid] l IH]; intros z; [done|]. cbn [fold_left]. etrans; [|apply IH]. subst f. cbn.
  destruct (drop_prefix p sid) as [r|]; [|done]. destruct (int_of_str 10 _); lia.
Qed.

Lemma before_digits s : all_chars is_digit s = true → before "." s = s.
Proof. intros H. unfold before. by rewrite cut_none by by apply digits_no_char. Qed.

Lemma drop_prefix_app p s : drop_prefix p (p +:+ s) = Some s.
Proof. induction p as [|c p IH]; [done|]. rewrite app_cons. cbn [drop_prefix]. by rewrite Ascii.eqb_refl. Qed.

(** A number above the largest of a prefix makes an id that is not there. *)
Lemma minted_is_new p k h : max_index prior p < k → dict_lookup h prior ≠ Some (p +:+ str_of_Z k).
Proof.
  intros Hk Hl. assert (Hin : In (h, p +:+ str_of_Z k) prior).
  { clear Hk. induction prior as [|[h1 v] d IH]; [done|]. cbn in Hl. destruct (String.eqb_spec h h1) as [->|]; [injection Hl as ->; by left|right; auto]. }
  pose proof (max_index_ge0 p) as H0. revert Hk. unfold max_index.
  set (f := fun (out : Z) '(_, sid) => match drop_prefix p sid with
    | None => out | Some rest => match int_of_str 10 (before "." rest) with Some n => Z.max out n | None => out end end).
  assert (Hmono : ∀ l (z : Z), z <= fold_left f l z).
  { induction l as [|[h1 sid] l IH]; intros z; [done|]. cbn [fold_left]. etrans; [|apply IH]. subst f. cbn.
    destruct (drop_prefix p sid) as [r|]; [|done]. destruct (int_of_str 10 _); lia. }
  assert (H : ∀ l z, In (h, p +:+ str_of_Z k) l → 0 <= k → k <= fold_left f l z).
  { induction l as [|x l IH]; intros z Hl' Hk0; [done|]. cbn [fold_left]. destruct Hl' as [->|Hl']; [|by apply IH].
    etrans; [|apply Hmono]. subst f. cbn [fst snd]. rewrite drop_prefix_app, before_digits by by apply str_of_Z_digits.
    rewrite int_of_str_str_of_Z by done. lia. }
  intros Hk. fold f in H0. specialize (H prior 0 Hin). unfold max_index in H0. fold f in H0. lia.
Qed.

(** An id of a loop is the one its key had, or a new one above [next]. *)
Lemma mint_cases p next hs x :
  no_empty → x ∈ mint p next hs →
  (∃ h, h ∈ hs ∧ dict_lookup h prior = Some x) ∨ (∃ k, next <= k ∧ x = p +:+ str_of_Z k).
Proof.
  intros Hne. revert next. induction hs as [|h hs IH]; intros next; [by intros ?%elem_of_nil|]. cbn [mint].
  intros [->|Hx]%elem_of_cons.
  - unfold id_for. destruct (dict_lookup h prior) as [id|] eqn:E; [|right; by exists next].
    destruct (String.eqb_spec id "") as [->|]; [by apply Hne in E|]. left. exists h. by split; [left|].
  - apply IH in Hx as [(h' & Hh & E)|(k & Hk & E)]; [left; exists h'; by split; [right|]|right; exists k].
    split; [|done]. unfold bump in Hk. destruct (dict_has h prior); lia.
Qed.

Lemma app_str_inj (p a b : string) : p +:+ a = p +:+ b → a = b.
Proof. induction p as [|c p IH]; [done|]. rewrite !app_cons. intros [= E]. auto. Qed.

Lemma mint_nodup p next hs :
  no_empty → one_key → max_index prior p < next → NoDup hs → NoDup (mint p next hs).
Proof.
  intros Hne Hone. revert next. induction hs as [|h hs IH]; intros next Hn Hnd; [constructor|]. cbn [mint].
  apply NoDup_cons in Hnd as [Hh Hnd]. constructor; [|apply IH; [|done]; unfold bump; destruct (dict_has h prior); lia].
  intros Hx. apply mint_cases in Hx; [|done]. pose proof (max_index_ge0 p) as H0. unfold id_for, bump, dict_has in Hx.
  destruct (dict_lookup h prior) as [id|] eqn:E.
  - destruct (String.eqb_spec id "") as [->|Hid]; [by apply Hne in E|].
    destruct Hx as [(h' & Hh' & E')|(k & Hk & ->)].
    + by rewrite (Hone h h' id E E') in Hh.
    + apply (minted_is_new p k h) in E; [done|lia].
  - destruct Hx as [(h' & Hh' & E')|(k & Hk & Ek)].
    + apply (minted_is_new p next h') in E'; [done|lia].
    + apply app_str_inj, str_of_Z_inj in Ek; lia.
Qed.

(** * Several loops *)

(** A prefix that does not end in a digit. *)
Definition ends_plain (p : string) : Prop := ∃ q c, p = q +:+ str1 c ∧ is_digit c = false.

Lemma plain_prefix_inj p p' a b :
  ends_plain p → ends_plain p' → all_chars is_digit a = true → all_chars is_digit b = true → p +:+ a = p' +:+ b → p = p'.
Proof.
  intros (q & c & -> & Hc) (q' & c' & -> & Hc') Ha Hb. rewrite !app_assoc_str, !app_str1.
  revert q'. induction q as [|d q IH]; intros [|d' q'] E; rewrite ?app_empty, ?app_cons in *.
  - by injection E as -> _.
  - injection E as -> ->. exfalso. rewrite all_chars_app in Ha. cbn in Ha. rewrite Hc', andb_false_r in Ha. done.
  - injection E as -> <-. exfalso. rewrite all_chars_app in Hb. cbn in Hb. rewrite Hc, andb_false_r in Hb. done.
  - injection E as -> E. f_equal. by apply IH.
Qed.

Definition group (g : string * list string) : list string := mint g.1 (max_index prior g.1 + 1) g.2.

Lemma groups_nodup (gs : list (string * list string)) :
  no_empty → one_key → (∀ g, g ∈ gs → ends_plain g.1) → NoDup (map fst gs) → NoDup (concat (map snd gs)) →
  NoDup (concat (map group gs)).
Proof.
  intros Hne Hone. induction gs as [|[p hs] gs IH]; intros Hp Hps Hhs; [constructor|]. cbn [map concat fst snd] in *.
  apply NoDup_cons in Hps as [Hp' Hps]. apply NoDup_app in Hhs as (Hhs & Hdis & Hrest). apply NoDup_app. split_and!.
  - apply mint_nodup; [done..| |done]. cbn [fst]. lia.
  - intros x Hx Hy. apply list_elem_of_In, in_concat in Hy as (ids & (g & <- & Hg)%in_map_iff & Hy).
    apply list_elem_of_In in Hg. apply list_elem_of_In in Hy. unfold group in Hx, Hy. cbn [fst snd] in Hx. pose proof (max_index_ge0 p). pose proof (max_index_ge0 g.1).
    apply mint_cases in Hx as [(h & Hh & E)|(k & Hk & E)]; [| |done]; apply mint_cases in Hy as [(h' & Hh' & E')|(k' & Hk' & E')]; try done.
    + apply (Hdis h Hh). rewrite (Hone h h' x E E'). apply list_elem_of_In, in_concat. exists g.2. split; [apply in_map, list_elem_of_In, Hg|by apply list_elem_of_In].
    + subst x. apply (minted_is_new g.1 k' h) in E; [done|lia].
    + subst x. apply (minted_is_new p k h') in E'; [done|lia].
    + apply Hp'. rewrite E in E'. apply plain_prefix_inj in E' as ->; [by apply list_elem_of_fmap_2| | |by apply str_of_Z_digits; lia..].
      * exact (Hp (p, hs) ltac:(left)).
      * apply Hp. by right.
  - apply IH; [|done..]. intros g Hg. apply Hp. by right.
Qed.
End Mint.

(** * An allocation, row by row *)
Record epic_row := { er_key : string; er_id : string; er_prefix : string; er_stories : list string }.
Record init_row := { ir_key : string; ir_id : string; ir_prefix : string; ir_epics : list epic_row }.

Section Rows.
Context (prior : dict).

Definition first_slot (p : string) : Z := max_index prior p + 1.
Definition story_ids (r : epic_row) : list string := group prior (er_prefix r, er_stories r).
Definition epic_flat (r : epic_row) : dict := (er_key r, er_id r) :: zip (er_stories r) (story_ids r).
Definition init_flat (r : init_row) : dict := (ir_key r, ir_id r) :: concat (map epic_flat (ir_epics r)).
Definition flat (rows : list init_row) : dict := concat (map init_flat rows).

(** A row records what the loops did for a candidate. *)
Record epic_row_of (init_id : string) (c : epic_candidate) (r : epic_row) : Prop := {
  eo_key : er_key r = epic_key init_id (c_title c) (c_description c);
  eo_prefix : ∃ n m, epic_numbers (er_id r) = Ok (n, m) ∧ er_prefix r = "STORY-" +:+ n +:+ "." +:+ m +:+ ".";
  eo_stories : er_stories r = map (story_key (er_id r)) (c_stories c)
}.
Record init_row_of (c : init_candidate) (r : init_row) : Prop := {
  io_key : ir_key r = init_key (n_title c) (n_why c);
  io_prefix : ∃ n, after_dash (ir_id r) = Ok n ∧ ir_prefix r = "EPIC-" +:+ n +:+ ".";
  io_epics : Forall2 (epic_row_of (ir_id r)) (n_epics c) (ir_epics r);
  io_ids : map er_id (ir_epics r) = group prior (ir_prefix r, map er_key (ir_epics r))
}.

Lemma alloc_stories_rows eid n2 m next titles l :
  alloc_stories prior eid n2 m next titles l =
  give_all (zip (map (story_key eid) titles) (mint prior ("STORY-" +:+ n2 +:+ "." +:+ m +:+ ".") next (map (story_key eid) titles))) l.
Proof.
  revert next l. induction titles as [|t ts IH]; intros next l; [done|]. cbn [alloc_stories map mint zip zip_with give_all fold_left].
  rewrite IH. rewrite !app_assoc_str. done.
Qed.

Lemma alloc_epics_rows iid n next cs l l' :
  alloc_epics prior iid n next cs l = Ok l' →
  ∃ rows, Forall2 (epic_row_of iid) cs rows ∧ map er_id rows = mint prior ("EPIC-" +:+ n +:+ ".") next (map er_key rows) ∧
          l' = give_all (concat (map epic_flat rows)) l.
Proof.
  revert next l. induction cs as [|c cs IH]; intros next l H; [exists []; injection H as <-; by split_and!|]. cbn [alloc_epics] in H.
  set (eh := epic_key iid (c_title c) (c_description c)) in *. set (eid := id_for prior eh ("EPIC-" +:+ n +:+ "." +:+ str_of_Z next)) in *.
  destruct (epic_numbers eid) as [[n2 m]|] eqn:En; [|done]. cbn [mbind outcome_bind] in H.
  apply IH in H as (rows & Hrows & Hids & ->).
  exists ({| er_key := eh; er_id := eid; er_prefix := "STORY-" +:+ n2 +:+ "." +:+ m +:+ "."; er_stories := map (story_key eid) (c_stories c) |} :: rows).
  split_and!.
  - constructor; [|done]. by split; [|exists n2, m|].
  - cbn [map mint er_id er_key]. rewrite Hids, !app_assoc_str. done.
  - cbn [map concat]. unfold give_all at 1 2. rewrite fold_left_app. f_equal. unfold epic_flat. cbn [er_key er_id er_stories fold_left].
    apply alloc_stories_rows.
Qed.

Lemma alloc_inits_rows next cs l l' :
  alloc_inits prior next cs l = Ok l' →
  ∃ rows, Forall2 init_row_of cs rows ∧ map ir_id rows = mint prior "INIT-" next (map ir_key rows) ∧ l' = give_all (flat rows) l.
Proof.
  revert next l. induction cs as [|c cs IH]; intros next l H; [exists []; injection H as <-; by split_and!|]. cbn [alloc_inits] in H.
  set (ih := init_key (n_title c) (n_why c)) in *. set (iid := id_for prior ih ("INIT-" +:+ str_of_Z next)) in *.
  destruct (after_dash iid) as [n|] eqn:En; [|done]. cbn [mbind outcome_bind] in H.
  destruct (alloc_epics _ _ _ _ _ _) as [l1|] eqn:El; [|done]. cbn [mbind outcome_bind] in H.
  apply alloc_epics_rows in El as (erows & He & Heids & ->). apply IH in H as (rows & Hrows & Hids & ->).
  exists ({| ir_key := ih; ir_id := iid; ir_prefix := "EPIC-" +:+ n +:+ "."; ir_epics := erows |} :: rows). split_and!.
  - constructor; [|done]. split; [done|by exists n|done|done].
  - cbn [map mint ir_id ir_key]. by rewrite Hids.
  - unfold flat. cbn [map concat]. unfold give_all. rewrite fold_left_app. done.
Qed.

(** * What is made of the rows *)
Lemma mint_length p next hs : length (mint prior p next hs) = length hs.
Proof. revert next. induction hs as [|h hs IH]; intros next; [done|]. cbn. by rewrite IH. Qed.

Section Made.
Context (given : dict) (trd : TRDv1).

Definition binds (es : dict) : Prop := ∀ h id, In (h, id) es → dict_lookup h given = Some id.

Lemma binds_app es es' : binds (es ++ es') ↔ binds es ∧ binds es'.
Proof. unfold binds. setoid_rewrite in_app_iff. naive_solver. Qed.

Lemma lookup_bound h id es : binds es → In (h, id) es → lookup_id given h = Ok id.
Proof. unfold lookup_id. intros Hb Hin. by rewrite (Hb h id Hin). Qed.

Record epic_made (r : epic_row) (e : Epic) : Prop := {
  em_id : e_id e = trimmed (er_id r);
  em_valid : Regex.match_ EPIC_RE (e_id e) = true;
  em_stories : map s_id (e_stories e) = map trimmed (story_ids r);
  em_valid_stories : ∀ s, s ∈ e_stories e → Regex.match_ STORY_RE (s_id s) = true
}.
Record init_made (r : init_row) (i : Initiative) : Prop := {
  im_id : i_id i = trimmed (ir_id r);
  im_valid : Regex.match_ INIT_RE (i_id i) = true;
  im_epics : Forall2 epic_made (ir_epics r) (i_epics i)
}.

Lemma mat_stories_made eid prio kind titles sids ss :
  length titles = length sids → binds (zip (map (story_key eid) titles) sids) →
  mat_stories given trd eid prio kind titles = Ok ss →
  map s_id ss = map trimmed sids ∧ ∀ s, s ∈ ss → Regex.match_ STORY_RE (s_id s) = true.
Proof.
  revert sids ss. induction titles as [|t ts IH]; intros [|sid sids] ss Hlen Hb H; try done.
  { injection H as <-. split; [done|]. by intros s ?%elem_of_nil. }
  cbn [mat_stories] in H. rewrite (lookup_bound _ sid _ Hb) in H by by left. cbn [mbind outcome_bind] in H.
  destruct (mk_story sid t _ _ _ _ _) as [s|] eqn:Hs; [|done]. cbn [mbind outcome_bind] in H.
  destruct (mat_stories given trd eid prio kind ts) as [rest|] eqn:Hr; [|done]. injection H as <-.
  destruct (IH sids rest) as (E & Hv); [by injection Hlen|intros h id Hin; apply Hb; by right|done|].
  unfold mk_story in Hs. apply checked in Hs as [Hc1 Hs], Hs as [_ Hs], Hs as [_ Hs]. injection Hs as <-. apply check_id_ok in Hc1.
  split; [cbn; by rewrite E|]. intros x [->|Hx]%elem_of_cons; [done|by apply Hv].
Qed.

Lemma mat_epics_made iid prio cs rows es :
  Forall2 (epic_row_of iid) cs rows → binds (concat (map epic_flat rows)) →
  mat_epics given trd iid prio cs = Ok es → Forall2 epic_made rows es.
Proof.
  intros H. revert es. induction H as [|c r cs rows [Hk Hp Hst] _ IH]; intros es Hb H; [injection H as <-; constructor|].
  cbn [map concat] in Hb. apply binds_app in Hb as [Hbr Hb]. cbn [mat_epics] in H.
  rewrite <- Hk, (lookup_bound _ (er_id r) _ Hbr) in H by by left. cbn [mbind outcome_bind] in H.
  destruct (mat_stories _ _ _ _ _ _) as [ss|] eqn:Hss; [|done]. cbn [mbind outcome_bind] in H.
  destruct (mk_epic (er_id r) _ _ _) as [e|] eqn:He; [|done]. cbn [mbind outcome_bind] in H.
  destruct (mat_epics given trd iid prio cs) as [rest|] eqn:Hr; [|done]. injection H as <-.
  apply (mat_stories_made _ _ _ _ (story_ids r)) in Hss as (Hids & Hv);
    [|unfold story_ids, group; rewrite mint_length; cbn [fst snd]; by rewrite Hst, length_map|rewrite <- Hst; intros h id Hin; apply Hbr; by right].
  constructor; [|by apply IH]. unfold mk_epic in He. apply checked in He as [Hc1 He], He as [_ He], He as [_ He]. injection He as <-.
  apply check_id_ok in Hc1. by split.
Qed.

Lemma materialise_made cs rows is_ :
  Forall2 init_row_of cs rows → binds (flat rows) → materialise given trd cs = Ok is_ → Forall2 init_made rows is_.
Proof.
  intros H. revert is_. induction H as [|c r cs rows [Hk Hp He Hi] _ IH]; intros is_ Hb H; [injection H as <-; constructor|].
  unfold flat in Hb, IH. cbn [map concat] in Hb. apply binds_app in Hb as [Hbr Hb]. cbn [materialise] in H.
  rewrite <- Hk, (lookup_bound _ (ir_id r) _ Hbr) in H by by left. cbn [mbind outcome_bind] in H.
  destruct (mat_epics _ _ _ _ _) as [es|] eqn:Hes; [|done]. cbn [mbind outcome_bind] in H.
  destruct (mk_initiative (ir_id r) _ _ _ _ _) as [i|] eqn:Hmk; [|done]. cbn [mbind outcome_bind] in H.
  destruct (materialise given trd cs) as [rest|] eqn:Hr; [|done]. injection H as <-.
  eapply mat_epics_made in Hes; [|done|intros h id Hin; apply Hbr; by right].
  constructor; [|by apply IH]. unfold mk_initiative in Hmk. apply checked in Hmk as [Hc1 Hmk], Hmk as [_ Hmk], Hmk as [_ Hmk].
  injection Hmk as <-. apply check_id_ok in Hc1. by split.
Qed.
End Made.

(** * The ids have no blanks *)
Definition no_blank (s : string) : bool := all_chars (fun c => negb (is_c_space c)) s.

Lemma no_blank_app (a b : string) : no_blank (a +:+ b) = no_blank a && no_blank b.
Proof. apply all_chars_app. Qed.

Lemma no_blank_trimmed s : no_blank s = true → trimmed s = s.
Proof.
  intros H. unfold trimmed, strip_by. assert (lstrip_by is_c_space s = s) as ->.
  { destruct s as [|c s]; [done|]. cbn in H. apply andb_true_iff in H as [H%negb_true_iff _]. cbn [lstrip_by]. by rewrite H. }
  induction s as [|c s IH]; [done|]. cbn in H. apply andb_true_iff in H as [Hc%negb_true_iff H]. cbn [rstrip_by].
  rewrite (IH H). destruct s; [by rewrite Hc|done].
Qed.

Lemma no_blank_number k : 0 <= k → no_blank (str_of_Z k) = true.
Proof.
  intros Hk. apply (all_chars_impl is_digit); [|by apply str_of_Z_digits]. intros c Hc. unfold is_digit, is_c_space in *. lia.
Qed.

Definition tidy : Prop := no_empty prior ∧ one_key prior ∧ ∀ h id, dict_lookup h prior = Some id → no_blank id = true.

Lemma group_no_blank p hs x : tidy → no_blank p = true → x ∈ group prior (p, hs) → no_blank x = true.
Proof.
  intros (Hne & _ & Hb) Hp Hx. unfold group in Hx. cbn [fst snd] in Hx. pose proof (max_index_ge0 prior p).
  apply mint_cases in Hx as [(h & _ & E)|(k & Hk & ->)]; [by apply Hb in E| |done].
  rewrite no_blank_app, Hp, no_blank_number by lia. done.
Qed.
End Rows.

(** * Lists of rows *)
Section Lists.
Context (prior : dict).

Definition epic_rows (rows : list init_row) : list epic_row := concat (map ir_epics rows).

Lemma fst_zip_group p (hs : list string) : map fst (zip hs (group prior (p, hs))) = hs.
Proof. apply fst_zip. unfold group. rewrite mint_length. done. Qed.

Lemma init_keys_sublist rows : map ir_key rows `sublist_of` map fst (flat prior rows).
Proof.
  unfold flat. induction rows as [|r rows IH]; [done|]. cbn [map concat]. unfold init_flat at 1. cbn [app map fst].
  apply sublist_skip. rewrite map_app. by apply sublist_inserts_l.
Qed.

Lemma epic_keys_sublist_in es : map er_key es `sublist_of` map fst (concat (map (epic_flat prior) es)).
Proof.
  induction es as [|e es IH]; [done|]. cbn [map concat]. unfold epic_flat at 1. cbn [app map fst]. apply sublist_skip.
  rewrite map_app. by apply sublist_inserts_l.
Qed.

Lemma story_keys_sublist_in es : concat (map er_stories es) `sublist_of` map fst (concat (map (epic_flat prior) es)).
Proof.
  induction es as [|e es IH]; [done|]. cbn [map concat]. unfold epic_flat at 1. cbn [app map fst]. apply sublist_cons.
  rewrite map_app. unfold story_ids. rewrite fst_zip_group. by apply sublist_app.
Qed.

Lemma epic_keys_sublist rows : concat (map (fun r => map er_key (ir_epics r)) rows) `sublist_of` map fst (flat prior rows).
Proof.
  unfold flat. induction rows as [|r rows IH]; [done|]. cbn [map concat]. unfold init_flat at 1. cbn [app map fst].
  apply sublist_cons. rewrite map_app. apply sublist_app; [apply epic_keys_sublist_in|done].
Qed.

Lemma story_keys_sublist rows : concat (map er_stories (epic_rows rows)) `sublist_of` map fst (flat prior rows).
Proof.
  unfold flat, epic_rows. induction rows as [|r rows IH]; [done|]. cbn [map concat]. unfold init_flat at 1. cbn [app map fst].
  apply sublist_cons. rewrite map_app, map_app, concat_app. apply sublist_app; [apply story_keys_sublist_in|done].
Qed.

Lemma nodup_map_via {A B C} (f : A → B) (g : A → C) l :
  NoDup (map f l) → (∀ x y, x ∈ l → y ∈ l → g x = g y → f x = f y) → NoDup (map g l).
Proof.
  induction l as [|x l IH]; intros Hf Hg; [constructor|]. cbn [map] in *. apply NoDup_cons in Hf as [Hx Hf]. apply NoDup_cons. split.
  - intros (y & Ey & Hy)%list_elem_of_fmap. apply Hx. rewrite (Hg x y); [by apply list_elem_of_fmap_2|by left|by right|done].
  - apply IH; [done|]. intros a b Ha Hb. apply Hg; by right.
Qed.

Lemma seen_give_all es l : seen (give_all es l) = rev (map fst es) ++ seen l.
Proof. revert l. induction es as [|[h id] es IH]; intros l; [done|]. cbn. rewrite IH. cbn. by rewrite <- app_assoc. Qed.

Lemma binds_distinct (es : dict) : NoDup (map fst es) → binds (dict_update [] es) es.
Proof.
  intros Hnd h id (p1 & p2 & ->)%in_split. apply dict_lookup_update_last. rewrite map_app in Hnd. cbn in Hnd.
  apply NoDup_app in Hnd as (_ & _ & Hnd). by apply NoDup_cons in Hnd as [? _].
Qed.

(** A key that had no id gets one that was not there. *)
Lemma mint_fresh p next hs h x :
  max_index prior p < next → (h, x) ∈ zip hs (mint prior p next hs) → dict_lookup h prior = None →
  ∀ h', dict_lookup h' prior ≠ Some x.
Proof.
  revert next. induction hs as [|k hs IH]; intros next Hn; [by intros ?%elem_of_nil|]. cbn [mint zip zip_with].
  intros [[= <- ->]|Hin]%elem_of_cons Hl h'.
  - unfold id_for. rewrite Hl. by apply minted_is_new.
  - eapply (IH (bump prior k next)); [unfold bump; destruct (dict_has k prior); lia|done..].
Qed.

Lemma rows_pairs {R} (key id : R → string) p next rows r :
  map id rows = mint prior p next (map key rows) → r ∈ rows → (key r, id r) ∈ zip (map key rows) (mint prior p next (map key rows)).
Proof.
  intros <-. induction rows as [|x rows IH]; [by intros ?%elem_of_nil|].
  intros [->|Hr]%elem_of_cons; [by left|right; by apply IH].
Qed.
End Lists.

(** * The theorem *)
Definition old_entries (existing : option (list Initiative)) : dict :=
  match existing with Some is_ => entries is_ | None => [] end.
Definition old_ids (existing : option (list Initiative)) : list string := map snd (old_entries existing).

(** What the checks of the artifact leave of an existing roadmap's ids, and that they differ. *)
Definition valid_ids (existing : option (list Initiative)) : Prop :=
  NoDup (old_ids existing) ∧ ∀ id, id ∈ old_ids existing → id ≠ "" ∧ no_blank id = true.

Definition all_ids (is_ : list Initiative) : list string :=
  map i_id is_ ++ map e_id (epics_of is_) ++ map s_id (stories_of is_).

Lemma lookup_update es (d : dict) h id : dict_lookup h (dict_update d es) = Some id → In (h, id) es ∨ dict_lookup h d = Some id.
Proof.
  revert d. induction es as [|[k v] es IH]; intros d; [by right|]. cbn [dict_update]. intros [|H]%IH; [left; by right|].
  rewrite dict_lookup_set in H. destruct (String.eqb_spec h k) as [->|]; [injection H as ->; left; by left|by right].
Qed.

Lemma existing_lookup existing h id : dict_lookup h (existing_index existing) = Some id → In (h, id) (old_entries existing).
Proof.
  destruct existing as [is_|]; [|done]. by intros [|]%lookup_update.
Qed.

Lemma nodup_snd (es : dict) h h' id : NoDup (map snd es) → In (h, id) es → In (h', id) es → h = h'.
Proof.
  induction es as [|[k v] es IH]; [done|]. cbn [map snd]. intros [Hv Hnd]%NoDup_cons.
  assert (Hno : ∀ x, In (x, v) es → False).
  { intros x Hx. apply Hv, list_elem_of_In, in_map_iff. by exists (x, v). }
  intros [E|Hin] [E'|Hin']; [congruence|injection E as -> ->; by apply Hno in Hin'|injection E' as -> ->; by apply Hno in Hin|auto].
Qed.

Lemma existing_tidy existing : valid_ids existing → tidy (existing_index existing).
Proof.
  intros [Hnd Hok]. assert (Hin : ∀ h id, dict_lookup h (existing_index existing) = Some id → id ∈ old_ids existing).
  { intros h id H%existing_lookup. apply list_elem_of_In, in_map_iff. by exists (h, id). }
  split_and!.
  - intros h id H%Hin. by apply Hok.
  - intros h h' id H%existing_lookup H'%existing_lookup. by eapply nodup_snd.
  - intros h id H%Hin. by apply Hok.
Qed.

Lemma first_char r c w l : Regex.match_ (Regex.seqs (Regex.Start :: Regex.lit (String c w) :: l)) r = true → ∃ r', r = String c r'.
Proof.
  unfold Regex.match_. destruct (Regex.run _ Some _) as [t|] eqn:E; [|done]. intros _. apply Regex.run_sound in E as (u & Hm & _).
  eapply matches_seqs in Hm as (s1 & H1 & Hm); [|done]. inversion H1; subst.
  destruct l as [|b l]; [|eapply matches_seqs in Hm as (s2 & Hm & _); [|done]]; apply matches_lit in Hm; cbn [Regex.rest] in Hm; rewrite Hm;
    rewrite app_cons; by eexists.
Qed.

Section Unique.
Context (prior given : dict) (trd : TRDv1) (cs : list init_candidate) (rows : list init_row) (is_ : list Initiative).
Context (Htidy : tidy prior) (Hrows : Forall2 (init_row_of prior) cs rows)
  (Hids : map ir_id rows = group prior ("INIT-", map ir_key rows)) (Hdistinct : NoDup (map fst (flat prior rows)))
  (Hmade : Forall2 (init_made prior) rows is_).

Lemma init_row_facts r : r ∈ rows →
  (∃ i, init_made prior r i) ∧ no_blank (ir_id r) = true ∧ (∃ n, ir_id r = "INIT-" +:+ n ∧ ir_prefix r = "EPIC-" +:+ n +:+ "." ∧ no_blank n = true) ∧
  map er_id (ir_epics r) = group prior (ir_prefix r, map er_key (ir_epics r)) ∧ ∀ e, e ∈ ir_epics r → ∃ c, epic_row_of (ir_id r) c e.
Proof.
  intros Hr. assert (Hi : ∃ i, init_made prior r i).
  { apply list_elem_of_lookup in Hr as [k Hk]. eapply Forall2_lookup_l in Hmade as (i & _ & Hi); [|done]. by exists i. }
  assert (Hc : ∃ c, init_row_of prior c r).
  { apply list_elem_of_lookup in Hr as [k Hk]. eapply Forall2_lookup_r in Hrows as (c & _ & Hc); [|done]. by exists c. }
  destruct Hi as (i & Hi), Hc as (c & Hc).
  assert (Hb : no_blank (ir_id r) = true).
  { eapply (group_no_blank _ "INIT-"); [done|done|]. rewrite <- Hids. by apply list_elem_of_fmap_2. }
  pose proof (im_valid _ _ _ Hi) as Hv. rewrite (im_id _ _ _ Hi), no_blank_trimmed in Hv by done.
  destruct (init_id_numbers _ Hv) as (n & Hn & En). destruct (io_prefix _ _ _ Hc) as (n' & Hn' & Ep). rewrite Hn in Hn'. injection Hn' as <-.
  split_and!; [by exists i|done| |exact (io_ids _ _ _ Hc)|].
  - exists n. split_and!; [done..|]. rewrite En, no_blank_app in Hb. by apply andb_true_iff in Hb as [_ Hb].
  - intros e He. apply list_elem_of_lookup in He as [k Hk]. eapply Forall2_lookup_r in Hk as (ce & _ & Hce); [|exact (io_epics _ _ _ Hc)]. by exists ce.
Qed.

Lemma epic_row_facts e : e ∈ epic_rows rows →
  no_blank (er_id e) = true ∧ Regex.match_ EPIC_RE (er_id e) = true ∧
  (∃ n m, er_id e = "EPIC-" +:+ n +:+ "." +:+ m ∧ er_prefix e = "STORY-" +:+ n +:+ "." +:+ m +:+ "." ∧ no_blank n = true ∧ no_blank m = true).
Proof.
  intros He. apply Sprints.in_concat_map in He as (r & Hr & He). destruct (init_row_facts r Hr) as ((i & Hi) & _ & (n & _ & Ep & Hnb) & Hg & Hrow).
  destruct (Hrow e He) as (c & Hc).
  assert (Hb : no_blank (er_id e) = true).
  { eapply (group_no_blank _ (ir_prefix r)); [done| |rewrite <- Hg; by apply list_elem_of_fmap_2].
    rewrite Ep, !no_blank_app, Hnb. done. }
  assert (Hm : ∃ x, epic_made prior e x).
  { apply list_elem_of_lookup in He as [k Hk]. eapply Forall2_lookup_l in Hk as (x & _ & Hx); [|exact (im_epics _ _ _ Hi)]. by exists x. }
  destruct Hm as (x & Hx). pose proof (em_valid _ _ _ Hx) as Hv. rewrite (em_id _ _ _ Hx), no_blank_trimmed in Hv by done.
  split_and!; [done..|]. destruct (epic_id_numbers _ Hv) as (a & b & Hab & Eab). destruct (eo_prefix _ _ _ Hc) as (a' & b' & Hab' & Epr).
  rewrite Hab in Hab'. injection Hab' as <- <-. exists a, b. rewrite Eab, !no_blank_app in Hb.
  apply andb_true_iff in Hb as [_ Hb]. apply andb_true_iff in Hb as [Ha Hb]. apply andb_true_iff in Hb as [_ Hb]. by split_and!.
Qed.

Lemma init_ids_nodup : NoDup (map ir_id rows).
Proof.
  rewrite Hids. destruct Htidy as (Hne & Hone & _). apply mint_nodup; [done..|cbn; lia|].
  eapply sublist_NoDup; [exact Hdistinct|apply init_keys_sublist].
Qed.

Lemma ends_dot s : ends_plain (s +:+ ".").
Proof. by exists s, "."%char. Qed.

Lemma epic_ids_groups : map er_id (epic_rows rows) = concat (map (group prior) (map (fun r => (ir_prefix r, map er_key (ir_epics r))) rows)).
Proof.
  unfold epic_rows. pose proof init_row_facts as Hf. induction rows as [|r rs IH] in Hf |- *; [done|]. cbn [map concat].
  rewrite map_app. f_equal; [|apply IH; intros x Hx; apply Hf; by right]. by destruct (Hf r ltac:(left)) as (_ & _ & _ & Hg & _).
Qed.

Lemma epic_ids_nodup : NoDup (map er_id (epic_rows rows)).
Proof.
  rewrite epic_ids_groups. destruct Htidy as (Hne & Hone & _). apply groups_nodup; [done..| | |].
  - intros g (r & -> & Hr)%list_elem_of_fmap. destruct (init_row_facts r Hr) as (_ & _ & (n & _ & Ep & _) & _). cbn [fst]. rewrite Ep, <- app_assoc_str. apply ends_dot.
  - rewrite map_map. cbn [fst]. apply (nodup_map_via ir_id); [exact init_ids_nodup|]. intros x y Hx Hy E.
    destruct (init_row_facts x Hx) as (_ & _ & (n & En & Ep & _) & _), (init_row_facts y Hy) as (_ & _ & (n' & En' & Ep' & _) & _).
    rewrite Ep, Ep' in E. apply app_str_inj in E. rewrite En, En'. f_equal. by apply app_str_inj_r in E.
  - rewrite map_map. cbn [snd]. eapply sublist_NoDup; [exact Hdistinct|apply epic_keys_sublist].
Qed.

Lemma story_ids_nodup : NoDup (concat (map (story_ids prior) (epic_rows rows))).
Proof.
  assert (concat (map (story_ids prior) (epic_rows rows)) = concat (map (group prior) (map (fun e => (er_prefix e, er_stories e)) (epic_rows rows)))) as ->
    by by rewrite map_map.
  destruct Htidy as (Hne & Hone & _). apply groups_nodup; [done..| | |].
  - intros g (e & -> & He)%list_elem_of_fmap. destruct (epic_row_facts e He) as (_ & _ & (n & m & _ & Ep & _)). cbn [fst]. rewrite Ep, <- !app_assoc_str. apply ends_dot.
  - rewrite map_map. cbn [fst]. apply (nodup_map_via er_id); [exact epic_ids_nodup|]. intros x y Hx Hy E.
    destruct (epic_row_facts x Hx) as (_ & _ & (n & m & En & Ep & _)), (epic_row_facts y Hy) as (_ & _ & (n' & m' & En' & Ep' & _)).
    rewrite Ep, Ep' in E. apply app_str_inj in E. rewrite <- !app_assoc_str in E. apply app_str_inj_r in E. rewrite En, En'. f_equal.
    by rewrite <- !app_assoc_str.
  - rewrite map_map. cbn [snd]. eapply sublist_NoDup; [exact Hdistinct|apply story_keys_sublist].
Qed.

Lemma trimmed_ids (l : list string) : (∀ x, x ∈ l → no_blank x = true) → map trimmed l = l.
Proof.
  induction l as [|x l IH]; intros H; [done|]. cbn [map]. rewrite no_blank_trimmed by (apply H; by left). f_equal. apply IH. intros y Hy. apply H. by right.
Qed.

Lemma story_ids_no_blank e x : e ∈ epic_rows rows → x ∈ story_ids prior e → no_blank x = true.
Proof.
  intros He. destruct (epic_row_facts e He) as (_ & _ & (n & m & _ & Ep & Hn & Hm)). apply group_no_blank; [done|].
  rewrite Ep, !no_blank_app, Hn, Hm. done.
Qed.

(** The ids of the roadmap are those of the rows. *)
Lemma made_init_ids : map i_id is_ = map ir_id rows.
Proof.
  rewrite <- (trimmed_ids (map ir_id rows)).
  - rewrite map_map. pose proof Hmade as Hm. clear -Hm. induction Hm as [|r i rs js Hi _ IH]; [done|]. cbn [map]. by rewrite (im_id _ _ _ Hi), IH.
  - intros x (r & -> & Hr)%list_elem_of_fmap. by apply init_row_facts.
Qed.

Lemma made_epics : Forall2 (epic_made prior) (epic_rows rows) (epics_of is_).
Proof.
  unfold epic_rows, epics_of. pose proof Hmade as Hm. clear -Hm. induction Hm as [|r i rs js Hi _ IH]; [constructor|]. cbn [map concat].
  apply Forall2_app; [exact (im_epics _ _ _ Hi)|exact IH].
Qed.

Lemma made_epic_ids : map e_id (epics_of is_) = map er_id (epic_rows rows).
Proof.
  rewrite <- (trimmed_ids (map er_id (epic_rows rows))).
  - rewrite map_map. induction made_epics as [|r e rs es He _ IH]; [done|]. cbn [map]. by rewrite IH, (em_id _ _ _ He).
  - intros x (e & -> & He)%list_elem_of_fmap. by apply epic_row_facts.
Qed.

Lemma made_story_ids : map s_id (stories_of is_) = concat (map (story_ids prior) (epic_rows rows)).
Proof.
  unfold stories_of. pose proof story_ids_no_blank as Hb. induction made_epics as [|r e rs es He _ IH] in Hb |- *; [done|]. cbn [map concat].
  rewrite map_app, (em_stories _ _ _ He), IH by (intros a x Ha; apply Hb; by right). f_equal. apply trimmed_ids. intros x. apply Hb. by left.
Qed.

Lemma made_nodup : NoDup (all_ids is_).
Proof.
  assert (Hi : ∀ x, x ∈ map i_id is_ → ∃ y, x = String "I" y).
  { intros x (i & -> & Hi)%list_elem_of_fmap. apply list_elem_of_lookup in Hi as [k Hk]. eapply Forall2_lookup_r in Hk as (r & _ & Hr); [|exact Hmade].
    by apply (first_char _ _ "NIT-" [digits; Regex.End_]), (im_valid _ _ _ Hr). }
  assert (He : ∀ x, x ∈ map e_id (epics_of is_) → ∃ y, x = String "E" y).
  { intros x (e & -> & He)%list_elem_of_fmap. apply list_elem_of_lookup in He as [k Hk]. eapply Forall2_lookup_r in Hk as (r & _ & Hr); [|exact made_epics].
    by apply (first_char _ _ "PIC-" [digits; Regex.lit_char "."; digits; Regex.End_]), (em_valid _ _ _ Hr). }
  assert (Hs : ∀ x, x ∈ map s_id (stories_of is_) → ∃ y, x = String "S" y).
  { intros x (s & -> & Hs)%list_elem_of_fmap. apply Sprints.in_concat_map in Hs as (e & He' & Hs). apply list_elem_of_lookup in He' as [k Hk].
    eapply Forall2_lookup_r in Hk as (r & _ & Hr); [|exact made_epics].
    by apply (first_char _ _ "TORY-" [digits; Regex.lit_char "."; digits; Regex.lit_char "."; digits; Regex.End_]), (em_valid_stories _ _ _ Hr). }
  unfold all_ids. apply NoDup_app. split_and!; [rewrite made_init_ids; exact init_ids_nodup| |apply NoDup_app; split_and!].
  - intros x (y & ->)%Hi [(z & E)%He|(z & E)%Hs]%elem_of_app; discriminate.
  - rewrite made_epic_ids. exact epic_ids_nodup.
  - intros x (y & ->)%He (z & E)%Hs. discriminate.
  - rewrite made_story_ids. exact story_ids_nodup.
Qed.

(** A new key's id is new. *)
Lemma rows_fresh h id : In (h, id) (flat prior rows) → dict_lookup h prior = None → ∀ h', dict_lookup h' prior ≠ Some id.
Proof.
  intros Hin Hl. assert (Hgap : ∀ p, max_index prior p < max_index prior p + 1) by (intros p; lia).
  apply list_elem_of_In, Sprints.in_concat_map in Hin as (r & Hr & Hin).
  unfold init_flat in Hin. apply elem_of_cons in Hin as [[= -> ->]|Hin].
  - eapply mint_fresh; [apply (Hgap "INIT-")|exact (rows_pairs _ ir_key ir_id _ _ _ _ Hids Hr)|done].
  - apply Sprints.in_concat_map in Hin as (e & He & Hin). unfold epic_flat in Hin. apply elem_of_cons in Hin as [[= -> ->]|Hin].
    + destruct (init_row_facts r Hr) as (_ & _ & _ & Hg & _). eapply mint_fresh; [apply Hgap|exact (rows_pairs _ er_key er_id _ _ _ _ Hg He)|done].
    + eapply mint_fresh; [apply (Hgap (er_prefix e))|exact Hin|done].
Qed.
End Unique.

(** C34: Ids are unique and never reused.  When the ids of the existing roadmap, if there is
    one, are different and pass their checks, and no two candidates have the same key, then
    all ids of the new roadmap are different, and an id given to a candidate that the index of
    the existing roadmap does not know is none of the ids in that index: not even a retired
    one comes back. *)
Theorem ids_unique existing trd cs l is_ :
  valid_ids existing →
  run_loops cs (existing_index existing) = Ok l → NoDup (seen l) →
  materialise (given l) trd cs = Ok is_ →
  NoDup (all_ids is_) ∧
  ∀ h id, dict_lookup h (given l) = Some id → dict_lookup h (existing_index existing) = None →
          ∀ h', dict_lookup h' (existing_index existing) ≠ Some id.
Proof.
  intros Hvalid Hrun Hseen Hmat. apply existing_tidy in Hvalid as Htidy. set (prior := existing_index existing) in *.
  apply alloc_inits_rows in Hrun as (rows & Hrows & Hids & ->). rewrite seen_give_all in Hseen. cbn [seen] in Hseen. rewrite app_nil_r in Hseen.
  assert (Hd : NoDup (map fst (flat prior rows))) by by rewrite (Permutation_rev (map fst (flat prior rows))).
  rewrite give_all_given in Hmat |- *. cbn [given] in *. pose proof (binds_distinct _ Hd) as Hbinds.
  pose proof (materialise_made prior _ trd cs rows is_ Hrows Hbinds Hmat) as Hmade. split; [by eapply made_nodup|].
  intros h id Hl Hh. eapply rows_fresh; [done..| |done]. by apply lookup_update in Hl as [|].
Qed.

(** * An example: the demo's roadmap, and its TRD with another component for the integration *)
Definition existing : option (list Initiative) := Some (r_initiatives demo_roadmap).
Definition next_trd : TRDv1 := trd_of [part "Ledger" None; part "Mailer" None] [] "".
Definition next_shape : list init_candidate := Eval vm_compute in initiatives_from_prd demo_prd next_trd.
Definition next_loops : outcome exn ledger := Eval vm_compute in run_loops next_shape (existing_index existing).
Definition next_ledger : ledger := Eval vm_compute in match next_loops with Ok l => l | Raise _ => {| seen := []; given := [] |} end.
Definition next_result : outcome exn (list Initiative) := Eval vm_compute in materialise (given next_ledger) next_trd next_shape.
Definition next_initiatives : list Initiative := Eval vm_compute in match next_result with Ok is_ => is_ | Raise _ => [] end.

Lemma next_run : run_loops next_shape (existing_index existing) = Ok next_ledger.
Proof. vm_compute. reflexivity. Qed.
Lemma next_made : materialise (given next_ledger) next_trd next_shape = Ok next_initiatives.
Proof. vm_compute. reflexivity. Qed.

Lemma existing_valid : valid_ids existing.
Proof.
  split; [apply (bool_decide_unpack _); vm_compute; exact I|]. intros id Hid.
  assert (H : forallb (fun id => negb (String.eqb id "") && no_blank id) (old_ids existing) = true) by (vm_compute; reflexivity).
  rewrite forallb_forall in H. apply list_elem_of_In, H, andb_true_iff in Hid as [Hne Hb]. split; [|done]. by intros ->.
Qed.

(** The integration's epic was EPIC-1.2; its id is not given again. *)
Lemma ids_unique_witness :
  map (fun i => map e_id (i_epics i)) next_initiatives = [["EPIC-1.1"; "EPIC-1.3"]] ∧ NoDup (all_ids next_initiatives).
Proof.
  split; [reflexivity|].
  refine (proj1 (ids_unique existing next_trd next_shape next_ledger next_initiatives existing_valid next_run _ next_made)).
  apply (bool_decide_unpack _). vm_compute. exact I.
Defined.
End IdsUnique.
