(* ===== verification/AutoRecovery.v ===== *)
(** Restarting supervised processes: [recovery/auto_recovery.py], with the part of
    [shared/runtime/watchdog.sh] it hands dead processes to.

    The manager reads pid files and heartbeats, signals hung processes, removes the pid
    files of dead ones, and stops when a target was restarted too often.  [os.kill] is an
    argument of the code and of the model; times are doubles ([Float64]). *)

From stdpp Require Import sorting.
From S2P Require Import Prelude PyValue Text Float64 Json.
From Stdlib Require Import Ascii.
Local Open Scope Z_scope.

Module AutoRecovery.
Import Float64.

Definition MAX_RESTARTS_PER_WINDOW : nat := 5.
Definition WINDOW_SECONDS : Z := 600.
Definition DEFAULT_HEARTBEAT_TIMEOUT_S : Z := 300.

(** * Data *)
Inductive RecoveryAction := noop | restarted | circuit_open | k8s_owned | missing_target | killed_zombie.

Record SupervisedTarget := {
  name : string; pid_file : string; heartbeat_file : option string; launcher : option string; is_k8s_owned : bool
}.

Record LivenessProbe := {
  p_name : string; pid : option Z; pid_alive : bool; heartbeat_age_s : option Z; heartbeat_stale : bool
}.

Definition is_healthy (p : LivenessProbe) : bool :=
  match pid p with None => true | Some _ => pid_alive p && negb (heartbeat_stale p) end.

Record RecoveryResult := { target : string; probe_ : LivenessProbe; action : RecoveryAction; detail : string }.

(** [from_default_handoff]: the targets of the file bus, when its directory is there; the
    entries of [teams] with whether they are directories. *)
Definition HANDOFF : string := ".planning/orchestration/agent-handoff".

Definition role_target (k8s : bool) (role : string) : SupervisedTarget :=
  let dir := HANDOFF +:+ "/teams/" +:+ role in
  {| name := "manager:" +:+ role; pid_file := dir +:+ "/state/pids/manager.pid";
     heartbeat_file := Some (dir +:+ "/state/heartbeat"); launcher := Some "scripts/team-agent-daemon.sh";
     is_k8s_owned := k8s |}.

Definition from_default_handoff (present : bool) (teams : option (list (string * bool))) (k8s : bool) : list SupervisedTarget :=
  if present then
    {| name := "heartbeat"; pid_file := HANDOFF +:+ "/heartbeat.pid"; heartbeat_file := None;
       launcher := Some "shared/runtime/heartbeat.sh"; is_k8s_owned := k8s |}
    :: match teams with
       | Some entries => map (fun e => role_target k8s e.1) (List.filter snd (Json.Json.sort_items entries))
       | None => []
       end
  else [].

(** What [os.kill] does: the signal arrives, or the class of the exception. *)
Inductive kill_result := Delivered | ProcessLookupError | PermissionError | OSError.

Definition SIGTERM : Z := 15.

(** The machine: the text of every pid file ([None]: it cannot be read), the modification
    time of every heartbeat ([None]: it cannot be read), the pid files that cannot be
    removed, the processes. *)
Section Manager.
Context {P : Type}.
Record host := {
  pid_texts : gmap string (option string); mtimes : gmap string (option Z); undeletable : gset string; procs : P
}.

(** The manager and its world: the breaker's log, the pages sent, how often the clock was
    read. *)
Record state_ := {
  machine : host; restart_log : gmap string (list Z); pages : list string; reads : nat
}.

Definition set_machine (h : host) (s : state_) : state_ :=
  {| machine := h; restart_log := restart_log s; pages := pages s; reads := reads s |}.
Definition set_log (l : gmap string (list Z)) (s : state_) : state_ :=
  {| machine := machine s; restart_log := l; pages := pages s; reads := reads s |}.
Definition set_pages (l : list string) (s : state_) : state_ :=
  {| machine := machine s; restart_log := restart_log s; pages := l; reads := reads s |}.
Definition set_reads (n : nat) (s : state_) : state_ :=
  {| machine := machine s; restart_log := restart_log s; pages := pages s; reads := n |}.
Definition set_procs (p : P) (h : host) : host :=
  {| pid_texts := pid_texts h; mtimes := mtimes h; undeletable := undeletable h; procs := p |}.
Definition set_pid_texts (m : gmap string (option string)) (h : host) : host :=
  {| pid_texts := m; mtimes := mtimes h; undeletable := undeletable h; procs := procs h |}.

(** The arguments of the constructor; [clock] gives the readings of [now_fn], in order. *)
Context (targets : list SupervisedTarget) (heartbeat_timeout_s : Z) (max_restarts : nat) (window_s : Z).
Context (clock : nat → Z) (kill_fn : Z → Z → P → kill_result * P).

Local Open Scope state_scope.

Definition now_ : state state_ Z :=
  n <- gets reads;; modify (set_reads (S n));; ret (clock n).

Definition kill_ (pid sig : Z) : state state_ kill_result :=
  h <- gets machine;;
  let '(r, p) := kill_fn pid sig (procs h) in
  modify (set_machine (set_procs p h));; ret r.

Definition notify (subject : string) : state state_ unit :=
  l <- gets pages;; modify (set_pages (l ++ [subject])).

(** [self._targets]: a later target of a name replaces an earlier one. *)
Definition targets_ : list (string * SupervisedTarget) :=
  foldl (fun d t => dict_set (name t) t d) [] targets.

(** [int(a - b)]. *)
Definition whole_difference (a b : Z) : Z := if b <=? a then trunc (fsub a b) else - trunc (fsub b a).

(** * Probing *)
Definition is_pid_alive (n : Z) : state state_ bool :=
  r <- kill_ n 0;; ret (match r with Delivered | PermissionError => true | _ => false end).

(** The number in the pid file. *)
Definition read_pid (t : SupervisedTarget) (h : host) : option Z :=
  match pid_texts h !! pid_file t with
  | Some (Some text) => if String.eqb (strip text) "" then None else int_of_str 10 (strip text)
  | _ => None
  end.

Definition heartbeat (t : SupervisedTarget) (h : host) : option (option Z) :=
  match heartbeat_file t with Some f => mtimes h !! f | None => None end.

Definition probe_target (t : SupervisedTarget) : state state_ LivenessProbe :=
  h <- gets machine;;
  let n := read_pid t h in
  alive <- (match n with
            | Some n => if n =? 0 then ret false else is_pid_alive n
            | None => ret false
            end);;
  h <- gets machine;;
  age <- (match heartbeat t h with
          | Some (Some mtime) => now <- now_;; ret (Some (whole_difference now mtime))
          | _ => ret None
          end);;
  ret {| p_name := name t; pid := n; pid_alive := alive; heartbeat_age_s := age;
         heartbeat_stale := match age with Some a => heartbeat_timeout_s <? a | None => false end |}.

(** [probe] raises a KeyError for an unknown name. *)
Definition probe (nm : string) : state state_ (outcome unit LivenessProbe) :=
  match dict_lookup nm targets_ with
  | Some t => p <- probe_target t;; ret (Ok p)
  | None => ret (Raise tt)
  end.

(** * The circuit breaker *)
Definition cutoff (now : Z) : Z := if of_Z window_s <=? now then fsub now (of_Z window_s) else - fsub (of_Z window_s) now.

Definition log_of (nm : string) (s : state_) : list Z := default [] (restart_log s !! nm).

Definition breaker_open (nm : string) : state state_ bool :=
  now <- now_;;
  l <- gets (log_of nm);;
  let l := List.filter (fun t => cutoff now <=? t) l in
  logs <- gets restart_log;;
  modify (set_log (<[nm := l]> logs));;
  ret (max_restarts <=? length l)%nat.

Definition record_restart (nm : string) : state state_ unit :=
  now <- now_;;
  l <- gets (log_of nm);;
  logs <- gets restart_log;;
  modify (set_log (<[nm := l ++ [now]]> logs)).

(** * Recovery *)

(** [target.pid_file.unlink(missing_ok=True)]; [true] when it did not raise. *)
Definition unlink (f : string) : state state_ bool :=
  h <- gets machine;;
  if bool_decide (f ∈ undeletable h) && bool_decide (is_Some (pid_texts h !! f)) then ret false
  else modify (set_machine (set_pid_texts (delete f (pid_texts h)) h));; ret true.

Definition result (nm : string) (p : LivenessProbe) (a : RecoveryAction) (d : string) : RecoveryResult :=
  {| target := nm; probe_ := p; action := a; detail := d |}.

(** What an unhealthy target gets: its stale pid file removed, or its process a SIGTERM,
    which may raise. *)
Definition nudge (t : SupervisedTarget) (p : LivenessProbe) : state state_ (outcome kill_result bool) :=
  match pid p with
  | None => ret (Ok false)
  | Some n =>
      if n =? 0 then ret (Ok false)
      else if negb (pid_alive p) then b <- unlink (pid_file t);; ret (Ok b)
      else if heartbeat_stale p then
        r <- kill_ n SIGTERM;;
        ret (match r with
             | Delivered => Ok true
             | ProcessLookupError | PermissionError => Ok false
             | OSError => Raise OSError
             end)
      else ret (Ok false)
  end.

Definition limit_text : string := str_of_Z (Z.of_nat max_restarts) +:+ "/" +:+ str_of_Z window_s +:+ "s".

Definition recover_target (nm : string) (t : SupervisedTarget) : state state_ (outcome kill_result RecoveryResult) :=
  p <- probe_target t;;
  if is_k8s_owned t then
    ret (Ok (result nm p k8s_owned "K8s kubelet owns restart; recovery module observes only."))
  else match pid p with
  | None => ret (Ok (result nm p noop "no pid_file present — operator intent is 'stopped'"))
  | Some _ =>
      if is_healthy p then ret (Ok (result nm p noop "healthy"))
      else
        open_ <- breaker_open nm;;
        if (open_ : bool) then
          notify ("[recovery] circuit breaker open for " +:+ nm);;
          ret (Ok (result nm p circuit_open ("restarts exceeded " +:+ limit_text)))
        else
          nudged <- nudge t p;;
          match nudged with
          | Raise e => ret (Raise e)
          | Ok killed =>
              record_restart nm;;
              ret (Ok (result nm p (if killed : bool then killed_zombie else restarted)
                (if killed then "watchdog will re-launch on next poll cycle"
                 else "no action taken (PID file alive but stale heartbeat)")))
          end
  end.

Definition check_and_recover (nm : string) : state state_ (outcome kill_result RecoveryResult) :=
  match dict_lookup nm targets_ with
  | None =>
      ret (Ok (result nm {| p_name := nm; pid := None; pid_alive := false; heartbeat_age_s := None; heartbeat_stale := false |}
             missing_target ("target " +:+ repr_str nm +:+ " not registered")))
  | Some t => recover_target nm t
  end.

(** [[f(a) for a in l]] of calls that may raise. *)
Fixpoint map_state {E A B} (f : A → state state_ (outcome E B)) (l : list A) : state state_ (outcome E (list B)) :=
  match l with
  | [] => ret (Ok [])
  | a :: l' =>
      r <- f a;;
      match r with
      | Raise e => ret (Raise e)
      | Ok b => rs <- map_state f l';; ret (match rs with Ok bs => Ok (b :: bs) | Raise e => Raise e end)
      end
  end.

(** [sorted(self._targets)]. *)
Definition names : list string := map fst (Json.Json.sort_items targets_).

Definition check_all : state state_ (outcome kill_result (list RecoveryResult)) := map_state check_and_recover names.
Definition probe_all : state state_ (outcome unit (list LivenessProbe)) := map_state probe names.

(** * The watchdog *)

(** [supervise_aux] of the watchdog: a pid file whose process is gone has its launcher run
    again, and the new pid written; without a pid file nothing is done.  [relaunch] gives
    the pid and the processes after it. *)
Definition file_pid (text : option string) : option Z :=
  match text with Some s => int_of_str 10 (delete_chars is_space s) | None => None end.

Definition supervise_aux (t : SupervisedTarget) (launcher_exists : bool) (relaunch : P → Z * P) (h : host) : bool * host :=
  match pid_texts h !! pid_file t with
  | None => (false, h)
  | Some text =>
      let '(r, p) := match file_pid text with Some n => kill_fn n 0 (procs h) | None => (ProcessLookupError, procs h) end in
      match r with
      | Delivered => (false, set_procs p h)
      | _ =>
          if launcher_exists then
            let '(n, p) := relaunch p in
            (true, set_procs p (set_pid_texts (<[pid_file t := Some (str_of_Z n)]> (pid_texts h)) h))
          else (false, set_procs p h)
      end
  end.

(** * Frames *)

(** The log is as it was and the clock went on. *)
Definition quiet (s s' : state_) : Prop := restart_log s' = restart_log s ∧ (reads s <= reads s')%nat.

#[local] Instance quiet_preorder : PreOrder quiet.
Proof. split; [by intros s|]. intros s1 s2 s3 [E1 L1] [E2 L2]. split; [by rewrite E2|lia]. Qed.

Lemma now_quiet : within quiet now_.
Proof. intros s. split; [done|cbn; lia]. Qed.

Lemma kill_quiet n sig : within quiet (kill_ n sig).
Proof. intros s. unfold kill_, bind, gets, modify, ret, exec. destruct (kill_fn n sig _). by split. Qed.
#[local] Hint Resolve now_quiet kill_quiet : statedb.
#[local] Opaque now_ kill_.

Lemma probe_quiet t : within quiet (probe_target t).
Proof. unfold probe_target, is_pid_alive. within_steps. Qed.

Lemma unlink_quiet f : within quiet (unlink f).
Proof. intros s. unfold unlink, bind, gets, exec. by destruct (_ && _). Qed.
#[local] Hint Resolve unlink_quiet : statedb.
#[local] Opaque unlink.

Lemma nudge_quiet t p : within quiet (nudge t p).
Proof. unfold nudge. within_steps. Qed.

Lemma notify_quiet l : within quiet (notify l).
Proof. intros s. by split. Qed.
#[local] Transparent now_ kill_ unlink.

(** * What a check does to the log *)
Definition acted (r : outcome kill_result RecoveryResult) : bool :=
  match r with Ok r => match action r with restarted | killed_zombie => true | _ => false end | Raise _ => false end.

(** The restart a check has recorded. *)
Definition recorded (nm : string) (r : outcome kill_result RecoveryResult) (s' : state_) : option Z :=
  if acted r then last (log_of nm s') else None.

Definition prune (j : nat) (l : list Z) : list Z := List.filter (fun t => cutoff (clock j) <=? t) l.

Inductive logged (nm : string) (s : state_) : option Z → state_ → Prop :=
| log_kept s' : quiet s s' → logged nm s None s'
| log_pruned j s' : (reads s <= j < reads s')%nat →
    restart_log s' = <[nm := prune j (log_of nm s)]> (restart_log s) → logged nm s None s'
| log_grew j i s' : (reads s <= j < i)%nat → (i < reads s')%nat → (length (prune j (log_of nm s)) < max_restarts)%nat →
    restart_log s' = <[nm := prune j (log_of nm s) ++ [clock i]]> (restart_log s) → logged nm s (Some (clock i)) s'.

Lemma run_within {A} (R : state_ → state_ → Prop) (m : state state_ A) s a s' : within R m → m s = (a, s') → R s s'.
Proof. intros H E. specialize (H s). unfold exec in H. by rewrite E in H. Qed.

Lemma recorded_last nm r logs l now s :
  acted r = true → recorded nm r (set_log (<[nm := l ++ [now]]> logs) s) = Some now.
Proof. intros E. unfold recorded, log_of. rewrite E. cbn. rewrite lookup_insert_eq. apply last_snoc. Qed.

Lemma recover_logged nm t s r s' : recover_target nm t s = (r, s') → logged nm s (recorded nm r s') s'.
Proof.
  unfold recover_target, bind at 1. destruct (probe_target t s) as [p s1] eqn:Ep.
  pose proof (run_within _ _ _ _ _ (probe_quiet t) Ep) as [El1 Lr1].
  destruct (is_k8s_owned t); [intros [= <- <-]; by apply log_kept|].
  destruct (pid p) as [n|]; [|intros [= <- <-]; by apply log_kept].
  destruct (is_healthy p); [intros [= <- <-]; by apply log_kept|].
  unfold bind at 1. destruct (breaker_open nm s1) as [b s2] eqn:Eb.
  unfold breaker_open, now_, bind, gets, modify, ret in Eb. cbn in Eb. injection Eb as Hb Hs2.
  assert (Hlog : log_of nm s1 = log_of nm s) by (unfold log_of; by rewrite El1).
  change (log_of nm (set_reads _ s1)) with (log_of nm s1) in *. rewrite Hlog in *. rewrite El1 in Hs2.
  fold (prune (reads s1) (log_of nm s)) in Hb, Hs2.
  destruct b.
  - intros [= <- <-]. subst s2. cbn. eapply (log_pruned _ _ (reads s1)); cbn; [lia|done].
  - unfold bind at 1. destruct (nudge t p s2) as [[killed|e] s3] eqn:En;
      pose proof (run_within _ _ _ _ _ (nudge_quiet t p) En) as [El3 Lr3];
      assert (Hr2 : (reads s2 = S (reads s1))%nat) by (by rewrite <-Hs2).
    2:{ intros [= <- <-]. apply (log_pruned _ _ (reads s1)); [lia|]. by rewrite El3, <-Hs2. }
    unfold record_restart, now_, bind, gets, modify, ret. cbn. intros [= <- <-].
    assert (Hl3 : log_of nm s3 = prune (reads s1) (log_of nm s)).
    { unfold log_of at 1. rewrite El3, <-Hs2. cbn. by rewrite lookup_insert_eq. }
    change (log_of nm (set_reads _ s3)) with (log_of nm s3). rewrite Hl3.
    rewrite recorded_last by (cbn; by destruct killed).
    apply (log_grew _ _ (reads s1)); [lia|cbn; lia| |].
    + by apply Nat.leb_gt in Hb.
    + cbn. rewrite El3, <-Hs2. cbn. by rewrite insert_insert_eq.
Qed.

Lemma check_logged nm s r s' : check_and_recover nm s = (r, s') → logged nm s (recorded nm r s') s'.
Proof.
  unfold check_and_recover. destruct (dict_lookup nm targets_) as [t|]; [apply recover_logged|].
  intros [= <- <-]. by apply log_kept.
Qed.

(** * The breaker bounds the restarts *)

(** What happens: checks, and everything else on the machine while the clock goes on. *)
Inductive step (s : state_) : list (string * Z) → state_ → Prop :=
| step_check nm r s' : check_and_recover nm s = (r, s') →
    step s (match recorded nm r s' with Some t => [(nm, t)] | None => [] end) s'
| step_world h n : (reads s <= n)%nat → step s [] (set_reads n (set_machine h s)).

(** The restarts of a run, in order. *)
Inductive run : list (string * Z) → state_ → Prop :=
| run_start h n : run [] {| machine := h; restart_log := ∅; pages := []; reads := n |}
| run_step tr s l s' : run tr s → step s l s' → run (tr ++ l) s'.

Definition times (nm : string) (tr : list (string * Z)) : list Z :=
  map snd (List.filter (fun x => String.eqb x.1 nm) tr).

(** [back] bounds how far the clock is set back: no reading is that much ahead of a later
    one.  [time.time] may be set back; for a clock that is not, [back] is 0. *)
Context (back : Z).

(** Any restart and the one [max_restarts] later are more than the window apart, but for
    what the clock was set back. *)
Definition spaced (l : list Z) : Prop :=
  ∀ i t t', l !! i = Some t → l !! (i + max_restarts)%nat = Some t' → t + window_s * one - 2 * back < t'.

Context (Hback : 0 <= back <= window_s * one) (Hclock : ∀ i j, (i <= j)%nat → clock i <= clock j + back) (Hdouble : ∀ i, 0 <= clock i ∧ is_double (clock i)).
Context (Hwindow : 0 <= window_s <= 2 ^ 53) (Hmax : (0 < max_restarts)%nat).

(** An instant no older than the window is not cut off. *)
Lemma cutoff_le i j : clock i <= clock j + window_s * one → cutoff (clock i) <= clock j.
Proof.
  intros H. unfold cutoff. rewrite of_Z_exact by done. destruct (Hdouble i) as [Hi _], (Hdouble j) as [Hj Hdj].
  destruct (Z.leb_spec (window_s * one) (clock i)) as [L|L].
  - apply round_le; [lia|done].
  - assert (0 <= fsub (window_s * one) (clock i)) by (apply round_nonneg; lia). lia.
Qed.

(** The log of a target is its history without what some readings of the clock cut off. *)
Record history (nm : string) (l : list Z) (s : state_) : Prop := {
  h_log : ∃ js, Forall (fun j => (j < reads s)%nat) js ∧
      log_of nm s = List.filter (fun t => forallb (fun j => cutoff (clock j) <=? t) js) l;
  h_read : ∀ i t, l !! i = Some t → ∃ j, (j < reads s)%nat ∧ t = clock j;
  h_sorted : ∀ i k t t', (i <= k)%nat → l !! i = Some t → l !! k = Some t' → t <= t' + back;
  h_spaced : spaced l
}.

Lemma filter_filter {A} (f g : A → bool) l : List.filter f (List.filter g l) = List.filter (fun a => f a && g a) l.
Proof.
  induction l as [|a l IH]; [done|]. cbn. destruct (g a); cbn; [|by rewrite andb_false_r].
  rewrite andb_true_r, IH. done.
Qed.

Lemma prune_filter j js l :
  prune j (List.filter (fun t => forallb (fun j => cutoff (clock j) <=? t) js) l) =
  List.filter (fun t => forallb (fun j => cutoff (clock j) <=? t) (j :: js)) l.
Proof. apply filter_filter. Qed.

Lemma history_later nm l s s' : history nm l s → log_of nm s' = log_of nm s → (reads s <= reads s')%nat → history nm l s'.
Proof.
  intros [(js & Hjs & E) Hr Hs Hp] El L. split; [|intros i t Hi; destruct (Hr i t Hi) as (j & Hj & ->)|done|done].
  - exists js. split; [eapply Forall_impl; [exact Hjs|]; cbn; lia|by rewrite El].
  - exists j. split; [lia|done].
Qed.

(** A restart that the breaker lets through comes late enough. *)
Lemma grown_spaced nm l s j i :
  history nm l s → (reads s <= j < i)%nat → (length (prune j (log_of nm s)) < max_restarts)%nat → spaced (l ++ [clock i]).
Proof.
  intros [(js & Hjs & E) Hr Hs Hp] [Hj Hi] Hlen k t t' Ht Ht'.
  assert (Hk : (k + max_restarts < length (l ++ [clock i]))%nat) by (by eapply lookup_lt_Some).
  rewrite length_app in Hk. cbn in Hk. rewrite lookup_app_l in Ht by lia.
  destruct (decide (k + max_restarts = length l)%nat) as [Eq|Ne]; [|rewrite lookup_app_l in Ht' by lia; by eapply Hp].
  rewrite Eq, lookup_app_r, Nat.sub_diag in Ht' by lia. injection Ht' as <-.
  apply Z.nle_gt. intros Hle. rewrite E, prune_filter in Hlen.
  rewrite <-(take_drop k l), List.filter_app, length_app in Hlen.
  rewrite (filter_all _ (drop k l)) in Hlen; [rewrite length_drop in Hlen; lia|].
  intros x Hx. apply list_elem_of_lookup in Hx as [m Hm]. rewrite lookup_drop in Hm.
  pose proof (Hs k (k + m)%nat t x ltac:(lia) Ht Hm) as Htx.
  destruct (Hr _ x Hm) as (jx & _ & ->). apply forallb_forall. intros j' Hj'. apply Z.leb_le, cutoff_le.
  assert (Hji : (j' <= i)%nat).
  { destruct Hj' as [<-|Hj']; [lia|]. apply list_elem_of_In in Hj'. rewrite Forall_forall in Hjs. specialize (Hjs _ Hj'). lia. }
  pose proof (Hclock j' i Hji). lia.
Qed.

Lemma history_grown nm l s j i s' :
  history nm l s → (reads s <= j < i)%nat → (i < reads s')%nat → (length (prune j (log_of nm s)) < max_restarts)%nat →
  log_of nm s' = prune j (log_of nm s) ++ [clock i] → history nm (l ++ [clock i]) s'.
Proof.
  intros H Hji Hi Hlen El. pose proof (grown_spaced nm l s j i H Hji Hlen) as Hsp. destruct H as [(js & Hjs & E) Hr Hs Hp].
  assert (Hlast : ∀ k t, (l ++ [clock i]) !! k = Some t → l !! k = Some t ∨ (k = length l ∧ t = clock i)).
  { intros k t [Hk|[Hk Ht]]%lookup_app_Some; [by left|right].
    destruct (k - length l)%nat eqn:Ek; [|done]. injection Ht as <-. split; [lia|done]. }
  split; [| | |exact Hsp].
  - exists (j :: js). split; [constructor; [lia|eapply Forall_impl; [exact Hjs|]; cbn; lia]|].
    rewrite El, E, prune_filter, List.filter_app. f_equal. symmetry. apply filter_all.
    intros x ->%list_elem_of_singleton. apply forallb_forall. intros j' Hj'. apply Z.leb_le, cutoff_le.
    assert (Hj'i : (j' <= i)%nat).
    { destruct Hj' as [<-|Hj']; [lia|]. apply list_elem_of_In in Hj'. rewrite Forall_forall in Hjs. specialize (Hjs _ Hj'). lia. }
    pose proof (Hclock j' i Hj'i). lia.
  - intros k t [Hk|[_ ->]]%Hlast; [|by exists i]. destruct (Hr _ _ Hk) as (j' & Hj' & ->). exists j'. split; [lia|done].
  - intros k m t t' Hkm [Hk|[-> ->]]%Hlast [Hm|[-> ->]]%Hlast.
    + by eapply Hs.
    + destruct (Hr _ _ Hk) as (j' & Hj' & ->). apply Hclock. lia.
    + apply lookup_lt_Some in Hm. lia.
    + lia.
Qed.

Lemma log_insert nm nm' l s s' :
  restart_log s' = <[nm' := l]> (restart_log s) → log_of nm s' = if decide (nm = nm') then l else log_of nm s.
Proof.
  intros E. unfold log_of. rewrite E. case_decide as D; [subst nm'; by rewrite lookup_insert_eq|].
  by rewrite lookup_insert_ne by done.
Qed.

Lemma times_app nm a b : times nm (a ++ b) = times nm a ++ times nm b.
Proof. unfold times. by rewrite List.filter_app, map_app. Qed.

Lemma run_history nm tr s : run tr s → history nm (times nm tr) s.
Proof.
  induction 1 as [h n|tr s l s' _ IH Hst].
  - split; [exists []; by split|by intros i t|by intros i k t|by intros i t].
  - rewrite times_app. destruct Hst as [nm' r s' Hc|h n Hn].
    2:{ rewrite app_nil_r. by apply (history_later nm _ s). }
    apply check_logged in Hc. remember (recorded nm' r s') as o eqn:Eo. clear Eo.
    destruct Hc as [s' [El Lr]|j s' Hj El|j i s' Hj Hi Hlen El].
    + rewrite app_nil_r. apply (history_later nm _ s); [done|unfold log_of; by rewrite El|done].
    + rewrite app_nil_r. apply (log_insert nm) in El. case_decide as D; [|apply (history_later nm _ s); [done|done|lia]].
      subst nm'. destruct IH as [(js & Hjs & E) Hr Hs Hp].
      split; [|intros k t Hk; destruct (Hr k t Hk) as (j' & Hj' & ->); exists j'; split; [lia|done]|done|done].
      exists (j :: js). split; [constructor; [lia|eapply Forall_impl; [exact Hjs|]; cbn; lia]|].
      by rewrite El, E, prune_filter.
    + apply (log_insert nm) in El. unfold times at 2. cbn [List.filter fst]. case_decide as D.
      * subst nm'. rewrite String.eqb_refl. by eapply history_grown.
      * rewrite (proj2 (String.eqb_neq nm' nm)) by congruence. cbn. rewrite app_nil_r.
        apply (history_later nm _ s); [done|done|lia].
Qed.

(** C33: However the checks of all targets and the rest of the machine interleave, two
    restarts of a target that are [max_restarts] apart are, by the readings of the clock,
    more than [window_s] seconds apart if the clock never goes back, and more than [window_s]
    less twice [back] if no reading is ahead of a later one by more than [back], which is at
    most the window. *)
Theorem breaker_bounds_restarts nm tr s : run tr s → spaced (times nm tr).
Proof. intros H. apply (h_spaced nm _ s). by apply run_history. Qed.

(** * A dead process *)

(** The pid file names a process that is gone: the check removes the file. *)
Lemma dead_pid_file_removed nm t n text s r s' :
  dict_lookup nm targets_ = Some t → is_k8s_owned t = false →
  pid_texts (machine s) !! pid_file t = Some (Some text) → strip text ≠ "" → int_of_str 10 (strip text) = Some n → n ≠ 0 →
  (kill_fn n 0 (procs (machine s))).1 = ProcessLookupError → pid_file t ∉ undeletable (machine s) →
  check_and_recover nm s = (Ok r, s') → action r ≠ circuit_open →
  action r = killed_zombie ∧ pid_texts (machine s') !! pid_file t = None.
Proof.
  intros Ht Hk Hf Hs Hn Hn0 Hdead Hdel. unfold check_and_recover. rewrite Ht. unfold recover_target, bind at 1.
  destruct (probe_target t s) as [p s1] eqn:Ep. rewrite Hk.
  assert (Hp : pid p = Some n ∧ pid_alive p = false ∧ pid_texts (machine s1) = pid_texts (machine s) ∧
    undeletable (machine s1) = undeletable (machine s)).
  { unfold probe_target, bind, gets, ret in Ep.
    unfold read_pid in Ep. rewrite Hf, (proj2 (String.eqb_neq _ _) Hs), Hn, (proj2 (Z.eqb_neq _ _) Hn0) in Ep.
    unfold is_pid_alive, kill_, bind, gets, modify, ret in Ep.
    destruct (kill_fn n 0 (procs (machine s))) as [kr kp]. cbn in Hdead. subst kr. cbn in Ep.
    destruct (heartbeat t _) as [[m|]|]; cbn in Ep; injection Ep as <- <-; by cbn. }
  destruct Hp as (Hp1 & Hp2 & Hp3 & Hp4). rewrite Hp1. unfold is_healthy. rewrite Hp1, Hp2. cbn [andb].
  unfold bind at 1. destruct (breaker_open nm s1) as [b s2] eqn:Eb.
  assert (Hm2 : machine s2 = machine s1).
  { unfold breaker_open, now_, bind, gets, modify, ret in Eb. by injection Eb as _ <-. }
  destruct b; [intros [= <- <-]; by cbn|]. intros E _. revert E.
  unfold nudge. rewrite Hp1, (proj2 (Z.eqb_neq _ _) Hn0), Hp2. cbn [negb].
  unfold unlink, bind, gets, modify, ret. rewrite Hm2, Hp4.
  rewrite (bool_decide_eq_false_2 (pid_file t ∈ undeletable (machine s))) by done. cbn [andb].
  unfold record_restart, now_, bind, gets, modify, ret. cbn. intros [= <- <-]. cbn.
  split; [done|]. by rewrite lookup_delete_eq.
Qed.

(** Without the file the watchdog takes the process for stopped by its operator. *)
Lemma no_file_no_relaunch t b f h : pid_texts h !! pid_file t = None → supervise_aux t b f h = (false, h).
Proof. intros E. unfold supervise_aux. by rewrite E. Qed.

End Manager.

(** * A machine *)

(** Its processes are the signals sent so far; nothing is alive. *)
Definition nobody (n sig : Z) (p : list (Z * Z)) : kill_result * list (Z * Z) := (ProcessLookupError, p ++ [(n, sig)]).
Definition everybody (n sig : Z) (p : list (Z * Z)) : kill_result * list (Z * Z) := (Delivered, p ++ [(n, sig)]).

Definition hub_targets : list SupervisedTarget := from_default_handoff true None false.
Definition hub_pid_file : string := HANDOFF +:+ "/heartbeat.pid".
Definition hub_host (pid_text : string) : @host (list (Z * Z)) :=
  {| pid_texts := {[hub_pid_file := Some pid_text]}; mtimes := ∅; undeletable := ∅; procs := @nil (Z * Z) |}.
Definition hub_start (pid_text : string) : @state_ (list (Z * Z)) :=
  {| machine := hub_host pid_text; restart_log := ∅; pages := []; reads := 0 |}.
Definition every_minute (n : nat) : Z := of_Z (60 * Z.of_nat n).

Definition hub_check (s : @state_ (list (Z * Z))) : outcome kill_result RecoveryResult * @state_ (list (Z * Z)) :=
  check_and_recover hub_targets 300 2 600 every_minute nobody "heartbeat" s.
Definition hub_again (s : @state_ (list (Z * Z))) : @state_ (list (Z * Z)) := set_reads 5 (set_machine (hub_host "7") s).

Lemma every_minute_mono i j : (i <= j)%nat → every_minute i <= every_minute j + 0.
Proof. intros H. pose proof one_pos. rewrite Z.add_0_r. apply round_mono; nia. Qed.

Lemma every_minute_double i : 0 <= every_minute i ∧ is_double (every_minute i).
Proof. pose proof one_pos. split; [apply round_nonneg|apply round_double]; nia. Qed.

Definition hub_events (x : outcome kill_result RecoveryResult * @state_ (list (Z * Z))) : list (string * Z) :=
  match recorded "heartbeat" x.1 x.2 with Some t => [("heartbeat", t)] | None => [] end.
Definition hub_first : outcome kill_result RecoveryResult * @state_ (list (Z * Z)) := hub_check (hub_start "7").
Definition hub_second : outcome kill_result RecoveryResult * @state_ (list (Z * Z)) := hub_check (hub_again hub_first.2).
Definition hub_trace : list (string * Z) := (([] ++ hub_events hub_first) ++ []) ++ hub_events hub_second.

Lemma hub_step s : step hub_targets 300 2 600 every_minute nobody s (hub_events (hub_check s)) (hub_check s).2.
Proof. unfold hub_events. apply step_check. apply surjective_pairing. Qed.

Lemma hub_run : run hub_targets 300 2 600 every_minute nobody hub_trace hub_second.2.
Proof.
  unfold hub_trace, hub_second, hub_first.
  eapply run_step; [|apply hub_step]. eapply run_step; [|apply (step_world _ _ _ _ _ _ _ (hub_host "7") 5)].
  - eapply run_step; [apply run_start|apply hub_step].
  - vm_compute. lia.
Qed.

Lemma breaker_bounds_restarts_witness :
  spaced 2 600 0 (times "heartbeat" hub_trace).
Proof.
  apply (breaker_bounds_restarts hub_targets 300 2 600 every_minute nobody 0
    ltac:(pose proof one_pos; lia) every_minute_mono every_minute_double ltac:(lia) ltac:(lia) "heartbeat" _ _ hub_run).
Defined.

(** With the clock set back by more than the window the readings say nothing: the breaker,
    which allows two restarts in ten minutes, lets a third through whose reading is 399
    seconds before that of the first. *)
Definition set_back (n : nat) : Z :=
  of_Z (if (n <? 2)%nat then 10000 else if (n <? 4)%nat then 9000 else 9601).

Definition back_check (s : @state_ (list (Z * Z))) : outcome kill_result RecoveryResult * @state_ (list (Z * Z)) :=
  check_and_recover hub_targets 300 2 600 set_back nobody "heartbeat" (set_machine (hub_host "7") s).

Example restarts_after_set_back :
  let first := back_check (hub_start "7") in
  let second := back_check first.2 in
  let third := back_check second.2 in
  map (fun c => recorded "heartbeat" c.1 c.2) [first; second; third] = [Some (of_Z 10000); Some (of_Z 9000); Some (of_Z 9601)].
Proof. vm_compute. reflexivity. Qed.

(** The heartbeat process died.  The watchdog would start it again; after the recovery
    manager's check it does not, although the check says it will, and the next check takes
    the process for stopped on purpose. *)
Lemma dead_process_is_forgotten :
  let relaunch p := (8, p) in
  let t := nth 0 hub_targets (role_target false "") in
  match hub_check (hub_start "7") with
  | (Ok r, s) =>
      (supervise_aux nobody t true relaunch (hub_host "7")).1 = true ∧
      detail r = "watchdog will re-launch on next poll cycle" ∧
      (supervise_aux nobody t true relaunch (machine s)).1 = false ∧
      match (hub_check s).1 with Ok r => action r = noop | Raise _ => False end
  | (Raise _, _) => False
  end.
Proof. vm_compute. split_and!; reflexivity. Qed.

(** A pid file that holds -1: with a stale heartbeat the SIGTERM goes to every process. *)
Lemma minus_one_signals_all :
  let t := {| name := "x"; pid_file := "x.pid"; heartbeat_file := Some "x.hb"; launcher := None; is_k8s_owned := false |} in
  let h := {| pid_texts := {["x.pid" := Some "-1"]}; mtimes := {["x.hb" := Some 0]}; undeletable := ∅; procs := [] |} in
  let s := {| machine := h; restart_log := ∅; pages := []; reads := 6%nat |} in
  procs (machine (check_and_recover [t] 300 5 600 every_minute everybody "x" s).2) = [(-1, 0); (-1, SIGTERM)].
Proof. vm_compute. reflexivity. Qed.

End AutoRecovery.
