(* ===== verification/Backup.v ===== *)
(** Backups: [recovery/backup.py].

    A snapshot dumps the components into a temporary directory, uploads each artifact with
    the storage's command line tool and keeps a row of [spine_dr.backup_run]; the WAL
    stream is one long-running command.  The command runner, the vault and the dumpers are
    arguments of the code and of the model; of an exception the class stays. *)

From S2P Require Import Prelude PyValue Text Datetime Float64.
From Stdlib Require Import Ascii.
Local Open Scope Z_scope.

Module Backup.

Inductive exn := RuntimeError | ValueError | KeyError | IndexError | DatabaseError | OtherError.

(** What an outcome says went wrong: an exception, or a text of its own. *)
Inductive failure := Raised (e : exn) | Text (s : string).

(** * Values *)
Record BackupTarget := {
  scheme : string; bucket : string; prefix : string; endpoint_url : option string; region : option string;
  kms_key_ref : option string; storage_creds_path : option string
}.

Record SnapshotPlan := { components : list string; retention_days : Z; actor : string; project_id : string }.
Record WalPlan := { slot_name : string; max_segment_age_seconds : Z; wal_actor : string; wal_project_id : string }.

Definition DEFAULT_RETENTION_DAYS : Z := 30.
Definition default_components : list string := ["postgres"; "kg"; "vault"; "bundles"].
Definition default_plan : SnapshotPlan :=
  {| components := default_components; retention_days := DEFAULT_RETENTION_DAYS; actor := "system"; project_id := "system" |}.

Inductive RunType := continuous | snapshot.
Inductive RunStatus := in_progress | completed | failed | partial.

Record BackupOutcome := {
  run_id : string; run_type : RunType; status : RunStatus; started_at : datetime; completed_at : option datetime;
  size_bytes : Z; target_uri : string; encryption_kms_key_ref : option string;
  components_uploaded : list string; error : option failure
}.

(** * Destinations *)
Definition scheme_prefix : list (string * string) :=
  [("s3", "s3://"); ("minio", "s3://"); ("gs", "gs://"); ("azure", "azure://"); ("file", "file://")].

Definition uri_for (t : BackupTarget) (parts : list string) : outcome exn string :=
  match dict_lookup (scheme t) scheme_prefix with
  | Some p => Ok (p +:+ bucket t +:+ "/" +:+ strip_by (Ascii.eqb "/") (join "/" (prefix t :: parts)))
  | None => Raise KeyError
  end.

(** The texts of a validated bundle; the null of an optional field reads as a missing one. *)
Definition from_bundle (bundle : list (string * string)) : outcome exn BackupTarget :=
  let get k := dict_lookup k bundle in
  match get "bucket" with
  | None => Raise KeyError
  | Some b =>
      Ok {| scheme := default "s3" (get "scheme"); bucket := b; prefix := default "spine-dr" (get "prefix");
            endpoint_url := get "endpoint_url"; region := get "region"; kms_key_ref := get "kms_key_ref";
            storage_creds_path := get "storage_creds_path" |}
  end.

(** [s.split(sep, 1)[1]]. *)
Fixpoint after_first (sep s : string) : option string :=
  match drop_prefix sep s with
  | Some rest => Some rest
  | None => match s with EmptyString => None | String _ s' => after_first sep s' end
  end.

(** [if x: argv += flags x] for an optional text. *)
Definition when_set (x : option string) (flags : string → list string) : list string :=
  match x with Some v => if String.eqb v "" then [] else flags v | None => [] end.

Definition is_s3 (t : BackupTarget) : bool := String.eqb (scheme t) "s3" || String.eqb (scheme t) "minio".

Definition upload_argv (t : BackupTarget) (src dest_uri : string) (kms : option string) : outcome exn (list string) :=
  if is_s3 t then
    Ok (["aws"; "s3"; "cp"; src; dest_uri; "--only-show-errors"]
        ++ when_set (endpoint_url t) (fun u => ["--endpoint-url"; u])
        ++ when_set kms (fun k => ["--sse"; "aws:kms"; "--sse-kms-key-id"; k]))
  else if String.eqb (scheme t) "gs" then
    Ok (["gcloud"; "storage"; "cp"; src; dest_uri; "--quiet"] ++ when_set kms (fun k => ["--kms-key"; k]))
  else if String.eqb (scheme t) "azure" then
    match after_first (bucket t +:+ "/") dest_uri with
    | None => Raise IndexError
    | Some blob =>
        Ok (["az"; "storage"; "blob"; "upload"; "--account-name"; before "." (bucket t);
             "--container-name"; bucket t; "--name"; blob; "--file"; src; "--overwrite"; "true"; "--no-progress"]
            ++ when_set kms (fun k => ["--encryption-key-name"; k]))
    end
  else if String.eqb (scheme t) "file" then
    Ok ["cp"; src; match drop_prefix "file://" dest_uri with Some p => p | None => dest_uri end]
  else Raise ValueError.

(** * Destinations differ *)
Lemma lstrip_by_app p s t : all_chars p s = false → lstrip_by p (s +:+ t) = lstrip_by p s +:+ t.
Proof. induction s as [|c s IH]; [done|]. rewrite app_cons. cbn. destruct (p c); [exact IH|done]. Qed.

Lemma rstrip_by_visible p a c : p c = false → rstrip_by p (a +:+ str1 c) = a +:+ str1 c.
Proof.
  intros Hc. induction a as [|d a IH].
  - rewrite app_empty. cbn. by rewrite Hc.
  - rewrite app_cons. cbn [rstrip_by]. rewrite IH. by destruct a.
Qed.

Definition artifact (component : string) : string := component +:+ ".tar.zst".

(** The artifacts of a snapshot share everything before their names. *)
Lemma uri_artifact t id c0 u0 :
  uri_for t ["snapshots"; id; artifact c0] = Ok u0 →
  ∃ k, ∀ c, uri_for t ["snapshots"; id; artifact c] = Ok (k +:+ artifact c).
Proof.
  unfold uri_for. destruct (dict_lookup (scheme t) scheme_prefix) as [sp|]; [|done]. intros _.
  set (pre := prefix t +:+ "/" +:+ "snapshots" +:+ "/" +:+ id +:+ "/").
  exists (sp +:+ bucket t +:+ "/" +:+ lstrip_by (Ascii.eqb "/") pre). intros c. f_equal.
  assert (Hj : join "/" [prefix t; "snapshots"; id; artifact c] = pre +:+ artifact c).
  { cbn [join]. unfold pre. by rewrite !app_assoc_str. }
  rewrite Hj. unfold strip_by.
  assert (Hp : all_chars (Ascii.eqb "/") pre = false).
  { unfold pre. rewrite !all_chars_app. cbn. by rewrite !andb_false_r. }
  rewrite lstrip_by_app by done. unfold artifact.
  change ".tar.zst" with (".tar.zs" +:+ str1 "t"). rewrite <-!app_assoc_str.
  rewrite rstrip_by_visible by done. by rewrite !app_assoc_str.
Qed.

Lemma append_cancel (a b c : string) : a +:+ b = a +:+ c → b = c.
Proof. induction a as [|x a IH]; [done|]. rewrite !app_cons. intros [= H]. by apply IH. Qed.

Lemma artifact_inj c c' : c ∈ default_components → c' ∈ default_components → artifact c = artifact c' → c = c'.
Proof.
  unfold default_components. rewrite !elem_of_cons, !elem_of_nil.
  intros [->|[->|[->|[->|[]]]]] [->|[->|[->|[->|[]]]]]; try done; intros E; vm_compute in E; discriminate E.
Qed.

(** * The world *)

(** A file with its bytes, or a directory; what is in a directory has a longer path. *)
Inductive node := File (content : string) | Directory.
Abbreviation fsys := (gmap string node).

(** Is the path below the directory? *)
Definition below (dir p : string) : bool := startswith p (dir +:+ "/").

Definition file_size (n : node) : Z := match n with File c => Z.of_nat (String.length c) | Directory => 0 end.

Definition dir_size (p : string) (fs : fsys) : Z :=
  match fs !! p with
  | None => 0
  | Some (File c) => file_size (File c)
  | Some Directory => foldr Z.add 0 (map (fun e => if below p e.1 then file_size e.2 else 0) (map_to_list fs))
  end.

Definition remove_tree (dir : string) (fs : fsys) : fsys := filter (fun e => below dir e.1 = false) (delete dir fs).

(** A row of [spine_dr.backup_run]; a row of [spine_dr.restore_test] is [Restore]'s. *)
Record run_row := {
  r_id : string; r_type : RunType; r_started_at : datetime; r_completed_at : option datetime; r_size_bytes : option Z;
  r_target_storage : string; r_kms : option string; r_status : RunStatus
}.

(** What a command ended with: its code, its output, its errors. *)
Abbreviation command_result := (Z * string * string)%type.
Definition code_of (r : command_result) : Z := r.1.1.

(** What a process does within the time allowed. *)
Inductive process := Exited (rc : Z) (out err : string) | NotFound (exc : string) | TimedOut.

(** [_default_runner] with its time limit in seconds. *)
Definition default_runner (limit : Z) (argv : list string) (p : process) : command_result :=
  match p with
  | Exited rc out err => (rc, out, err)
  | NotFound exc => (127, "", "command not found: " +:+ repr_str (hd "" argv) +:+ " — " +:+ exc)
  | TimedOut => (124, "", "timed out after " +:+ str_of_Z limit +:+ "s: " +:+ join " " argv)
  end.

(** The placeholder dumpers: a manifest in JSON with an indent of two. *)
Definition json_text (s : string) : string := str1 dquote +:+ s +:+ str1 dquote.
Definition json_line (k v comma : string) : string := "  " +:+ json_text k +:+ ": " +:+ v +:+ comma.

Definition placeholder_note (component : string) : string :=
  if String.eqb component "kg" then
    "KG dumper not yet wired (Wave 5 followup). Real implementation will tar+zstd-compress the spine_kg schema export from shared/kg/exporter.py once that lands."
  else if String.eqb component "bundles" then
    "Bundle dumper will tar the shared/standards/<bundle>/ trees with their signatures; placeholder until shared/standards exposes a list_active_bundles() helper."
  else
    "Vault snapshot is taken via the customer's OpenBao / Vault operator-raft-snapshot CLI; real wiring lives in vault/ subsystem. Backup module records the manifest only.".

Definition placeholder_text (component : string) (generated_at : datetime) : string :=
  join newline ["{"; json_line "component" (json_text component) ","; json_line "placeholder" "true" ",";
                json_line "note" (json_text (placeholder_note component)) ",";
                json_line "generated_at" (json_text (isoformat generated_at)) ""; "}"].

Definition placeholder_dump (now : datetime) (component dest : string) (fs : fsys) : outcome exn Z * fsys :=
  let text := placeholder_text component now in
  (Ok (Z.of_nat (String.length text)), <[dest := File text]> fs).

(** [as_audit_metadata]. *)
Definition run_type_text (t : RunType) : string := match t with continuous => "continuous" | snapshot => "snapshot" end.
Definition status_text (s : RunStatus) : string :=
  match s with in_progress => "in_progress" | completed => "completed" | failed => "failed" | partial => "partial" end.
Definition opt_text (o : option string) : value := match o with Some s => VStr s | None => VNone end.

Definition as_audit_metadata (failure_text : failure → string) (o : BackupOutcome) : dict :=
  [("run_id", VStr (run_id o)); ("run_type", VStr (run_type_text (run_type o))); ("status", VStr (status_text (status o)));
   ("size_bytes", VInt (size_bytes o)); ("target_uri", VStr (target_uri o));
   ("components_uploaded", VList (map VStr (components_uploaded o))); ("kms_key_ref", opt_text (encryption_kms_key_ref o));
   ("error", match error o with Some e => VStr (failure_text e) | None => VNone end)].

Section Manager.
(** [R] is the state of everything the commands reach, [T] the rows of other tables. *)
Context {R T : Type}.

Record world := {
  fs : fsys; remote : R; runs : list run_row; other_rows : T; db_faults : list bool; pages : list string; reads : nat
}.

Definition set_fs x w := {| fs := x; remote := remote w; runs := runs w; other_rows := other_rows w; db_faults := db_faults w; pages := pages w; reads := reads w |}.
Definition set_remote x w := {| fs := fs w; remote := x; runs := runs w; other_rows := other_rows w; db_faults := db_faults w; pages := pages w; reads := reads w |}.
Definition set_runs x w := {| fs := fs w; remote := remote w; runs := x; other_rows := other_rows w; db_faults := db_faults w; pages := pages w; reads := reads w |}.
Definition set_other_rows x w := {| fs := fs w; remote := remote w; runs := runs w; other_rows := x; db_faults := db_faults w; pages := pages w; reads := reads w |}.
Definition set_db_faults x w := {| fs := fs w; remote := remote w; runs := runs w; other_rows := other_rows w; db_faults := x; pages := pages w; reads := reads w |}.
Definition set_pages x w := {| fs := fs w; remote := remote w; runs := runs w; other_rows := other_rows w; db_faults := db_faults w; pages := x; reads := reads w |}.
Definition set_reads x w := {| fs := fs w; remote := remote w; runs := runs w; other_rows := other_rows w; db_faults := db_faults w; pages := pages w; reads := x |}.

Context (target : BackupTarget).
Context (runner : list string → fsys → R → command_result * fsys * R).
Context (secret_fetcher : string → outcome exn string).
Context (has_pool : bool) (clock : nat → datetime).
(** The dumpers of the components other than postgres: the bytes written, or an exception. *)
Context (dumper : string → string → fsys → outcome exn Z * fsys).

Local Open Scope proc_scope.

Definition lift {A} (r : outcome exn A) : proc world exn A := ret r.

Definition now_ : proc world exn datetime := fun w => (Ok (clock (reads w)), set_reads (S (reads w)) w).

Definition run_command (argv : list string) : proc world exn command_result := fun w =>
  let '(r, fs', rem') := runner argv (fs w) (remote w) in (Ok r, set_remote rem' (set_fs fs' w)).

(** One statement on a connection of the pool: nothing without a pool. *)
Definition execute (stmt : world → outcome exn world) : proc world exn unit := fun w =>
  if has_pool then
    match db_faults w with
    | true :: l => (Raise DatabaseError, set_db_faults l w)
    | l => let w := set_db_faults (tl l) w in
           match stmt w with Ok w' => (Ok tt, w') | Raise e => (Raise e, w) end
    end
  else (Ok tt, w).

(** * The rows *)
Definition insert_backup_run (id : string) (ty : RunType) (started : datetime) (uri : string) : proc world exn unit :=
  execute (fun w =>
    if existsb (fun r => String.eqb (r_id r) id) (runs w) then Raise DatabaseError
    else Ok (set_runs (runs w ++ [{| r_id := id; r_type := ty; r_started_at := started; r_completed_at := None;
                                     r_size_bytes := None; r_target_storage := uri; r_kms := None; r_status := in_progress |}]) w)).

Definition update_run (id : string) (f : run_row → run_row) (w : world) : world :=
  set_runs (map (fun r => if String.eqb (r_id r) id then f r else r) (runs w)) w.

Definition update_kms_ref (id : string) (kms : option string) : proc world exn unit :=
  match kms with
  | None => pret tt
  | Some k =>
      execute (fun w => Ok (update_run id (fun r =>
        {| r_id := r_id r; r_type := r_type r; r_started_at := r_started_at r; r_completed_at := r_completed_at r;
           r_size_bytes := r_size_bytes r; r_target_storage := r_target_storage r; r_kms := Some k; r_status := r_status r |}) w))
  end.

Definition finalize_backup_run (o : BackupOutcome) : proc world exn unit :=
  execute (fun w => Ok (update_run (run_id o) (fun r =>
    {| r_id := r_id r; r_type := r_type r; r_started_at := r_started_at r; r_completed_at := completed_at o;
       r_size_bytes := Some (size_bytes o); r_target_storage := r_target_storage r;
       r_kms := match encryption_kms_key_ref o with Some k => Some k | None => r_kms r end; r_status := status o |}) w)).

(** * Snapshots *)
Definition resolve_kms_key : proc world exn (option string) :=
  match kms_key_ref target with
  | None => pret None
  | Some ref =>
      if String.eqb ref "" then pret None
      else match secret_fetcher ref with Ok k => pret (Some k) | Raise _ => praise RuntimeError end
  end.

Definition basebackup_argv (dest : string) : list string :=
  ["pg_basebackup"; "-D"; dest; "--format"; "tar"; "--gzip"; "--checkpoint"; "fast"; "--no-password"].

Definition dump_postgres (dest : string) : proc world exn Z :=
  r <- run_command (basebackup_argv dest);;
  if negb (code_of r =? 0) then praise RuntimeError else w <- pgets id;; pret (dir_size dest (fs w)).

(** The dumper of a component; an unknown one raises before anything is written. *)
Definition dump (component dest : string) : proc world exn Z :=
  if String.eqb component "postgres" then dump_postgres dest
  else if in_strs component ["kg"; "vault"; "bundles"] then
    fun w => let '(r, fs') := dumper component dest (fs w) in (r, set_fs fs' w)
  else praise ValueError.

Definition upload (src dest_uri : string) (kms : option string) : proc world exn unit :=
  argv <- lift (upload_argv target src dest_uri kms);;
  r <- run_command argv;;
  if negb (code_of r =? 0) then praise RuntimeError else pret tt.

Fixpoint upload_all (id td : string) (kms : option string) (cs uploaded : list string) (total : Z)
    : proc world exn (list string * Z) :=
  match cs with
  | [] => pret (uploaded, total)
  | c :: cs' =>
      let path := td +:+ "/" +:+ artifact c in
      n <- dump c path;;
      destination <- lift (uri_for target ["snapshots"; id; artifact c]);;
      upload path destination kms;;
      upload_all id td kms cs' (uploaded ++ [c]) (total + n)
  end.

(** [with tempfile.TemporaryDirectory()]: the directory is gone afterwards. *)
Definition with_tempdir {A} (td : string) (m : proc world exn A) : proc world exn A :=
  pmodify (fun w => set_fs (<[td := Directory]> (fs w)) w);;
  try_finally m (pmodify (fun w => set_fs (remove_tree td (fs w)) w)).

(** [run_snapshot]; [id] is the uuid, [td] the temporary directory. *)
Definition run_snapshot (id td : string) (plan : SnapshotPlan) : proc world exn BackupOutcome :=
  started <- now_;;
  uri <- lift (uri_for target ["snapshots"; id]);;
  insert_backup_run id snapshot started uri;;
  try_except
    (kms <- resolve_kms_key;;
     up <- with_tempdir td (upload_all id td kms (components plan) [] 0);;
     done_at <- now_;;
     let o := {| run_id := id; run_type := snapshot; status := completed; started_at := started;
                 completed_at := Some done_at; size_bytes := up.2; target_uri := uri; encryption_kms_key_ref := kms;
                 components_uploaded := up.1; error := None |} in
     finalize_backup_run o;;
     pret o)
    (fun e =>
     done_at <- now_;;
     let o := {| run_id := id; run_type := snapshot; status := failed; started_at := started;
                 completed_at := Some done_at; size_bytes := 0; target_uri := uri; encryption_kms_key_ref := None;
                 components_uploaded := []; error := Some (Raised e) |} in
     finalize_backup_run o;;
     pret o).

(** * The WAL stream *)
Definition wal_dir (tmp slot : string) : string := tmp +:+ "/spine-wal-" +:+ slot.

Definition wal_argv (tmp slot : string) : list string :=
  ["pg_receivewal"; "--directory"; wal_dir tmp slot; "--slot"; slot; "--no-loop"; "--synchronous"].

(** [start_wal_stream]; [tmp] is [tempfile.gettempdir()]. *)
Definition start_wal_stream (id tmp : string) (plan : WalPlan) : proc world exn BackupOutcome :=
  started <- now_;;
  uri <- lift (uri_for target ["wal"; slot_name plan]);;
  insert_backup_run id continuous started uri;;
  kms <- resolve_kms_key;;
  pmodify (fun w => set_fs (<[wal_dir tmp (slot_name plan) := Directory]> (fs w)) w);;
  r <- run_command (wal_argv tmp (slot_name plan));;
  let o := {| run_id := id; run_type := continuous; status := if code_of r =? 0 then in_progress else failed;
              started_at := started; completed_at := None; size_bytes := 0; target_uri := uri;
              encryption_kms_key_ref := kms; components_uploaded := [];
              error := if code_of r =? 0 then None else Some (Text (take_text 512 (strip r.2))) |} in
  update_kms_ref id kms;;
  (if code_of r =? 0 then pret tt else finalize_backup_run o);;
  pret o.

Definition stop_wal_stream (plan : WalPlan) : proc world exn unit :=
  run_command ["pkill"; "-f"; "pg_receivewal.*--slot " +:+ slot_name plan];; pret tt.

(** * What the commands promise *)

(** A path of the machine. *)
Definition is_local (p : string) : bool := match p with String c _ => Ascii.eqb c "/" | EmptyString => false end.

Lemma is_local_app p s : is_local p = true → is_local (p +:+ s) = true.
Proof. destruct p as [|c p]; [done|]. by rewrite app_cons. Qed.

(** The object at a URI, in the state the commands reach.  A copy that reports success has
    copied a file, never a directory; [pg_basebackup -D] makes a directory.  The objects are
    not files of this host: what [cp] does for the scheme of the tests is not described. *)
Class StorageLaws (stored : R → string → option string) := {
  remote_scheme : scheme target ≠ "file";
  upload_law src parts uri kms argv fs rem r fs' rem' :
    is_local src = true → uri_for target parts = Ok uri → upload_argv target src uri kms = Ok argv → runner argv fs rem = (r, fs', rem') →
    fs' = fs ∧ (∀ u, u ≠ uri → stored rem' u = stored rem u) ∧
    (code_of r = 0 → ∃ b, fs !! src = Some (File b) ∧ stored rem' uri = Some b);
  basebackup_law dest fs rem r fs' rem' :
    runner (basebackup_argv dest) fs rem = (r, fs', rem') → code_of r = 0 → fs' !! dest = Some Directory
}.

(** A dumper that returns has written the component's content to the file. *)
Definition dumps_content (content : string → string) : Prop :=
  ∀ c dest fs n fs', dumper c dest fs = (Ok n, fs') → fs' !! dest = Some (File (content c)).

Section Laws.
Context (stored : R → string → option string) `{!StorageLaws stored}.
Context (content : string → string) (Hdump : dumps_content content).

Definition artifact_uri (id c : string) : outcome exn string := uri_for target ["snapshots"; id; artifact c].

Lemma dump_known c dest w n w' :
  dump c dest w = (Ok n, w') →
  c ∈ default_components ∧
  fs w' !! dest = Some (if String.eqb c "postgres" then Directory else File (content c)) ∧
  (c ≠ "postgres" → remote w' = remote w).
Proof.
  unfold dump. destruct (String.eqb_spec c "postgres") as [->|Hc].
  - unfold dump_postgres, run_command, pbind, bind. destruct (runner _ _ _) as [[r f] m] eqn:Er. cbn.
    destruct (Z.eqb_spec (code_of r) 0) as [E|]; cbn; [|done]. intros [= _ <-]. cbn.
    split; [unfold default_components; by left|]. split; [by eapply basebackup_law|done].
  - destruct (in_strs c _) eqn:Hin; [|done]. destruct (dumper c dest (fs w)) as [r f] eqn:Ed. intros [= -> <-]. cbn.
    split; [apply in_strs_true in Hin; unfold default_components; by right|]. split; [by eapply Hdump|done].
Qed.

Lemma upload_stored src parts uri kms w w' :
  is_local src = true → uri_for target parts = Ok uri → upload src uri kms w = (Ok tt, w') →
  fs w' = fs w ∧ (∀ u, u ≠ uri → stored (remote w') u = stored (remote w) u) ∧
  ∃ b, fs w !! src = Some (File b) ∧ stored (remote w') uri = Some b.
Proof.
  intros Hloc Huri.
  unfold upload, lift, run_command, pbind, bind, ret. destruct (upload_argv _ _ _ _) as [argv|] eqn:Ea; [|done].
  destruct (runner _ _ _) as [[r f] m] eqn:Er. cbn. destruct (upload_law _ _ _ _ _ _ _ _ _ _ Hloc Huri Ea Er) as (Hf & Hu & Hb).
  destruct (Z.eqb_spec (code_of r) 0) as [E|]; cbn; [|done]. intros [= <-]. cbn. split; [done|]. split; [done|]. by apply Hb.
Qed.

(** Every component of a completed loop is a file, stored as it was dumped. *)
Lemma upload_all_stored id td kms cs up tot w res w' :
  is_local td = true → upload_all id td kms cs up tot w = (Ok res, w') →
  (∀ u, (∀ c, c ∈ cs → artifact_uri id c ≠ Ok u) → stored (remote w') u = stored (remote w) u) ∧
  ∀ c, c ∈ cs → c ∈ default_components ∧ c ≠ "postgres" ∧
    ∃ u, artifact_uri id c = Ok u ∧ stored (remote w') u = Some (content c).
Proof.
  intros Htd. revert up tot w. induction cs as [|c cs IH]; intros up tot w; cbn [upload_all].
  { intros [= _ <-]. split; [done|]. by intros c Hc%elem_of_nil. }
  unfold pbind, bind, lift, ret.
  destruct (dump c _ w) as [[n|e] w1] eqn:Ed; [|done]. apply dump_known in Ed as (Hc & Hf & Hr1).
  fold (artifact_uri id c). destruct (artifact_uri id c) as [u|] eqn:Eu; [|done].
  destruct (upload _ u kms w1) as [[[]|e] w2] eqn:Ep; [|done]. eapply upload_stored in Ep as (_ & Hu2 & b & Hb & Hs2); [|by apply is_local_app|exact Eu].
  intros Hrest. rewrite Hf in Hb. destruct (String.eqb_spec c "postgres") as [|Hne]; [done|]. injection Hb as <-.
  rewrite (Hr1 Hne) in Hu2.
  destruct (IH _ _ _ Hrest) as [Hkeep Hall]. split.
  - intros v Hv. rewrite Hkeep by (intros c' Hc'; by apply Hv, list_elem_of_further). apply Hu2.
    intros ->. by apply (Hv c (list_elem_of_here _ _)).
  - intros c' [->|Hc']%elem_of_cons; [|by apply Hall]. split; [done|]. split; [done|]. exists u. split; [done|].
    destruct (decide (c ∈ cs)) as [Hin|Hout].
    { destruct (Hall c Hin) as (_ & _ & u' & Eu' & Hs'). rewrite Eu in Eu'. by injection Eu' as <-. }
    rewrite Hkeep; [done|]. intros c' Hc' E'. destruct (Hall c' Hc') as (Hd' & _ & _).
    destruct (uri_artifact target id c u Eu) as [k Hk]. unfold artifact_uri in *. rewrite Hk in Eu, E'.
    injection Eu as <-. injection E' as E'. apply append_cancel, artifact_inj in E' as ->; done.
Qed.

Lemma execute_remote stmt (w : world) r w' :
  (∀ x y, stmt x = Ok y → remote y = remote x) → execute stmt w = (r, w') → remote w' = remote w.
Proof.
  intros Hst. unfold execute. destruct has_pool; [|by intros [= _ <-]].
  destruct (db_faults w) as [|[] l]; try by intros [= _ <-].
  - destruct (stmt _) as [y|e] eqn:E; intros [= _ <-]; [|done]. by rewrite (Hst _ _ E).
  - destruct (stmt _) as [y|e] eqn:E; intros [= _ <-]; [|done]. by rewrite (Hst _ _ E).
Qed.

Lemma finalize_remote o w r w' : finalize_backup_run o w = (r, w') → remote w' = remote w.
Proof. apply execute_remote. by intros x y [= <-]. Qed.

(** A snapshot that returns has failed, or its uploads have all been made. *)
Lemma run_snapshot_ends id td plan w o w' :
  run_snapshot id td plan w = (Ok o, w') →
  (status o = failed ∧ components_uploaded o = []) ∨
  status o = completed ∧ ∃ kms w1 res w2,
    upload_all id td kms (components plan) [] 0 w1 = (Ok res, w2) ∧ remote w' = remote w2.
Proof.
  unfold run_snapshot, pbind at 1, bind at 1. cbn [now_].
  unfold pbind at 1, bind at 1, lift at 1, ret at 1. destruct (uri_for _ _) as [uri|]; [|done].
  unfold pbind at 1, bind at 1. destruct (insert_backup_run _ _ _ _ _) as [[[]|e] w1]; [|done].
  unfold try_except, bind at 1.
  match goal with |- context [match ?m w1 with _ => _ end] => destruct (m w1) as [[o1|e] w2] eqn:Em end.
  2:{ unfold pbind, bind. cbn. destruct (finalize_backup_run _ _) as [[[]|e'] w3]; [|done]. intros [= <- <-]. by left. }
  cbn. intros [= <- <-]. revert Em. unfold pbind at 1, bind at 1.
  destruct (resolve_kms_key w1) as [[kms|e] w3]; [|done].
  unfold pbind at 1, bind at 1. destruct (with_tempdir td _ w3) as [[up|e] w4] eqn:Et; [|done].
  unfold pbind at 1, bind at 1. cbn [now_]. unfold pbind, bind.
  destruct (finalize_backup_run _ _) as [[[]|e] w5] eqn:Ef; [|done]. intros [= <- <-]. right. split; [done|].
  apply finalize_remote in Ef. cbn in Ef.
  unfold with_tempdir, pbind, bind, pmodify, plift, modify, try_finally, bind, ret in Et. cbn in Et.
  match type of Et with context [upload_all _ _ _ _ _ _ ?x] => exists kms, x end.
  destruct (upload_all _ _ _ _ _ _ _) as [[res|e] w6]; cbn in Et; [|done].
  injection Et as -> <-. exists up, w6. split; [done|]. by rewrite Ef.
Qed.

(** What a snapshot that reports completion has stored. *)
Lemma completed_stored id td plan w o w' :
  is_local td = true → run_snapshot id td plan w = (Ok o, w') → status o = completed →
  ∀ c, c ∈ components plan → c ∈ default_components ∧ c ≠ "postgres" ∧
    ∃ u, artifact_uri id c = Ok u ∧ stored (remote w') u = Some (content c).
Proof.
  intros Htd [[Hf _]|(_ & kms & w1 & res & w2 & Hu & ->)]%run_snapshot_ends Hs; [congruence|].
  by apply upload_all_stored in Hu as [_ Hu].
Qed.

(** A snapshot that includes the database never completes: [pg_basebackup] leaves a
    directory where the copy command wants a file.  The default plan includes it. *)
Theorem database_snapshot_never_completes id td plan w o w' :
  is_local td = true → "postgres" ∈ components plan → run_snapshot id td plan w = (Ok o, w') → status o = failed ∧ components_uploaded o = [].
Proof.
  intros Htd Hin Hrun. destruct (run_snapshot_ends _ _ _ _ _ _ Hrun) as [Hf|(Hc & _)]; [done|].
  by destruct (completed_stored _ _ _ _ _ _ Htd Hrun Hc _ Hin) as (_ & Hne & _).
Qed.
End Laws.

End Manager.
(** * A cloud of objects *)

(** The commands on one machine and one bucket: [aws s3 cp] copies files only. *)
Definition demo_run (argv : list string) (fs : fsys) (objects : gmap string string)
    : command_result * fsys * gmap string string :=
  let ok := (0, "", "") in
  match argv with
  | cmd :: _ :: dest :: args =>
      if String.eqb cmd "pg_basebackup" then (ok, <[dest := Directory]> fs, objects)
      else if String.eqb cmd "aws" then
        match args with
        | src :: dst :: _ =>
            if startswith dst "s3://" then
              match fs !! src with
              | Some (File b) => (ok, fs, <[dst := b]> objects)
              | _ => ((1, "", "upload failed: Is a directory"), fs, objects)
              end
            else match objects !! src with
                 | Some b => (ok, <[dst := File b]> fs, objects)
                 | None => ((1, "", "404"), fs, objects)
                 end
        | _ => (ok, fs, objects)
        end
      else (ok, fs, objects)
  | _ => (ok, fs, objects)
  end.

Definition demo_target : BackupTarget :=
  {| scheme := "s3"; bucket := "acme"; prefix := "spine-dr"; endpoint_url := None; region := None;
     kms_key_ref := Some "recovery/kms/prod/key_id"; storage_creds_path := None |}.
Definition demo_object (objects : gmap string string) (u : string) : option string := objects !! u.

Lemma demo_uri parts uri : uri_for demo_target parts = Ok uri → startswith uri "s3://" = true.
Proof. unfold uri_for. cbn. intros [= <-]. reflexivity. Qed.

#[export] Instance demo_storage : StorageLaws demo_target demo_run demo_object.
Proof.
  split.
  - done.
  - intros src parts uri kms argv fs rem r fs' rem' _ Hu%demo_uri Ha. unfold upload_argv in Ha. cbn in Ha.
    injection Ha as <-. unfold demo_run. cbn. rewrite Hu. unfold demo_object.
    destruct (fs !! src) as [[b|]|] eqn:E; intros [= <- <- <-]; split_and!; try done.
    + intros u Hne. by rewrite lookup_insert_ne.
    + intros _. exists b. by rewrite lookup_insert_eq.
  - intros dest fs rem r fs' rem'. cbn. intros [= <- <- <-] _. by rewrite lookup_insert_eq.
Qed.

Definition demo_time : datetime := 1767225600000000.
Definition demo_content (c : string) : string := placeholder_text c demo_time.

Lemma demo_dumps : dumps_content (placeholder_dump demo_time) demo_content.
Proof. intros c dest fs n fs'. unfold placeholder_dump. intros [= _ <-]. by rewrite lookup_insert_eq. Qed.

Definition demo_world : @world (gmap string string) unit :=
  {| fs := ∅; remote := ∅; runs := []; other_rows := tt; db_faults := []; pages := []; reads := 0 |}.
Definition demo_vault (path : string) : outcome exn string := Ok "arn:aws:kms:key/1".
Definition demo_snapshot (plan : SnapshotPlan) : outcome exn BackupOutcome * @world (gmap string string) unit :=
  run_snapshot demo_target demo_run demo_vault true (fun n => demo_time + Z.of_nat n) (placeholder_dump demo_time)
    "6f9a" "/tmp/snap" plan demo_world.
Definition demo_failure : BackupOutcome :=
  {| run_id := "6f9a"; run_type := snapshot; status := failed; started_at := demo_time; completed_at := Some (demo_time + 1);
     size_bytes := 0; target_uri := "s3://acme/spine-dr/snapshots/6f9a"; encryption_kms_key_ref := None;
     components_uploaded := []; error := Some (Raised RuntimeError) |}.

Lemma demo_default_fails : (demo_snapshot default_plan).1 = Ok demo_failure.
Proof. vm_compute. reflexivity. Qed.

Lemma database_snapshot_never_completes_witness : status demo_failure = failed ∧ components_uploaded demo_failure = [].
Proof.
  apply (database_snapshot_never_completes demo_target demo_run demo_vault true (fun n => demo_time + Z.of_nat n)
    (placeholder_dump demo_time) demo_object demo_content demo_dumps "6f9a" "/tmp/snap" default_plan demo_world
    demo_failure (demo_snapshot default_plan).2).
  - reflexivity.
  - by left.
  - fold (demo_snapshot default_plan). rewrite <-demo_default_fails. apply surjective_pairing.
Defined.

(** * The stream *)

(** Under the default runner a stream that is reported in progress has ended: the runner
    waits for the process, and one that still streams when its time is over is killed and
    reported failed. *)
Lemma stream_in_progress_has_ended {R T} target (spawn : list string → fsys → R → process * fsys * R)
    vault has_pool clock id tmp plan (w w' : @world R T) o :
  let runner argv fs rem := let '(p, fs', rem') := spawn argv fs rem in (default_runner 180 argv p, fs', rem') in
  start_wal_stream target runner vault has_pool clock id tmp plan w = (Ok o, w') → status o = in_progress →
  ∃ fs rem out err, (spawn (wal_argv tmp (slot_name plan)) fs rem).1.1 = Exited 0 out err.
Proof.
  intros runner. unfold start_wal_stream, pbind at 1, bind at 1. cbn [now_].
  unfold pbind at 1, bind at 1, lift at 1, ret at 1. destruct (uri_for _ _) as [uri|]; [|done].
  unfold pbind at 1, bind at 1. destruct (insert_backup_run _ _ _ _ _ _) as [[[]|e] w1]; [|done].
  unfold pbind at 1, bind at 1. destruct (resolve_kms_key _ _ w1) as [[kms|e] w2]; [|done].
  unfold pbind at 1, bind at 1. unfold pmodify, plift, bind, modify, ret. cbn.
  unfold pbind at 1, bind at 1, run_command. cbn. set (fs2 := <[_ := _]> _). unfold runner at 1.
  destruct (spawn _ fs2 (remote w2)) as [[p f] m] eqn:Es.
  unfold pbind at 1, bind at 1. destruct (update_kms_ref _ _ _ _) as [[[]|e] w3]; [|done].
  unfold pbind, bind. destruct (_ w3) as [[[]|e] w4]; [|done]. intros [= <- <-]. cbn. intros Hst.
  exists fs2, (remote w2). rewrite Es. cbn. destruct p as [rc out err|exc|]; cbn in Hst; [|done|done].
  destruct (Z.eqb_spec rc 0) as [->|]; [by exists out, err|done].
Qed.

End Backup.
