(* ===== verification/Restore.v ===== *)
(** Restores: [recovery/restore.py], over the backups of [Backup]. *)

From S2P Require Import Prelude PyValue Text Datetime Json Float64 Backup.
From Stdlib Require Import Ascii.
Local Open Scope Z_scope.

Module Restore.
Import Backup.

Inductive TestedEnv := staging | dr_sandbox | qa | production.

Record RestorePlan := {
  backup_run_id : string; tested_in_env : TestedEnv; target_postgres_dsn : option string; to_restore : list string;
  by_actor : string; in_project : string
}.

Record RestoreOutcome := {
  restore_test_id : string; from_backup : string; tested_at : datetime; in_env : TestedEnv; restore_succeeded : bool;
  rto_seconds : Z; anomalies : dict; components_restored : list string; restore_error : option failure
}.

Record TestRestoreReport := {
  cycle_id : string; cycle_started_at : datetime; cycle_completed_at : datetime; outcomes : list RestoreOutcome;
  all_passed : bool
}.

Definition worst_rto_seconds (r : TestRestoreReport) : Z := foldr Z.max 0 (map rto_seconds (outcomes r)).

(** A row of [spine_dr.restore_test]. *)
Record test_row := {
  x_id : string; x_backup : string; x_tested_at : datetime; x_env : TestedEnv; x_succeeded : bool; x_rto : Z; x_anomalies : dict
}.

(** [anomalies.setdefault(k, []).extend(vs)]. *)
Definition note_all (k : string) (vs : list string) (a : dict) : dict :=
  match dict_lookup k a with
  | Some (VList l) => dict_set k (VList (l ++ map VStr vs)) a
  | Some _ => a
  | None => dict_set k (VList (map VStr vs)) a
  end.

Definition download_argv (t : BackupTarget) (src_uri dest : string) : outcome exn (list string) :=
  if is_s3 t then
    Ok (["aws"; "s3"; "cp"; src_uri; dest; "--only-show-errors"]
        ++ when_set (endpoint_url t) (fun u => ["--endpoint-url"; u]))
  else if String.eqb (scheme t) "gs" then Ok ["gcloud"; "storage"; "cp"; src_uri; dest; "--quiet"]
  else if String.eqb (scheme t) "azure" then
    match after_first (bucket t +:+ "/") src_uri with
    | None => Raise IndexError
    | Some blob =>
        Ok ["az"; "storage"; "blob"; "download"; "--container-name"; bucket t; "--name"; blob; "--file"; dest; "--no-progress"]
    end
  else if String.eqb (scheme t) "file" then
    Ok ["cp"; match drop_prefix "file://" src_uri with Some p => p | None => src_uri end; dest]
  else Raise ValueError.

Section Manager.
Context {R : Type}.
Context (target : BackupTarget).
Context (runner : list string → fsys → R → command_result * fsys * R).
Context (secret_fetcher : string → outcome exn string).
(** The wall clock, the monotonic clock (in doubles), and the text of an exception of
    reading the file at a path as JSON. *)
Context (has_pool : bool) (clock : nat → datetime) (monotonic : nat → Z) (read_error : string → string).

Abbreviation rworld := (@world R (list test_row)).
Local Open Scope proc_scope.

Abbreviation now_ := (@now_ R (list test_row) clock).
Abbreviation run_command := (@run_command R (list test_row) runner).
Abbreviation execute := (@execute R (list test_row) has_pool).

Definition tick : proc rworld exn Z := fun w => (Ok (monotonic (reads w)), set_reads (S (reads w)) w).

Definition resolve_kms_key : proc rworld exn (option string) :=
  match kms_key_ref target with
  | None => pret None
  | Some ref =>
      if String.eqb ref "" then pret None
      else match secret_fetcher ref with Ok k => pret (Some k) | Raise e => praise e end
  end.

Definition download (src_uri dest : string) : proc rworld exn unit :=
  argv <- lift (download_argv target src_uri dest);;
  r <- run_command argv;;
  if negb (code_of r =? 0) then praise RuntimeError else pret tt.

Definition sandbox_dsn : string := "postgres://localhost/spine_dr_sandbox".
Definition dsn_of (plan : RestorePlan) : string :=
  match target_postgres_dsn plan with Some d => if String.eqb d "" then sandbox_dsn else d | None => sandbox_dsn end.

Definition restore_postgres (artifact : string) (plan : RestorePlan) : proc rworld exn unit :=
  r <- run_command ["pg_restore"; "--dbname"; dsn_of plan; "--clean"; "--if-exists"; "--no-owner"; artifact];;
  if negb (code_of r =? 0) then praise RuntimeError else pret tt.

(** [json.loads(artifact.read_text())] of the file. *)
Definition read_json (p : string) (fs : fsys) : option Json.json :=
  match fs !! p with Some (File text) => Json.loads text | _ => None end.

(** The anomalies after applying one artifact. *)
Definition apply_component (component artifact : string) (plan : RestorePlan) (a : dict) : proc rworld exn dict :=
  if String.eqb component "postgres" then restore_postgres artifact plan;; pret a
  else if in_strs component ["kg"; "vault"; "bundles"] then
    w <- pgets id;;
    pret (match read_json artifact (fs w) with
          | Some (Json.JObj _) => a
          | Some _ => note_all "malformed_artifact" [component] a
          | None => note_all "malformed_artifact" [component +:+ ":" +:+ read_error artifact] a
          end)
  else pret (note_all "unknown_component" [component] a).

(** The loop of [_do_restore]: what it has noted and restored stays when it raises. *)
Fixpoint restore_all (td : string) (plan : RestorePlan) (cs : list string) (a : dict) (restored : list string)
    : state rworld (dict * list string * outcome exn unit) := fun w =>
  match cs with
  | [] => ((a, restored, Ok tt), w)
  | c :: cs' =>
      let local := td +:+ "/" +:+ artifact c in
      let one :=
        uri <- lift (uri_for target ["snapshots"; backup_run_id plan; artifact c]);;
        download uri local;;
        apply_component c local plan a in
      match one w with
      | (Ok a', w') => restore_all td plan cs' a' (restored ++ [c]) w'
      | (Raise e, w') => ((a, restored, Raise e), w')
      end
  end.

(** The warnings of [_verify_integrity]. *)
Definition verify_integrity (plan : RestorePlan) : proc rworld exn (list string) :=
  r <- run_command ["psql"; dsn_of plan; "-c"; "SELECT 1;"; "-tA"];;
  pret (if code_of r =? 0 then [] else ["target_dsn_unreachable: " +:+ take_text 200 (strip r.2)]).

Definition insert_restore_test (o : RestoreOutcome) : proc rworld exn unit :=
  execute (fun w =>
    if existsb (fun x => String.eqb (x_id x) (restore_test_id o)) (other_rows w) then Raise DatabaseError
    else if negb (existsb (fun r => String.eqb (r_id r) (from_backup o)) (runs w)) then Raise DatabaseError
    else Ok (set_other_rows (other_rows w ++ [{| x_id := restore_test_id o; x_backup := from_backup o; x_tested_at := tested_at o;
               x_env := in_env o; x_succeeded := restore_succeeded o; x_rto := rto_seconds o; x_anomalies := anomalies o |}]) w)).

(** What the [try] of [_do_restore] leaves behind: the anomalies, the components restored,
    and whether it succeeded or what it raised. *)
Definition attempt (td : string) (plan : RestorePlan) : state rworld (dict * list string * outcome exn bool) := fun w =>
  match resolve_kms_key w with
  | (Raise e, w) => (([], [], Raise e), w)
  | (Ok _, w) =>
      let w := set_fs (<[td := Directory]> (fs w)) w in
      let '((a, restored, r), w) := restore_all td plan (to_restore plan) [] [] w in
      let w := set_fs (remove_tree td (fs w)) w in
      match r with
      | Raise e => ((a, restored, Raise e), w)
      | Ok _ =>
          match verify_integrity plan w with
          | (Raise e, w) => ((a, restored, Raise e), w)
          | (Ok warnings, w) =>
              let a := match warnings with [] => a | _ => note_all "integrity_warnings" warnings a end in
              ((a, restored, Ok (negb (truthy (get "integrity_warnings" a)) && (length restored =? length (to_restore plan))%nat)), w)
          end
      end
  end.

(** [_do_restore]; [id] is the uuid, [td] the temporary directory. *)
Definition do_restore (id td : string) (plan : RestorePlan) : proc rworld exn RestoreOutcome :=
  at_ <- now_;;
  t0 <- tick;;
  r <- plift (attempt td plan);;
  t1 <- tick;;
  let o := {| restore_test_id := id; from_backup := backup_run_id plan; tested_at := at_; in_env := tested_in_env plan;
              restore_succeeded := match r.2 with Ok b => b | Raise _ => false end;
              rto_seconds := Float64.trunc (Float64.fsub t1 t0); anomalies := r.1.1; components_restored := r.1.2;
              restore_error := match r.2 with Ok _ => None | Raise e => Some (Raised e) end |} in
  insert_restore_test o;;
  pret o.

Definition is_production (e : TestedEnv) : bool := match e with production => true | _ => false end.

Definition restore_to_environment (id td : string) (plan : RestorePlan) : proc rworld exn RestoreOutcome :=
  if is_production (tested_in_env plan) then praise ValueError else do_restore id td plan.

Definition page (subject : string) : proc rworld exn unit := pmodify (fun w => set_pages (pages w ++ [subject]) w).

Definition restore_production (id td : string) (plan : RestorePlan) : proc rworld exn RestoreOutcome :=
  let prod := {| backup_run_id := backup_run_id plan; tested_in_env := production;
                 target_postgres_dsn := target_postgres_dsn plan; to_restore := to_restore plan;
                 by_actor := by_actor plan; in_project := in_project plan |} in
  page "[recovery] PRODUCTION RESTORE STARTED";;
  o <- do_restore id td prod;;
  page ("[recovery] PRODUCTION RESTORE " +:+ (if restore_succeeded o then "SUCCEEDED" else "FAILED"));;
  pret o.

(** [ORDER BY completed_at DESC NULLS LAST LIMIT 1] of the completed rows; of equal ones the
    first. *)
Fixpoint newest_completed (best : option run_row) (rows : list run_row) : option run_row :=
  match rows with
  | [] => best
  | r :: rows' =>
      let is_completed := match r_status r with completed => true | _ => false end in
      let better := match best with
                    | None => true
                    | Some b => match r_completed_at r, r_completed_at b with
                                | Some x, Some y => y <? x
                                | Some _, None => true
                                | None, _ => false
                                end
                    end in
      newest_completed (if is_completed && better then Some r else best) rows'
  end.

Definition most_recent_completed_backup : proc rworld exn (option string) :=
  if has_pool then
    execute (fun w => Ok w);;
    w <- pgets id;;
    pret (match newest_completed None (runs w) with Some r => Some (r_id r) | None => None end)
  else pret None.

(** [run_weekly_test]; [none] and [unused] are the uuids of the outcome without a backup. *)
Definition run_weekly_test (cycle id td unused : string) (actor project : string) : proc rworld exn TestRestoreReport :=
  started <- now_;;
  b <- most_recent_completed_backup;;
  match b with
  | None =>
      done_at <- now_;;
      pret {| cycle_id := cycle; cycle_started_at := started; cycle_completed_at := done_at;
              outcomes := [{| restore_test_id := id; from_backup := unused; tested_at := started; in_env := dr_sandbox;
                              restore_succeeded := false; rto_seconds := 0;
                              anomalies := [("reason", VStr "no_completed_backup_run_found")];
                              components_restored := []; restore_error := Some (Text "no completed backup available to test") |}];
              all_passed := false |}
  | Some bid =>
      o <- restore_to_environment id td {| backup_run_id := bid; tested_in_env := dr_sandbox; target_postgres_dsn := None;
             to_restore := default_components; by_actor := actor; in_project := project |};;
      done_at <- now_;;
      pret {| cycle_id := cycle; cycle_started_at := started; cycle_completed_at := done_at; outcomes := [o];
              all_passed := restore_succeeded o |}
  end.

(** * What a backup is worth *)

(** A download that reports success has put the object at the path; the objects stay. *)
Class DownloadLaws (stored : R → string → option string) := {
  download_law src parts dest argv fs rem r fs' rem' :
    is_local dest = true → uri_for target parts = Ok src → download_argv target src dest = Ok argv →
    runner argv fs rem = (r, fs', rem') →
    (∀ u, stored rem' u = stored rem u) ∧
    (code_of r = 0 → ∃ b, stored rem src = Some b ∧ fs' !! dest = Some (File b))
}.

Section Laws.
Context (stored : R → string → option string) `{!DownloadLaws stored}.

Lemma download_stored src parts dest w r w' :
  is_local dest = true → uri_for target parts = Ok src → download src dest w = (r, w') →
  (∀ u, stored (remote w') u = stored (remote w) u) ∧
  (r = Ok tt → ∃ b, stored (remote w) src = Some b ∧ fs w' !! dest = Some (File b)).
Proof.
  intros Hloc Huri. unfold download, lift, Backup.run_command, pbind, bind, ret.
  destruct (download_argv _ _ _) as [argv|] eqn:Ea; [|by intros [= <- <-]].
  destruct (runner _ _ _) as [[x f] m] eqn:Er. cbn.
  destruct (download_law _ _ _ _ _ _ _ _ _ Hloc Huri Ea Er) as [Hu Hb].
  destruct (Z.eqb_spec (code_of x) 0) as [E|]; cbn; intros [= <- <-]; split; try done. intros _. by apply Hb.
Qed.

(** The artifacts of [cs] are JSON objects in the store. *)
Definition sound_artifacts (id : string) (cs : list string) (rem : R) : Prop :=
  ∀ c, c ∈ cs → in_strs c ["kg"; "vault"; "bundles"] = true ∧
    ∃ u text d, artifact_uri target id c = Ok u ∧ stored rem u = Some text ∧ Json.loads text = Some (Json.JObj d).

Lemma restore_all_sound td plan cs a restored w a' restored' r w' :
  is_local td = true → sound_artifacts (backup_run_id plan) cs (remote w) →
  restore_all td plan cs a restored w = ((a', restored', r), w') →
  a' = a ∧ (r = Ok tt → restored' = restored ++ cs).
Proof.
  intros Htd. revert restored w. induction cs as [|c cs IH]; intros restored w Hs; cbn [restore_all].
  { intros [= <- <- <- _]. split; [done|]. intros _. by rewrite app_nil_r. }
  destruct (Hs c (list_elem_of_here _ _)) as (Hin & u & text & d & Hu & Ht & Hj).
  unfold artifact_uri in Hu. unfold pbind, bind, lift, ret. rewrite Hu.
  destruct (download u _ w) as [[[]|e] w1] eqn:Ed.
  - eapply download_stored in Ed as [Hkeep Hb]; [|by apply is_local_app|exact Hu].
    destruct (Hb eq_refl) as (b & Hb1 & Hb2). rewrite Ht in Hb1. injection Hb1 as <-.
    unfold apply_component. destruct (String.eqb_spec c "postgres") as [->|_]; [done|]. rewrite Hin.
    unfold pbind, bind, pgets, plift, gets, pret, ret. unfold bind, read_json. cbn -[Json.loads restore_all].
    rewrite Hb2, Hj.
    intros Hrest. apply IH in Hrest as [-> Hr].
    + split; [done|]. intros E. by rewrite (Hr E), <-app_assoc.
    + intros c' Hc'. destruct (Hs c' (list_elem_of_further _ _ _ Hc')) as (H1 & u' & t' & d' & H2 & H3 & H4).
      split; [done|]. exists u', t', d'. by rewrite Hkeep.
  - intros [= <- <- <- _]. by split.
Qed.

Lemma execute_value stmt (w : rworld) u w' : execute stmt w = (Ok u, w') → u = tt.
Proof. by destruct u. Qed.

(** The anomalies and the restored components of a restore of sound artifacts. *)
Lemma do_restore_sound id td plan w o w' :
  is_local td = true → sound_artifacts (backup_run_id plan) (to_restore plan) (remote w) →
  do_restore id td plan w = (Ok o, w') →
  dict_lookup "malformed_artifact" (anomalies o) = None ∧
  (restore_error o = None → components_restored o = to_restore plan).
Proof.
  intros Htd Hs. unfold do_restore, pbind at 1, bind at 1. cbn [Backup.now_].
  unfold pbind at 1, bind at 1. cbn [tick]. unfold pbind at 1, bind at 1, plift, bind at 1, ret at 1.
  set (w0 := set_reads _ _). assert (Hs0 : sound_artifacts (backup_run_id plan) (to_restore plan) (remote w0)) by exact Hs.
  destruct (attempt td plan w0) as [[[a restored] r] w1] eqn:Ea.
  assert (Hat : dict_lookup "malformed_artifact" a = None ∧ ∀ b, r = Ok b → restored = to_restore plan).
  { revert Ea. unfold attempt. destruct (resolve_kms_key w0) as [[k|e] w2] eqn:Ek; [|intros [= <- <- <- _]; by split].
    assert (Hk : remote w2 = remote w0).
    { revert Ek. unfold resolve_kms_key. destruct (kms_key_ref target) as [ref|]; [|by intros [= _ <-]].
      destruct (String.eqb ref ""); [by intros [= _ <-]|]. destruct (secret_fetcher ref); [|done]. by intros [= _ <-]. }
    destruct (restore_all td plan _ _ _ _) as [[[a1 r1] q] w3] eqn:Er.
    eapply restore_all_sound in Er as [-> Hr]; [|done|cbn; by rewrite Hk].
    destruct q as [[]|e]; [|intros [= <- <- <- _]; by split]. specialize (Hr eq_refl). cbn in Hr. subst r1.
    unfold verify_integrity, pbind, bind, Backup.run_command, pret, ret. destruct (runner _ _ _) as [[x f] m].
    intros [= <- <- <- _]. split; [|done]. by destruct (code_of x =? 0). }
  unfold pbind, bind. cbn. destruct (insert_restore_test _ _) as [[[]|e] w3]; [|done]. intros [= <- _]. cbn.
  destruct Hat as [H1 H2]. split; [done|]. destruct r as [b|e]; [|done]. intros _. by apply (H2 b).
Qed.
End Laws.

(** C32: What a completed snapshot has stored in its bucket is what its components dumped.
    As long as nobody writes these objects, every successful download gives the dumped bytes
    back; and a restore of components whose dumps are JSON objects, as those of the default
    dumper are, finds no malformed artifact and restores all of them unless it ends with an
    error. *)
Theorem snapshot_restores {T} stored `{!StorageLaws target runner stored} `{!DownloadLaws stored}
    dumper content id td plan (w w' : @world R T) o :
  dumps_content dumper content → is_local td = true →
  run_snapshot target runner secret_fetcher has_pool clock dumper id td plan w = (Ok o, w') → status o = completed →
  ∀ w2 : rworld,
    (∀ c u, c ∈ components plan → artifact_uri target id c = Ok u → stored (remote w2) u = stored (remote w') u) →
    (∀ c u dest w3, c ∈ components plan → artifact_uri target id c = Ok u → is_local dest = true →
       download u dest w2 = (Ok tt, w3) → fs w3 !! dest = Some (File (content c))) ∧
    (∀ id2 td2 plan2 o2 w3, is_local td2 = true → backup_run_id plan2 = id → to_restore plan2 ⊆ components plan →
       (∀ c, c ∈ to_restore plan2 → ∃ d, Json.loads (content c) = Some (Json.JObj d)) →
       do_restore id2 td2 plan2 w2 = (Ok o2, w3) →
       dict_lookup "malformed_artifact" (anomalies o2) = None ∧
       (restore_error o2 = None → components_restored o2 = to_restore plan2)).
Proof.
  intros Hd Htd Hrun Hst w2 Hsame.
  pose proof (completed_stored target runner secret_fetcher has_pool clock dumper stored content Hd id td plan w o w' Htd Hrun Hst) as Hall.
  split.
  - intros c u dest w3 Hc Hu Hloc Hdl. destruct (Hall c Hc) as (_ & _ & u' & Hu' & Hst').
    rewrite Hu in Hu'. injection Hu' as <-. unfold artifact_uri in Hu.
    pose proof (download_stored stored u _ dest w2 _ w3 Hloc Hu Hdl) as [_ Hb]. destruct (Hb eq_refl) as (b & Hb1 & Hb2).
    rewrite (Hsame c u Hc Hu), Hst' in Hb1. by injection Hb1 as <-.
  - intros id2 td2 plan2 o2 w3 Htd2 Hid Hsub Hobj. apply (do_restore_sound stored); [done|]. intros c Hc.
    specialize (Hsub c Hc). destruct (Hall c Hsub) as (Hdef & Hne & u & Hu & Hs).
    split; [unfold default_components in Hdef; apply elem_of_cons in Hdef as [->|Hdef]; [done|by apply in_strs_true]|].
    destruct (Hobj c Hc) as [d Hobj']. exists u, (content c), d. rewrite Hid. split; [done|]. split; [|done].
    by rewrite (Hsame c u Hsub Hu).
Qed.

End Manager.

(** * A rehearsal *)
#[export] Instance demo_downloads : DownloadLaws demo_target demo_run demo_object.
Proof.
  split. intros src parts dest argv fs rem r fs' rem' Hl Hu%demo_uri Ha. unfold download_argv in Ha. cbn in Ha.
  injection Ha as <-. unfold demo_run. cbn.
  assert (Hd : startswith dest "s3://" = false).
  { destruct dest as [|c dest]; [done|]. cbn in Hl. apply Ascii.eqb_eq in Hl as ->. reflexivity. }
  rewrite Hd. unfold demo_object. destruct (rem !! src) as [b|] eqn:E; intros [= <- <- <-]; split; try done.
  intros _. exists b. by rewrite lookup_insert_eq.
Qed.

Definition three : list string := ["kg"; "vault"; "bundles"].
Definition demo_clock (n : nat) : datetime := demo_time + Z.of_nat n.
Definition demo_plan : SnapshotPlan :=
  {| components := three; retention_days := 30; actor := "cron"; project_id := "system" |}.
Definition demo_start : @world (gmap string string) (list test_row) :=
  {| fs := ∅; remote := ∅; runs := []; other_rows := []; db_faults := []; pages := []; reads := 0 |}.
Definition demo_backup : outcome exn BackupOutcome * @world (gmap string string) (list test_row) :=
  run_snapshot demo_target demo_run demo_vault true demo_clock (placeholder_dump demo_time) "6f9a" "/tmp/snap" demo_plan demo_start.
Definition demo_done : BackupOutcome :=
  match demo_backup.1 with Ok o => o | Raise _ => demo_failure end.
Definition demo_restore_plan (dsn : option string) : RestorePlan :=
  {| backup_run_id := "6f9a"; tested_in_env := dr_sandbox; target_postgres_dsn := dsn; to_restore := three;
     by_actor := "cron"; in_project := "system" |}.
Definition demo_restored (w : @world (gmap string string) (list test_row)) :
    outcome exn RestoreOutcome * @world (gmap string string) (list test_row) :=
  do_restore demo_target demo_run demo_vault true demo_clock (fun _ => 0) (fun p => p) "77aa" "/tmp/back" (demo_restore_plan None) w.

Lemma demo_backup_ok : demo_backup.1 = Ok demo_done ∧ status demo_done = completed.
Proof. vm_compute. split; reflexivity. Qed.

Lemma demo_contents c : c ∈ three → ∃ d, Json.loads (demo_content c) = Some (Json.JObj d).
Proof.
  unfold three. rewrite !elem_of_cons, elem_of_nil. intros [->|[->|[->|[]]]]; vm_compute; eexists; reflexivity.
Qed.

Definition demo_uri_of (c : string) : string :=
  match artifact_uri demo_target "6f9a" c with Ok u => u | Raise _ => "" end.
Definition demo_fetched : outcome exn unit * @world (gmap string string) (list test_row) :=
  download demo_target demo_run (demo_uri_of "kg") "/tmp/kg" demo_backup.2.

Definition demo_outcome : RestoreOutcome :=
  match (demo_restored demo_backup.2).1 with
  | Ok o => o
  | Raise _ => {| restore_test_id := ""; from_backup := ""; tested_at := 0; in_env := qa; restore_succeeded := false;
                  rto_seconds := 0; anomalies := []; components_restored := []; restore_error := None |}
  end.

Lemma demo_fetch_ok : demo_fetched.1 = Ok tt.
Proof. vm_compute. reflexivity. Qed.

Lemma demo_restore_ok : (demo_restored demo_backup.2).1 = Ok demo_outcome ∧ restore_error demo_outcome = None.
Proof. vm_compute. split; reflexivity. Qed.

Lemma snapshot_restores_witness :
  fs demo_fetched.2 !! "/tmp/kg" = Some (File (demo_content "kg")) ∧ components_restored demo_outcome = three.
Proof.
  destruct demo_backup_ok as [H1 H2].
  assert (Hrun : demo_backup = (Ok demo_done, demo_backup.2)) by (rewrite <-H1; apply surjective_pairing).
  destruct (snapshot_restores demo_target demo_run demo_vault true demo_clock (fun _ => 0) (fun p => p) demo_object
    (placeholder_dump demo_time) demo_content "6f9a" "/tmp/snap" demo_plan demo_start demo_backup.2 demo_done
    demo_dumps eq_refl Hrun H2 demo_backup.2 (fun _ _ _ _ => eq_refl)) as [Hbytes Hback].
  split.
  - apply (Hbytes "kg" (demo_uri_of "kg") "/tmp/kg"); [by left|reflexivity|reflexivity|].
    rewrite <-demo_fetch_ok. apply surjective_pairing.
  - destruct demo_restore_ok as [H3 H4].
    apply (Hback "77aa" "/tmp/back" (demo_restore_plan None) demo_outcome (demo_restored demo_backup.2).2);
      [reflexivity|reflexivity|done|exact demo_contents| |exact H4]. rewrite <-H3. apply surjective_pairing.
Defined.

(** An artifact that was damaged in the store is noted, and the restore succeeds. *)
Definition damaged : @world (gmap string string) (list test_row) :=
  set_remote (<["s3://acme/spine-dr/snapshots/6f9a/vault.tar.zst" := "garbage"]> (remote demo_backup.2)) demo_backup.2.

Lemma damaged_artifact_passes :
  match (demo_restored damaged).1 with
  | Ok o => restore_succeeded o = true ∧ restore_error o = None ∧
      dict_lookup "malformed_artifact" (anomalies o) = Some (VList [VStr "vault:/tmp/back/vault.tar.zst"])
  | Raise _ => False
  end.
Proof. vm_compute. split_and!; reflexivity. Qed.

(** Without a DSN the production restore goes to the sandbox database. *)
Lemma production_without_dsn plan : target_postgres_dsn plan = None → dsn_of plan = sandbox_dsn.
Proof. intros E. unfold dsn_of. by rewrite E. Qed.

End Restore.
