(* ===== verification/Health.v ===== *)
(** Health probes: [recovery/health.py].

    A probe is a function of what its touch point did within the time allowed; the five run
    in parallel and share nothing, so a report is the list of their outcomes.  The texts of
    exceptions and the latencies are arguments. *)

From S2P Require Import Prelude PyValue Datetime.
From Stdlib Require Import Ascii.
Local Open Scope Z_scope.

Module Health.

Inductive HealthStatus := healthy | degraded | unreachable | unknown.

#[export] Instance health_status_eq : EqDecision HealthStatus.
Proof. solve_decision. Defined.

Definition HEALTH_COMPONENTS : list string := ["hub"; "vault"; "keycloak"; "postgres"; "mcp_server"].

Record ProbeOutcome := {
  component : string; status : HealthStatus; latency_ms : Z; detail : string; diagnostic : dict; probed_at : datetime
}.

Definition is_ok (o : ProbeOutcome) : bool := bool_decide (status o = healthy).

Record HealthReport := { report_id : string; generated_at : datetime; outcomes : list ProbeOutcome }.

Definition has_status (s : HealthStatus) (o : ProbeOutcome) : bool := bool_decide (status o = s).

Definition overall_status (r : HealthReport) : HealthStatus :=
  if existsb (has_status unreachable) (outcomes r) then unreachable
  else if existsb (has_status degraded) (outcomes r) then degraded
  else if forallb (has_status healthy) (outcomes r) then healthy
  else unknown.

Definition status_text (s : HealthStatus) : string :=
  match s with healthy => "healthy" | degraded => "degraded" | unreachable => "unreachable" | unknown => "unknown" end.

Definition as_dict (r : HealthReport) : dict :=
  [("report_id", VStr (report_id r)); ("generated_at", VStr (isoformat (generated_at r)));
   ("overall_status", VStr (status_text (overall_status r)));
   ("components", VList (map (fun o => VDict
      [("component", VStr (component o)); ("status", VStr (status_text (status o))); ("latency_ms", VInt (latency_ms o));
       ("detail", VStr (detail o)); ("diagnostic", VDict (diagnostic o)); ("probed_at", VStr (isoformat (probed_at o)))])
      (outcomes r)))].

(** * Probes *)

(** What an awaited touch point did: a result, the time limit, or an exception. *)
Inductive awaited (A : Type) := Got (a : A) | TimedOut | Failed (exc : string).
Arguments Got {A} a.
Arguments TimedOut {A}.
Arguments Failed {A} exc.

Section Probes.
Context (timeout_text : string) (latency : Z) (now : datetime).

Definition outcome_of (c : string) (s : HealthStatus) (d : string) (diag : dict) : ProbeOutcome :=
  {| component := c; status := s; latency_ms := latency; detail := d; diagnostic := diag; probed_at := now |}.

Definition timed_out (c : string) : ProbeOutcome := outcome_of c unreachable ("timed out after " +:+ timeout_text +:+ "s") [].

Definition http_probe (c : string) (r : awaited (Z * string)) : ProbeOutcome :=
  match r with
  | Got (code, body) =>
      let diag := [("http_code", VInt code); ("body_excerpt", VStr (take_text 200 body))] in
      outcome_of c
        (if (200 <=? code) && (code <? 300) then healthy
         else if (500 <=? code) && (code <? 600) then unreachable else degraded)
        ("HTTP " +:+ str_of_Z code) diag
  | TimedOut => timed_out c
  | Failed exc => outcome_of c unreachable ("fetch failed: " +:+ exc) []
  end.

Definition probe_hub (r : awaited (Z * string)) : ProbeOutcome := http_probe "hub" r.

Definition probe_keycloak (r : awaited (Z * string)) : ProbeOutcome :=
  let out := http_probe "keycloak" r in
  if is_ok out then
    match get "body_excerpt" (diagnostic out) with
    | VStr body => if contains "jwks_uri" body then out
                   else outcome_of "keycloak" degraded "openid-configuration missing jwks_uri" (diagnostic out)
    | _ => out
    end
  else out.

(** The URL of the MCP server may be unset; then the registry of tools is counted, or its
    import raises. *)
Definition probe_mcp_server (url_set : bool) (r : awaited (Z * string)) (registry : outcome string Z) : ProbeOutcome :=
  if url_set then http_probe "mcp_server" r
  else match registry with
       | Ok count =>
           outcome_of "mcp_server" (if 0 <? count then healthy else degraded)
             ("in-process registry has " +:+ str_of_Z count +:+ " tools") [("tool_count", VInt count)]
       | Raise exc => outcome_of "mcp_server" unreachable ("registry import failed: " +:+ exc) []
       end.

(** The value of [SELECT 1], when there is a pool. *)
Definition probe_postgres (pool : option (awaited value)) : ProbeOutcome :=
  match pool with
  | None => outcome_of "postgres" unknown "no pool available (Hub bootstrap incomplete)" []
  | Some (Got v) =>
      let one := match v with VInt n => n =? 1 | VBool b => b | _ => false end in
      outcome_of "postgres" (if one then healthy else degraded) ("SELECT 1 returned " +:+ py_str v) [("select_1_value", v)]
  | Some TimedOut => timed_out "postgres"
  | Some (Failed exc) => outcome_of "postgres" unreachable ("query failed: " +:+ exc) []
  end.

Definition probe_vault (r : awaited bool) : ProbeOutcome :=
  match r with
  | Got ok => outcome_of "vault" (if ok then healthy else degraded)
                (if ok then "vault adapter reports OK" else "vault adapter reports not OK") []
  | TimedOut => timed_out "vault"
  | Failed exc => outcome_of "vault" unreachable ("vault health check failed: " +:+ exc) []
  end.

(** [_default_vault_health]: an exception is a [false]. *)
Definition default_vault_health (listing : outcome string unit) : bool := match listing with Ok _ => true | Raise _ => false end.

(** * Reports *)

(** The result of a gathered probe, or the text of what it raised. *)
Definition gathered (r : outcome string ProbeOutcome) : ProbeOutcome :=
  match r with
  | Ok o => o
  | Raise e => {| component := "unknown"; status := unreachable; latency_ms := 0; detail := "probe raised: " +:+ e;
                  diagnostic := []; probed_at := now |}
  end.

(** The report, and the subject of the page it causes. *)
Definition generate_report (id : string) (results : list (outcome string ProbeOutcome)) : HealthReport * option string :=
  let r := {| report_id := id; generated_at := now; outcomes := map gathered results |} in
  (r, match overall_status r with
      | degraded | unreachable => Some ("[recovery] health degraded (" +:+ status_text (overall_status r) +:+ ")")
      | _ => None
      end).
End Probes.

(** * Heartbeats *)

(** The rows of [spine_dr.heartbeat] by source and target: when, and which status. *)
Definition heartbeats : Type := gmap (string * string) (datetime * HealthStatus).

Definition emit_heartbeat (has_pool : bool) (source target : string) (s : HealthStatus) (now : datetime) (rows : heartbeats) : heartbeats :=
  if has_pool then <[(source, target) := (now, s)]> rows else rows.

(** * The worst component decides *)

(** How bad a status is; a component that is not known is better than a degraded one. *)
Definition severity (s : HealthStatus) : nat :=
  match s with healthy => 0 | unknown => 1 | degraded => 2 | unreachable => 3 end.

Lemma overall_status_worst r : severity (overall_status r) = foldr Nat.max 0%nat (map (fun o => severity (status o)) (outcomes r)).
Proof.
  unfold overall_status. induction (outcomes r) as [|o l IH]; [done|].
  cbn [existsb forallb map foldr]. rewrite <-IH. unfold has_status at 1 3 5.
  destruct (status o); cbn [severity]; repeat (rewrite bool_decide_eq_false_2 by done);
    repeat (rewrite bool_decide_eq_true_2 by done); cbn [orb andb];
    destruct (existsb (has_status unreachable) l), (existsb (has_status degraded) l), (forallb (has_status healthy) l); done.
Qed.

(** A page is sent exactly when some component is degraded or unreachable. *)
Lemma paged_iff now id results :
  is_Some (generate_report now id results).2 ↔
  ∃ o, o ∈ (generate_report now id results).1.(outcomes) ∧ (2 <= severity (status o))%nat.
Proof.
  unfold generate_report. set (r := {| report_id := id; generated_at := now; outcomes := map (gathered now) results |}).
  cbn [fst snd].
  assert (H : is_Some (match overall_status r with
      | degraded | unreachable => Some ("[recovery] health degraded (" +:+ status_text (overall_status r) +:+ ")")
      | _ => None end) ↔ (2 <= severity (overall_status r))%nat).
  { destruct (overall_status r); cbn; split; intros H; try (by destruct H); try lia; by eexists. }
  rewrite H, overall_status_worst. clear H. induction (outcomes r) as [|o l IH]; cbn.
  - split; [lia|]. by intros (o & Ho%elem_of_nil & _).
  - split.
    + intros Hm. destruct (decide (2 <= severity (status o))%nat) as [D|D]; [exists o; split; [by left|done]|].
      destruct (proj1 IH ltac:(lia)) as (o' & Ho & Hs). exists o'. split; [by right|done].
    + intros (o' & [->|Ho]%elem_of_cons & Hs); [lia|]. assert (Ht := proj2 IH (ex_intro _ o' (conj Ho Hs))). lia.
Qed.

(** * The discovery document *)

(** Keycloak names its key set after five other endpoints, beyond the two hundred
    characters the probe keeps. *)
Definition realm : string := "http://localhost:8443/realms/spine".
Definition entry (k path : string) : string :=
  str1 dquote +:+ k +:+ str1 dquote +:+ ":" +:+ str1 dquote +:+ realm +:+ path +:+ str1 dquote.
Definition discovery : string :=
  "{" +:+ join "," [entry "issuer" ""; entry "authorization_endpoint" "/protocol/openid-connect/auth";
                    entry "token_endpoint" "/protocol/openid-connect/token";
                    entry "introspection_endpoint" "/protocol/openid-connect/token/introspect";
                    entry "userinfo_endpoint" "/protocol/openid-connect/userinfo";
                    entry "jwks_uri" "/protocol/openid-connect/certs"] +:+ "}".

Lemma keycloak_always_degraded t l now :
  contains "jwks_uri" discovery = true ∧ status (probe_keycloak t l now (Got (200, discovery))) = degraded.
Proof. split; vm_compute; reflexivity. Qed.

End Health.
