(* ===== verification/Secrets.v ===== *)
(** Secrets: [shared/secrets/base.py], [memory.py], [cache.py], the package's functions and
    the hooks of [rotation.py].

    The adapters are the instances of a class; the cache is written against it.  The calls
    of the cache are [task]s that interleave: the inner adapter acts at one instant of its
    call, and the lock is never held across an await, so what it guards is one action.
    Times are doubles ([Float64]) of [time.monotonic()]. *)

From S2P Require Import Prelude PyValue Text Float64 Tasks Dependencies.
From Stdlib Require Import Ascii.
Local Open Scope Z_scope.

Module Secrets.
Import Float64.

(** [SecretNotFound] and [SecretAccessDenied] are kinds of [SecretBackendError]. *)
Inductive exn := SecretBackendError | SecretNotFound | SecretAccessDenied | OtherError.

Record SecretRef := { ref_adapter : string; ref_path : string }.
Definition ref_text (r : SecretRef) : string := ref_adapter r +:+ "://" +:+ ref_path r.

(** * Adapters *)

(** The contract of a backend in the state [V]; a call that raises may have had its effect. *)
Class SecretAdapter (V : Type) := {
  adapter_name : string;
  a_get : string → V → outcome exn string * V;
  a_put : string → string → V → outcome exn unit * V;
  a_delete : string → V → outcome exn unit * V;
  a_list : string → V → outcome exn (list string) * V;
  a_close : V → outcome exn unit * V
}.

(** What a backend holds, and that its answers are from it. *)
Class AdapterLaws (V : Type) `{!SecretAdapter V} (contents : V → gmap string string) := {
  get_law p v s v' : a_get p v = (Ok s, v') → contents v !! p = Some s;
  put_law p s v v' : a_put p s v = (Ok tt, v') → contents v' = <[p := s]> (contents v)
}.

(** [InMemoryAdapter]. *)
Definition memory_get (p : string) (store : gmap string string) : outcome exn string * gmap string string :=
  (match store !! p with Some s => Ok s | None => Raise SecretNotFound end, store).
Definition memory_put (p s : string) (store : gmap string string) : outcome exn unit * gmap string string :=
  (Ok tt, <[p := s]> store).
Definition memory_delete (p : string) (store : gmap string string) : outcome exn unit * gmap string string :=
  (Ok tt, delete p store).
Definition memory_list (prefix : string) (store : gmap string string) : outcome exn (list string) * gmap string string :=
  (Ok (Dependencies.sort_strs (List.filter (fun k => startswith k prefix) (map fst (map_to_list store)))), store).

#[export] Instance InMemoryAdapter : SecretAdapter (gmap string string) := {|
  adapter_name := "memory"; a_get := memory_get; a_put := memory_put; a_delete := memory_delete;
  a_list := memory_list; a_close := fun v => (Ok tt, v)
|}.

#[export] Instance memory_laws : AdapterLaws (gmap string string) (fun store => store).
Proof.
  split; cbn; unfold memory_get, memory_put.
  - intros p v s v'. destruct (v !! p) as [x|] eqn:E; [|done]. by intros [= -> _].
  - by intros p s v v' [= <-].
Qed.

(** * The default adapter *)
Definition KNOWN_ADAPTER_NAMES : list string := ["vault"; "aws"; "azure"; "gcp"].

(** What the error of [get_default_adapter] says. *)
Inductive unconfigured := HintWithoutAdapter (hint : string) | NoAdapter.

Definition get_default_adapter {V} (registered : option V) (env : string) : outcome unconfigured V :=
  match registered with
  | Some a => Ok a
  | None =>
      let hinted := lower (strip env) in
      if negb (String.eqb hinted "") && in_strs hinted KNOWN_ADAPTER_NAMES
      then Raise (HintWithoutAdapter hinted) else Raise NoAdapter
  end.

(** * The cache *)
Definition DEFAULT_TTL_SECONDS : Z := of_Z 60.

Record entry := { e_value : string; expires_at : Z }.

Section Cache.
Context {V : Type} `{!SecretAdapter V}.

(** [past] and [answers] belong to no code: the states the backend has had with the time
    each ended, and what callers got, with the time they asked. *)
Record world := {
  vault : V; entries : gmap string entry; clock : Z; past : list (Z * V); answers : list (string * string * Z)
}.

Definition set_vault (v : V) (w : world) : world :=
  {| vault := v; entries := entries w; clock := clock w; past := (clock w, vault w) :: past w; answers := answers w |}.
Definition set_entries (es : gmap string entry) (w : world) : world :=
  {| vault := vault w; entries := es; clock := clock w; past := past w; answers := answers w |}.
Definition set_clock (t : Z) (w : world) : world :=
  {| vault := vault w; entries := entries w; clock := t; past := past w; answers := answers w |}.
Definition add_answer (a : string * string * Z) (w : world) : world :=
  {| vault := vault w; entries := entries w; clock := clock w; past := past w; answers := a :: answers w |}.

Abbreviation job := (task world exn).

(** A call of the inner adapter. *)
Definition inner {A} (f : V → outcome exn A * V) : job A :=
  attempt (fun w => let '(r, v) := f (vault w) in (r, set_vault v w)).

Definition change_entries (f : gmap string entry → gmap string entry) : job unit :=
  act (fun w => (tt, set_entries (f (entries w)) w)).

(** The constructor's [default_ttl]. *)
Context (default_ttl : Z).
Local Open Scope task_scope.

Definition fresh_entry (p : string) (w : world) : option string :=
  match entries w !! p with
  | Some e => if clock w <? expires_at e then Some (e_value e) else None
  | None => None
  end.

Definition get (p : string) (ttl : option Z) : job string :=
  hit <- act (fun w => ((fresh_entry p w, clock w), w));;
  match hit.1 with
  | Some v => tret v
  | None =>
      v <- inner (a_get p);;
      change_entries (insert p {| e_value := v; expires_at := fadd hit.2 (default default_ttl ttl) |});;
      tret v
  end.

Definition put (p v : string) : job unit := inner (a_put p v);; change_entries (delete p).
Definition delete_path (p : string) : job unit := inner (a_delete p);; change_entries (delete p).
Definition list_paths (prefix : string) : job (list string) := inner (a_list prefix).
Definition close : job unit := inner a_close;; change_entries (fun _ => ∅).

Definition invalidate (p : option string) : job unit :=
  change_entries (fun es => match p with None => ∅ | Some p => delete p es end).

(** The numbers of all entries and of those that are fresh. *)
Definition stats (w : world) : nat * nat * Z :=
  (size (entries w), size (filter (fun x : string * entry => clock w < expires_at x.2) (entries w)), default_ttl).

(** * What runs *)

(** A caller asks and takes the answer away. *)
Definition ask (p : string) (ttl : option Z) : job unit :=
  t <- act (fun w => (clock w, w));;
  v <- get p ttl;;
  act (fun w => (tt, add_answer (p, v, t) w)).

Definition void {A} (m : job A) : job unit := m;; tret tt.

(** No time to live is longer than this. *)
Context (max_ttl : Z) (Hmax : 0 <= max_ttl).

Inductive begins : job unit → Prop :=
| begin_ask p ttl : 0 <= default default_ttl ttl <= max_ttl → begins (ask p ttl)
| begin_put p v : begins (put p v)
| begin_delete p : begins (delete_path p)
| begin_list prefix : begins (void (list_paths prefix))
| begin_close : begins close
| begin_invalidate p : begins (invalidate p).

(** Time passes; others write to the backend. *)
Inductive outside : world → world → Prop :=
| outside_time w t : clock w <= t → is_double t → outside w (set_clock t w)
| outside_write w v : outside w (set_vault v w).

Abbreviation cache_step := (pool_step begins outside).

(** * Staleness *)
Context (contents : V → gmap string string) `{!AdapterLaws V contents}.

(** At some instant that is not before [t] the backend held [v] at [p]. *)
Definition held (w : world) (p v : string) (t : Z) : Prop :=
  contents (vault w) !! p = Some v ∨ ∃ e u, (e, u) ∈ past w ∧ t <= e ∧ contents u !! p = Some v.

Definition grows (w w' : world) : Prop :=
  clock w <= clock w' ∧ ∀ p v t, t <= clock w → held w p v t → held w' p v t.

#[local] Instance grows_preorder : PreOrder grows.
Proof.
  split; [by intros w; split; [lia|]|]. intros w1 w2 w3 [C1 H1] [C2 H2]. split; [lia|].
  intros p v t Ht Hh. apply H2; [lia|]. by apply H1.
Qed.

(** Every entry was read not longer than its time to live before it expires; no answer was
    older than [max_ttl] when it was asked for. *)
Record recent (w : world) : Prop := {
  rc_clock : 0 <= clock w ∧ is_double (clock w);
  rc_entries p e : entries w !! p = Some e →
    ∃ t d, 0 <= t <= clock w ∧ 0 <= d <= max_ttl ∧ expires_at e = fadd t d ∧ held w p (e_value e) t;
  rc_answers p v t : (p, v, t) ∈ answers w → t <= clock w ∧ held w p v (t - max_ttl)
}.

Lemma held_earlier w p v t t' : t' <= t → held w p v t → held w p v t'.
Proof. intros Ht [H|(e & u & H1 & H2 & H3)]; [by left|right]. exists e, u. split_and!; [done|lia|done]. Qed.

(** The backend's next state keeps what was held; so does a later time. *)
Lemma set_vault_grows v w : grows w (set_vault v w).
Proof.
  split; [cbn; lia|]. intros p x t Ht [H|(e & u & H1 & H2 & H3)]; right.
  - exists (clock w), (vault w). cbn. split_and!; [by left|done|done].
  - exists e, u. cbn. split_and!; [by right|done|done].
Qed.

Lemma recent_weaken w w' :
  recent w → grows w w' → is_double (clock w') → answers w' = answers w →
  (∀ p e, entries w' !! p = Some e → entries w !! p = Some e) → recent w'.
Proof.
  intros [Hc He Ha] [C H] Hd Ean Een. split; [split; [lia|done]| |].
  - intros p e Hp. destruct (He p e (Een p e Hp)) as (t & d & Ht & Hdd & Ex & Hh).
    exists t, d. split_and!; try lia; try done. apply H; [lia|done].
  - intros p v t. rewrite Ean. intros Hin. destruct (Ha p v t Hin) as [Ht Hh]. split; [lia|].
    apply H; [lia|done].
Qed.

Lemma recent_vault v w : recent w → recent (set_vault v w).
Proof. intros H. apply (recent_weaken w); [done|apply set_vault_grows|by destruct (rc_clock w H)|done|done]. Qed.

(** Changing the entries changes nothing else. *)
Lemma set_entries_grows es w : grows w (set_entries es w).
Proof. by split. Qed.

Lemma recent_fewer es w : recent w → (∀ p e, es !! p = Some e → entries w !! p = Some e) → recent (set_entries es w).
Proof. intros H Hes. by apply (recent_weaken w); [|apply set_entries_grows|destruct (rc_clock w H)| |]. Qed.

(** * Steps *)
Abbreviation cache_wp := (wp recent grows).

(** [m] may run in any place: it keeps the invariant and its end may be anything. *)
Definition harmless {A} (m : job A) : Prop := ∀ w Q, (∀ r w', grows w w' → Q r w') → cache_wp m Q w.

Lemma spares_bind {A B} (m : job A) (f : A → job B) : harmless m → (∀ a, harmless (f a)) → harmless (tbind m f).
Proof.
  intros Hm Hf w Q HQ. apply wp_bind; [apply grows_preorder|]. apply Hm. intros [a|e] w' Hg; [|by apply HQ].
  apply Hf. intros r w'' Hg'. apply HQ. by etrans.
Qed.

Lemma wp_inner {A} (f : V → outcome exn A * V) Q w :
  (∀ w', grows w w' → recent w' → Q (f (vault w')).1 (set_vault (f (vault w')).2 w')) → cache_wp (inner f) Q w.
Proof.
  intros HQ. apply wp_attempt. intros w1 Hg Hr. specialize (HQ w1 Hg Hr). destruct (f (vault w1)) as [r v].
  split_and!; [by apply recent_vault|apply set_vault_grows|done].
Qed.

Lemma harmless_inner {A} (f : V → outcome exn A * V) : harmless (inner f).
Proof. intros w Q HQ. apply wp_inner. intros w1 Hg _. apply HQ. etrans; [exact Hg|apply set_vault_grows]. Qed.

Lemma harmless_drop f :
  (∀ es p e, f es !! p = Some e → es !! p = Some e) → harmless (change_entries f).
Proof.
  intros Hf w Q HQ. apply wp_act. intros w1 Hg Hr. split_and!; [|apply set_entries_grows|].
  - apply recent_fewer; [done|]. intros p e. apply Hf.
  - apply HQ. by etrans; [|apply set_entries_grows].
Qed.

Lemma drop_one (p : string) (es : gmap string entry) q e : delete p es !! q = Some e → es !! q = Some e.
Proof. by intros [_ H]%lookup_delete_Some. Qed.

Lemma spares_done {A} (r : outcome exn A) : harmless (Done r).
Proof. intros w Q HQ. by apply HQ. Qed.

(** A fresh entry was read less than its time to live ago, the rounding of the expiry
    included. *)
Lemma fresh_recent now t d : 0 <= t → 0 <= d → 0 <= now → is_double now → now < fadd t d → now - d < t.
Proof.
  intros Ht Hd Hn Hdn Hlt. apply Z.nle_gt. intros Hle.
  pose proof (round_le (t + d) now ltac:(lia) Hdn). unfold fadd in Hlt. lia.
Qed.

Definition answered (w : world) (p : string) (r : outcome exn string) (w' : world) : Prop :=
  match r with Ok v => held w' p v (clock w - max_ttl) | Raise _ => True end.

Lemma wp_fill p v now ttl w :
  0 <= now <= clock w → 0 <= ttl <= max_ttl → held w p v now →
  cache_wp (change_entries (insert p {| e_value := v; expires_at := fadd now ttl |})) (λ _ w', grows w w') w.
Proof.
  intros Hn Ht Hh. apply wp_act. intros w1 Hg Hr. split_and!; [|apply set_entries_grows|exact Hg].
  destruct Hr as [Hc He Ha]. split; [done| |done]. intros q e. cbn. intros [[<- <-]|[_ Hq]]%lookup_insert_Some; [|by apply He].
  destruct Hg as [C H]. exists now, ttl. split_and!; try lia; [done|]. apply (H p v now); [lia|done].
Qed.

Lemma wp_get p ttl w :
  0 <= default default_ttl ttl <= max_ttl → recent w → cache_wp (get p ttl) (answered w p) w.
Proof.
  intros Httl _. apply wp_bind; [apply grows_preorder|]. apply wp_act. intros w1 Hg1 Hr1. split_and!; [done..|].
  cbn [fst snd]. unfold fresh_entry. destruct (rc_clock w1 Hr1) as [Hc1 Hd1].
  assert (Hmiss : cache_wp (v <- inner (a_get p);;
      change_entries (insert p {| e_value := v; expires_at := fadd (clock w1) (default default_ttl ttl) |});; tret v) (answered w p) w1).
  { apply wp_bind; [apply grows_preorder|]. apply wp_inner. intros w2 Hg2 Hr2.
    destruct (a_get p (vault w2)) as [[v|e] u] eqn:E; [|exact I]. cbn [fst snd]. apply get_law in E.
    assert (Hh : ∀ t, t <= clock w2 → held (set_vault u w2) p v t).
    { intros t Ht. right. exists (clock w2), (vault w2). cbn. split_and!; [by left|done|done]. }
    assert (Hle : clock w <= clock w1 ∧ clock w1 <= clock w2) by (split; [apply Hg1|apply Hg2]).
    apply wp_bind; [apply grows_preorder|].
    eapply wp_mono; [apply grows_preorder| |apply wp_fill; [cbn; lia|exact Httl|apply Hh; lia]].
    intros [[]|e] w3 _ Hg3; [|exact I]. cbn. apply Hg3; [cbn; lia|]. apply Hh. lia. }
  destruct (entries w1 !! p) as [e|] eqn:Ep; [|exact Hmiss].
  destruct (Z.ltb_spec (clock w1) (expires_at e)) as [Hlt|]; [|exact Hmiss].
  destruct (rc_entries w1 Hr1 p e Ep) as (t & d & Ht & Hd & Ex & Hh). rewrite Ex in Hlt.
  pose proof (fresh_recent (clock w1) t d ltac:(lia) ltac:(lia) ltac:(lia) Hd1 Hlt).
  cbn. apply (held_earlier w1 p _ t); [destruct Hg1; lia|done].
Qed.

Lemma ask_keeps p ttl w : 0 <= default default_ttl ttl <= max_ttl → cache_wp (ask p ttl) anything w.
Proof.
  intros Httl. apply wp_bind; [apply grows_preorder|]. apply wp_act. intros w1 Hg1 Hr1. split_and!; [done..|]. cbn [fst snd].
  apply wp_bind; [apply grows_preorder|]. eapply wp_mono; [apply grows_preorder| |by apply wp_get].
  intros [v|e] w2 Hg2 Ha; [|exact I]. apply wp_act. intros w3 Hg3 Hr3.
  assert (Hadd : grows w3 (add_answer (p, v, clock w1) w3)) by by split.
  split_and!; [|done|exact I]. pose proof (proj1 Hg2) as C2. pose proof (proj1 Hg3) as C3.
  destruct Hr3 as [Hc3 He3 Ha3]. split; [done|done|]. intros p' v' t'. cbn. intros [Heq|Hin]%elem_of_cons; [|by apply Ha3].
  injection Heq as -> -> ->. split; [lia|]. apply Hg3; [lia|]. exact Ha.
Qed.

Lemma begins_recent t w : begins t → recent w → cache_wp t anything w.
Proof.
  assert (Hall : ∀ m : job unit, harmless m → cache_wp m anything w) by (intros m Hm; by apply Hm).
  assert (Hdrop : ∀ q, harmless (change_entries (delete q))) by (intros q; apply harmless_drop; intros es; apply drop_one).
  intros [p ttl Httl|p v|p|prefix| |p] _; [by apply ask_keeps|apply Hall..].
  - apply spares_bind; [apply harmless_inner|done].
  - apply spares_bind; [apply harmless_inner|done].
  - apply spares_bind; [apply harmless_inner|]. intros l. apply spares_done.
  - apply spares_bind; [apply harmless_inner|]. intros _. apply harmless_drop. by intros es q e.
  - apply harmless_drop. intros es q e. destruct p as [p|]; [apply drop_one|done].
Qed.

(** C31: However reads, writes, deletions and invalidations interleave, fail and die, and
    whatever others write to the backend, every value the cache has served was in the
    backend at some instant no longer than the longest time to live before it was asked
    for. *)
Theorem served_values_are_recent w w' l :
  recent w → rtc cache_step (w, []) (w', l) →
  ∀ p v t, (p, v, t) ∈ answers w' → held w' p v (t - max_ttl).
Proof.
  intros Hw Hr p v t Hin.
  assert (H : recent w'); [|by destruct (rc_answers w' H p v t Hin)].
  apply (pool_invariant recent grows begins outside (w, []) (w', l)); try done.
  - intros m w1 Hb. by apply begins_recent.
  - intros w1 w2 Ho Hr1. destruct Ho as [w1 x Hx Hd|w1 u].
    + assert (Hg : grows w1 (set_clock x w1)) by by split. split; [|done]. by apply (recent_weaken w1).
    + split; [by apply recent_vault|apply set_vault_grows].
  - intros m Hm. by apply not_elem_of_nil in Hm.
Qed.

(** * Alone *)

(** A read after a write returns what was written. *)
Lemma put_then_get p v ttl w w1 r w2 :
  run (put p v) w = (Ok tt, w1) → run (get p ttl) w1 = (Ok r, w2) → r = v.
Proof.
  unfold put, get. rewrite run_bind. cbn. destruct (a_put p v (vault w)) as [[[]|e] u] eqn:Ep; [|done].
  apply put_law in Ep. intros [= <-]. unfold fresh_entry. cbn. rewrite lookup_delete_eq. cbn.
  destruct (a_get p u) as [[x|e] u'] eqn:Eg; [|done]. apply get_law in Eg. rewrite Ep, lookup_insert_eq in Eg.
  intros [= <- _]. by injection Eg.
Qed.
End Cache.

(** * Rotation hooks *)
Section Hooks.
Context {W : Type}.

(** The registry: the callbacks of each path, by number; the rest of the world. *)
Record registry := { callbacks : gmap string (list nat); beyond : W; audit : list string }.

Definition set_callbacks (m : gmap string (list nat)) (h : registry) : registry :=
  {| callbacks := m; beyond := beyond h; audit := audit h |}.

Definition register (p : string) (c : nat) (h : registry) : registry :=
  set_callbacks (<[p := default [] (callbacks h !! p) ++ [c]]> (callbacks h)) h.

(** [list.remove]. *)
Fixpoint remove_first (c : nat) (l : list nat) : list nat :=
  match l with [] => [] | x :: l' => if Nat.eqb x c then l' else x :: remove_first c l' end.

Definition unregister (p : string) (c : nat) (h : registry) : registry :=
  match callbacks h !! p with
  | Some l => set_callbacks (<[p := remove_first c l]> (callbacks h)) h
  | None => h
  end.

(** What a callback does, and the exception it raises. *)
Context (call : nat → string → registry → option exn * registry).

(** [for callback in callbacks]: the list is read again for every turn, since a callback
    may change it; [None] when [fuel] turns were not enough. *)
Fixpoint fire_from (fuel i : nat) (p : string) (errors : list exn) (h : registry) : option (list exn * registry) :=
  match fuel with
  | O => None
  | S fuel =>
      match default [] (callbacks h !! p) !! i with
      | None => Some (errors, h)
      | Some c =>
          let '(r, h) := call c p h in
          fire_from fuel (S i) p (match r with Some e => errors ++ [e] | None => errors end) h
      end
  end.

Definition fire (fuel : nat) (p : string) (h : registry) : option (list exn * registry) :=
  match callbacks h !! p with Some _ => fire_from fuel 0 p [] h | None => Some ([], h) end.

(** [rotate]; the adapter may have a [rotate] of its own; the audit row is best effort. *)
Definition rotate (fuel : nat) (adapter_rotate : option (string → registry → outcome exn unit * registry))
    (audit_fails : bool) (p : string) (h : registry) : option (outcome exn unit * registry) :=
  let '(r, h) := match adapter_rotate with Some f => f p h | None => (Ok tt, h) end in
  match r with
  | Raise e => Some (Raise e, h)
  | Ok _ =>
      '(errors, h) ← fire fuel p h;
      Some (Ok tt, if audit_fails then h
                   else {| callbacks := callbacks h; beyond := beyond h; audit := audit h ++ [p] |})
  end.

(** One callback after another. *)
Fixpoint call_all (l : list nat) (p : string) (errors : list exn) (h : registry) : list exn * registry :=
  match l with
  | [] => (errors, h)
  | c :: l' => let '(r, h) := call c p h in
               call_all l' p (match r with Some e => errors ++ [e] | None => errors end) h
  end.

(** Callbacks that leave the registry alone are all called, in order, whatever the others
    raise. *)
Lemma fire_calls_all p h l :
  (∀ c h, callbacks (call c p h).2 = callbacks h) → callbacks h !! p = Some l →
  fire (S (length l)) p h = Some (call_all l p [] h).
Proof.
  intros Hc Hl. unfold fire. rewrite Hl.
  assert (Hgen : ∀ l2 l1 errors h, callbacks h !! p = Some (l1 ++ l2) →
    fire_from (S (length l2)) (length l1) p errors h = Some (call_all l2 p errors h)).
  { induction l2 as [|c l2 IH]; intros l1 errors h1 Hh; cbn [fire_from call_all length]; rewrite Hh; unfold id; cbn [from_option].
    - rewrite app_nil_r. by rewrite (lookup_ge_None_2 l1 (length l1)).
    - rewrite list_lookup_middle by done. pose proof (Hc c h1) as Hkeep. destruct (call c p h1) as [r h2]. cbn in Hkeep.
      rewrite <-Hkeep in Hh. specialize (IH (l1 ++ [c])). rewrite length_app, Nat.add_comm in IH. cbn [length Nat.add] in IH.
      apply IH. by rewrite <-app_assoc. }
  by apply (Hgen l []).
Qed.
End Hooks.

(** * A cache over a dictionary *)
Definition mem_world : @world (gmap string string) :=
  {| vault := {["db" := "old"]}; entries := ∅; clock := 0; past := []; answers := [] |}.

Abbreviation mem_job := (task (@world (gmap string string)) exn).
Definition mem_ask : mem_job unit := ask 0 "db" (Some 1).
Definition mem_race : @pool (@world (gmap string string)) exn :=
  interleave [0; 0; 0; 1; 1; 0; 0; 2; 2; 2]%nat (mem_world, [mem_ask; put "db" "new"; mem_ask]).

Lemma mem_recent : recent 1 (λ m : gmap string string, m) mem_world.
Proof.
  split; [split; [done|by apply (is_double_pow 0 0)]|by intros p e H; cbn in H; rewrite lookup_empty in H|].
  intros p v t H. by apply not_elem_of_nil in H.
Qed.

Lemma served_values_are_recent_witness :
  answers mem_race.1 = [("db", "old", 0); ("db", "old", 0)] ∧ held (λ m : gmap string string, m) mem_race.1 "db" "old" (-1).
Proof.
  split; [vm_compute; reflexivity|].
  apply (served_values_are_recent 0 1 ltac:(lia) (λ m : gmap string string, m) mem_world mem_race.1 mem_race.2 mem_recent) with (t := 0).
  - eapply rtc_l; [apply (step_begin _ _ mem_world []), (begin_ask 0 1 "db" (Some 1)); cbn; lia|].
    eapply rtc_l; [apply (step_begin _ _ mem_world [mem_ask]), (begin_put 0 1 "db" "new")|].
    eapply rtc_l; [apply (step_begin _ _ mem_world [mem_ask; put "db" "new"]), (begin_ask 0 1 "db" (Some 1)); cbn; lia|].
    rewrite <-surjective_pairing. apply interleave_steps.
  - vm_compute. by left.
Defined.

(** A read that misses, a write that runs while the read waits for the backend's answer: the
    read puts the old value back after the write has dropped it, and a later read, with
    nothing else under way, is served the old value. *)
Lemma write_undone_in_cache :
  let w := (interleave [0; 0; 0; 1; 1; 0; 0]%nat (mem_world, [mem_ask; put "db" "new"])).1 in
  vault w !! "db" = Some "new" ∧ (run (get 0 "db" (Some 1)) w).1 = Ok "old".
Proof. split; vm_compute; reflexivity. Qed.

(** A callback that takes itself off the list makes the loop pass over the next one. *)
Definition one_shot (c : nat) (p : string) (h : @registry (list nat)) : option exn * @registry (list nat) :=
  (None, (if Nat.eqb c 1 then unregister p 1 else λ h, h)
           {| callbacks := callbacks h; beyond := beyond h ++ [c]; audit := audit h |}).

Lemma listener_passed_over :
  match fire one_shot 9 "db" {| callbacks := {["db" := [1; 2; 3]%nat]}; beyond := []; audit := [] |} with
  | Some (errors, h) => errors = [] ∧ beyond h = [1; 3]%nat
  | None => False
  end.
Proof. vm_compute. split; reflexivity. Qed.

End Secrets.
