(* ===== verification/Learning.v ===== *)
(** Learning across projects and organisations: [learning/scope.py], [contribute.py],
    [consent.py], [vendor_self_improvement.py] and the tools of
    [shared/mcp/tools/learning.py], on the tables of V29__smart_spine_learning.sql.

    Every psql call is one action of a [task]; it may run, be refused or hang, and a hanging
    one may have had its effect.  The cast of a text to a uuid and the text Postgres gives a
    jsonb are parameters with the laws of its manual; audit rows, which are best effort, and
    the times of decisions are left out. *)

From S2P Require Import Prelude Tasks PyValue Text Json Crypto Manifest.
From Stdlib Require Import Ascii.
Local Open Scope Z_scope.

Module Learning.
Import Json.

(** * Scopes *)
Inductive LearningScope := PROJECT | WITHIN_HUB | CROSS_ORG | DENIED.

#[export] Instance learning_scope_eq : EqDecision LearningScope.
Proof. solve_decision. Defined.

Definition scope_value (s : LearningScope) : string :=
  match s with PROJECT => "project" | WITHIN_HUB => "within_hub" | CROSS_ORG => "cross_org" | DENIED => "denied" end.

Definition KNOWN_DATA_CATEGORIES : list string := ["calibration_outcomes"; "role_success_rates"; "pattern_frequencies"].

Record ScopePolicy := {
  hub_id : option string; project_id : option string; within_hub_enabled : bool; cross_org_consent : bool;
  granular_consent : gmap string bool
}.

Definition default_policy (hub project : option string) : ScopePolicy :=
  {| hub_id := hub; project_id := project; within_hub_enabled := true; cross_org_consent := false; granular_consent := ∅ |}.

Definition cross_org_for (p : ScopePolicy) (category : option string) : bool :=
  match category with
  | Some c => if String.eqb c "" then cross_org_consent p else default (cross_org_consent p) (granular_consent p !! c)
  | None => cross_org_consent p
  end.

Record ScopeContext := {
  ctx_hub : option string; ctx_project : option string; requested_scope : LearningScope; data_category : option string;
  bundle_within_hub_enabled : option bool; bundle_cross_org_default : option bool
}.

Record ResolvedScope := {
  granted_scope : LearningScope; resolved_request : LearningScope; reason : string; policy_snapshot : ScopePolicy
}.

Definition is_denied (r : ResolvedScope) : bool := bool_decide (granted_scope r = DENIED).

Definition PolicyLoader : Type := option string → option string → option ScopePolicy.

Definition merge_bundle_overlay (p : ScopePolicy) (ctx : ScopeContext) : ScopePolicy :=
  {| hub_id := hub_id p; project_id := project_id p;
     within_hub_enabled := default (within_hub_enabled p) (bundle_within_hub_enabled ctx);
     cross_org_consent := default (cross_org_consent p) (bundle_cross_org_default ctx);
     granular_consent := granular_consent p |}.

Definition snapshot_of (ctx : ScopeContext) (loader : option PolicyLoader) (explicit_policy : option ScopePolicy) : ScopePolicy :=
  let none := default_policy (ctx_hub ctx) (ctx_project ctx) in
  merge_bundle_overlay
    (match explicit_policy with
     | Some p => p
     | None => match loader with Some l => default none (l (ctx_hub ctx) (ctx_project ctx)) | None => none end
     end) ctx.

Definition resolve_scope (ctx : ScopeContext) (loader : option PolicyLoader) (explicit_policy : option ScopePolicy) : ResolvedScope :=
  let snapshot := snapshot_of ctx loader explicit_policy in
  let res g why := {| granted_scope := g; resolved_request := requested_scope ctx; reason := why; policy_snapshot := snapshot |} in
  match requested_scope ctx with
  | PROJECT => res PROJECT "tier_1a_always_on"
  | WITHIN_HUB =>
      if within_hub_enabled snapshot then res WITHIN_HUB "tier_1b_default_on"
      else res PROJECT "tier_1b_disabled_by_policy"
  | CROSS_ORG =>
      if cross_org_for snapshot (data_category ctx) then res CROSS_ORG "tier_2_consent_granted"
      else if within_hub_enabled snapshot then res WITHIN_HUB "tier_2_no_consent_downshifted_to_within_hub"
      else res PROJECT "tier_2_no_consent_downshifted_to_project"
  | DENIED => res DENIED "explicit_deny"
  end.

(** The row's decoded jsonb, or its text, from which nothing is taken. *)
Definition policy_from_db_row (row : dict) : ScopePolicy :=
  let text v := match v with VStr s => Some s | _ => None end in
  let flag k d := match dict_lookup k row with Some v => truthy v | None => d end in
  {| hub_id := text (get "hub_id" row); project_id := text (get "project_id" row);
     within_hub_enabled := flag "within_hub_enabled" true; cross_org_consent := flag "cross_org_consent" false;
     granular_consent := match get "granular_consent_jsonb" row with
                         | VDict d => list_to_map (map (fun e => (e.1, truthy e.2)) d)
                         | _ => ∅
                         end |}.

(** * Contribution gates *)
Record LessonPayload := { lesson_text : string; source_audit_record_id : option string }.
Definition text_hash (p : LessonPayload) : string := Crypto.hex_of (Crypto.sha256 (lesson_text p)).

Record ContributionDecision := {
  resolved : ResolvedScope; tiers_to_write : list LearningScope; skipped_reasons : list (string * string)
}.

Definition gate (ctx : ScopeContext) (loader : option PolicyLoader) (explicit_policy : option ScopePolicy) : ContributionDecision :=
  let r := resolve_scope ctx loader explicit_policy in
  let policy := policy_snapshot r in
  let hub_tier := match requested_scope ctx with
                  | WITHIN_HUB | CROSS_ORG =>
                      if within_hub_enabled policy then ([WITHIN_HUB], [])
                      else ([], [("within_hub", "within_hub_disabled_by_policy")])
                  | _ => ([], [])
                  end in
  let org_tier := match requested_scope ctx with
                  | CROSS_ORG =>
                      if cross_org_for policy (data_category ctx) then ([CROSS_ORG], [])
                      else ([], [("cross_org", match data_category ctx with
                                               | None => "cross_org_consent_missing"
                                               | Some c => "cross_org_consent_missing_for:" +:+ c
                                               end)])
                  | _ => ([], [])
                  end in
  {| resolved := r; tiers_to_write := PROJECT :: hub_tier.1 ++ org_tier.1; skipped_reasons := hub_tier.2 ++ org_tier.2 |}.

Record ContributionOutcome := {
  decision : ContributionDecision; written : list (string * string); failed : list (string * string)
}.

Definition total_written (o : ContributionOutcome) : nat := length (written o).

(** * The tables *)
Inductive exn := ValueError | RuntimeError | TimeoutExpired | AttributeError.
Definition exn_name (e : exn) : string :=
  match e with ValueError => "ValueError" | RuntimeError => "RuntimeError" | TimeoutExpired => "TimeoutExpired"
  | AttributeError => "AttributeError" end.

(** What becomes of the next psql call. *)
Inductive fault := Runs | Refused | Hangs (applied : bool).

Record policy_row := {
  r_hub : option string; r_project : option string; r_within : bool; r_cross : bool; r_granular : gmap string bool
}.
Record lesson_row := { l_id : string; l_scope : LearningScope; l_source : option string; l_text : string }.

Record world := { policies : list policy_row; lessons : list lesson_row; drawn : nat; faults : list fault }.

Definition with_policies (l : list policy_row) (w : world) : world :=
  {| policies := l; lessons := lessons w; drawn := drawn w; faults := faults w |}.
Definition with_faults (l : list fault) (w : world) : world :=
  {| policies := policies w; lessons := lessons w; drawn := drawn w; faults := l |}.
Definition add_lesson (r : lesson_row) (w : world) : world :=
  {| policies := policies w; lessons := lessons w ++ [r]; drawn := S (drawn w); faults := faults w |}.

Abbreviation job := (task world exn).

(** One call of psql: its statement, or the exception of [_psql]. *)
Definition psql {A} (stmt : world → outcome exn A * world) : job A :=
  attempt (fun w =>
    let w0 := with_faults (tl (faults w)) w in
    match hd Runs (faults w) with
    | Runs => stmt w0
    | Refused => (Raise RuntimeError, w0)
    | Hangs applied => (Raise TimeoutExpired, if applied then (stmt w0).2 else w0)
    end).

(** * Texts of rows *)

(** How many bytes the boundary of [str.splitlines] at the head of a text has: besides the
    ASCII ones they are U+0085, U+2028 and U+2029. *)
Definition break_length (s : string) : nat :=
  match s with
  | EmptyString => 0%nat
  | String a s1 =>
      if is_line_break a then
        match s1 with String b _ => if (code a =? 13) && (code b =? 10) then 2%nat else 1%nat | EmptyString => 1%nat end
      else match s1 with
      | EmptyString => 0%nat
      | String b s2 =>
          if (code a =? 194) && (code b =? 133) then 2%nat
          else match s2 with
          | EmptyString => 0%nat
          | String c _ => if (code a =? 226) && (code b =? 128) && ((code c =? 168) || (code c =? 169)) then 3%nat else 0%nat
          end
      end
  end.

(** [str.splitlines]; [skip]: the bytes of a boundary still to pass. *)
Fixpoint text_lines (cur : string) (skip : nat) (s : string) : list string :=
  match s with
  | EmptyString => if String.eqb cur "" then [] else [cur]
  | String c s' =>
      match skip with
      | S k => text_lines cur k s'
      | O => match break_length s with
             | O => text_lines (cur +:+ str1 c) O s'
             | S k => cur :: text_lines "" k s'
             end
      end
  end.

Fixpoint break_free (s : string) : bool :=
  match s with EmptyString => true | String _ s' => Nat.eqb (break_length s) 0 && break_free s' end.

(** A key Postgres can store, and one that stays on its line. *)
Definition storable (k : string) : bool := is_textb k && negb (has_char (chr 0) k).
Definition readable (k : string) : bool := storable k && break_free k.

Definition keys_are (P : string → bool) (g : gmap string bool) : Prop := ∀ k, is_Some (g !! k) → P k = true.

(** What [json.loads] and [bool] make of the members of an object. *)
Definition flags_of (d : list (string * json)) : gmap string bool :=
  list_to_map (map (fun kv => (kv.1, Manifest.jtruthy kv.2)) d).

(** [uuid::text] is written in hexadecimal digits and dashes. *)
Class UuidText (uuid_of : string → option string) : Prop :=
  uuid_text s u : uuid_of s = Some u → u ≠ "" ∧ all_chars printable u = true.

(** [jsonb::text]: control characters are escaped, other characters are written as they
    are, and [json.loads] reads the object back. *)
Class JsonbText (jsonb_text : gmap string bool → string) : Prop := {
  jsonb_controls g : all_chars (fun c => 32 <=? code c) (jsonb_text g) = true;
  jsonb_breaks g : keys_are break_free g → break_free (jsonb_text g) = true;
  jsonb_loads g : keys_are storable g → ∃ d, loads (jsonb_text g) = Some (JObj d) ∧ flags_of d = g
}.

Section Tables.
(** Postgres's reading of a uuid, in its canonical text; the ids of new rows; the text of a
    jsonb. *)
Context (uuid_of : string → option string) (new_id : nat → string) (jsonb_text : gmap string bool → string).

Definition cast (o : option string) : outcome exn (option string) :=
  match o with
  | None => Ok None
  | Some s => match uuid_of s with Some u => Ok (Some u) | None => Raise RuntimeError end
  end.

Local Open Scope task_scope.

(** [_default_writer] of [contribute.py]. *)
Definition write_lesson (p : LessonPayload) (tier : LearningScope) : job string :=
  psql (fun w =>
    match tier, cast (source_audit_record_id p) with
    | DENIED, _ | _, Raise _ => (Raise RuntimeError, w)
    | _, Ok source =>
        (Ok (new_id (drawn w)),
         add_lesson {| l_id := new_id (drawn w); l_scope := tier; l_source := source; l_text := lesson_text p |} w)
    end).

Fixpoint write_tiers (p : LessonPayload) (tiers : list LearningScope) (ok bad : list (string * string))
    : job (list (string * string) * list (string * string)) :=
  match tiers with
  | [] => tret (ok, bad)
  | t :: tiers' =>
      r <- tcatch (id <- write_lesson p t;; tret (Ok id)) (fun e => tret (Raise e));;
      match r with
      | Ok id => if String.eqb id "" then write_tiers p tiers' ok (bad ++ [(scope_value t, "no_row_id_returned")])
                 else write_tiers p tiers' (ok ++ [(scope_value t, id)]) bad
      | Raise e => write_tiers p tiers' ok (bad ++ [(scope_value t, exn_name e)])
      end
  end.

Definition contribute_lesson (p : LessonPayload) (ctx : ScopeContext) (loader : option PolicyLoader)
    (explicit_policy : option ScopePolicy) : job ContributionOutcome :=
  let d := gate ctx loader explicit_policy in
  r <- write_tiers p (tiers_to_write d) [] [];;
  tret {| decision := d; written := r.1; failed := r.2 |}.

(** * Consent *)
Record ConsentRecord := {
  c_hub : option string; c_project : option string; c_cross_org : bool; granular : gmap string bool; granted_by : string;
  rationale : string
}.

Inductive Operation := grant | revoke | revoke_category.

Record ConsentDecision := {
  d_hub : option string; d_project : option string; operation : Operation; effective_policy : ScopePolicy; actor : string
}.

(** [not s] of an optional text. *)
Definition falsy (s : option string) : bool := match s with Some s => String.eqb s "" | None => true end.

Definition validate (r : ConsentRecord) : bool := negb (falsy (c_hub r) && falsy (c_project r)).

Definition merge_granular (existing incoming : gmap string bool) : gmap string bool := incoming ∪ existing.

(** [hub_id IS NULL AND project_id = ...]. *)
Definition in_scope (h p : option string) (r : policy_row) : bool := bool_decide (r_hub r = h) && bool_decide (r_project r = p).

(** [ON CONFLICT (hub_id, project_id)]: a row with a null conflicts with none. *)
Definition conflicts (h p : option string) (r : policy_row) : bool :=
  match h, p with Some _, Some _ => in_scope h p r | _, _ => false end.

Definition upsert_rows (h p : option string) (cross : bool) (g : gmap string bool) (rows : list policy_row) : list policy_row :=
  if existsb (conflicts h p) rows then
    map (fun r => if conflicts h p r then {| r_hub := r_hub r; r_project := r_project r; r_within := r_within r;
                                             r_cross := cross; r_granular := g |} else r) rows
  else rows ++ [{| r_hub := h; r_project := p; r_within := true; r_cross := cross; r_granular := g |}].

(** A statement whose scope is two casts. *)
Definition at_scope {A} (hub project : option string) (f : option string → option string → world → A * world) : job A :=
  psql (fun w =>
    match cast hub, cast project with
    | Ok h, Ok p => let '(a, w') := f h p w in (Ok a, w')
    | _, _ => (Raise RuntimeError, w)
    end).

Definition select_granular (hub project : option string) : job (gmap string bool) :=
  at_scope hub project (fun h p w =>
    (match find (in_scope h p) (policies w) with Some r => r_granular r | None => ∅ end, w)).

Definition upsert (hub project : option string) (cross : bool) (g : gmap string bool) : job unit :=
  at_scope hub project (fun h p w => (tt, with_policies (upsert_rows h p cross g (policies w)) w)).

(** [_default_writer] of [consent.py]. *)
Definition write_consent (r : ConsentRecord) : job ScopePolicy :=
  existing <- select_granular (c_hub r) (c_project r);;
  let merged := merge_granular existing (granular r) in
  upsert (c_hub r) (c_project r) (c_cross_org r) merged;;
  tret {| hub_id := c_hub r; project_id := c_project r; within_hub_enabled := true; cross_org_consent := c_cross_org r;
          granular_consent := merged |}.

Definition decide_consent (op : Operation) (r : ConsentRecord) : job ConsentDecision :=
  if validate r then
    p <- write_consent r;;
    tret {| d_hub := c_hub r; d_project := c_project r; operation := op; effective_policy := p; actor := granted_by r |}
  else traise ValueError.

Definition grant_cross_org_consent (r : ConsentRecord) : job ConsentDecision := decide_consent grant r.

Definition revocation (hub project category : option string) (by_ why : string) : ConsentRecord :=
  {| c_hub := hub; c_project := project; c_cross_org := match category with None => false | Some _ => true end;
     granular := match category with
                 | None => list_to_map (map (fun c => (c, false)) KNOWN_DATA_CATEGORIES)
                 | Some c => {[c := false]}
                 end;
     granted_by := by_; rationale := why |}.

Definition revoke_cross_org_consent (hub project category : option string) (by_ why : string) : job ConsentDecision :=
  decide_consent (match category with None => revoke | Some _ => revoke_category end)
    (revocation hub project category by_ why).

(** [psql -At -F $'\x1f'] of the rows. *)
Definition separator : ascii := chr 31.
Definition row_text (r : policy_row) : string :=
  let flag (b : bool) := if b then "t" else "f" in
  join (str1 separator) [default "" (r_hub r); default "" (r_project r); flag (r_within r); flag (r_cross r); jsonb_text (r_granular r)].
Fixpoint rows_text (rows : list policy_row) : string :=
  match rows with [] => "" | r :: rest => row_text r +:+ String (chr 10) (rows_text rest) end.

(** A text that is no JSON gives no categories; one that is no object has no [items]. *)
Definition granular_of (gj : string) : outcome exn (gmap string bool) :=
  match loads (if String.eqb gj "" then "{}" else gj) with
  | Some (JObj d) => Ok (flags_of d)
  | Some _ => Raise AttributeError
  | None => Ok ∅
  end.

(** A line of the output; a blank one and one with fewer than five parts are passed over. *)
Definition policy_of_line (line : string) : outcome exn (list ScopePolicy) :=
  let text v := if String.eqb v "" then None else Some v in
  let flag v := in_strs (lower v) ["t"; "true"] in
  match split_on separator line with
  | hub :: project :: within :: cross :: gj :: _ =>
      g ← granular_of gj;
      Ok [{| hub_id := text hub; project_id := text project; within_hub_enabled := flag within;
             cross_org_consent := flag cross; granular_consent := g |}]
  | _ => Ok []
  end.

Fixpoint read_policies (lines : list string) : outcome exn (list ScopePolicy) :=
  match lines with
  | [] => Ok []
  | line :: rest => ps ← policy_of_line line; qs ← read_policies rest; Ok (ps ++ qs)
  end.

(** [_default_reader]. *)
Definition list_cross_org_consents (hub : option string) : job (list ScopePolicy) :=
  out <- psql (fun w =>
    match cast hub with
    | Ok h => (Ok (rows_text (List.filter (fun r => match h with None => true | Some _ => bool_decide (r_hub r = h) end)
                                (policies w))), w)
    | Raise e => (Raise e, w)
    end);;
  match read_policies (text_lines "" 0 out) with Ok ps => tret ps | Raise e => traise e end.

(** * The vendor's own deployment *)
Record VendorEvent := { v_source : string; v_text : string; v_hub : option string; v_project : option string }.

Inductive VendorReason := not_vendor_deployment | vendor_self_improvement_recorded.
Record VendorResult := { accepted : bool; outcome_ : option ContributionOutcome; why : VendorReason; upstream_dispatched : bool }.

Definition is_vendor_deployment (bundle_flag : option bool) (force_vendor : bool) (env : string) : bool :=
  if force_vendor then true
  else match bundle_flag with Some b => b | None => String.eqb (lower (strip env)) "vendor" end.

(** [publisher]: whether the upstream took it; an exception is a no. *)
Definition vendor_self_improvement_record (e : VendorEvent) (force_vendor : bool) (bundle_flag : option bool) (env : string)
    (publisher : option (VendorEvent → ContributionOutcome → outcome exn bool)) : job VendorResult :=
  if negb (is_vendor_deployment bundle_flag force_vendor env) then
    tret {| accepted := false; outcome_ := None; why := not_vendor_deployment; upstream_dispatched := false |}
  else
    let policy := {| hub_id := v_hub e; project_id := v_project e; within_hub_enabled := true; cross_org_consent := true;
                     granular_consent := ∅ |} in
    let ctx := {| ctx_hub := v_hub e; ctx_project := v_project e; requested_scope := CROSS_ORG;
                  data_category := Some "vendor_self_improvement"; bundle_within_hub_enabled := None;
                  bundle_cross_org_default := Some true |} in
    o <- contribute_lesson {| lesson_text := v_text e; source_audit_record_id := Some (v_source e) |} ctx None (Some policy);;
    tret {| accepted := true; outcome_ := Some o; why := vendor_self_improvement_recorded;
            upstream_dispatched := match publisher with
                                   | Some f => match f e o with Ok b => b | Raise _ => false end
                                   | None => false
                                   end |}.

(** * The tools *)
Inductive tool_response A := ToolOk (data : A) | ToolFailed (code : string).
Arguments ToolOk {A} data.
Arguments ToolFailed {A} code.

Definition scope_from_str (s : string) : option LearningScope :=
  find (fun x => String.eqb (scope_value x) s) [PROJECT; WITHIN_HUB; CROSS_ORG; DENIED].

Record ContributeInput := {
  i_project : string; i_text : string; i_source : option string; i_scope : string; i_category : option string;
  i_hub : option string; i_within : option bool; i_cross : option bool
}.

Definition learning_contribute (i : ContributeInput) : job (tool_response ContributionOutcome) :=
  match scope_from_str (i_scope i) with
  | None => tret (ToolFailed "invalid_scope")
  | Some s =>
      o <- contribute_lesson {| lesson_text := i_text i; source_audit_record_id := i_source i |}
             {| ctx_hub := i_hub i; ctx_project := Some (i_project i); requested_scope := s; data_category := i_category i;
                bundle_within_hub_enabled := i_within i; bundle_cross_org_default := i_cross i |} None None;;
      tret (ToolOk o)
  end.

(** [learning_query]: the reader is a stub without rows. *)
Definition learning_query (scope : option string) : tool_response (list lesson_row) :=
  match scope with
  | Some s => match scope_from_str s with None => ToolFailed "invalid_scope" | Some _ => ToolOk [] end
  | None => ToolOk []
  end.

Definition learning_grant_cross_org_consent (r : ConsentRecord) : job (tool_response ConsentDecision) :=
  tcatch (d <- grant_cross_org_consent r;; tret (ToolOk d)) (fun _ => tret (ToolFailed "consent_write_failed")).

Definition learning_revoke_cross_org_consent (hub project category : option string) (by_ why_ : string)
    : job (tool_response ConsentDecision) :=
  tcatch (d <- revoke_cross_org_consent hub project category by_ why_;; tret (ToolOk d))
    (fun _ => tret (ToolFailed "consent_revoke_failed")).

(** * Lessons *)

(** The lessons that cross the boundary of an organisation. *)
Definition cross_rows (w : world) : list lesson_row := List.filter (fun r => bool_decide (l_scope r = CROSS_ORG)) (lessons w).

Lemma run_psql {A} (stmt : world → outcome exn A * world) w :
  run (psql stmt) w = (Raise RuntimeError, with_faults (tl (faults w)) w) ∨
  (run (psql stmt) w).1 = Raise TimeoutExpired ∧ (run (psql stmt) w).2 = with_faults (tl (faults w)) w ∨
  (run (psql stmt) w).2 = (stmt (with_faults (tl (faults w)) w)).2 ∧
    ((run (psql stmt) w).1 = Raise TimeoutExpired ∨ (run (psql stmt) w).1 = (stmt (with_faults (tl (faults w)) w)).1).
Proof.
  cbn. destruct (hd Runs (faults w)) as [| |[]]; cbn; [|by left|by right; right; split; [|left]|by right; left].
  right; right. by destruct (stmt _); split; [|right].
Qed.

(** What holds of the tables without regard to the faults and is kept by a statement is
    kept by the call. *)
Lemma psql_keeps {A} (P : world → Prop) (stmt : world → outcome exn A * world) w :
  (∀ l w, P w → P (with_faults l w)) → (∀ w, P w → P (stmt w).2) → P w → P (run (psql stmt) w).2.
Proof.
  intros Hf Hs Hw. destruct (run_psql stmt w) as [E|[[_ E]|[E _]]]; rewrite E; [by apply Hf..|]. by apply Hs, Hf.
Qed.

(** A call that returns has run its statement. *)
Lemma psql_ok {A} (stmt : world → outcome exn A * world) w a w' :
  run (psql stmt) w = (Ok a, w') → stmt (with_faults (tl (faults w)) w) = (Ok a, w').
Proof.
  destruct (run_psql stmt w) as [E|[[E _]|[E2 [E1|E1]]]]; intros Hr; rewrite Hr in *; [done..|].
  cbn in *. rewrite (surjective_pairing (stmt _)). by rewrite <-E1, <-E2.
Qed.

Lemma write_lesson_cross p t w : t ≠ CROSS_ORG → cross_rows (run (write_lesson p t) w).2 = cross_rows w.
Proof.
  intros Ht. unfold write_lesson. apply (psql_keeps (fun w1 => cross_rows w1 = cross_rows w)); [done| |done].
  intros w1 <-. destruct t, (cast (source_audit_record_id p)); try done; unfold cross_rows; cbn; rewrite List.filter_app; cbn; by rewrite app_nil_r.
Qed.

Lemma write_tiers_cross p tiers ok bad w :
  CROSS_ORG ∉ tiers → cross_rows (run (write_tiers p tiers ok bad) w).2 = cross_rows w.
Proof.
  revert ok bad w. induction tiers as [|t tiers IH]; intros ok bad w Hn; [done|].
  apply not_elem_of_cons in Hn as [Ht Hn]. cbn [write_tiers]. rewrite run_bind, run_catch, run_bind.
  pose proof (write_lesson_cross p t w ltac:(done)) as Hw. destruct (run (write_lesson p t) w) as [[id|e] w1]; cbn in Hw |- *.
  - destruct (String.eqb id ""); rewrite IH by done; done.
  - by rewrite IH.
Qed.

(** A contribution crosses the boundary only when the gate lets it. *)
Lemma contribute_cross p ctx loader explicit w :
  CROSS_ORG ∉ tiers_to_write (gate ctx loader explicit) →
  cross_rows (run (contribute_lesson p ctx loader explicit) w).2 = cross_rows w.
Proof.
  intros Hn. unfold contribute_lesson. rewrite run_bind.
  pose proof (write_tiers_cross p (tiers_to_write (gate ctx loader explicit)) [] [] w Hn) as H.
  by destruct (run (write_tiers _ _ _ _) w) as [[r|e] w1].
Qed.

Lemma gate_crosses ctx loader explicit :
  CROSS_ORG ∈ tiers_to_write (gate ctx loader explicit) ↔
  requested_scope ctx = CROSS_ORG ∧ cross_org_for (snapshot_of ctx loader explicit) (data_category ctx) = true.
Proof.
  unfold gate. cbn [tiers_to_write policy_snapshot]. assert (Hp : policy_snapshot (resolve_scope ctx loader explicit) = snapshot_of ctx loader explicit).
  { unfold resolve_scope. by repeat case_match. }
  rewrite Hp. destruct (requested_scope ctx), (within_hub_enabled (snapshot_of ctx loader explicit)), (cross_org_for (snapshot_of ctx loader explicit) (data_category ctx)); cbn;
    rewrite ?elem_of_cons, elem_of_nil; naive_solver.
Qed.

(** * Revocation *)

(** Every row of the scope has the category switched off, and there is one. *)
Definition off (h p c : string) (w : world) : Prop :=
  (∃ r, r ∈ policies w ∧ in_scope (Some h) (Some p) r = true) ∧
  ∀ r, r ∈ policies w → in_scope (Some h) (Some p) r = true → r_granular r !! c = Some false.

Lemma in_scope_true h p r : in_scope h p r = true ↔ r_hub r = h ∧ r_project r = p.
Proof. unfold in_scope. rewrite andb_true_iff, !bool_decide_eq_true. done. Qed.

Lemma conflicts_true h p r : conflicts h p r = true ↔ is_Some h ∧ is_Some p ∧ r_hub r = h ∧ r_project r = p.
Proof.
  unfold conflicts. destruct h as [h|], p as [p|]; [rewrite in_scope_true; naive_solver|..]; (split; [done|]); by intros ([] & [] & _).
Qed.

(** The write of the scope itself switches off what its value says. *)
Lemma upsert_off h p c cross g w : g !! c = Some false → off h p c (with_policies (upsert_rows (Some h) (Some p) cross g (policies w)) w).
Proof.
  intros Hg. unfold off, upsert_rows. cbn [policies with_policies]. destruct (existsb _ _) eqn:Hex.
  - apply existsb_exists in Hex as (r & Hr & Hc). apply list_elem_of_In in Hr. split.
    + eexists. split; [apply list_elem_of_fmap; by exists r|]. cbv beta; by rewrite Hc.
    + intros r' (r0 & -> & Hr0)%list_elem_of_fmap. change (conflicts (Some h) (Some p) r0) with (in_scope (Some h) (Some p) r0).
      destruct (in_scope (Some h) (Some p) r0) eqn:Hs; [by intros _|congruence].
  - split.
    + eexists. split; [apply elem_of_app; right; by apply list_elem_of_singleton|]. by apply in_scope_true.
    + intros r' [Hin|Hin%list_elem_of_singleton]%elem_of_app Hs; [|by subst].
      exfalso. apply Bool.not_true_iff_false in Hex. apply Hex, existsb_exists. exists r'. by split; [apply list_elem_of_In|].
Qed.

(** The write of another scope leaves the rows of this one. *)
Lemma upsert_elsewhere h p c h' p' cross g w :
  (h', p') ≠ (Some h, Some p) → off h p c w → off h p c (with_policies (upsert_rows h' p' cross g (policies w)) w).
Proof.
  intros Hne [(r & Hr & Hs) Hall]. unfold off, upsert_rows. cbn [policies with_policies].
  assert (Hkeep : ∀ r0, in_scope (Some h) (Some p) r0 = true → conflicts h' p' r0 = false).
  { intros r0 [E1 E2]%in_scope_true. apply Bool.not_true_iff_false. intros (_ & _ & E3 & E4)%conflicts_true. congruence. }
  destruct (existsb _ _).
  - split.
    + exists r. split; [|done]. apply list_elem_of_fmap. exists r. by rewrite (Hkeep r Hs).
    + intros r' (r0 & -> & Hr0)%list_elem_of_fmap. destruct (conflicts h' p' r0) eqn:Hc; [|by apply Hall].
      intros [E1 E2]%in_scope_true. cbn in *. apply conflicts_true in Hc as (_ & _ & E3 & E4). congruence.
  - split; [exists r; by split; [apply elem_of_app; left|]|].
    intros r' [Hin|Hin%list_elem_of_singleton]%elem_of_app; [by apply Hall|subst r']. intros [E1 E2]%in_scope_true. cbn in *. congruence.
Qed.

Lemma run_at_scope {A} hub project (f : option string → option string → world → A * world) w a w' :
  run (at_scope hub project f) w = (Ok a, w') →
  ∃ h p, cast hub = Ok h ∧ cast project = Ok p ∧ f h p (with_faults (tl (faults w)) w) = (a, w').
Proof.
  intros H%psql_ok. destruct (cast hub) as [h|] eqn:Eh; [|done]. destruct (cast project) as [p|] eqn:Ep; [|done].
  exists h, p. split_and!; [done..|]. destruct (f h p _) as [x y]. by injection H as -> ->.
Qed.

Lemma off_faults h p c l w : off h p c w → off h p c (with_faults l w).
Proof. done. Qed.

Lemma off_found h p c w : off h p c w →
  match find (in_scope (Some h) (Some p)) (policies w) with Some r => r_granular r | None => ∅ end !! c = Some false.
Proof.
  intros [(r & Hr & Hs) Hall]. destruct (find _ _) as [r'|] eqn:Hf.
  - apply find_some in Hf as [Hin Hs']. apply Hall; [by apply list_elem_of_In|done].
  - apply list_elem_of_In in Hr. pose proof (find_none _ _ Hf r Hr). congruence.
Qed.

(** The record of a decision does not switch the category on in this scope. *)
Definition spares (h p c : string) (r : ConsentRecord) : Prop :=
  cast (c_hub r) = Ok (Some h) → cast (c_project r) = Ok (Some p) → granular r !! c ≠ Some true.

Lemma merged_off g incoming (c : string) :
  incoming !! c ≠ Some true → incoming !! c = Some false ∨ g !! c = Some false → merge_granular g incoming !! c = Some false.
Proof.
  unfold merge_granular. intros Hn H. destruct (incoming !! c) as [[]|] eqn:E; [done|by apply lookup_union_Some_l|].
  rewrite lookup_union_r by done. by destruct H.
Qed.

Lemma write_consent_keeps h p c r w : spares h p c r → off h p c w → off h p c (run (write_consent r) w).2.
Proof.
  intros Hsp Hoff. unfold write_consent. rewrite run_bind.
  assert (H1 : off h p c (run (select_granular (c_hub r) (c_project r)) w).2).
  { apply (psql_keeps (off h p c)); [intros; by apply off_faults| |done]. intros w1 Hw1. by destruct (cast (c_hub r)), (cast (c_project r)). }
  destruct (run (select_granular _ _) w) as [[g|e] w1] eqn:Es; [|done]. cbn [snd] in H1. rewrite run_bind.
  apply run_at_scope in Es as (h0 & p0 & Eh & Ep & [= Eg _]).
  assert (H2 : off h p c (run (upsert (c_hub r) (c_project r) (c_cross_org r) (merge_granular g (granular r))) w1).2).
  { apply (psql_keeps (off h p c)); [intros; by apply off_faults| |done]. intros w2 Hw2. rewrite Eh, Ep. cbn.
    destruct (decide ((h0, p0) = (Some h, Some p))) as [[= -> ->]|Hne]; [|by apply upsert_elsewhere].
    apply upsert_off, merged_off; [by apply Hsp|right]. rewrite <-Eg. by apply off_found. }
  by destruct (run (upsert _ _ _ _) w1) as [[[]|e] w2].
Qed.

Lemma decide_keeps h p c op r w : spares h p c r → off h p c w → off h p c (run (decide_consent op r) w).2.
Proof.
  intros Hsp Hoff. unfold decide_consent. destruct (validate r); [|done]. rewrite run_bind.
  pose proof (write_consent_keeps h p c r w Hsp Hoff) as H. by destruct (run (write_consent r) w) as [[x|e] w1].
Qed.

(** A decision that returns has switched off what it names. *)
Lemma decide_switches_off h p c op r w o w' :
  cast (c_hub r) = Ok (Some h) → cast (c_project r) = Ok (Some p) → granular r !! c = Some false →
  run (decide_consent op r) w = (Ok o, w') → off h p c w'.
Proof.
  intros Eh Ep Hg. unfold decide_consent. destruct (validate r); [|done]. rewrite run_bind. unfold write_consent.
  rewrite run_bind. destruct (run (select_granular _ _) w) as [[g|e] w1]; [|done]. rewrite run_bind.
  destruct (run (upsert _ _ _ _) w1) as [[[]|e] w2] eqn:Eu; [|done]. cbn. intros [= _ <-].
  apply run_at_scope in Eu as (h0 & p0 & Eh' & Ep' & [= <-]). rewrite Eh in Eh'. rewrite Ep in Ep'.
  injection Eh' as <-. injection Ep' as <-. apply (upsert_off h p c _ _ (with_faults (tl (faults w1)) w1)). by apply merged_off; [rewrite Hg|left].
Qed.

Lemma revocation_off hub project category by_ why_ c :
  match category with None => c ∈ KNOWN_DATA_CATEGORIES | Some x => x = c end →
  granular (revocation hub project category by_ why_) !! c = Some false.
Proof.
  destruct category as [x|]; cbn [granular revocation]; [intros ->; by rewrite lookup_singleton_eq|].
  unfold KNOWN_DATA_CATEGORIES. rewrite !elem_of_cons, elem_of_nil. by intros [->|[->|[->|[]]]].
Qed.

Lemma revocation_spares h p c hub project category by_ why_ : spares h p c (revocation hub project category by_ why_).
Proof.
  intros _ _. destruct category as [x|]; cbn [granular revocation].
  - intros [_ H]%lookup_singleton_Some. done.
  - intros H%elem_of_list_to_map_2. apply list_elem_of_fmap in H as (y & E & _). by injection E.
Qed.

(** * The rows of a text *)
Lemma ascii_break c s : code c < 128 → is_line_break c = false → break_length (String c s) = 0%nat.
Proof.
  intros Hc Hl. cbn [break_length]. rewrite Hl. destruct s as [|b s]; [done|].
  rewrite (proj2 (Z.eqb_neq (code c) 194)) by lia. cbn [andb]. destruct s; [done|].
  by rewrite (proj2 (Z.eqb_neq (code c) 226)) by lia.
Qed.

Lemma plain_char c : printable c = true → code c < 128 ∧ is_line_break c = false.
Proof.
  unfold printable, is_line_break. intros [H1%Z.leb_le H2%Z.leb_le]%andb_true_iff. split; [lia|].
  apply orb_false_iff; split; apply andb_false_iff; rewrite !Z.leb_gt; lia.
Qed.

Lemma has_char_printable c s : printable c = false → all_chars printable s = true → has_char c s = false.
Proof.
  intros Hc. induction s as [|d s IH]; [done|]. cbn [all_chars has_char]. intros [Hd Hs]%andb_true_iff.
  rewrite IH by done. rewrite orb_false_r. apply Ascii.eqb_neq. congruence.
Qed.

Lemma printable_break_free s : all_chars printable s = true → break_free s = true.
Proof.
  induction s as [|c s IH]; [done|]. cbn [all_chars break_free]. intros [[Hc Hl]%plain_char Hs]%andb_true_iff.
  by rewrite ascii_break, IH.
Qed.

(** Printable characters and separators stay on the line they are on. *)
Definition on_line (c : ascii) : bool := printable c || Ascii.eqb c separator.

Lemma text_lines_plain cur a s : all_chars on_line a = true → text_lines cur 0 (a +:+ s) = text_lines (cur +:+ a) 0 s.
Proof.
  revert cur. induction a as [|c a IH]; intros cur; [by rewrite app_nil_str|]. cbn [all_chars].
  intros [Hc Ha]%andb_true_iff. rewrite app_cons. cbn [text_lines].
  rewrite ascii_break by (apply orb_true_iff in Hc as [[? ?]%plain_char| ->%Ascii.eqb_eq]; done). rewrite IH by done.
  by rewrite app_assoc_str.
Qed.

(** A boundary lies within a text that has no control character. *)
Lemma break_within c g rest k :
  all_chars (fun c => 32 <=? code c) (String c g) = true → break_length (String c g +:+ String (chr 10) rest) = S k →
  (k <= String.length g)%nat ∧ break_length (String c g) = S k.
Proof.
  rewrite app_cons. cbn [all_chars break_length]. intros [Hc Hg]%andb_true_iff. apply Z.leb_le in Hc.
  assert (is_line_break c = false) as ->.
  { unfold is_line_break. apply orb_false_iff; split; apply andb_false_iff; rewrite !Z.leb_gt; lia. }
  destruct g as [|b g]; [rewrite app_empty|rewrite app_cons].
  { change (code (chr 10)) with 10. rewrite andb_false_r. destruct rest; [done|]. by rewrite andb_false_r. }
  destruct (_ && (code b =? 133)) eqn:E1; [intros [= <-]; cbn; by split; [lia|]|].
  destruct g as [|d g]; [rewrite app_empty|rewrite app_cons]; [|destruct ((code c =? 226) && _ && _); [intros [= <-]; cbn; split; [lia|done]|done]].
  change (code (chr 10)) with 10. by rewrite andb_false_r.
Qed.

(** A text without control characters and the newline after it: the line it ends, and
    lines of its own, in none of which there is a separator. *)
Lemma text_lines_tail g rest : ∀ cur skip,
  all_chars (fun c => 32 <=? code c) g = true → (skip <= String.length g)%nat →
  ∃ g1 lines, text_lines cur skip (g +:+ String (chr 10) rest) = (cur +:+ g1) :: lines ++ text_lines "" 0 rest ∧
    has_char separator g1 = false ∧ Forall (fun l => has_char separator l = false) lines ∧
    (break_free g = true → skip = 0%nat → g1 = g ∧ lines = []).
Proof.
  induction g as [|c g IH]; intros cur skip Hg Hs.
  { exists "", []. destruct skip; [|cbn in Hs; lia]. rewrite app_empty, app_nil_str. split_and!; [by destruct rest|done|constructor|done]. }
  pose proof Hg as Hcg. cbn [all_chars] in Hg. apply andb_true_iff in Hg as [Hc Hg]. cbn [String.length] in Hs.
  assert (Hsep : Ascii.eqb separator c = false).
  { apply Ascii.eqb_neq. intros <-. done. }
  destruct skip as [|k].
  - destruct (break_length (String c g +:+ String (chr 10) rest)) as [|k] eqn:Hb.
    + rewrite app_cons in Hb |- *. cbn [text_lines]. rewrite Hb. destruct (IH (cur +:+ str1 c) 0%nat Hg ltac:(lia)) as (g1 & ls & E & H1 & H2 & H3).
      exists (String c g1), ls. rewrite E, app_assoc_str. split_and!; [done|cbn [has_char]; by rewrite Hsep|done|].
      cbn [break_free]. intros [_ Hf]%andb_true_iff _. by destruct (H3 Hf eq_refl) as [-> ->].
    + pose proof (break_within _ _ _ _ Hcg Hb) as [Hk Hb']. rewrite app_cons in Hb |- *. cbn [text_lines]. rewrite Hb.
      destruct (IH "" k Hg Hk) as (g1 & ls & E & H1 & H2 & _). exists "", (g1 :: ls). rewrite E, app_empty, app_nil_str.
      split_and!; [done|done|by constructor|]. cbn [break_free]. by rewrite Hb'.
  - rewrite app_cons. cbn [text_lines]. destruct (IH cur k Hg ltac:(lia)) as (g1 & ls & E & H1 & H2 & _). exists g1, ls. by split_and!.
Qed.

Lemma split_plain c s : has_char c s = false → split_on c s = [s].
Proof. intros H. unfold split_on. destruct (String.length s); [done|]. cbn. by rewrite cut_none. Qed.

(** A line without separators is passed over. *)
Lemma read_fragments frags lines : Forall (fun l => has_char separator l = false) frags → read_policies (frags ++ lines) = read_policies lines.
Proof.
  induction 1 as [|l frags Hl _ IH]; [done|]. cbn [app read_policies]. unfold policy_of_line. rewrite split_plain by done.
  cbn [mbind outcome_bind]. rewrite IH. by destruct (read_policies lines).
Qed.

Definition plain_id (o : option string) : Prop := match o with Some u => u ≠ "" ∧ all_chars printable u = true | None => True end.

Lemma plain_text o : plain_id o → all_chars printable (default "" o) = true.
Proof. by destruct o as [u|]; [intros [_ ?]|]. Qed.

Lemma plain_read o : plain_id o → (if String.eqb (default "" o) "" then None else Some (default "" o)) = o.
Proof. destruct o as [u|]; [|done]. intros [Hu _]. cbn. by rewrite (proj2 (String.eqb_neq _ _) Hu). Qed.

(** What comes before the categories of a row. *)
Definition row_head (r : policy_row) : string :=
  default "" (r_hub r) +:+ String separator (default "" (r_project r) +:+ String separator
    ((if r_within r then "t" else "f") +:+ String separator ((if r_cross r then "t" else "f") +:+ str1 separator))).

Lemma row_text_head r : row_text r = row_head r +:+ jsonb_text (r_granular r).
Proof. unfold row_text, row_head. cbn [join]. by rewrite !app_assoc_str, !app_cons, !app_assoc_str, !app_cons, !app_assoc_str, !app_cons, !app_assoc_str. Qed.
Section Reading.
Context `{!JsonbText jsonb_text}.

Lemma row_line r g1 : plain_id (r_hub r) → plain_id (r_project r) → has_char separator g1 = false →
  policy_of_line (row_head r +:+ g1) =
  (g ← granular_of g1;
   Ok [{| hub_id := r_hub r; project_id := r_project r; within_hub_enabled := r_within r; cross_org_consent := r_cross r;
          granular_consent := g |}]).
Proof.
  intros Hh Hp Hg. assert (Hs : ∀ x, all_chars printable x = true → has_char separator x = false) by (intros; by apply has_char_printable).
  pose proof (Hs _ (plain_text _ Hh)) as Hh'. pose proof (Hs _ (plain_text _ Hp)) as Hp'.
  assert (E : split_on separator (row_head r +:+ g1) =
              [default "" (r_hub r); default "" (r_project r); if r_within r then "t" else "f"; if r_cross r then "t" else "f"; g1]).
  { unfold row_head, split_on. rewrite !app_assoc_str, !app_cons, !app_assoc_str, !app_cons, !app_assoc_str, !app_cons, !app_assoc_str, app_str1.
    assert (Hl : ∀ a b c d e, ∃ n, String.length (a +:+ String separator (b +:+ String separator
                   (c +:+ String separator (d +:+ String separator e)))) = S (S (S (S n)))).
    { intros. exists (String.length a + String.length b + String.length c + String.length d + String.length e)%nat.
      do 4 (rewrite length_app_str; cbn [String.length]). lia. }
    edestruct Hl as [n ->]. rewrite !split_max_cons by (done || by destruct (r_within r) || by destruct (r_cross r)).
    rewrite split_max_cons by by destruct (r_cross r). destruct n; [done|]. cbn [split_max]. by rewrite cut_none. }
  unfold policy_of_line. rewrite E. destruct (granular_of g1); [|done]. cbn [mbind outcome_bind].
  rewrite !plain_read by done. by destruct (r_within r), (r_cross r).
Qed.

Lemma granular_read r : keys_are readable (r_granular r) → granular_of (jsonb_text (r_granular r)) = Ok (r_granular r).
Proof.
  intros Hk. destruct (jsonb_loads (r_granular r)) as (d & Hd & E).
  { intros k Hi. apply Hk in Hi. by apply andb_true_iff in Hi as [? _]. }
  unfold granular_of. destruct (String.eqb_spec (jsonb_text (r_granular r)) "") as [E0|_]; [by rewrite E0 in Hd|]. by rewrite Hd, E.
Qed.

(** Every policy the reader gives is one of a row, and has its categories when they stay on
    their line. *)
Lemma read_rows rows ps policy :
  Forall (fun r => plain_id (r_hub r) ∧ plain_id (r_project r)) rows →
  read_policies (text_lines "" 0 (rows_text rows)) = Ok ps → policy ∈ ps →
  ∃ r, r ∈ rows ∧ hub_id policy = r_hub r ∧ project_id policy = r_project r ∧
       (keys_are readable (r_granular r) → granular_consent policy = r_granular r).
Proof.
  intros Hrows. revert ps. induction Hrows as [|r rows [Hh Hp] _ IH]; intros ps; [by intros [= <-] ?%not_elem_of_nil|].
  cbn [rows_text]. rewrite row_text_head, app_assoc_str.
  assert (Hon : all_chars on_line (row_head r) = true).
  { assert (Hx : ∀ x, all_chars printable x = true → all_chars on_line x = true).
    { intros x. apply all_chars_impl. unfold on_line. by intros c ->. }
    unfold row_head. rewrite !all_chars_app. cbn [all_chars]. rewrite !all_chars_app. cbn [all_chars]. rewrite !all_chars_app.
    cbn [all_chars]. rewrite all_chars_app, !Hx by by apply plain_text. by destruct (r_within r), (r_cross r). }
  rewrite text_lines_plain, app_empty by done.
  destruct (text_lines_tail (jsonb_text (r_granular r)) (rows_text rows) (row_head r) 0) as (g1 & frags & -> & Hg1 & Hfr & Hfree);
    [apply jsonb_controls|lia|].
  cbn [read_policies app]. rewrite row_line by done. rewrite read_fragments by done.
  destruct (granular_of g1) as [g|e] eqn:Eg; [|done]. cbn [mbind outcome_bind].
  destruct (read_policies _) as [qs|e] eqn:Eq; [|done]. cbn [mbind outcome_bind app]. intros [= <-] [->|Hin]%elem_of_cons.
  - exists r. split_and!; [by left|done|done|]. intros Hk. cbn.
    assert (Hb : break_free (jsonb_text (r_granular r)) = true).
    { apply jsonb_breaks. intros k Hi. apply Hk in Hi. by apply andb_true_iff in Hi as [_ ?]. }
    destruct (Hfree Hb eq_refl) as [-> _]. rewrite granular_read in Eg by done. by injection Eg.
  - destruct (IH _ eq_refl Hin) as (r' & Hr' & H). exists r'. split; [by right|done].
Qed.

Lemma listed_policy asked w ps policy w' :
  Forall (fun r => plain_id (r_hub r) ∧ plain_id (r_project r)) (policies w) →
  run (list_cross_org_consents asked) w = (Ok ps, w') → policy ∈ ps →
  ∃ r, r ∈ policies w ∧ in_scope (hub_id policy) (project_id policy) r = true ∧
       (keys_are readable (r_granular r) → granular_consent policy = r_granular r).
Proof.
  intros Hw. unfold list_cross_org_consents. rewrite run_bind. destruct (run (psql _) w) as [[out|e] w1] eqn:Hr; [|done].
  apply psql_ok in Hr. destruct (cast asked) as [ah|]; [|done]. injection Hr as <- _.
  destruct (read_policies _) as [qs|e] eqn:Hq; [|done]. cbn. intros [= <- _] Hin.
  eapply read_rows in Hq as (r & Hr & -> & -> & Hg); [| |exact Hin].
  - exists r. apply list_elem_of_In, filter_In in Hr as [Hr _]. split_and!; [by apply list_elem_of_In|by apply in_scope_true|done].
  - rewrite Forall_forall in *. intros r [Hr _]%list_elem_of_In%filter_In. by apply Hw, list_elem_of_In.
Qed.
End Reading.

(** * Scopes whose categories are read back *)

(** The ids are those of uuids, and the categories of the scope stay on their line. *)
Definition legible (h p : string) (w : world) : Prop :=
  Forall (fun r => plain_id (r_hub r) ∧ plain_id (r_project r) ∧
                   (in_scope (Some h) (Some p) r = true → keys_are readable (r_granular r))) (policies w).

Definition clear (h p : string) (r : ConsentRecord) : Prop :=
  cast (c_hub r) = Ok (Some h) → cast (c_project r) = Ok (Some p) → keys_are readable (granular r).

Lemma merged_keys P g incoming : keys_are P g → keys_are P incoming → keys_are P (merge_granular g incoming).
Proof. intros Hg Hi k [x [Hk|[_ Hk]]%lookup_union_Some_raw]; [apply Hi|apply Hg]; by eexists. Qed.

Lemma upsert_legible h p h' p' cross g w :
  plain_id h' → plain_id p' → ((h', p') = (Some h, Some p) → keys_are readable g) →
  legible h p w → legible h p (with_policies (upsert_rows h' p' cross g (policies w)) w).
Proof.
  intros Hh Hp Hg Hw. unfold legible, upsert_rows in *. cbn [policies with_policies].
  assert (Hs : ∀ r, r_hub r = h' → r_project r = p' → in_scope (Some h) (Some p) r = true → keys_are readable g).
  { intros r <- <- [E1 E2]%in_scope_true. apply Hg. by rewrite E1, E2. }
  destruct (existsb _ _).
  - rewrite Forall_fmap. eapply Forall_impl; [exact Hw|]. intros r (H1 & H2 & H3). cbn.
    destruct (conflicts h' p' r) eqn:E; [|done]. apply conflicts_true in E as (_ & _ & E1 & E2). split_and!; [done..|].
    intros Hi. by apply (Hs r).
  - apply Forall_app. split; [done|]. constructor; [|constructor]. split_and!; [done..|]. by apply Hs.
Qed.

Section Legible.
Context `{!UuidText uuid_of}.

Lemma cast_plain o x : cast o = Ok x → plain_id x.
Proof.
  unfold cast. destruct o as [s|]; [|by intros [= <-]]. destruct (uuid_of s) as [u|] eqn:Eu; [|done]. intros [= <-]. by apply uuid_text in Eu.
Qed.

Lemma write_consent_legible h p r w : clear h p r → legible h p w → legible h p (run (write_consent r) w).2.
Proof.
  intros Hc Hw. unfold write_consent. rewrite run_bind.
  assert (H1 : legible h p (run (select_granular (c_hub r) (c_project r)) w).2).
  { apply (psql_keeps (legible h p)); [done| |done]. intros w1 Hw1. by destruct (cast (c_hub r)), (cast (c_project r)). }
  destruct (run (select_granular _ _) w) as [[g|e] w1] eqn:Es; [|done]. cbn [snd] in H1. rewrite run_bind.
  apply run_at_scope in Es as (h0 & p0 & Eh & Ep & [= Eg _]).
  assert (H2 : legible h p (run (upsert (c_hub r) (c_project r) (c_cross_org r) (merge_granular g (granular r))) w1).2).
  { apply (psql_keeps (legible h p)); [done| |done]. intros w2 Hw2. rewrite Eh, Ep. cbn.
    apply upsert_legible; [by eapply cast_plain..| |done]. intros [= -> ->]. apply merged_keys; [|by apply Hc].
    rewrite <-Eg. destruct (find _ _) as [r'|] eqn:Hf; [|by intros k [? ?%lookup_empty_Some]].
    apply find_some in Hf as [Hin Hs]. unfold legible in Hw. rewrite Forall_forall in Hw.
    by apply (Hw r'); [apply list_elem_of_In|]. }
  by destruct (run (upsert _ _ _ _) w1) as [[[]|e] w2].
Qed.

Lemma decide_legible h p op r w : clear h p r → legible h p w → legible h p (run (decide_consent op r) w).2.
Proof.
  intros Hc Hw. unfold decide_consent. destruct (validate r); [|done]. rewrite run_bind.
  pose proof (write_consent_legible h p r w Hc Hw) as H. by destruct (run (write_consent r) w) as [[x|e] w1].
Qed.

Lemma revocation_clear h p hub project category by_ why_ :
  match category with Some x => readable x = true | None => True end → clear h p (revocation hub project category by_ why_).
Proof.
  intros Hx _ _. destruct category as [x|]; cbn [granular revocation].
  - intros k [? [<- _]%lookup_singleton_Some]. done.
  - intros k [? Hk%elem_of_list_to_map_2]. apply list_elem_of_fmap in Hk as (y & [= -> _] & Hy).
    repeat (apply elem_of_cons in Hy as [->|Hy]; [reflexivity|]). by apply not_elem_of_nil in Hy.
Qed.
End Legible.

(** * After a revocation *)

(** What an administrator or a caller does next, and what becomes of psql. *)
Inductive event :=
| Grants (r : ConsentRecord)
| Revokes (hub project category : option string) (by_ why_ : string)
| Contributes (i : ContributeInput)
| Calls (l : list fault).

Definition happen (w : world) (e : event) : world :=
  match e with
  | Grants r => (run (learning_grant_cross_org_consent r) w).2
  | Revokes hub project category by_ why_ => (run (learning_revoke_cross_org_consent hub project category by_ why_) w).2
  | Contributes i => (run (learning_contribute i) w).2
  | Calls l => with_faults l w
  end.

(** No grant for the scope names the category, and what is granted and revoked for it are
    categories that stay on their line. *)
Definition leaves_off (h p c : string) (e : event) : Prop :=
  match e with
  | Grants r => spares h p c r ∧ clear h p r
  | Revokes hub project category by_ why_ => clear h p (revocation hub project category by_ why_)
  | _ => True
  end.

Lemma write_lesson_policies p t w : policies (run (write_lesson p t) w).2 = policies w.
Proof.
  apply (psql_keeps (fun w1 => policies w1 = policies w)); [done| |done].
  intros w1 <-. by destruct t, (cast (source_audit_record_id p)).
Qed.

Lemma write_tiers_policies p tiers ok bad w : policies (run (write_tiers p tiers ok bad) w).2 = policies w.
Proof.
  revert ok bad w. induction tiers as [|t tiers IH]; intros ok bad w; [done|]. cbn [write_tiers].
  rewrite run_bind, run_catch, run_bind. pose proof (write_lesson_policies p t w) as Hw.
  destruct (run (write_lesson p t) w) as [[id|e] w1]; cbn in Hw |- *; [destruct (String.eqb id "")|]; by rewrite IH.
Qed.

Lemma contribute_policies p ctx loader explicit w : policies (run (contribute_lesson p ctx loader explicit) w).2 = policies w.
Proof.
  unfold contribute_lesson. rewrite run_bind. pose proof (write_tiers_policies p (tiers_to_write (gate ctx loader explicit)) [] [] w) as H.
  by destruct (run (write_tiers _ _ _ _) w) as [[r|e] w1].
Qed.

Lemma off_policies h p c w w' : policies w' = policies w → off h p c w → off h p c w'.
Proof. unfold off. by intros ->. Qed.

Lemma tool_keeps {A} (m : job A) code P w :
  P (run m w).2 → P (run (tcatch (d <- m;; tret (ToolOk d)) (fun _ => tret (@ToolFailed A code))) w).2.
Proof. rewrite run_catch, run_bind. by destruct (run m w) as [[a|e] w1]. Qed.

Lemma happen_keeps h p c e w : leaves_off h p c e → off h p c w → off h p c (happen w e).
Proof.
  intros Hl Hoff. destruct e as [r|hub project category by_ why_|i|l]; cbn [happen].
  - apply (tool_keeps _ _ (off h p c)). by apply decide_keeps; [apply Hl|].
  - apply (tool_keeps _ _ (off h p c)). apply decide_keeps; [apply revocation_spares|done].
  - apply (off_policies h p c w); [|done]. unfold learning_contribute. destruct (scope_from_str (i_scope i)) as [s|]; [|done].
    rewrite run_bind. match goal with |- context [run (contribute_lesson ?a ?b ?d ?f) w] =>
      pose proof (contribute_policies a b d f w) as H; by destruct (run (contribute_lesson a b d f) w) as [[x|e] w1] end.
  - done.
Qed.

Lemma happen_legible `{!UuidText uuid_of} h p c e w : leaves_off h p c e → legible h p w → legible h p (happen w e).
Proof.
  intros Hl Hw. destruct e as [r|hub project category by_ why_|i|l]; cbn [happen].
  - apply (tool_keeps _ _ (legible h p)). by apply decide_legible; [apply Hl|].
  - apply (tool_keeps _ _ (legible h p)). by apply decide_legible.
  - unfold legible. assert (policies (run (learning_contribute i) w).2 = policies w) as ->; [|done].
    unfold learning_contribute. destruct (scope_from_str (i_scope i)) as [s|]; [|done].
    rewrite run_bind. match goal with |- context [run (contribute_lesson ?a ?b ?d ?f) w] =>
      pose proof (contribute_policies a b d f w) as H; by destruct (run (contribute_lesson a b d f) w) as [[x|e] w1] end.
  - done.
Qed.

End Tables.

(** * An organisation *)
Definition demo_uuid (s : string) : option string := if negb (String.eqb s "") && all_chars printable s then Some s else None.

(** A jsonb with every character that is not ASCII escaped, and one as Postgres writes keys
    that have nothing to escape. *)
Definition demo_members (g : gmap string bool) : list (string * json) := map (fun kv => (kv.1, JBool kv.2)) (map_to_list g).
Definition demo_jsonb (g : gmap string bool) : string := dumps (JObj (demo_members g)).
Definition raw_jsonb (g : gmap string bool) : string :=
  "{" +:+ join ", " (map (fun kv => str1 dquote +:+ kv.1 +:+ str1 dquote +:+ ": " +:+ if kv.2 : bool then "true" else "false")
                         (map_to_list g)) +:+ "}".

#[local] Instance demo_uuid_text : UuidText demo_uuid.
Proof.
  intros s u. unfold demo_uuid. destruct (_ && _) eqn:E; [|done]. intros [= <-]. apply andb_true_iff in E as [H1%negb_true_iff H2].
  by apply String.eqb_neq in H1.
Qed.

Lemma demo_members_keys g : (demo_members g).*1 = (map_to_list g).*1.
Proof. unfold demo_members. by rewrite <-list_fmap_compose. Qed.

Lemma demo_jsonb_printable g : all_chars printable (demo_jsonb g) = true.
Proof.
  unfold demo_jsonb. cbn [dumps]. rewrite !all_chars_app. apply andb_true_iff. split; [done|]. apply andb_true_iff. split; [|done].
  apply join_printable; [done|].
  apply Forall_forall. intros x (kv & -> & Hkv)%list_elem_of_fmap. rewrite !all_chars_app, quote_printable.
  apply list_elem_of_fmap in Hkv as ([k []] & -> & _); done.
Qed.

#[local] Instance demo_jsonb_text : JsonbText demo_jsonb.
Proof.
  split.
  - intros g. eapply all_chars_impl; [|apply demo_jsonb_printable]. intros c [? _]%andb_true_iff. done.
  - intros g _. apply printable_break_free, demo_jsonb_printable.
  - intros g Hk. exists (demo_members g). split.
    + apply loads_dumps. cbn [valid]. apply andb_true_iff. split.
      * apply distinct_spec. rewrite demo_members_keys. apply NoDup_fst_map_to_list.
      * apply forallb_forall. intros kv ([k v] & <- & Hin%list_elem_of_In)%in_map_iff. cbn.
        apply elem_of_map_to_list in Hin. rewrite andb_true_r. apply (proj1 (proj1 (andb_true_iff _ _) (Hk k (ex_intro _ v Hin)))).
    + unfold flags_of, demo_members. rewrite map_map. cbn. rewrite <-(list_to_map_to_list g) at 2. f_equal.
      induction (map_to_list g) as [|[k v] l IH]; [done|]. cbn. by rewrite IH.
Qed.

Definition demo_id (n : nat) : string := str_of_Z (Z.of_nat n).
Definition demo_world : world := {| policies := []; lessons := []; drawn := 0; faults := [] |}.

Definition demo_grant (hub project : option string) (g : gmap string bool) : ConsentRecord :=
  {| c_hub := hub; c_project := project; c_cross_org := true; granular := g; granted_by := "admin"; rationale := "signed" |}.
Definition demo_ctx (category : string) (cross : option bool) : ScopeContext :=
  {| ctx_hub := Some "acme"; ctx_project := Some "atlas"; requested_scope := CROSS_ORG; data_category := Some category;
     bundle_within_hub_enabled := None; bundle_cross_org_default := cross |}.
Definition demo_lesson : LessonPayload := {| lesson_text := "gate early"; source_audit_record_id := None |}.

Definition demo_happen : world → event → world := happen demo_uuid demo_id.
Definition demo_revoked : outcome exn ConsentDecision * world :=
  run (revoke_cross_org_consent demo_uuid (Some "acme") (Some "atlas") None "ana" "left the programme")
    (demo_happen demo_world (Grants (demo_grant (Some "acme") (Some "atlas") ∅))).
Definition demo_decision : ConsentDecision :=
  {| d_hub := Some "acme"; d_project := Some "atlas"; operation := revoke; actor := "ana";
     effective_policy := {| hub_id := Some "acme"; project_id := Some "atlas"; within_hub_enabled := true;
       cross_org_consent := false; granular_consent := list_to_map (map (fun c => (c, false)) KNOWN_DATA_CATEGORIES) |} |}.
Definition demo_events : list event :=
  [Grants (demo_grant (Some "acme") (Some "atlas") {["role_success_rates" := true]}); Calls [Refused];
   Revokes (Some "acme") (Some "atlas") (Some "other") "ana" ""].
Definition demo_listed : outcome exn (list ScopePolicy) * world :=
  run (list_cross_org_consents demo_uuid demo_jsonb (Some "acme")) (foldl demo_happen demo_revoked.2 demo_events).
Definition demo_policy : ScopePolicy :=
  match demo_listed.1 with Ok (p :: _) => p | _ => default_policy None None end.


(** What leaves under the policy that is listed first. *)
Definition leaves_by (jsonb : gmap string bool → string) (w : world) (category : string) : bool :=
  match run (list_cross_org_consents demo_uuid jsonb (Some "acme")) w with
  | (Ok (p :: _), _) => in_strs "cross_org" (map scope_value (tiers_to_write (gate (demo_ctx category None) None (Some p))))
  | _ => false
  end.
Definition leaves : world → string → bool := leaves_by demo_jsonb.

(** A category with a line separator in its name ends its row in the middle of its JSON, of
    which nothing is taken: no revocation counts any more, nor does that of another. *)
Example separator_forgets :
  let category := "eu" +:+ String (chr 226) (String (chr 128) (str1 (chr 168))) +:+ "beta" in
  let w := demo_happen demo_revoked.2 (Revokes (Some "acme") (Some "atlas") (Some category) "ana" "") in
  map (fun r => r_granular r !! category) (policies w) = [Some false] ∧
  leaves_by raw_jsonb demo_revoked.2 "calibration_outcomes" = false ∧
  leaves_by raw_jsonb w category = true ∧ leaves_by raw_jsonb w "calibration_outcomes" = true.
Proof. vm_compute. split_and!; reflexivity. Qed.

(** Nobody consented; revoking one category consents to the others. *)
Lemma revoking_one_grants_the_rest :
  let w := demo_happen demo_world (Revokes (Some "acme") (Some "atlas") (Some "calibration_outcomes") "ana" "") in
  leaves demo_world "pattern_frequencies" = false ∧ leaves w "calibration_outcomes" = false ∧
  leaves w "pattern_frequencies" = true.
Proof. vm_compute. split_and!; reflexivity. Qed.

(** After a full revocation a full grant grants none of the known categories. *)
Lemma regrant_grants_nothing :
  let grants := Grants (demo_grant (Some "acme") (Some "atlas") ∅) in
  let revokes := Revokes (Some "acme") (Some "atlas") None "ana" "" in
  let w := demo_happen (demo_happen demo_world grants) revokes in
  leaves (demo_happen demo_world grants) "pattern_frequencies" = true ∧
  forallb (fun c => negb (leaves (demo_happen w grants) c)) KNOWN_DATA_CATEGORIES = true.
Proof. vm_compute. split; reflexivity. Qed.

(** A revocation for the whole hub adds a row beside the one that consents: null project ids
    are never in conflict. *)
Lemma hub_wide_revocation_misses :
  let w := foldl demo_happen demo_world [Grants (demo_grant (Some "acme") None ∅); Revokes (Some "acme") None None "ana" ""] in
  map r_cross (policies w) = [true; false] ∧ leaves w "pattern_frequencies" = true.
Proof. vm_compute. split; reflexivity. Qed.

(** A grant that has read the row before a revocation writes it back after it. *)
Definition race : pool :=
  let void {A} (m : task world exn A) : task world exn unit := (m;; tret tt)%task in
  interleave [0; 1; 1; 0]%nat
    (demo_happen demo_world (Grants (demo_grant (Some "acme") (Some "atlas") ∅)),
     [void (grant_cross_org_consent demo_uuid (demo_grant (Some "acme") (Some "atlas") {["role_success_rates" := true]}));
      void (revoke_cross_org_consent demo_uuid (Some "acme") (Some "atlas") (Some "calibration_outcomes") "ana" "")]).

Lemma revocation_lost : leaves race.1 "calibration_outcomes" = true.
Proof. vm_compute. reflexivity. Qed.

(** The tool never reads the table: after a revocation a caller's own default lets the
    lesson out, and after a grant nothing leaves without it. *)
Definition tool_input (cross : option bool) : ContributeInput :=
  {| i_project := "atlas"; i_text := "gate early"; i_source := None; i_scope := "cross_org";
     i_category := Some "calibration_outcomes"; i_hub := Some "acme"; i_within := None; i_cross := cross |}.

Lemma tool_ignores_consent :
  let granted := demo_happen demo_world (Grants (demo_grant (Some "acme") (Some "atlas") ∅)) in
  length (cross_rows (demo_happen demo_revoked.2 (Contributes (tool_input (Some true))))) = 1%nat ∧
  cross_rows (demo_happen granted (Contributes (tool_input None))) = [].
Proof. vm_compute. split; reflexivity. Qed.

(** A denied contribution is written to the project's tier. *)
Lemma denied_is_written loader explicit ctx : requested_scope ctx = DENIED → tiers_to_write (gate ctx loader explicit) = [PROJECT].
Proof. intros E. unfold gate. by rewrite E. Qed.

(** The vendor's path writes nothing on a customer's deployment. *)
Lemma customer_writes_nothing uuid_of new_id e env publisher w :
  String.eqb (lower (strip env)) "vendor" = false →
  run (vendor_self_improvement_record uuid_of new_id e false None env publisher) w =
  (Ok {| accepted := false; outcome_ := None; why := not_vendor_deployment; upstream_dispatched := false |}, w).
Proof. intros E. unfold vendor_self_improvement_record, is_vendor_deployment. by rewrite E. Qed.

End Learning.
