(* ===== verification/Anonymizer.v ===== *)
(** Anonymised telemetry: [learning/anonymizer.py].

    An aggregate is released or suppressed; the report says why.  The random noise of the
    differential-privacy stub and the text of an epsilon are parameters.  The expression
    for personal data is read over bytes, as in [Regex]. *)

From S2P Require Import Prelude PyValue Crypto Regex.
From Stdlib Require Import Ascii.
Local Open Scope Z_scope.

Module Anonymizer.

Definition DEFAULT_K : Z := 5.

Definition ALWAYS_REDACT : list string :=
  ["user_email"; "user_id"; "actor"; "actor_id"; "project_id"; "project_name"; "hub_id"; "hub_name"; "repo"; "repo_url";
   "commit_sha"; "file_path"; "rationale"; "lesson_text"; "source_audit_record_id"; "ip_address"].

(** [_PII_RE]: an address of mail, a social security number, a long hexadecimal number, an
    IPv4 address. *)
Definition word_or (s : string) : Regex.re := Regex.Chr (fun c => Regex.is_word c || has_char c s).
Definition digit : Regex.re := Regex.Chr is_digit.
Definition is_hex (c : ascii) : bool := is_digit c || ((97 <=? code (lower_char c)) && (code (lower_char c) <=? 102)).
Definition bounded (r : Regex.re) : Regex.re := Regex.seqs [Regex.Bound; r; Regex.Bound].

Definition MAIL : Regex.re :=
  Regex.seqs [Regex.plus (word_or ".+-"); Regex.lit "@"; Regex.plus (word_or "-"); Regex.lit "."; Regex.plus (word_or ".-")].
Definition SSN : Regex.re :=
  bounded (Regex.seqs [Regex.times 3 digit; Regex.lit "-"; Regex.times 2 digit; Regex.lit "-"; Regex.times 4 digit]).
Definition LONG_HEX : Regex.re :=
  bounded (Regex.Seq (Regex.times 32 (Regex.Chr is_hex)) (Regex.Star (Regex.Chr is_hex))).
Definition IPV4 : Regex.re :=
  let byte := Regex.upto 3 digit in
  bounded (Regex.seqs [byte; Regex.lit "."; byte; Regex.lit "."; byte; Regex.lit "."; byte]).
Definition PII_RE : Regex.re := Regex.alts [MAIL; SSN; LONG_HEX; IPV4].

Definition has_pii (s : string) : bool := Regex.search PII_RE s.

(** * Methods *)
Inductive AnonymizationMethodKind := K_ANONYMITY | DIFFERENTIAL_PRIVACY | SYNTHETIC.

(** An epsilon is a double ([Float64]). *)
Record AnonymizationMethod := { kind : AnonymizationMethodKind; label : string; k : option Z; epsilon : option Z }.

(** [None] for the ValueError of a method that makes no sense. *)
Definition k_anonymity_method (n : Z) : option AnonymizationMethod :=
  if n <? 1 then None
  else Some {| kind := K_ANONYMITY; label := "k_anonymity_" +:+ str_of_Z n; k := Some n; epsilon := None |}.

Definition differential_privacy_method (eps : Z) (eps_text : string) : option AnonymizationMethod :=
  if eps <=? 0 then None
  else Some {| kind := DIFFERENTIAL_PRIVACY; label := "differential_privacy_eps" +:+ eps_text; k := None; epsilon := Some eps |}.

Definition synthetic_method : AnonymizationMethod := {| kind := SYNTHETIC; label := "synthetic"; k := None; epsilon := None |}.

Definition default_method : AnonymizationMethod :=
  {| kind := K_ANONYMITY; label := "k_anonymity_5"; k := Some DEFAULT_K; epsilon := None |}.

Definition available_methods : list string := ["k_anonymity_5"; "k_anonymity_10"; "differential_privacy_eps1"; "synthetic"].

Inductive suppression := pii_in_pattern_class | k_anonymity_violation (contributors k : Z).

Record AnonymizationReport := {
  rp_pattern_class : string; method_label : string; rp_k : option Z; rp_epsilon : option Z; contributor_count : Z;
  rp_redacted : list string; pii_hits : list string; suppressed_reason : option suppression; noise_added : option Z
}.

Record AnonymizationResult := {
  release_ok : bool; pattern_class : string; count : Z; period : string; anonymization_method : string;
  report : AnonymizationReport; redacted_fields : list string; aggregate_hash : string
}.

(** * Fields *)

(** One item of [_scrub_fields]; [inner] is what its value scrubs to when it is a dict. *)
Definition scrub_item (key : string) (v : value) (inner : value * list string) : option (string * value) * list string :=
  if in_strs key ALWAYS_REDACT then (None, [key])
  else match v with
       | VDict _ => (Some (key, inner.1), map (fun r => key +:+ "." +:+ r) inner.2)
       | VStr s => if has_pii s then (None, [key]) else (Some (key, v), [])
       | _ => (Some (key, v), [])
       end.

Fixpoint scrub (v : value) : value * list string :=
  match v with
  | VDict d =>
      let parts := map (fun e => scrub_item (fst e) (snd e) (scrub (snd e))) d in
      (VDict (omap fst parts), concat (map snd parts))
  | _ => (v, [])
  end.

Definition scrub_fields (extra : dict) : dict * list string :=
  match scrub (VDict extra) with (VDict d, red) => (d, red) | (_, red) => ([], red) end.

Definition scan_pattern_class_for_pii (s : string) : list string := Regex.findall PII_RE s.

Definition hash_aggregate (cls : string) (n : Z) (per lab : string) : string :=
  Crypto.hex_of (Crypto.sha256 (cls +:+ str_of_Z n +:+ per +:+ lab)).

(** * Release *)

(** [len({str(c) for c in contributor_ids if c is not None})]. *)
Definition distinct_contributors (ids : list (option string)) : Z := Z.of_nat (size (list_to_set (omap id ids) : gset string)).

Section Release.
(** The noise for an epsilon, and the count it makes of a count: [int(round(count + noise))]. *)
Context (laplace : Z → Z * (Z → Z)).
Definition DEFAULT_EPSILON : Z := 2 ^ 1074.

Definition positive_or (d : Z) (o : option Z) : Z := match o with Some x => if x =? 0 then d else x | None => d end.

(** The count that is released with the noise in it, or why none is. *)
Definition released (m : AnonymizationMethod) (contributors n : Z) : suppression + Z * option Z :=
  match kind m with
  | K_ANONYMITY =>
      let bound := positive_or DEFAULT_K (k m) in
      if contributors <? bound then inl (k_anonymity_violation contributors bound) else inr (n, None)
  | DIFFERENTIAL_PRIVACY =>
      let '(noise, noisy) := laplace (positive_or DEFAULT_EPSILON (epsilon m)) in inr (Z.max 0 (noisy n), Some noise)
  | SYNTHETIC => inr (if 0 <? n then 1 else 0, None)
  end.

Definition anonymize_for_cross_org (cls : string) (n : Z) (per : string) (contributor_ids : list (option string))
    (extra : dict) (method : option AnonymizationMethod) : AnonymizationResult :=
  let m := default default_method method in
  let hits := scan_pattern_class_for_pii cls in
  let redacted := (scrub_fields extra).2 in
  let contributors := distinct_contributors contributor_ids in
  let rep why noise := {| rp_pattern_class := cls; method_label := label m; rp_k := k m; rp_epsilon := epsilon m;
                          contributor_count := contributors; rp_redacted := redacted; pii_hits := hits;
                          suppressed_reason := why; noise_added := noise |} in
  let res ok c why noise hash := {| release_ok := ok; pattern_class := cls; count := c; period := per;
                                    anonymization_method := label m; report := rep why noise;
                                    redacted_fields := redacted; aggregate_hash := hash |} in
  match hits with
  | _ :: _ => res false 0 (Some pii_in_pattern_class) None ""
  | [] =>
      match released m contributors n with
      | inl why => res false 0 (Some why) None ""
      | inr (c, noise) => res true c None noise (hash_aggregate cls c per (label m))
      end
  end.

(** * What is released *)

(** No match is found exactly when the search finds none. *)
Lemma find_from_none r n s :
  (Regex.size s < n)%nat → Regex.find_from n r s = [] →
  ∀ p, p ∈ Regex.places (Regex.prev s) (Regex.rest s) → Regex.run r Some p = None.
Proof.
  revert s. induction n as [|n IH]; intros [pv t] Hn; [lia|]. cbn [Regex.find_from].
  destruct (Regex.run r Some _) as [u|] eqn:E; [by destruct (_ <? _)%nat|]. cbn [Regex.rest Regex.prev].
  destruct t as [|c t]; cbn [Regex.places].
  - intros _ p ->%list_elem_of_singleton. done.
  - intros Hf p [->|Hp]%elem_of_cons; [done|]. apply (IH (Regex.At (Some c) t)); [cbn in *; lia|done|done].
Qed.

Lemma scan_none s : scan_pattern_class_for_pii s = [] → has_pii s = false.
Proof.
  intros H. unfold has_pii, Regex.search. apply Bool.not_true_iff_false. rewrite existsb_exists.
  intros (p & Hp%list_elem_of_In & Hm). 
  pose proof (find_from_none PII_RE (S (String.length s)) (Regex.At None s) (Nat.lt_succ_diag_r _) H p Hp) as E.
  by rewrite E in Hm.
Qed.

(** Under k-anonymity an aggregate is released only when at least k different
    contributors are behind it and no personal data is found in its class, and then what is
    released does not depend on who they are or on the extra fields: another aggregate of
    the same class, count and period with enough contributors gives the same release. *)
Theorem release_hides_contributors n m cls c per ids extra :
  k_anonymity_method n = Some m →
  release_ok (anonymize_for_cross_org cls c per ids extra (Some m)) = true →
  n <= distinct_contributors ids ∧ has_pii cls = false ∧
  ∀ ids' extra', n <= distinct_contributors ids' →
    let r := anonymize_for_cross_org cls c per ids extra (Some m) in
    let r' := anonymize_for_cross_org cls c per ids' extra' (Some m) in
    release_ok r' = true ∧ pattern_class r' = pattern_class r ∧ count r' = count r ∧ period r' = period r ∧
    anonymization_method r' = anonymization_method r ∧ aggregate_hash r' = aggregate_hash r.
Proof.
  unfold k_anonymity_method. destruct (Z.ltb_spec n 1) as [|Hn]; [done|]. intros [= <-]. unfold anonymize_for_cross_org. cbn [default].
  destruct (scan_pattern_class_for_pii cls) eqn:Hs; [|done]. unfold released. cbn. unfold positive_or.
  rewrite (proj2 (Z.eqb_neq n 0)) by lia. destruct (Z.ltb_spec (distinct_contributors ids) n); [done|]. intros _.
  split; [done|]. split; [by apply scan_none|]. intros ids' extra' Hids.
  by rewrite (proj2 (Z.ltb_ge _ _) Hids).
Qed.
End Release.

(** * Scrubbed fields *)

(** No denied key and no text with personal data, in the dicts at any depth. *)
Fixpoint clean (v : value) : bool :=
  match v with
  | VDict d => forallb (fun e => negb (in_strs (fst e) ALWAYS_REDACT) &&
                                 match snd e with VStr s => negb (has_pii s) | _ => clean (snd e) end) d
  | _ => true
  end.

Lemma scrub_clean : ∀ v, clean (scrub v).1 = true.
Proof.
  fix IH 1. intros [ | | | | |d]; try reflexivity. cbn [scrub fst clean].
  induction d as [|[key v] d IHd]; [done|]. cbn [map omap list_omap fst snd].
  specialize (IH v). unfold scrub_item at 1. destruct (in_strs key ALWAYS_REDACT) eqn:Ek; [exact IHd|].
  destruct v as [|b|z|s|l|d']; cbn [fst]; try (cbn [forallb fst snd]; rewrite Ek; exact IHd).
  - destruct (has_pii s) eqn:Ep; [exact IHd|]. cbn [fst forallb snd]. rewrite Ek, Ep. exact IHd.
  - cbn [forallb fst snd]. rewrite Ek. cbn [scrub fst] in IH |- *. cbn [clean] in IH |- *. rewrite IH. exact IHd.
Qed.

(** What is in a list is not looked at. *)
Lemma list_is_not_scrubbed :
  let extra := [("people", VList [VStr "ana@acme.com"; VDict [("user_id", VInt 7)]])] in scrub_fields extra = (extra, []).
Proof. vm_compute. reflexivity. Qed.

(** The parts of the hash are not separated: eleven in 2026 and one in 12026 are one. *)
Lemma aggregates_share_hash cls lab : hash_aggregate cls 1 "12026-05" lab = hash_aggregate cls 11 "2026-05" lab.
Proof. unfold hash_aggregate. do 2 f_equal. Qed.

Definition demo_ids (l : list string) : list (option string) := map Some l.
Definition demo_k : AnonymizationMethod := {| kind := K_ANONYMITY; label := "k_anonymity_2"; k := Some 2; epsilon := None |}.

Lemma release_hides_contributors_witness :
  2 <= distinct_contributors (demo_ids ["a"; "b"; "a"]) ∧ has_pii "late_qa_gate" = false ∧
  count (anonymize_for_cross_org (λ _, (0, id)) "late_qa_gate" 17 "2026-05" (demo_ids ["c"; "d"; "e"]) [] (Some demo_k)) = 17.
Proof.
  destruct (release_hides_contributors (λ _, (0, id)) 2 demo_k "late_qa_gate" 17 "2026-05" (demo_ids ["a"; "b"; "a"])
    [("actor", VStr "ana")]) as (H1 & H2 & H3); [reflexivity|vm_compute; reflexivity|].
  split; [exact H1|]. split; [exact H2|].
  destruct (H3 (demo_ids ["c"; "d"; "e"]) []) as (_ & _ & Hc & _); [vm_compute; discriminate|].
  rewrite Hc. vm_compute. reflexivity.
Defined.

Example mail_is_found : scan_pattern_class_for_pii "late_qa by ana@acme.com" = ["ana@acme.com"].
Proof. vm_compute. reflexivity. Qed.
Example numbers_are_found : map has_pii ["at 10.0.0.255 late"; "123-45-6789"; "1234-45-6789"; "DEADBEEFdeadbeefDEADBEEFdeadbeef"]
  = [true; true; false; true].
Proof. vm_compute. reflexivity. Qed.

End Anonymizer.
