(* ===== verification/Instinct.v ===== *)
(** Instincts: [learning/instinct.py] and the sweep of
    [shared/runtime/instinct_promotion_loop.py].

    The files of the store are texts of lines; the JSON of a record is read and written by
    pydantic, a parameter with the law that it reads what it wrote.  Confidences are doubles
    ([Float64]); their sum is the running sum of Python up to 3.11. *)

From S2P Require Import Prelude PyValue Text Crypto Float64 Json Dependencies.
From Stdlib Require Import Ascii.
Local Open Scope Z_scope.

Module Instinct.
Import Float64.

Definition CONFIDENCE_FLOOR : Z := fdiv (of_Z 3) (of_Z 10).
Definition CONFIDENCE_CEILING : Z := fdiv (of_Z 9) (of_Z 10).
Definition PROMOTION_THRESHOLD_PROJECTS : nat := 2.
Definition PROMOTION_MIN_CONFIDENCE : Z := fdiv one (of_Z 2).

(** [re.sub(r"\s+", " ", text).strip().lower()]; [after] says that the last character was
    white space. *)
Fixpoint collapse (after : bool) (s : string) : string :=
  match s with
  | EmptyString => EmptyString
  | String c s' => if is_space c then (if after then collapse true s' else String " " (collapse true s'))
                   else String c (collapse false s')
  end.
Definition normalise (text : string) : string := lower (strip (collapse false text)).

Record Instinct_ := { pattern : string; trigger : string; because : string; confidence : Z }.

Definition fingerprint (i : Instinct_) : string :=
  Crypto.hex_of (Crypto.sha256 (normalise (pattern i) +:+ str1 (chr 31) +:+ normalise (trigger i))).

Record InstinctRecord := {
  record_id : string; instinct : Instinct_; project_id : string; run_id : string; observer : string; observed_at : string;
  audit_hash : option string; notes : option string
}.

Record PromotionDecision := {
  d_fingerprint : string; projects_seen : list string; observations : nat; avg_confidence : Z; threshold_projects : nat;
  threshold_confidence : Z; eligible_for_promotion : bool; reasons : list string
}.

Inductive exn := ValueError | ValidationError | OSError.

(** The checks of [PromotionDecision]'s fields. *)
Definition valid_decision (d : PromotionDecision) : bool :=
  (String.length (d_fingerprint d) =? 64)%nat && (0 <=? avg_confidence d) && (avg_confidence d <=? CONFIDENCE_CEILING) &&
  (1 <=? threshold_projects d)%nat && (CONFIDENCE_FLOOR <=? threshold_confidence d) &&
  (threshold_confidence d <=? CONFIDENCE_CEILING).

Definition mk_decision (d : PromotionDecision) : outcome exn PromotionDecision :=
  if valid_decision d then Ok d else Raise ValidationError.

(** * The store *)

(** The directory of instincts: its projects' directories, their files, the text of each. *)
Definition root : Type := list (string * list (string * string)).

Section Store.
Context (dump : InstinctRecord → string) (parse : string → option InstinctRecord).

Definition file_name (run : string) : string := run +:+ ".jsonl".

Definition files_of (r : root) (project : string) : list (string * string) := default [] (dict_lookup project r).

(** [record]: the line is appended to the file of the store's run. *)
Definition record (project run : string) (o : InstinctRecord) (r : root) : outcome exn InstinctRecord * root :=
  if negb (String.eqb (project_id o) project) then (Raise ValueError, r)
  else if negb (String.eqb (run_id o) run) then (Raise ValueError, r)
  else
    let files := files_of r project in
    let text := default "" (dict_lookup (file_name run) files) in
    (Ok o, dict_set project (dict_set (file_name run) (text +:+ dump o +:+ newline) files) r).

(** The lines of a file that are not blank, stripped. *)
Definition lines_of (text : string) : list string :=
  List.filter (fun l => negb (String.eqb l "")) (map strip (split_on (chr 10) text)).

(** [iter_records]: a malformed line raises. *)
Fixpoint parse_all (l : list string) : outcome exn (list InstinctRecord) :=
  match l with
  | [] => Ok []
  | s :: l' => match parse s with
               | Some o => os ← parse_all l'; Ok (o :: os)
               | None => Raise ValidationError
               end
  end.

Definition iter_records (project run : string) (r : root) : outcome exn (list InstinctRecord) :=
  match dict_lookup (file_name run) (files_of r project) with Some text => parse_all (lines_of text) | None => Ok [] end.

(** The records of the [.jsonl] files of a project, by name; malformed lines are skipped. *)
Definition is_jsonl (name : string) : bool := endswith name ".jsonl".

Definition records_of (files : list (string * string)) : list InstinctRecord :=
  omap parse (concat (map (fun f => lines_of f.2) (Json.Json.sort_items (List.filter (fun f => is_jsonl f.1) files)))).

Definition iter_root (r : root) : list InstinctRecord := concat (map (fun d => records_of d.2) (Json.Json.sort_items r)).

(** * Promotion *)
Definition average (l : list Z) : Z := fdiv (foldl fadd 0 l) (of_Z (Z.of_nat (length l))).

Definition distinct (l : list string) : list string := foldr (fun s out => if in_strs s out then out else s :: out) [] l.

Definition matches_of (fp : string) (r : root) : list InstinctRecord :=
  List.filter (fun o => String.eqb (fingerprint (instinct o)) fp) (iter_root r).

Definition check_promotion (fp : string) (r : root) (projects : nat) (least : Z) : outcome exn PromotionDecision :=
  match matches_of fp r with
  | [] => mk_decision {| d_fingerprint := fp; projects_seen := []; observations := 0; avg_confidence := 0;
                         threshold_projects := projects; threshold_confidence := least; eligible_for_promotion := false;
                         reasons := ["no_observations"] |}
  | found =>
      let seen := Dependencies.sort_strs (distinct (map project_id found)) in
      let avg := average (map (fun o => confidence (instinct o)) found) in
      let why := (if (length seen <? projects)%nat then ["threshold_not_met"] else []) ++
                 (if avg <? least then ["confidence_below_floor"] else []) in
      mk_decision {| d_fingerprint := fp; projects_seen := seen; observations := length found; avg_confidence := avg;
                     threshold_projects := projects; threshold_confidence := least;
                     eligible_for_promotion := match why with [] => true | _ => false end; reasons := why |}
  end.

(** [f"{x:.2f}"] of a confidence: the nearest count of hundredths, of two the even one. *)
Definition two_places (x : Z) : string :=
  let n := nearest (x * 100) one in
  str_of_Z (n / 100) +:+ "." +:+ (if n mod 100 <? 10 then "0" else "") +:+ str_of_Z (n mod 100).

Definition promote_to_lesson_payload (fp : string) (d : PromotionDecision) (r : root) : option string :=
  if eligible_for_promotion d then
    match matches_of fp r with
    | [] => None
    | o :: _ =>
        let i := instinct o in
        Some (join newline [
          "Promoted instinct (fingerprint=" +:+ take_text 12 fp +:+ "…):"; "- Pattern: " +:+ pattern i;
          "- Trigger: " +:+ trigger i; "- Rationale: " +:+ because i;
          "- Corroboration: " +:+ str_of_Z (Z.of_nat (observations d)) +:+ " observation(s) across " +:+
            str_of_Z (Z.of_nat (length (projects_seen d))) +:+ " project(s) (avg confidence " +:+
            two_places (avg_confidence d) +:+ ")."])
    end
  else None.

(** * The sweep *)
Definition collect_project_fingerprints (project : string) (r : root) : list string :=
  distinct (map (fun o => fingerprint (instinct o)) (records_of (files_of r project))).

(** Python walks a project's set of fingerprints in any order; here in the order of the
    files.  A decision that raises ends the sweep. *)
Fixpoint sweep_fingerprints (project : string) (r : root) (fps seen : list string) (out : list (string * string * PromotionDecision))
    : outcome exn (list string * list (string * string * PromotionDecision)) :=
  match fps with
  | [] => Ok (seen, out)
  | fp :: fps' =>
      if in_strs fp seen then sweep_fingerprints project r fps' seen out
      else
        d ← check_promotion fp r PROMOTION_THRESHOLD_PROJECTS PROMOTION_MIN_CONFIDENCE;
        sweep_fingerprints project r fps' (seen ++ [fp]) (if eligible_for_promotion d then out ++ [(project, fp, d)] else out)
  end.

Fixpoint sweep (projects : list string) (r : root) (seen : list string) (out : list (string * string * PromotionDecision))
    : outcome exn (list (string * string * PromotionDecision)) :=
  match projects with
  | [] => Ok out
  | p :: ps =>
      s ← sweep_fingerprints p r (collect_project_fingerprints p r) seen out;
      sweep ps r s.1 s.2
  end.

Definition sweep_project_promotions (projects : list string) (r : root) : outcome exn (list (string * string * PromotionDecision)) :=
  sweep projects r [] [].

(** A poll counts the promotions; without projects it does nothing. *)
Definition instinct_promotion_tick (projects : list string) (r : root) : outcome exn nat :=
  match projects with [] => Ok 0%nat | _ => l ← sweep_project_promotions projects r; Ok (length l) end.

Definition promotion_loop_enabled (env : string) : bool := in_strs (lower (strip env)) ["1"; "true"; "yes"; "on"].

(** * What was recorded *)

(** A record is one visible line, and reads as itself. *)
Class CodecLaws := {
  one_line o : has_char (chr 10) (dump o) = false;
  no_blanks o : strip (dump o) = dump o ∧ dump o ≠ "";
  parse_dump o : parse (dump o) = Some o
}.

Fixpoint file_text (os : list InstinctRecord) : string :=
  match os with [] => "" | o :: os' => dump o +:+ newline +:+ file_text os' end.

Lemma file_text_snoc os o : file_text (os ++ [o]) = file_text os +:+ dump o +:+ newline.
Proof.
  induction os as [|o' os IH]; cbn [file_text app].
  - by rewrite app_empty.
  - by rewrite IH, !app_assoc_str.
Qed.

Lemma split_fuel n m c s : (String.length s <= n)%nat → (String.length s <= m)%nat → split_max n c s = split_max m c s.
Proof.
  revert m s. induction n as [|n IH]; intros [|m] s Hn Hm; cbn [split_max]; try done.
  - destruct s; [done|cbn in Hn; lia].
  - destruct s; [done|cbn in Hm; lia].
  - destruct (cut c s) as [[a b]|] eqn:E; [|done]. apply cut_some in E as [-> _]. f_equal.
    rewrite length_app_str in Hn, Hm. cbn in Hn, Hm. apply IH; lia.
Qed.

Lemma lines_file_text `{!CodecLaws} os : lines_of (file_text os) = map dump os.
Proof.
  induction os as [|o os IH]; [done|]. cbn [file_text map]. unfold lines_of, split_on.
  change (newline +:+ file_text os) with (String (chr 10) (file_text os)).
  rewrite length_app_str. cbn [String.length].
  replace (String.length (dump o) + S (String.length (file_text os)))%nat
    with (S (String.length (dump o) + String.length (file_text os)))%nat by lia.
  rewrite split_max_cons by apply one_line. cbn [map List.filter].
  rewrite (split_fuel _ (String.length (file_text os))) by lia.
  destruct (no_blanks o) as [-> Hne]. rewrite (proj2 (String.eqb_neq _ _) Hne). cbn [negb]. f_equal. exact IH.
Qed.

Lemma parse_all_dumped `{!CodecLaws} os : parse_all (map dump os) = Ok os.
Proof. induction os as [|o os IH]; [done|]. cbn. by rewrite parse_dump, IH. Qed.

(** The file of a run holds these records. *)
Definition holds (project run : string) (os : list InstinctRecord) (r : root) : Prop :=
  default "" (dict_lookup (file_name run) (files_of r project)) = file_text os.

Lemma record_holds project run o os r r' :
  holds project run os r → record project run o r = (Ok o, r') → holds project run (os ++ [o]) r'.
Proof.
  unfold record, holds. intros E. repeat case_match; [done..|]. intros [= <-]. unfold files_of at 1.
  rewrite !dict_lookup_set_eq. cbn. rewrite dict_lookup_set_eq. cbn. rewrite E. by rewrite file_text_snoc.
Qed.

(** A run reads its records back in the order they were recorded. *)
Lemma recorded_read_back `{!CodecLaws} project run os r : holds project run os r → iter_records project run r = Ok os.
Proof.
  unfold holds, iter_records. destruct (dict_lookup _ _) as [text|]; cbn.
  - intros ->. by rewrite lines_file_text, parse_all_dumped.
  - destruct os as [|o os]; [done|]. cbn. intros E. symmetry in E. destruct (dump o) eqn:Ed; [|done].
    by destruct (no_blanks o) as [_ []].
Qed.
End Store.

(** * Averages *)

(** A decision whose average comes out above the ceiling is not a decision. *)
Lemma average_above_raises parse fp r projects least :
  CONFIDENCE_CEILING < average (map (fun o => confidence (instinct o)) (matches_of parse fp r)) →
  matches_of parse fp r ≠ [] → check_promotion parse fp r projects least = Raise ValidationError.
Proof.
  intros Ha Hne. unfold check_promotion. destruct (matches_of parse fp r) as [|o os]; [case (Hne eq_refl)|].
  unfold mk_decision, valid_decision. cbn [avg_confidence]. revert Ha. generalize (average (map (fun o => confidence (instinct o)) (o :: os))).
  intros x Ha. rewrite (proj2 (Z.leb_gt _ _) Ha), andb_false_r. reflexivity.
Qed.

(** Seven observations at the ceiling: their average is above it. *)
Lemma seven_at_ceiling : (CONFIDENCE_CEILING <? average (replicate 7 CONFIDENCE_CEILING)) = true.
Proof. vm_compute. reflexivity. Qed.

End Instinct.
